(** * Uni-App: schedule-combination engine and prerequisite-graph validator

    A shallow embedding of

    - [app/models/clase.py]       (DayOfWeek, BloqueHorario, Clase)
    - [app/models/horario.py]     (FranjaStatus, Franja, HorarioCombination)
    - [app/models/materia.py]     (Materia, Pensum)
    - [app/services/schedule_service.py]  (ScheduleService)
    - [app/services/pensum_service.py]    (PensumService)

    Conventions.

    - A Python [str] is a [string], one character per code point below
      128; a Python [int] is a [Z].  The built-ins of [Py] are those of
      Python on ASCII text ([Py.is_ascii]): a property that reads text
      which no pattern has validated states that the text is ASCII.
    - A Python call that may raise returns [option]: [None] stands for a
      raised exception ([ValueError] / pydantic's [ValidationError]), and
      the option monad propagates it as Python propagates an exception.
    - A [dict] whose iteration order is observable is an association list
      in insertion order; [defaultdict]s that are only indexed are [gmap]s
      read with the default value; a [set] is a [gset].
    - [while] loops run on fuel; for each of them a lemma shows that the
      fuel given by the caller is enough for the loop to finish. *)

From Stdlib Require Import ZArith Ascii String.
From Stdlib Require QArith.
From stdpp Require Import gmap strings list fin_maps pretty sorting relations.

Local Open Scope string_scope.
Local Open Scope list_scope.

(* ===================================================================== *)
(** ** Python built-ins used by the code                                  *)
(* ===================================================================== *)

Module Py.

(** [any(f(x) for x in l)] written as a loop with an early [return True]:
    the elements after the first hit are not evaluated, and an exception
    raised by [f] before the first hit propagates. *)
Fixpoint any_m {A} (f : A → option bool) (l : list A) : option bool :=
  match l with
  | [] => Some false
  | x :: r => b ← f x; if b : bool then Some true else any_m f r
  end.

(** [[f(x) for x in l]] where [f] may raise. *)
Fixpoint map_m {A B} (f : A → option B) (l : list A) : option (list B) :=
  match l with
  | [] => Some []
  | x :: r => y ← f x; ys ← map_m f r; Some (y :: ys)
  end.

(** ASCII text: every character is below 128. *)
Definition is_ascii_char (c : ascii) : bool := (nat_of_ascii c <? 128)%nat.

Definition is_ascii (s : string) : bool := forallb is_ascii_char (list_ascii_of_string s).

(** [str.isspace] on ASCII characters: what [str.strip()] removes. *)
Definition is_space (c : ascii) : bool :=
  let n := nat_of_ascii c in
  ((9 <=? n)%nat && (n <=? 13)%nat) || ((28 <=? n)%nat && (n <=? 32)%nat).

(** The whitespace [int()] skips around the digits of an ASCII string
    (C's [isspace]): the characters 28 to 31 are not among it. *)
Definition is_c_space (c : ascii) : bool :=
  let n := nat_of_ascii c in
  ((9 <=? n)%nat && (n <=? 13)%nat) || (n =? 32)%nat.

Definition digit_val (c : ascii) : option Z :=
  let n := nat_of_ascii c in
  if ((48 <=? n)%nat && (n <=? 57)%nat) then Some (Z.of_nat n - 48)%Z else None.

Fixpoint lstrip (cs : list ascii) : list ascii :=
  match cs with
  | c :: r => if is_space c then lstrip r else cs
  | [] => []
  end.

Definition strip (cs : list ascii) : list ascii :=
  reverse (lstrip (reverse (lstrip cs))).

(** Decimal digits, single underscores allowed between two digits. *)
Fixpoint int_digits (acc : Z) (after_digit : bool) (cs : list ascii) : option Z :=
  match cs with
  | [] => if after_digit then Some acc else None
  | c :: r =>
      if Ascii.eqb c "_" then
        (if after_digit then int_digits acc false r else None)
      else
        d ← digit_val c; int_digits (10 * acc + d)%Z true r
  end.

Fixpoint lstrip_c (cs : list ascii) : list ascii :=
  match cs with
  | c :: r => if is_c_space c then lstrip_c r else cs
  | [] => []
  end.

(** [sys.get_int_max_str_digits()]: a string with more digits is refused. *)
Definition int_max_str_digits : nat := 4300.

(** [int(s)] for a [str] argument, base 10: whitespace around, an optional
    sign, digits with single underscores between them, at most
    [int_max_str_digits] digits. *)
Definition int (cs : list ascii) : option Z :=
  let cs := reverse (lstrip_c (reverse (lstrip_c cs))) in
  n ← match cs with
      | "+"%char :: r => int_digits 0 false r
      | "-"%char :: r => Z.opp <$> int_digits 0 false r
      | r => int_digits 0 false r
      end;
  if (int_max_str_digits <? length (filter (λ c, is_Some (digit_val c)) cs))%nat
  then None else Some n.

(** [s.split(sep)] for a one-character separator. *)
Fixpoint split (sep : ascii) (cs : list ascii) : list (list ascii) :=
  match cs with
  | [] => [[]]
  | c :: r =>
      if Ascii.eqb c sep then [] :: split sep r
      else match split sep r with
           | w :: ws => (c :: w) :: ws
           | [] => [[c]]
           end
  end.

(** [list.sort] / [sorted] are stable and compare keys with [<] only
    ([ltb] below).  The keys are computed once, before sorting. *)
Fixpoint insert_by_key {K A} (ltb : K → K → bool) (k : K) (x : A)
    (l : list (K * A)) : list (K * A) :=
  match l with
  | [] => [(k, x)]
  | (k', y) :: r =>
      if ltb k' k then (k', y) :: insert_by_key ltb k x r
      else (k, x) :: (k', y) :: r
  end.

Definition sort_keyed {K A} (ltb : K → K → bool) (l : list (K * A)) : list (K * A) :=
  foldr (λ kx acc, insert_by_key ltb kx.1 kx.2 acc) [] l.

(** [sorted(l, key=key, reverse=reverse)] and [l.sort(key=..., reverse=...)]:
    the key of every element is computed first (and may raise); with
    [reverse=True] the list is sorted as if every comparison were reversed,
    equal keys keeping their original order (CPython reverses, sorts, and
    reverses again). *)
Definition sorted_m {K A} (ltb : K → K → bool) (key : A → option K)
    (reverse : bool) (l : list A) : option (list A) :=
  keys ← map_m key l;
  let decorated := zip keys l in
  Some (if reverse then List.rev ((sort_keyed ltb (List.rev decorated)).*2)
        else (sort_keyed ltb decorated).*2).

(** The format specification [:02d]. *)
Definition fmt_02d (n : Z) : string :=
  if (n <? 0)%Z then pretty n
  else if (n <? 10)%Z then "0" +:+ pretty n
  else pretty n.

(** [sep.join(l)] *)
Fixpoint join (sep : string) (l : list string) : string :=
  match l with
  | [] => ""
  | [x] => x
  | x :: r => x +:+ sep +:+ join sep r
  end.

(** [s.upper()] on ASCII text. *)
Definition upper_char (c : ascii) : ascii :=
  let n := nat_of_ascii c in
  if ((97 <=? n)%nat && (n <=? 122)%nat) then ascii_of_nat (n - 32) else c.

Fixpoint upper (s : string) : string :=
  match s with
  | EmptyString => EmptyString
  | String c r => String (upper_char c) (upper r)
  end.

(** A [for] loop whose body updates the local state and may raise. *)
Fixpoint for_m {A S} (body : S → A → option S) (l : list A) (s : S) : option S :=
  match l with
  | [] => Some s
  | x :: r => s' ← body s x; for_m body r s'
  end.

(** [s.strip()] on ASCII text. *)
Definition strip_str (s : string) : string :=
  string_of_list_ascii (strip (list_ascii_of_string s)).

(** [d[k] = v] on a dict kept as the list of its items: the value of an
    existing key is replaced in place, a new key goes last. *)
Fixpoint dict_set {V} (k : string) (v : V) (d : list (string * V)) : list (string * V) :=
  match d with
  | [] => [(k, v)]
  | (k', v') :: r =>
      if decide (k' = k) then (k', v) :: r else (k', v') :: dict_set k v r
  end.

(** [d.get(k)] *)
Definition dict_get {V} (k : string) (d : list (string * V)) : option V :=
  snd <$> List.find (λ kv, bool_decide (kv.1 = k)) d.

End Py.

(* ===================================================================== *)
(** ** app/models/clase.py                                                *)
(* ===================================================================== *)

Inductive DayOfWeek :=
  | MONDAY | TUESDAY | WEDNESDAY | THURSDAY | FRIDAY | SATURDAY | SUNDAY.

Global Instance DayOfWeek_eq_dec : EqDecision DayOfWeek.
Proof. solve_decision. Defined.

Definition DayOfWeek_value (d : DayOfWeek) : string :=
  match d with
  | MONDAY => "L" | TUESDAY => "M" | WEDNESDAY => "W" | THURSDAY => "J"
  | FRIDAY => "V" | SATURDAY => "S" | SUNDAY => "D"
  end.

(** [DayOfWeek(value)]: the member with that value, [ValueError] when
    there is none. *)
Definition DayOfWeek_of_value (value : string) : option DayOfWeek :=
  List.find (λ d, bool_decide (DayOfWeek_value d = value))
            [MONDAY; TUESDAY; WEDNESDAY; THURSDAY; FRIDAY; SATURDAY; SUNDAY].

Module BloqueHorario.

(** The fields hold the validated [HH:MM] strings. *)
Record t := mk { day : DayOfWeek; start : string; end_ : string }.

(** def _time_to_minutes(time_str):
        hours, minutes = map(int, time_str.split(':'))
        return hours * 60 + minutes *)
Definition _time_to_minutes (time_str : string) : option Z :=
  match Py.split ":" (list_ascii_of_string time_str) with
  | [h; m] => hours ← Py.int h; minutes ← Py.int m; Some (hours * 60 + minutes)%Z
  | _ => None
  end.

Definition get_start_minutes (self : t) : option Z := _time_to_minutes (start self).
Definition get_end_minutes (self : t) : option Z := _time_to_minutes (end_ self).

Definition in_range (lo hi c : ascii) : bool :=
  (nat_of_ascii lo <=? nat_of_ascii c)%nat && (nat_of_ascii c <=? nat_of_ascii hi)%nat.

(** The [pattern] of the fields [start] and [end]:
    ^([01]?[0-9]|2[0-3]):[0-5][0-9]$ *)
Definition matches_pattern (time_str : string) : bool :=
  match list_ascii_of_string time_str with
  | [h; c; m1; m2] =>
      in_range "0" "9" h && Ascii.eqb c ":" && in_range "0" "5" m1 && in_range "0" "9" m2
  | [h1; h2; c; m1; m2] =>
      ((in_range "0" "1" h1 && in_range "0" "9" h2)
       || (Ascii.eqb h1 "2" && in_range "0" "3" h2))
      && Ascii.eqb c ":" && in_range "0" "5" m1 && in_range "0" "9" m2
  | _ => false
  end.

(** The constructor: field validation (the pattern), then the
    [validate_time_order] model validator, which rejects an end that is
    not after the start. *)
Definition new (d : DayOfWeek) (s e : string) : option t :=
  if matches_pattern s && matches_pattern e then
    start_minutes ← _time_to_minutes s;
    end_minutes ← _time_to_minutes e;
    if (end_minutes <=? start_minutes)%Z then None
    else Some (mk d s e)
  else None.

Definition overlaps_with (self other : t) : option bool :=
  if negb (bool_decide (day self = day other)) then Some false
  else
    self_start ← get_start_minutes self;
    self_end ← get_end_minutes self;
    other_start ← get_start_minutes other;
    other_end ← get_end_minutes other;
    Some (negb ((self_end <=? other_start)%Z || (other_end <=? self_start)%Z)).

(** The dict of [to_dict], which is also what [from_dict] reads: the keys
    ['day'], ['start'] and ['end'], each with a [str]. *)
Record dict := mk_dict { d_day : string; d_start : string; d_end : string }.

Definition to_dict (self : t) : dict :=
  mk_dict (DayOfWeek_value (day self)) (start self) (end_ self).

(** def from_dict(cls, data): day = DayOfWeek(data['day']);
    return cls(day=day, start=data['start'], end=data['end']) *)
Definition from_dict (data : dict) : option t :=
  day ← DayOfWeek_of_value (d_day data);
  new day (d_start data) (d_end data).

End BloqueHorario.

Module Clase.

Record t := mk {
  materia_code : string;
  class_code : string;
  schedule : list BloqueHorario.t;
  professor : option string;
  location : option string
}.

Definition conflicts_with (self other : t) : option bool :=
  Py.any_m (λ block,
    Py.any_m (λ other_block, BloqueHorario.overlaps_with block other_block)
             (schedule other))
    (schedule self).

Definition conflicts_with_blocks (self : t) (blocks : list BloqueHorario.t) : option bool :=
  Py.any_m (λ block,
    Py.any_m (λ blocked, BloqueHorario.overlaps_with block blocked) blocks)
    (schedule self).

End Clase.

(* ===================================================================== *)
(** ** app/models/horario.py                                              *)
(* ===================================================================== *)

Inductive FranjaStatus := BLOCKED | PREFERRED.

Global Instance FranjaStatus_eq_dec : EqDecision FranjaStatus.
Proof. solve_decision. Defined.

Definition FranjaStatus_value (s : FranjaStatus) : string :=
  match s with BLOCKED => "blocked" | PREFERRED => "preferred" end.

(** [FranjaStatus(value)] *)
Definition FranjaStatus_of_value (value : string) : option FranjaStatus :=
  List.find (λ s, bool_decide (FranjaStatus_value s = value)) [BLOCKED; PREFERRED].

Module Franja.

(** [start] and [end] carry the same pattern as in [BloqueHorario], but
    this model has no validator on their order. *)
Record t := mk {
  day : DayOfWeek;
  start : string;
  end_ : string;
  status : FranjaStatus
}.

(** def to_bloque(self): return BloqueHorario(day=..., start=..., end=...)
    The constructor validates, so this raises when [end] is not after
    [start]. *)
Definition to_bloque (self : t) : option BloqueHorario.t :=
  BloqueHorario.new (day self) (start self) (end_ self).

(** The constructor: only the pattern of the two time fields is checked. *)
Definition new (d : DayOfWeek) (s e : string) (st : FranjaStatus) : option t :=
  if BloqueHorario.matches_pattern s && BloqueHorario.matches_pattern e
  then Some (mk d s e st) else None.

(** The dict of [to_dict], which is also what [from_dict] reads. *)
Record dict := mk_dict {
  d_day : string; d_start : string; d_end : string; d_status : string
}.

Definition to_dict (self : t) : dict :=
  mk_dict (DayOfWeek_value (day self)) (start self) (end_ self)
          (FranjaStatus_value (status self)).

(** def from_dict(cls, data):
        return cls(day=DayOfWeek(data['day']), start=data['start'],
                   end=data['end'], status=FranjaStatus(data['status'])) *)
Definition from_dict (data : dict) : option t :=
  day ← DayOfWeek_of_value (d_day data);
  status ← FranjaStatus_of_value (d_status data);
  new day (d_start data) (d_end data) status.

End Franja.

Module HorarioCombination.

Record t := mk {
  id : string;
  clases : list Clase.t;
  total_credits : Z;
  free_days : Z;
  gaps_count : Z;
  gaps_minutes : Z;
  preferred_slots_used : Z;
  earliest_start : string;
  latest_end : string
}.

(** The constructor call of [generate_combinations]: the metric fields take
    their declared defaults. *)
Definition new (id : string) (clases : list Clase.t) (total_credits : Z) : t :=
  mk id clases total_credits 0 0 0 0 "23:59" "00:00".

(** [days_used]: a dict from day letter to the blocks of that day, in
    order of first insertion. *)
Fixpoint days_used_append (day_val : string) (block : BloqueHorario.t)
    (days_used : list (string * list BloqueHorario.t))
  : list (string * list BloqueHorario.t) :=
  match days_used with
  | [] => [(day_val, [block])]
  | (d, blocks) :: r =>
      if decide (d = day_val) then (d, blocks ++ [block]) :: r
      else (d, blocks) :: days_used_append day_val block r
  end.

Definition collect_days (clases : list Clase.t) : list (string * list BloqueHorario.t) :=
  fold_left (λ days_used clase,
    fold_left (λ days_used block,
      days_used_append (DayOfWeek_value (BloqueHorario.day block)) block days_used)
      (Clase.schedule clase) days_used)
    clases [].

Definition weekdays : list string := ["L"; "M"; "W"; "J"; "V"; "S"].

(** for i in range(len(sorted_blocks) - 1): ... ; the accumulator is
    (total_gaps, total_gap_minutes). *)
Fixpoint gaps_loop (sorted_blocks : list BloqueHorario.t) (acc : Z * Z) : option (Z * Z) :=
  match sorted_blocks with
  | current :: ((next :: _) as rest) =>
      current_end ← BloqueHorario.get_end_minutes current;
      next_start ← BloqueHorario.get_start_minutes next;
      let gap := (next_start - current_end)%Z in
      gaps_loop rest (if (0 <? gap)%Z then (acc.1 + 1, acc.2 + gap)%Z else acc)
  | _ => Some acc
  end.

(** One iteration of [for day, blocks in days_used.items()]; the state is
    (total_gaps, total_gap_minutes, earliest, latest). *)
Definition day_step (st : Z * Z * Z * Z) (blocks : list BloqueHorario.t)
  : option (Z * Z * Z * Z) :=
  let '(total_gaps, total_gap_minutes, earliest, latest) := st in
  sorted_blocks ← Py.sorted_m Z.ltb BloqueHorario.get_start_minutes false blocks;
  '(earliest, latest) ←
     match sorted_blocks with
     | [] => Some (earliest, latest)
     | first :: _ =>
         s ← BloqueHorario.get_start_minutes first;
         e ← BloqueHorario.get_end_minutes (List.last sorted_blocks first);
         Some (Z.min earliest s, Z.max latest e)
     end;
  '(total_gaps, total_gap_minutes) ← gaps_loop sorted_blocks (total_gaps, total_gap_minutes);
  Some (total_gaps, total_gap_minutes, earliest, latest).

Fixpoint days_loop (days_used : list (string * list BloqueHorario.t))
    (st : Z * Z * Z * Z) : option (Z * Z * Z * Z) :=
  match days_used with
  | [] => Some st
  | (_, blocks) :: r => st' ← day_step st blocks; days_loop r st'
  end.

(** The test of the innermost loop of the preferred-slot count; [and]
    evaluates its operands left to right and stops at the first false. *)
Definition within_preferred (block : BloqueHorario.t) (pref : Franja.t) : option bool :=
  pref_block ← Franja.to_bloque pref;
  if negb (bool_decide (BloqueHorario.day block = BloqueHorario.day pref_block))
  then Some false
  else
    bs ← BloqueHorario.get_start_minutes block;
    ps ← BloqueHorario.get_start_minutes pref_block;
    if negb (ps <=? bs)%Z then Some false
    else
      be ← BloqueHorario.get_end_minutes block;
      pe ← BloqueHorario.get_end_minutes pref_block;
      Some (be <=? pe)%Z.

(** for block in clase.schedule: for pref in preferred_franjas: ...
    count += 1; break *)
Fixpoint count_blocks (preferred_franjas : list Franja.t)
    (blocks : list BloqueHorario.t) (preferred_count : Z) : option Z :=
  match blocks with
  | [] => Some preferred_count
  | block :: r =>
      hit ← Py.any_m (within_preferred block) preferred_franjas;
      count_blocks preferred_franjas r
        (if hit : bool then preferred_count + 1 else preferred_count)%Z
  end.

Fixpoint count_clases (preferred_franjas : list Franja.t)
    (clases : list Clase.t) (preferred_count : Z) : option Z :=
  match clases with
  | [] => Some preferred_count
  | clase :: r =>
      n ← count_blocks preferred_franjas (Clase.schedule clase) preferred_count;
      count_clases preferred_franjas r n
  end.

(** def calculate_metrics(self, franjas=None) -> None
    The method updates [self] in place; the model returns the updated
    object.  [franjas=None] and [franjas=[]] take the same branches and
    are both the empty list here. *)
Definition calculate_metrics (self : t) (franjas : list Franja.t) : option t :=
  match clases self with
  | [] => Some self
  | _ =>
    let days_used := collect_days (clases self) in
    let free_days :=
      Z.of_nat (length (filter (λ d, d ∉ days_used.*1) weekdays)) in
    '(total_gaps, total_gap_minutes, earliest, latest) ←
       days_loop days_used (0, 0, 24 * 60, 0)%Z;
    let earliest_start :=
      Py.fmt_02d (earliest `div` 60) +:+ ":" +:+ Py.fmt_02d (earliest `mod` 60) in
    let latest_end :=
      Py.fmt_02d (latest `div` 60) +:+ ":" +:+ Py.fmt_02d (latest `mod` 60) in
    match franjas with
    | [] =>
      Some (mk (id self) (clases self) (total_credits self)
               free_days total_gaps total_gap_minutes
               (preferred_slots_used self) earliest_start latest_end)
    | _ =>
      let preferred_franjas :=
        filter (λ f, Franja.status f = PREFERRED) franjas in
      preferred_count ← count_clases preferred_franjas (clases self) 0%Z;
      Some (mk (id self) (clases self) (total_credits self)
               free_days total_gaps total_gap_minutes
               preferred_count earliest_start latest_end)
    end
  end.

End HorarioCombination.

(* ===================================================================== *)
(** ** JSON data as Python holds it                                       *)
(* ===================================================================== *)

Module Json.

(** What [request.get_json()] returns: [None], a [bool], a number, a
    [str], a [list] or a [dict] (the list of its items, keys distinct). *)
Unset Elimination Schemes.
Inductive value :=
  | Null
  | Bool (b : bool)
  | Num (q : QArith_base.Q)
  | Str (s : string)
  | List (l : list value)
  | Dict (d : list (string * value)).
Set Elimination Schemes.

(** The truth value of an object. *)
Definition truthy (v : value) : bool :=
  match v with
  | Null => false
  | Bool b => b
  | Num q => negb (QArith_base.Qeq_bool q (QArith_base.Qmake 0 1))
  | Str s => negb (bool_decide (s = ""))
  | List l => negb (bool_decide (l = []))
  | Dict d => negb (bool_decide (d = []))
  end.

(** [d.get(key)] *)
Definition get (key : string) (d : list (string * value)) : value :=
  default Null (Py.dict_get key d).

(** The elements a [for] loop over the object visits; [None] is the
    [TypeError] raised for an object that is not iterable. *)
Definition iter (v : value) : option (list value) :=
  match v with
  | List l => Some l
  | Dict d => Some (Str <$> d.*1)
  | Str s => Some ((λ c, Str (String c EmptyString)) <$> list_ascii_of_string s)
  | Null | Bool _ | Num _ => None
  end.

End Json.

(* ===================================================================== *)
(** ** app/services/schedule_service.py                                   *)
(* ===================================================================== *)

Module ScheduleService.

Definition COMBINATION_WARNING_THRESHOLD : Z := 1000.

(** [itertools.product] applied to the unpacked pools: the rightmost pool advances fastest; no
    pool at all gives the single empty tuple, an empty pool gives nothing. *)
Fixpoint product {A} (pools : list (list A)) : list (list A) :=
  match pools with
  | [] => [[]]
  | pool :: rest => flat_map (λ x, (x ::.) <$> product rest) pool
  end.

(** for i, clase1 in enumerate(combo_list):
        for clase2 in combo_list[i + 1:]:
            if clase1.conflicts_with(clase2): ... break *)
Fixpoint has_internal_conflict (combo_list : list Clase.t) : option bool :=
  match combo_list with
  | [] => Some false
  | clase1 :: rest =>
      hit ← Py.any_m (λ clase2, Clase.conflicts_with clase1 clase2) rest;
      if hit : bool then Some true else has_internal_conflict rest
  end.

Definition has_blocked_conflict (combo_list : list Clase.t)
    (blocked_slots : list BloqueHorario.t) : option bool :=
  Py.any_m (λ clase, Clase.conflicts_with_blocks clase blocked_slots) combo_list.

(** The truth value of [max_combinations and len(valid) >= max_combinations]. *)
Definition limit_hit (max_combinations : option Z) (n_valid : nat) : bool :=
  match max_combinations with
  | None => false
  | Some m => negb (m =? 0)%Z && (m <=? Z.of_nat n_valid)%Z
  end.

Record result := mk_result {
  combinations : list HorarioCombination.t;
  total_generated : Z;
  total_possible : Z;
  total_checked : Z;
  warning : option string
}.

Section Generate.

(** [uuid4 n] is [str(uuid.uuid4())] for the [n]-th identifier drawn during
    the call: the only source of randomness in the function. *)
Variable uuid4 : nat → string.

(** The body of [for combo in product(...)], with [break] as an
    early return and [continue] as the recursive call.  [total_credits]
    sums [materia_code] over the classes whose [materia_code] is an [int];
    the field is a [str], so the sum is over nothing. *)
Fixpoint loop (franjas : list Franja.t) (blocked_slots : list BloqueHorario.t)
    (max_combinations : option Z) (combos : list (list Clase.t))
    (valid_combinations : list HorarioCombination.t) (checked : Z)
  : option (list HorarioCombination.t * Z) :=
  match combos with
  | [] => Some (valid_combinations, checked)
  | combo_list :: rest =>
      let checked := (checked + 1)%Z in
      if limit_hit max_combinations (length valid_combinations)
      then Some (valid_combinations, checked)
      else
        has_internal ← has_internal_conflict combo_list;
        if has_internal : bool
        then loop franjas blocked_slots max_combinations rest valid_combinations checked
        else
          has_blocked ← has_blocked_conflict combo_list blocked_slots;
          if has_blocked : bool
          then loop franjas blocked_slots max_combinations rest valid_combinations checked
          else
            combination ←
              HorarioCombination.calculate_metrics
                (HorarioCombination.new
                   (String.substring 0 8 (uuid4 (length valid_combinations)))
                   combo_list 0%Z)
                franjas;
            loop franjas blocked_slots max_combinations rest
                 (valid_combinations ++ [combination]) checked
  end.

(** def generate_combinations(clases_by_materia, franjas=None, max_combinations=None)
    [clases_by_materia] is the dict as the list of its items in iteration
    order (keys are distinct, so indexing it by each key in turn gives the
    list of its values). *)
Definition generate_combinations
    (clases_by_materia : list (string * list Clase.t))
    (franjas : list Franja.t) (max_combinations : option Z) : option result :=
  blocked_slots ←
    Py.map_m Franja.to_bloque (filter (λ f, Franja.status f = BLOCKED) franjas);
  let courses := clases_by_materia.*1 in
  let class_options := clases_by_materia.*2 in
  let total_possible :=
    fold_left (λ total options,
      total * (match options with [] => 1 | _ => Z.of_nat (length options) end))%Z
      class_options 1%Z in
  let warning :=
    if (COMBINATION_WARNING_THRESHOLD <? total_possible)%Z
    then Some ("Large number of possible combinations (" +:+ pretty total_possible
               +:+ "). Generation may take a while.")
    else None in
  '(valid_combinations, checked) ←
     loop franjas blocked_slots max_combinations (product class_options) [] 0%Z;
  Some (mk_result valid_combinations (Z.of_nat (length valid_combinations))
                  total_possible checked warning).

End Generate.

(** The options dict of [filter_combinations].  For the five filter keys
    a missing key and a [None] value are treated alike by the code and
    are both [None] here.  [sort_by] and [sort_order] are read with
    [filters.get(key, default)]: [None] is a missing key, [Some None] a
    key whose value is [None]. *)
Record filters := mk_filters {
  min_free_days : option Z;
  max_gaps : option Z;
  max_gap_minutes : option Z;
  earliest_start : option string;
  latest_end : option string;
  sort_by : option (option string);
  sort_order : option (option string)
}.

(** [[c for c in l if p(c)]] where [p] may raise. *)
Fixpoint filter_m {A} (p : A → option bool) (l : list A) : option (list A) :=
  match l with
  | [] => Some []
  | x :: r => b ← p x; ys ← filter_m p r; Some (if b : bool then x :: ys else ys)
  end.

(** [sort_key_map]: each entry is a lambda.  The two gaps entries mention
    the local variable [reverse]; a Python closure reads a variable when it
    is called, so they take the value [reverse] has at the time of the
    sort as an argument. *)
Definition sort_key_map (sort_by : string)
  : option (bool → HorarioCombination.t → option Z) :=
  if decide (sort_by = "free_days") then
    Some (λ _ c, Some (HorarioCombination.free_days c))
  else if decide (sort_by = "gaps_count") then
    Some (λ reverse c, Some (if reverse : bool
                             then - HorarioCombination.gaps_count c
                             else HorarioCombination.gaps_count c)%Z)
  else if decide (sort_by = "gaps_minutes") then
    Some (λ reverse c, Some (if reverse : bool
                             then - HorarioCombination.gaps_minutes c
                             else HorarioCombination.gaps_minutes c)%Z)
  else if decide (sort_by = "preferred_slots") then
    Some (λ _ c, Some (HorarioCombination.preferred_slots_used c))
  else if decide (sort_by = "earliest_start") then
    Some (λ _ c, BloqueHorario._time_to_minutes (HorarioCombination.earliest_start c))
  else if decide (sort_by = "latest_end") then
    Some (λ _ c, BloqueHorario._time_to_minutes (HorarioCombination.latest_end c))
  else None.

(** The three numeric filters of [filter_combinations], applied in turn. *)
Definition apply_numeric_filters (combinations : list HorarioCombination.t)
    (f : filters) : list HorarioCombination.t :=
  let filtered := combinations in
  let filtered :=
    match min_free_days f with
    | Some v => filter (λ c, v ≤ HorarioCombination.free_days c)%Z filtered
    | None => filtered
    end in
  let filtered :=
    match max_gaps f with
    | Some v => filter (λ c, HorarioCombination.gaps_count c ≤ v)%Z filtered
    | None => filtered
    end in
  match max_gap_minutes f with
  | Some v => filter (λ c, HorarioCombination.gaps_minutes c ≤ v)%Z filtered
  | None => filtered
  end.

(** if 'earliest_start' in filters and filters['earliest_start']: ...
    (an empty string is falsy) *)
Definition apply_earliest_start (filtered : list HorarioCombination.t)
    (f : filters) : option (list HorarioCombination.t) :=
  match earliest_start f with
  | None | Some "" => Some filtered
  | Some bound =>
      min_start ← BloqueHorario._time_to_minutes bound;
      filter_m (λ c,
        m ← BloqueHorario._time_to_minutes (HorarioCombination.earliest_start c);
        Some (min_start <=? m)%Z) filtered
  end.

(** if 'latest_end' in filters and filters['latest_end']: ... *)
Definition apply_latest_end (filtered : list HorarioCombination.t)
    (f : filters) : option (list HorarioCombination.t) :=
  match latest_end f with
  | None | Some "" => Some filtered
  | Some bound =>
      max_end ← BloqueHorario._time_to_minutes bound;
      filter_m (λ c,
        m ← BloqueHorario._time_to_minutes (HorarioCombination.latest_end c);
        Some (m <=? max_end)%Z) filtered
  end.

(** The five filtering steps of [filter_combinations]. *)
Definition apply_filters (combinations : list HorarioCombination.t) (f : filters)
  : option (list HorarioCombination.t) :=
  let filtered := apply_numeric_filters combinations f in
  filtered ← apply_earliest_start filtered f;
  apply_latest_end filtered f.

(** def filter_combinations(combinations, filters) *)
Definition filter_combinations (combinations : list HorarioCombination.t)
    (f : filters) : option (list HorarioCombination.t) :=
  filtered ← apply_filters combinations f;
  let sort_by := default (Some "free_days") (sort_by f) in
  let sort_order := default (Some "desc") (sort_order f) in
  let reverse := bool_decide (sort_order = Some "desc") in
  match sort_by ≫= sort_key_map with
  | Some key =>
      let reverse :=
        if bool_decide (sort_by = Some "gaps_count")
           || bool_decide (sort_by = Some "gaps_minutes")
        then bool_decide (sort_order = Some "asc")
        else reverse in
      Py.sorted_m Z.ltb (key reverse) reverse filtered
  | None => Some filtered
  end.

(** *** check_conflicts *)

Record conflict_side := mk_side {
  s_materia : string; s_section : string; s_day : string; s_time : string
}.

Record conflict := mk_conflict { class1 : conflict_side; class2 : conflict_side }.

Definition side (clase : Clase.t) (b : BloqueHorario.t) : conflict_side :=
  mk_side (Clase.materia_code clase) (Clase.class_code clase)
          (DayOfWeek_value (BloqueHorario.day b))
          (BloqueHorario.start b +:+ "-" +:+ BloqueHorario.end_ b).

(** for b1 in clase1.schedule: for b2 in clase2.schedule:
        if b1.overlaps_with(b2): conflicts.append({...}) *)
Definition overlapping_blocks (clase1 clase2 : Clase.t) (conflicts : list conflict)
  : option (list conflict) :=
  Py.for_m (λ conflicts b1,
    Py.for_m (λ conflicts b2,
      hit ← BloqueHorario.overlaps_with b1 b2;
      Some (if hit : bool
            then conflicts ++ [mk_conflict (side clase1 b1) (side clase2 b2)]
            else conflicts))
      (Clase.schedule clase2) conflicts)
    (Clase.schedule clase1) conflicts.

(** for i, clase1 in enumerate(clases): for clase2 in clases[i + 1:]: ... *)
Fixpoint check_conflicts_loop (clases : list Clase.t) (conflicts : list conflict)
  : option (list conflict) :=
  match clases with
  | [] => Some conflicts
  | clase1 :: rest =>
      conflicts ←
        Py.for_m (λ conflicts clase2,
          hit ← Clase.conflicts_with clase1 clase2;
          if hit : bool then overlapping_blocks clase1 clase2 conflicts
          else Some conflicts)
          rest conflicts;
      check_conflicts_loop rest conflicts
  end.

(** def check_conflicts(clases) -> list[dict] *)
Definition check_conflicts (clases : list Clase.t) : option (list conflict) :=
  check_conflicts_loop clases [].

(** *** check_franja_conflicts *)

Record franja_conflict := mk_franja_conflict {
  fc_materia : string; fc_section : string;   (* 'class' *)
  fc_day : string; fc_time : string           (* 'blocked_slot' *)
}.

(** def check_franja_conflicts(clase, franjas) -> list[dict] *)
Definition check_franja_conflicts (clase : Clase.t) (franjas : list Franja.t)
  : option (list franja_conflict) :=
  let blocked_franjas := filter (λ f, Franja.status f = BLOCKED) franjas in
  Py.for_m (λ conflicts block,
    Py.for_m (λ conflicts franja,
      franja_block ← Franja.to_bloque franja;
      hit ← BloqueHorario.overlaps_with block franja_block;
      Some (if hit : bool
            then conflicts ++
                 [mk_franja_conflict
                    (Clase.materia_code clase) (Clase.class_code clase)
                    (DayOfWeek_value (Franja.day franja))
                    (Franja.start franja +:+ "-" +:+ Franja.end_ franja)]
            else conflicts))
      blocked_franjas conflicts)
    (Clase.schedule clase) [].

(** *** get_optimization_presets *)

Record preset := mk_preset {
  p_id : string; p_name : string; p_description : string; p_filters : filters
}.

(** A filters dict that holds only the given keys. *)
Definition preset_filters (sort_by sort_order : string)
    (earliest_start latest_end : option string) : filters :=
  mk_filters None None None earliest_start latest_end
             (Some (Some sort_by)) (Some (Some sort_order)).

Definition get_optimization_presets : list preset :=
  [ mk_preset "max_free_days" "Más días libres"
      "Prioriza horarios con más días sin clases"
      (preset_filters "free_days" "desc" None None);
    mk_preset "min_gaps" "Menos huecos"
      "Prioriza horarios con menos tiempo muerto entre clases"
      (preset_filters "gaps_count" "asc" None None);
    mk_preset "early_bird" "Madrugador"
      "Prioriza horarios que empiecen temprano"
      (preset_filters "earliest_start" "asc" None (Some "14:00"));
    mk_preset "night_owl" "Tarde"
      "Prioriza horarios que empiecen tarde"
      (preset_filters "earliest_start" "desc" (Some "10:00") None);
    mk_preset "compact" "Compacto"
      "Minimiza la duración total del día"
      (preset_filters "gaps_minutes" "asc" None None);
    mk_preset "preferred_times" "Horarios preferidos"
      "Prioriza horarios en tus franjas preferidas"
      (preset_filters "preferred_slots" "desc" None None) ].

(** *** get_schedule_grid *)

Record cell := mk_cell {
  c_materia_code : string;
  c_class_code : string;
  c_professor : option string;
  c_location : option string;
  c_is_start : bool;
  c_start : string;
  c_end : string
}.

Record grid_metrics := mk_grid_metrics {
  m_free_days : Z; m_gaps_count : Z; m_gaps_minutes : Z;
  m_earliest_start : string; m_latest_end : string
}.

Record schedule_grid := mk_schedule_grid {
  days : list string;
  day_names : list (string * string);
  time_slots : list string;
  grid : list (string * list (string * option cell));
  metrics : grid_metrics
}.

Definition days_order : list string := ["L"; "M"; "W"; "J"; "V"; "S"].

Definition grid_day_names : list (string * string) :=
  [("L", "Lunes"); ("M", "Martes"); ("W", "Miércoles"); ("J", "Jueves");
   ("V", "Viernes"); ("S", "Sábado")].

(** for hour in range(6, 22): append f"{hour:02d}:00" and f"{hour:02d}:30" *)
Definition grid_time_slots : list string :=
  flat_map (λ hour, [Py.fmt_02d hour +:+ ":00"; Py.fmt_02d hour +:+ ":30"])
           (seqZ 6 16).

(** [grid[day][time] = v] for a [day] that is a key of [grid] (the loop
    skips the other days before it gets here). *)
Fixpoint grid_set {V} (day time : string) (v : V)
    (grid : list (string * list (string * V))) : list (string * list (string * V)) :=
  match grid with
  | [] => []
  | (d, row) :: r =>
      if decide (d = day) then (d, Py.dict_set time v row) :: r
      else (d, row) :: grid_set day time v r
  end.

(** The body of [for block in clase.schedule]. *)
Definition grid_block (time_slots : list string) (clase : Clase.t)
    (grid : list (string * list (string * option cell))) (block : BloqueHorario.t)
  : option (list (string * list (string * option cell))) :=
  let day := DayOfWeek_value (BloqueHorario.day block) in
  if decide (day ∉ grid.*1) then Some grid
  else
    start_minutes ← BloqueHorario.get_start_minutes block;
    end_minutes ← BloqueHorario.get_end_minutes block;
    Py.for_m (λ grid time,
      time_minutes ← BloqueHorario._time_to_minutes time;
      if (start_minutes <=? time_minutes)%Z && (time_minutes <? end_minutes)%Z
      then Some (grid_set day time
                   (Some (mk_cell (Clase.materia_code clase) (Clase.class_code clase)
                                  (Clase.professor clase) (Clase.location clase)
                                  (time_minutes =? start_minutes)%Z
                                  (BloqueHorario.start block) (BloqueHorario.end_ block)))
                   grid)
      else Some grid)
      time_slots grid.

(** def get_schedule_grid(combination) -> dict *)
Definition get_schedule_grid (combination : HorarioCombination.t) : option schedule_grid :=
  let time_slots := grid_time_slots in
  let grid := (λ day, (day, (λ time, (time, None)) <$> time_slots)) <$> days_order in
  grid ←
    Py.for_m (λ grid clase, Py.for_m (grid_block time_slots clase) (Clase.schedule clase) grid)
             (HorarioCombination.clases combination) grid;
  Some (mk_schedule_grid days_order grid_day_names time_slots grid
          (mk_grid_metrics
             (HorarioCombination.free_days combination)
             (HorarioCombination.gaps_count combination)
             (HorarioCombination.gaps_minutes combination)
             (HorarioCombination.earliest_start combination)
             (HorarioCombination.latest_end combination))).

(** *** validate_class_data *)

Record validation := mk_validation { valid : bool; errors : list string }.

(** The body of [for i, block in enumerate(schedule)]; [None] is the
    [AttributeError] of [block.get] on an object that is not a dict.  The
    bare [except] turns every failure of the two conversions into the
    'Invalid time format' entry. *)
Definition validate_block (errors : list string) (ib : nat * Json.value)
  : option (list string) :=
  let '(i, block) := ib in
  match block with
  | Json.Dict block =>
      let label := "Block " +:+ pretty (i + 1)%nat in
      let errors :=
        if negb (Json.truthy (Json.get "day" block))
        then errors ++ [label +:+ ": Day is required"] else errors in
      let errors :=
        if negb (Json.truthy (Json.get "start" block))
        then errors ++ [label +:+ ": Start time is required"] else errors in
      let errors :=
        if negb (Json.truthy (Json.get "end" block))
        then errors ++ [label +:+ ": End time is required"] else errors in
      Some
        (if Json.truthy (Json.get "start" block) && Json.truthy (Json.get "end" block)
         then
           match Json.get "start" block, Json.get "end" block with
           | Json.Str s, Json.Str e =>
               match BloqueHorario._time_to_minutes s, BloqueHorario._time_to_minutes e with
               | Some start, Some end_ =>
                   if (end_ <=? start)%Z
                   then errors ++ [label +:+ ": End time must be after start time"]
                   else errors
               | _, _ => errors ++ [label +:+ ": Invalid time format"]
               end
           | _, _ => errors ++ [label +:+ ": Invalid time format"]
           end
         else errors)
  | _ => None
  end.

(** def validate_class_data(clase_data) -> dict
    [None] is an exception that leaves the function: [clase_data] is not a
    dict, ['schedule'] cannot be iterated, or a block is not a dict. *)
Definition validate_class_data (clase_data : Json.value) : option validation :=
  match clase_data with
  | Json.Dict clase_data =>
      let errors := [] in
      let errors :=
        if negb (Json.truthy (Json.get "materia_code" clase_data))
        then errors ++ ["Course code is required"] else errors in
      let errors :=
        if negb (Json.truthy (Json.get "class_code" clase_data))
        then errors ++ ["Class/Section code is required"] else errors in
      let schedule := default (Json.List []) (Py.dict_get "schedule" clase_data) in
      let errors :=
        if negb (Json.truthy schedule)
        then errors ++ ["At least one time block is required"] else errors in
      blocks ← Json.iter schedule;
      errors ← Py.for_m validate_block (imap (λ i block, (i, block)) blocks) errors;
      Some (mk_validation (bool_decide (length errors = 0%nat)) errors)
  | _ => None
  end.

End ScheduleService.

(* ===================================================================== *)
(** ** app/models/materia.py                                              *)
(* ===================================================================== *)

Inductive MateriaStatus := PENDING | ENROLLED | PASSED | FAILED | DROPPED | MBLOCKED.

Global Instance MateriaStatus_eq_dec : EqDecision MateriaStatus.
Proof. solve_decision. Defined.

Definition MateriaStatus_value (s : MateriaStatus) : string :=
  match s with
  | PENDING => "pending" | ENROLLED => "enrolled" | PASSED => "passed"
  | FAILED => "failed" | DROPPED => "dropped" | MBLOCKED => "blocked"
  end.

(** [MateriaStatus(value)] *)
Definition MateriaStatus_of_value (value : string) : option MateriaStatus :=
  List.find (λ s, bool_decide (MateriaStatus_value s = value))
            [PENDING; ENROLLED; PASSED; FAILED; DROPPED; MBLOCKED].

Module Materia.

(** The optional [grade] (a float) is read by none of the functions below
    and is left out. *)
Record t := mk {
  code : string;
  name : string;
  credits : Z;
  semester : Z;
  prerequisites : list string;
  corequisites : list string;
  color : option string;
  status : MateriaStatus
}.

(** def is_available(self, passed_courses, enrolled_courses) -> bool *)
Definition is_available (self : t) (passed_courses enrolled_courses : gset string) : bool :=
  forallb (λ prereq, bool_decide (prereq ∈ passed_courses)) (prerequisites self)
  && forallb (λ coreq, bool_decide (coreq ∈ passed_courses ∨ coreq ∈ enrolled_courses))
             (corequisites self).

(** The dict whose items are the keyword arguments of the constructor in
    [create_materia]; its values have the types of the fields.  [None] is a missing key (for
    [color] and [grade] also the value [None]). *)
Record data := mk_data {
  d_code : option string;
  d_name : option string;
  d_credits : option Z;
  d_semester : option Z;
  d_prerequisites : option (list string);
  d_corequisites : option (list string);
  d_color : option string;
  d_status : option string;
  d_grade : option QArith_base.Q
}.

Definition is_hex (c : ascii) : bool :=
  let n := nat_of_ascii c in
  ((48 <=? n)%nat && (n <=? 57)%nat) || ((65 <=? n)%nat && (n <=? 70)%nat)
  || ((97 <=? n)%nat && (n <=? 102)%nat).

(** The [pattern] of [color]: ^#[0-9A-Fa-f]{6}$ *)
Definition color_pattern (s : string) : bool :=
  match list_ascii_of_string s with
  | "#"%char :: ([_; _; _; _; _; _] as digits) => forallb is_hex digits
  | _ => false
  end.

(** The constructor: the required fields are present, every field meets
    its bounds (checked on the given values), then the validators
    normalise the codes with [v.upper().strip()].  [None] is pydantic's
    [ValidationError].  The lengths and the normalisation are those of
    ASCII text. *)
Definition new (d : data) : option t :=
  code ← d_code d;
  name ← d_name d;
  credits ← d_credits d;
  semester ← d_semester d;
  status ← from_option MateriaStatus_of_value (Some PENDING) (d_status d);
  if (1 <=? String.length code)%nat && (String.length code <=? 20)%nat
     && (1 <=? String.length name)%nat && (String.length name <=? 100)%nat
     && (1 <=? credits)%Z && (credits <=? 10)%Z
     && (1 <=? semester)%Z && (semester <=? 15)%Z
     && from_option color_pattern true (d_color d)
     && from_option (λ g, QArith_base.Qle_bool (QArith_base.Qmake 0 1) g
                          && QArith_base.Qle_bool g (QArith_base.Qmake 5 1))
                    true (d_grade d)
  then
    let codes_uppercase (v : list string) :=
      (λ code, Py.strip_str (Py.upper code)) <$> v in
    Some (mk (Py.strip_str (Py.upper code)) name credits semester
             (codes_uppercase (default [] (d_prerequisites d)))
             (codes_uppercase (default [] (d_corequisites d)))
             (d_color d) status)
  else None.

End Materia.

Module Pensum.

Record t := mk {
  materias : list Materia.t;
  name : string;
  total_credits : Z
}.

Definition sum_credits (ms : list Materia.t) : Z :=
  foldr (λ m acc, Materia.credits m + acc)%Z 0%Z ms.

(** def get_materia(self, code): the first course whose code is
    [code.upper()]. *)
Definition get_materia (self : t) (code : string) : option Materia.t :=
  let code := Py.upper code in
  List.find (λ m, bool_decide (Materia.code m = code)) (materias self).

(** def get_semester_materias(self, semester) *)
Definition get_semester_materias (self : t) (semester : Z) : list Materia.t :=
  filter (λ m, Materia.semester m = semester) (materias self).

(** def get_max_semester(self): 0 for an empty catalog, else
    max(m.semester for m in self.materias) *)
Definition get_max_semester (self : t) : Z :=
  match materias self with
  | [] => 0
  | m :: r => foldl (λ acc m', Z.max acc (Materia.semester m')) (Materia.semester m) r
  end.

End Pensum.

(* ===================================================================== *)
(** ** app/services/pensum_service.py                                     *)
(* ===================================================================== *)

Module PensumService.

(** Reading a [defaultdict]. *)
Definition dget {V} (dflt : V) (d : gmap string V) (k : string) : V :=
  default dflt (d !! k).

Record validation := mk_validation { valid : bool; errors : list string }.

(** *** detect_circular_dependencies *)

(** The two dicts built by the first loop: [graph] and [in_degree]. *)
Definition add_edge (codes : gset string) (code : string)
    (st : gmap string (list string) * gmap string Z) (prereq : string)
  : gmap string (list string) * gmap string Z :=
  let '(graph, in_degree) := st in
  if decide (prereq ∈ codes)
  then (<[prereq := dget [] graph prereq ++ [code]]> graph,
        <[code := (dget 0 in_degree code + 1)%Z]> in_degree)
  else (graph, in_degree).

Definition add_materia (codes : gset string)
    (st : gmap string (list string) * gmap string Z) (materia : Materia.t)
  : gmap string (list string) * gmap string Z :=
  let '(graph, in_degree) := st in
  let in_degree :=
    <[Materia.code materia := default 0%Z (in_degree !! Materia.code materia)]> in_degree in
  fold_left (add_edge codes (Materia.code materia))
            (Materia.prerequisites materia ++ Materia.corequisites materia)
            (graph, in_degree).

Definition build_graph (codes : gset string) (materias : list Materia.t)
  : gmap string (list string) * gmap string Z :=
  fold_left (add_materia codes) materias (∅, ∅).

(** for neighbor in graph[current]:
        in_degree[neighbor] -= 1
        if in_degree[neighbor] == 0: queue.append(neighbor) *)
Fixpoint relax (neighbors : list string) (in_degree : gmap string Z)
    (queue : list string) : gmap string Z * list string :=
  match neighbors with
  | [] => (in_degree, queue)
  | neighbor :: r =>
      let in_degree := <[neighbor := (dget 0 in_degree neighbor - 1)%Z]> in_degree in
      let queue :=
        if (dget 0 in_degree neighbor =? 0)%Z then queue ++ [neighbor] else queue in
      relax r in_degree queue
  end.

Record kahn_state := mk_kahn {
  k_queue : list string;
  k_in_degree : gmap string Z;
  k_sorted_count : Z
}.

(** One iteration of [while queue]. *)
Definition kahn_step (graph : gmap string (list string)) (st : kahn_state)
  : kahn_state :=
  match k_queue st with
  | [] => st
  | current :: queue =>
      let '(in_degree, queue) := relax (dget [] graph current) (k_in_degree st) queue in
      mk_kahn queue in_degree (k_sorted_count st + 1)
  end.

(** [while queue: ...], at most [fuel] iterations. *)
Fixpoint kahn_loop (fuel : nat) (graph : gmap string (list string))
    (st : kahn_state) : kahn_state :=
  match fuel with
  | O => st
  | S fuel =>
      match k_queue st with
      | [] => st
      | _ => kahn_loop fuel graph (kahn_step graph st)
      end
  end.

Section SetOrder.

(** Iterating over a Python [set] of strings visits every element once, in
    an order that depends on the hashes; [set_iter] is that order. *)
Variable set_iter : gset string → list string.

(** The state in which the [while] loop of Kahn's algorithm ends. *)
Definition kahn_final (pensum : Pensum.t) : kahn_state :=
  let codes : gset string := list_to_set (Materia.code <$> Pensum.materias pensum) in
  let '(graph, in_degree) := build_graph codes (Pensum.materias pensum) in
  let queue := filter (λ code, dget 0%Z in_degree code = 0%Z) (set_iter codes) in
  kahn_loop (size codes) graph (mk_kahn queue in_degree 0).

(** def detect_circular_dependencies(pensum) -> Optional[list[str]] *)
Definition detect_circular_dependencies (pensum : Pensum.t) : option (list string) :=
  let codes : gset string := list_to_set (Materia.code <$> Pensum.materias pensum) in
  let st := kahn_final pensum in
  if decide (k_sorted_count st ≠ Z.of_nat (size codes)) then
    let remaining := filter (λ code, (0 < dget 0 (k_in_degree st) code)%Z) (set_iter codes) in
    match remaining with
    | [] => None
    | _ => Some (take 5 remaining)
    end
  else None.

(** *** validate_pensum_structure *)

Definition materia_errors (pensum : Pensum.t) (materia_codes : gset string)
    (materia : Materia.t) : list string :=
  flat_map (λ prereq,
      if decide (prereq ∉ materia_codes)
      then [Materia.code materia +:+ ": Prerequisite '" +:+ prereq
            +:+ "' not found in pensum"]
      else [])
    (Materia.prerequisites materia)
  ++ flat_map (λ coreq,
      if decide (coreq ∉ materia_codes)
      then [Materia.code materia +:+ ": Corequisite '" +:+ coreq
            +:+ "' not found in pensum"]
      else [])
    (Materia.corequisites materia)
  ++ flat_map (λ prereq,
      match Pensum.get_materia pensum prereq with
      | Some prereq_materia =>
          if (Materia.semester materia <=? Materia.semester prereq_materia)%Z
          then [Materia.code materia +:+ ": Prerequisite '" +:+ prereq
                +:+ "' must be in an earlier semester (prereq in sem "
                +:+ pretty (Materia.semester prereq_materia)
                +:+ ", course in sem " +:+ pretty (Materia.semester materia) +:+ ")"]
          else []
      | None => []
      end)
    (Materia.prerequisites materia).

(** def validate_pensum_structure(pensum) -> dict *)
Definition validate_pensum_structure (pensum : Pensum.t) : validation :=
  let materia_codes : gset string :=
    list_to_set (Materia.code <$> Pensum.materias pensum) in
  let errors := flat_map (materia_errors pensum materia_codes) (Pensum.materias pensum) in
  let errors :=
    match detect_circular_dependencies pensum with
    | Some ((_ :: _) as cycle) =>
        errors ++ ["Circular dependency detected: " +:+ Py.join " -> " cycle]
    | _ => errors
    end in
  mk_validation (bool_decide (length errors = 0%nat)) errors.

End SetOrder.

(** *** simulate_course_loss *)

Record materia_info := mk_info {
  i_code : string; i_name : string; i_semester : Z; i_credits : Z
}.

Record loss := mk_loss {
  lost_course : materia_info;
  directly_blocked : list materia_info;
  indirectly_blocked : list materia_info;
  corequisite_affected : list materia_info;
  total_blocked_courses : Z;
  total_blocked_credits : Z
}.

(** The reverse dependency dicts [prereq_dependents] and [coreq_dependents]:
    [requirements] selects the list of a course that is read. *)
Definition dependents (requirements : Materia.t → list string)
    (materias : list Materia.t) : gmap string (list string) :=
  fold_left (λ d m,
    fold_left (λ d req, <[req := dget [] d req ++ [Materia.code m]]> d)
              (requirements m) d)
    materias ∅.

(** for dep in deps: if dep not in visited: out.append(dep); visited.add(dep)
    [; queue.append(dep)]  -- the three accumulators are threaded through;
    the corequisite loop passes no queue. *)
Fixpoint collect (deps : list string) (visited : gset string)
    (out queue : list string) : gset string * list string * list string :=
  match deps with
  | [] => (visited, out, queue)
  | dep :: r =>
      if decide (dep ∉ visited)
      then collect r ({[dep]} ∪ visited) (out ++ [dep]) (queue ++ [dep])
      else collect r visited out queue
  end.

Record bfs_state := mk_bfs {
  b_queue : list string;
  b_visited : gset string;
  b_indirectly_blocked : list string
}.

Definition bfs_step (prereq_dependents : gmap string (list string))
    (st : bfs_state) : bfs_state :=
  match b_queue st with
  | [] => st
  | current :: queue =>
      let '(visited, indirectly_blocked, queue) :=
        collect (dget [] prereq_dependents current)
                (b_visited st) (b_indirectly_blocked st) queue in
      mk_bfs queue visited indirectly_blocked
  end.

(** [while queue: ...], at most [fuel] iterations. *)
Fixpoint bfs_loop (fuel : nat) (prereq_dependents : gmap string (list string))
    (st : bfs_state) : bfs_state :=
  match fuel with
  | O => st
  | S fuel =>
      match b_queue st with
      | [] => st
      | _ => bfs_loop fuel prereq_dependents (bfs_step prereq_dependents st)
      end
  end.

(** Python compares the [(semester, code)] tuples lexicographically. *)
Definition semester_code_ltb (a b : Z * string) : bool :=
  (a.1 <? b.1)%Z || ((a.1 =? b.1)%Z && String.ltb a.2 b.2).

Definition get_materia_info (pensum : Pensum.t) (codes : list string)
  : list materia_info :=
  let result :=
    omap (λ code,
      m ← Pensum.get_materia pensum code;
      Some (mk_info (Materia.code m) (Materia.name m)
                    (Materia.semester m) (Materia.credits m)))
      codes in
  default result
    (Py.sorted_m semester_code_ltb (λ x, Some (i_semester x, i_code x)) false result).

(** The state after the three traversal loops: the code lists
    [directly_blocked], [indirectly_blocked], [coreq_affected], and whether
    the [while] loop emptied its queue. *)
Definition traverse (materia_code : string) (pensum : Pensum.t)
  : list string * list string * list string * bfs_state :=
  let prereq_dependents := dependents Materia.prerequisites (Pensum.materias pensum) in
  let coreq_dependents := dependents Materia.corequisites (Pensum.materias pensum) in
  let visited : gset string := {[materia_code]} in
  let '(visited, directly_blocked, queue) :=
    collect (dget [] prereq_dependents materia_code) visited [] [] in
  let '(visited, coreq_affected, _) :=
    collect (dget [] coreq_dependents materia_code) visited [] [] in
  let st :=
    bfs_loop (length (Pensum.materias pensum)) prereq_dependents
             (mk_bfs queue visited []) in
  (directly_blocked, b_indirectly_blocked st, coreq_affected, st).

(** def simulate_course_loss(materia_code, pensum) -> dict
    [inl] is the dict with the single key ['error']. *)
Definition simulate_course_loss (materia_code : string) (pensum : Pensum.t)
  : string + loss :=
  let materia_code := Py.upper materia_code in
  match Pensum.get_materia pensum materia_code with
  | None => inl ("Course '" +:+ materia_code +:+ "' not found")
  | Some materia =>
      let '(directly_blocked, indirectly_blocked, coreq_affected, _) :=
        traverse materia_code pensum in
      let total_blocked_credits :=
        foldr Z.add 0%Z
          (omap (λ c, Materia.credits <$> Pensum.get_materia pensum c)
                (directly_blocked ++ indirectly_blocked)) in
      inr (mk_loss
             (mk_info (Materia.code materia) (Materia.name materia)
                      (Materia.semester materia) (Materia.credits materia))
             (get_materia_info pensum directly_blocked)
             (get_materia_info pensum indirectly_blocked)
             (get_materia_info pensum coreq_affected)
             (Z.of_nat (length directly_blocked) + Z.of_nat (length indirectly_blocked))
             total_blocked_credits)
  end.

(** *** delete_materia *)

Inductive delete_response :=
  | DeleteNotFound (error : string)
  | DeleteRefused (error : string) (dependents : list string)
  | DeleteSuccess (deleted : string).

(** def delete_materia(code, pensum) -> dict
    The pensum is updated in place; the model returns it next to the
    response. *)
Definition delete_materia (code : string) (pensum : Pensum.t)
  : delete_response * Pensum.t :=
  let code := Py.upper code in
  match Pensum.get_materia pensum code with
  | None => (DeleteNotFound ("Course '" +:+ code +:+ "' not found"), pensum)
  | Some materia =>
      let dependents :=
        Materia.code <$>
          filter (λ m, code ∈ Materia.prerequisites m ∨ code ∈ Materia.corequisites m)
                 (Pensum.materias pensum) in
      match dependents with
      | _ :: _ =>
          (DeleteRefused
             ("Cannot delete: course is a prerequisite/corequisite for "
              +:+ Py.join ", " dependents) dependents,
           pensum)
      | [] =>
          let materias := filter (λ m, Materia.code m ≠ code) (Pensum.materias pensum) in
          (DeleteSuccess code,
           Pensum.mk materias (Pensum.name pensum) (Pensum.sum_credits materias))
      end
  end.

(** *** can_move_to_semester *)

Record move_check := mk_move_check { can_move : bool; reasons : list string }.

(** def can_move_to_semester(materia, target_semester, pensum) -> dict *)
Definition can_move_to_semester (materia : Materia.t) (target_semester : Z)
    (pensum : Pensum.t) : move_check :=
  let reasons :=
    flat_map (λ prereq_code,
      match Pensum.get_materia pensum prereq_code with
      | Some prereq =>
          if (target_semester <=? Materia.semester prereq)%Z
          then ["Prerequisite '" +:+ Materia.name prereq +:+ "' ("
                +:+ Materia.code prereq +:+ ") is in semester "
                +:+ pretty (Materia.semester prereq)
                +:+ ", which is not before the target semester "
                +:+ pretty target_semester]
          else []
      | None => []
      end)
      (Materia.prerequisites materia) in
  let reasons :=
    reasons ++
    flat_map (λ other,
      (if bool_decide (Materia.code materia ∈ Materia.prerequisites other)
          && (Materia.semester other <=? target_semester)%Z
       then ["'" +:+ Materia.name other +:+ "' (" +:+ Materia.code other
             +:+ ") in semester " +:+ pretty (Materia.semester other)
             +:+ " requires this course as prerequisite"]
       else [])
      ++
      (if bool_decide (Materia.code materia ∈ Materia.corequisites other)
          && (Materia.semester other <? target_semester)%Z
       then ["'" +:+ Materia.name other +:+ "' (" +:+ Materia.code other
             +:+ ") in semester " +:+ pretty (Materia.semester other)
             +:+ " requires this course as corequisite"]
       else []))
      (Pensum.materias pensum) in
  mk_move_check (bool_decide (length reasons = 0%nat)) reasons.

(** *** get_available_courses *)

(** def get_available_courses(semester, pensum, passed_courses=None,
                              enrolled_courses=None) -> list[Materia] *)
Definition get_available_courses (semester : Z) (pensum : Pensum.t)
    (passed_courses enrolled_courses : option (gset string)) : list Materia.t :=
  let passed_courses := default ∅ passed_courses in
  let enrolled_courses := default ∅ enrolled_courses in
  filter (λ materia,
      (Materia.semester materia ≤ semester)%Z ∧ Materia.status materia = PENDING
      ∧ Materia.is_available materia passed_courses enrolled_courses = true)
    (Pensum.materias pensum).

(** *** update_course_statuses *)

Definition set_status (m : Materia.t) (status : MateriaStatus) : Materia.t :=
  Materia.mk (Materia.code m) (Materia.name m) (Materia.credits m) (Materia.semester m)
             (Materia.prerequisites m) (Materia.corequisites m) (Materia.color m) status.

(** def update_course_statuses(pensum) -> Pensum
    The two sets are built before the loop, and the loop changes only
    PENDING and BLOCKED statuses, so each course is updated on its own. *)
Definition update_course_statuses (pensum : Pensum.t) : Pensum.t :=
  let passed : gset string :=
    list_to_set (Materia.code <$>
      filter (λ m, Materia.status m = PASSED) (Pensum.materias pensum)) in
  let enrolled : gset string :=
    list_to_set (Materia.code <$>
      filter (λ m, Materia.status m = ENROLLED) (Pensum.materias pensum)) in
  Pensum.mk
    ((λ materia,
        if bool_decide (Materia.status materia ∈ [PENDING; MBLOCKED]) then
          if Materia.is_available materia passed enrolled then
            if bool_decide (Materia.status materia = MBLOCKED)
            then set_status materia PENDING else materia
          else set_status materia MBLOCKED
        else materia) <$> Pensum.materias pensum)
    (Pensum.name pensum) (Pensum.total_credits pensum).

(** *** get_semester_credits, can_add_to_semester *)

Definition get_semester_credits (semester : Z) (pensum : Pensum.t) : Z :=
  Pensum.sum_credits (filter (λ m, Materia.semester m = semester) (Pensum.materias pensum)).

Record credit_check := mk_credit_check {
  allowed : bool;
  current_credits : Z;
  new_total : Z;
  max_credits : Z;
  excess : Z
}.

(** def can_add_to_semester(credits_to_add, semester, pensum, max_credits=21) *)
Definition can_add_to_semester (credits_to_add semester : Z) (pensum : Pensum.t)
    (max_credits : option Z) : credit_check :=
  let max_credits := default 21%Z max_credits in
  let current := get_semester_credits semester pensum in
  let new_total := (current + credits_to_add)%Z in
  mk_credit_check (bool_decide (new_total ≤ max_credits)%Z) current new_total
                  max_credits (Z.max 0 (new_total - max_credits)).

(** *** create_materia *)

Inductive create_response :=
  | CreateError (error : string)
  | CreateRaised
  | CreateSuccess (materia : Materia.t).

(** The first code of [codes] that names no course of the catalog. *)
Definition first_missing (pensum : Pensum.t) (codes : list string) : option string :=
  List.find (λ code, negb (bool_decide (is_Some (Pensum.get_materia pensum code)))) codes.

(** def create_materia(data, pensum) -> dict
    The pensum is updated in place; the model returns it next to the
    response.  [CreateRaised] is the [except Exception] branch, whose
    message is the text of the exception and is not modelled: a missing
    ['code'] in the message of the first return, or the
    [ValidationError] of the constructor. *)
Definition create_materia (data : Materia.data) (pensum : Pensum.t)
  : create_response * Pensum.t :=
  match Pensum.get_materia pensum (default "" (Materia.d_code data)) with
  | Some _ =>
      match Materia.d_code data with
      | Some code => (CreateError ("Course with code '" +:+ code +:+ "' already exists"), pensum)
      | None => (CreateRaised, pensum)
      end
  | None =>
      match Materia.new data with
      | None => (CreateRaised, pensum)
      | Some materia =>
          match first_missing pensum (Materia.prerequisites materia) with
          | Some prereq =>
              (CreateError ("Prerequisite '" +:+ prereq +:+ "' not found in pensum"), pensum)
          | None =>
              match first_missing pensum (Materia.corequisites materia) with
              | Some coreq =>
                  (CreateError ("Corequisite '" +:+ coreq +:+ "' not found in pensum"), pensum)
              | None =>
                  let materias := Pensum.materias pensum ++ [materia] in
                  (CreateSuccess materia,
                   Pensum.mk materias (Pensum.name pensum) (Pensum.sum_credits materias))
              end
          end
      end
  end.

(** *** update_materia *)

(** The part of the data of [update_materia] this model covers: the keys
    ['code'], ['name'], ['credits'], ['semester'], ['prerequisites'] and
    ['corequisites'], each with a value of the field's type ([None] is a
    missing key).  [setattr] stores the value as it is: nothing is
    validated or normalised. *)
Record patch := mk_patch {
  u_code : option string;
  u_name : option string;
  u_credits : option Z;
  u_semester : option Z;
  u_prerequisites : option (list string);
  u_corequisites : option (list string)
}.

Definition apply_patch (data : patch) (m : Materia.t) : Materia.t :=
  Materia.mk (default (Materia.code m) (u_code data))
             (default (Materia.name m) (u_name data))
             (default (Materia.credits m) (u_credits data))
             (default (Materia.semester m) (u_semester data))
             (default (Materia.prerequisites m) (u_prerequisites data))
             (default (Materia.corequisites m) (u_corequisites data))
             (Materia.color m) (Materia.status m).

(** The catalog after the object that [get_materia] returned was changed
    in place. *)
Fixpoint update_first (code : string) (f : Materia.t → Materia.t)
    (materias : list Materia.t) : list Materia.t :=
  match materias with
  | [] => []
  | m :: r =>
      if bool_decide (Materia.code m = code) then f m :: r
      else m :: update_first code f r
  end.

Inductive update_response :=
  | UpdateNotFound (error : string)
  | UpdateInvalid (error : string) (details : list string)
  | UpdateSuccess (materia : Materia.t).

(** def update_materia(code, data, pensum) -> dict
    The course is changed before the catalog is validated, and the change
    is not taken back when the validation fails. *)
Definition update_materia (set_iter : gset string → list string)
    (code : string) (data : patch) (pensum : Pensum.t)
  : update_response * Pensum.t :=
  match Pensum.get_materia pensum code with
  | None => (UpdateNotFound ("Course '" +:+ code +:+ "' not found"), pensum)
  | Some materia =>
      let materia := apply_patch data materia in
      let pensum :=
        Pensum.mk (update_first (Py.upper code) (apply_patch data) (Pensum.materias pensum))
                  (Pensum.name pensum) (Pensum.total_credits pensum) in
      let validation := validate_pensum_structure set_iter pensum in
      if negb (valid validation)
      then (UpdateInvalid "Update would create invalid pensum" (errors validation), pensum)
      else
        (UpdateSuccess materia,
         Pensum.mk (Pensum.materias pensum) (Pensum.name pensum)
                   (Pensum.sum_credits (Pensum.materias pensum)))
  end.

End PensumService.

(* ===================================================================== *)
(** * Specification vocabulary                                            *)
(* ===================================================================== *)

(** ** Schedules *)

Module ScheduleSpec.

(** Minutes since midnight of a validated [HH:MM] string. *)
Definition minutes (time_str : string) : Z :=
  default 0%Z (BloqueHorario._time_to_minutes time_str).

(** Two weekly intervals intersect: same day, half-open intervals meet. *)
Definition overlap (d1 : DayOfWeek) (s1 e1 : string) (d2 : DayOfWeek) (s2 e2 : string) : Prop :=
  d1 = d2 ∧ (minutes s1 < minutes e2)%Z ∧ (minutes s2 < minutes e1)%Z.

Definition blocks_overlap (a b : BloqueHorario.t) : Prop :=
  overlap (BloqueHorario.day a) (BloqueHorario.start a) (BloqueHorario.end_ a)
          (BloqueHorario.day b) (BloqueHorario.start b) (BloqueHorario.end_ b).

Definition block_overlaps_franja (a : BloqueHorario.t) (f : Franja.t) : Prop :=
  overlap (BloqueHorario.day a) (BloqueHorario.start a) (BloqueHorario.end_ a)
          (Franja.day f) (Franja.start f) (Franja.end_ f).

(** Invariant of a constructed [BloqueHorario]: both times parse and the
    end is after the start. *)
Definition wf_bloque (b : BloqueHorario.t) : bool :=
  match BloqueHorario.get_start_minutes b, BloqueHorario.get_end_minutes b with
  | Some s, Some e => (s <? e)%Z
  | _, _ => false
  end.

Definition wf_clase (c : Clase.t) : bool := forallb wf_bloque (Clase.schedule c).

(** A preference whose end is after its start (nothing in [Franja]
    enforces it). *)
Definition ordered_franja (f : Franja.t) : bool :=
  BloqueHorario.matches_pattern (Franja.start f)
  && BloqueHorario.matches_pattern (Franja.end_ f)
  && match BloqueHorario._time_to_minutes (Franja.start f),
           BloqueHorario._time_to_minutes (Franja.end_ f) with
     | Some s, Some e => (s <? e)%Z
     | _, _ => false
     end.

(** A tuple passes both pruning tests. *)
Definition valid_combo (blocked_slots : list BloqueHorario.t) (combo : list Clase.t) : bool :=
  match ScheduleService.has_internal_conflict combo,
        ScheduleService.has_blocked_conflict combo blocked_slots with
  | Some false, Some false => true
  | _, _ => false
  end.

End ScheduleSpec.

Import ScheduleSpec.

(** ** The metrics calculator *)

Definition with_id (i : string) (c : HorarioCombination.t) : HorarioCombination.t :=
  HorarioCombination.mk i (HorarioCombination.clases c)
    (HorarioCombination.total_credits c) (HorarioCombination.free_days c)
    (HorarioCombination.gaps_count c) (HorarioCombination.gaps_minutes c)
    (HorarioCombination.preferred_slots_used c)
    (HorarioCombination.earliest_start c) (HorarioCombination.latest_end c).

(** The factor a course contributes to [total_possible]. *)
Definition candidate_factor {A} (options : list A) : Z :=
  match options with [] => 1 | _ => Z.of_nat (length options) end.

Definition possible {A} (class_options : list (list A)) : Z :=
  foldr (λ options acc, candidate_factor options * acc)%Z 1%Z class_options.

(** ** Claims about [generate_combinations] *)

Definition conflict_free (franjas : list Franja.t) (combo : HorarioCombination.t) : Prop :=
  (∀ i j c1 c2 b1 b2, i ≠ j →
     HorarioCombination.clases combo !! i = Some c1 →
     HorarioCombination.clases combo !! j = Some c2 →
     b1 ∈ Clase.schedule c1 → b2 ∈ Clase.schedule c2 → ¬ blocks_overlap b1 b2) ∧
  (∀ c b f, c ∈ HorarioCombination.clases combo → b ∈ Clase.schedule c →
     f ∈ franjas → Franja.status f = BLOCKED → ¬ block_overlaps_franja b f).

Definition wf_input (cbm : list (string * list Clase.t)) : Prop :=
  Forall (λ kv, Forall (λ c, wf_clase c = true) kv.2) cbm.

Definition forget_ids (r : ScheduleService.result) : ScheduleService.result :=
  ScheduleService.mk_result
    (with_id "" <$> ScheduleService.combinations r)
    (ScheduleService.total_generated r) (ScheduleService.total_possible r)
    (ScheduleService.total_checked r) (ScheduleService.warning r).

(** Two runs that differ only in the identifiers drawn from [uuid4] take
    the same branches and build the same combinations up to [id]. *)
Definition forget_loop_ids (st : list HorarioCombination.t * Z)
  : list HorarioCombination.t * Z :=
  (with_id "" <$> st.1, st.2).

Module Samples.
Definition a1 := Clase.mk "A" "1" [BloqueHorario.mk MONDAY "08:00" "10:00"] None None.
Definition a2 := Clase.mk "A" "2" [BloqueHorario.mk TUESDAY "08:00" "10:00"] None None.
Definition b1 := Clase.mk "B" "1" [BloqueHorario.mk MONDAY "09:00" "11:00"] None None.
Definition b2 := Clase.mk "B" "2" [BloqueHorario.mk WEDNESDAY "09:00" "11:00"] None None.
Definition two_courses : list (string * list Clase.t) := [("A", [a1; a2]); ("B", [b1; b2])].
Definition one_empty : list (string * list Clase.t) := [("A", [a1; a2]); ("B", [])].
Definition tuesday_blocked := Franja.mk TUESDAY "09:00" "09:30" BLOCKED.
Definition monday_morning := Franja.mk MONDAY "07:00" "12:00" PREFERRED.
Definition monday_early := Franja.mk MONDAY "08:00" "11:00" PREFERRED.
Definition backwards := Franja.mk MONDAY "12:00" "11:00" PREFERRED.
Definition ids (n : nat) : string := "0123456789abcdef".
Definition ids' (n : nat) : string := "fedcba9876543210".
End Samples.

(** A block lies inside a preference: same day, nested interval. *)
Definition nested_in (b : BloqueHorario.t) (p : Franja.t) : Prop :=
  BloqueHorario.day b = Franja.day p ∧
  (minutes (Franja.start p) ≤ minutes (BloqueHorario.start b))%Z ∧
  (minutes (BloqueHorario.end_ b) ≤ minutes (Franja.end_ p))%Z.

Global Instance nested_in_dec b p : Decision (nested_in b p).
Proof. unfold nested_in. apply _. Defined.

Definition in_preferred_slot (franjas : list Franja.t) (b : BloqueHorario.t) : Prop :=
  Exists (λ p, Franja.status p = PREFERRED ∧ nested_in b p) franjas.

(** The number of section blocks that lie inside at least one PREFERRED
    preference; a block counts once however many preferences contain it. *)
Definition preferred_blocks (clases : list Clase.t) (franjas : list Franja.t) : Z :=
  Z.of_nat (length (filter (in_preferred_slot franjas) (flat_map Clase.schedule clases))).

(** ** Claims about [filter_combinations] *)

Definition parses (time_str : string) : Prop :=
  is_Some (BloqueHorario._time_to_minutes time_str).

(** The time bounds of the options, when given, are [HH:MM] strings. *)
Definition wf_filters (f : ScheduleService.filters) : Prop :=
  (∀ s, ScheduleService.earliest_start f = Some s → parses s ∨ s = "") ∧
  (∀ s, ScheduleService.latest_end f = Some s → parses s ∨ s = "").

Definition wf_combination (c : HorarioCombination.t) : Prop :=
  parses (HorarioCombination.earliest_start c) ∧ parses (HorarioCombination.latest_end c).

Module FilterSamples.
Definition combo (i : string) (gaps : Z) : HorarioCombination.t :=
  HorarioCombination.mk i [] 0 0 gaps (gaps * 30) 0 "08:00" "12:00".
Definition combos := [combo "x" 2; combo "y" 0; combo "z" 1; combo "w" 0].
Definition by_gaps (order : string) : ScheduleService.filters :=
  ScheduleService.mk_filters None None None None None
    (Some (Some "gaps_count")) (Some (Some order)).
End FilterSamples.

(** ** Catalogs *)

Module PensumSpec.

(** The catalog's node set. *)
Definition codes (p : Pensum.t) : gset string :=
  list_to_set (Materia.code <$> Pensum.materias p).

(** [requires p u v]: course [v] lists [u] as a prerequisite or as a
    corequisite (an edge requirement -> dependent). *)
Definition requires (p : Pensum.t) (u v : string) : Prop :=
  ∃ m, m ∈ Pensum.materias p ∧ Materia.code m = v ∧
       u ∈ Materia.prerequisites m ++ Materia.corequisites m.

Definition cyclic (p : Pensum.t) : Prop := ∃ v, tc (requires p) v v.

(** On a cycle or reachable from one. *)
Definition downstream_of_cycle (p : Pensum.t) (v : string) : Prop :=
  ∃ c, tc (requires p) c c ∧ rtc (requires p) c v.

(** The edges [detect_circular_dependencies] records, in the order in
    which it records them. *)
Definition edges (cs : gset string) (materias : list Materia.t) : list (string * string) :=
  flat_map (λ m,
    (λ prereq, (prereq, Materia.code m))
      <$> filter (λ prereq, prereq ∈ cs)
                 (Materia.prerequisites m ++ Materia.corequisites m))
    materias.

(** An iteration order for sets: every element once. *)
Definition set_order (set_iter : gset string → list string) : Prop :=
  ∀ X, NoDup (set_iter X) ∧ ∀ x, x ∈ set_iter X ↔ x ∈ X.

End PensumSpec.

Import PensumSpec.

Module PensumSamples.
Definition course (code : string) (semester : Z) (prereqs coreqs : list string) : Materia.t :=
  Materia.mk code code 3 semester prereqs coreqs None PENDING.
(** A -> B -> C -> A through prerequisites. *)
Definition triangle : Pensum.t :=
  Pensum.mk [course "A" 1 ["C"] []; course "B" 2 ["A"] []; course "C" 3 ["B"] []] "p" 9.
(** MATH2 requires MATH1, MATH3 requires MATH2. *)
Definition chain : Pensum.t :=
  Pensum.mk [course "MATH1" 1 [] []; course "MATH2" 2 ["MATH1"] [];
             course "MATH3" 3 ["MATH2"] []] "p" 9.
(** C needs B (which needs A) and has A as a corequisite; D needs C. *)
Definition coreq_shortcut : Pensum.t :=
  Pensum.mk [course "A" 1 [] []; course "B" 2 ["A"] [];
             course "C" 3 ["B"] ["A"]; course "D" 4 ["C"] []] "p" 12.
(** A course that lists itself as a prerequisite. *)
Definition self_reference : Pensum.t :=
  Pensum.mk [course "A" 1 ["A"] []] "p" 3.
End PensumSamples.

(** Course [m] lists [code] as a prerequisite or as a corequisite. *)
Definition references (code : string) (m : Materia.t) : Prop :=
  code ∈ Materia.prerequisites m ∨ code ∈ Materia.corequisites m.

(** [v] lists [u] as a prerequisite. *)
Definition requires_prereq (p : Pensum.t) (u v : string) : Prop :=
  ∃ m, m ∈ Pensum.materias p ∧ Materia.code m = v ∧ u ∈ Materia.prerequisites m.

Definition blocked_codes (l : list PensumService.materia_info) : list string :=
  PensumService.i_code <$> l.

(** [v] lists [u] as a corequisite. *)
Definition requires_coreq (p : Pensum.t) (u v : string) : Prop :=
  ∃ m, m ∈ Pensum.materias p ∧ Materia.code m = v ∧ u ∈ Materia.corequisites m.

(** The invariant of the [while] loop: [L] is the lost course, [direct]
    and [coreq] the two lists built before the loop, [next u v] an edge of
    the reverse prerequisite graph. *)
Definition bfs_inv (next : string → string → Prop) (L : string)
    (direct coreq : list string) (st : PensumService.bfs_state) : Prop :=
  PensumService.b_visited st
    = list_to_set (PensumService.b_indirectly_blocked st)
      ∪ ({[L]} ∪ list_to_set direct ∪ list_to_set coreq) ∧
  NoDup (PensumService.b_indirectly_blocked st) ∧
  (∀ v, v ∈ PensumService.b_indirectly_blocked st →
        v ≠ L ∧ (v ∉ direct) ∧ (v ∉ coreq) ∧ tc next L v) ∧
  (∀ v, v ∈ PensumService.b_queue st →
        v ∈ direct ∨ v ∈ PensumService.b_indirectly_blocked st) ∧
  (∀ u v, u ∈ direct ∨ u ∈ PensumService.b_indirectly_blocked st →
          u ∉ PensumService.b_queue st → next u v →
          v ∈ PensumService.b_visited st).

(** The codes of the catalog are in the form the [Materia] validator
    produces. *)
Definition normalized (p : Pensum.t) : Prop :=
  ∀ m, m ∈ Pensum.materias p → Py.upper (Materia.code m) = Materia.code m.

Definition info_of (m : Materia.t) : PensumService.materia_info :=
  PensumService.mk_info (Materia.code m) (Materia.name m)
                        (Materia.semester m) (Materia.credits m).

Definition sum_info_credits (l : list PensumService.materia_info) : Z :=
  foldr Z.add 0%Z (PensumService.i_credits <$> l).

(** [graph] and [in_degree] hold the edge list [E]: [graph[u]] lists the
    targets of the edges that leave [u], in order, and [in_degree[v]]
    counts the edges that enter [v]. *)
Definition holds (st : gmap string (list string) * gmap string Z)
    (E : list (string * string)) : Prop :=
  (∀ u, PensumService.dget [] st.1 u = (filter (λ e, e.1 = u) E).*2) ∧
  (∀ v, PensumService.dget 0%Z st.2 v = Z.of_nat (length (filter (λ e, e.2 = v) E))).

Abbreviation deg := (PensumService.dget 0%Z).

Definition occurrences (v : string) (l : list string) : Z :=
  Z.of_nat (length (filter (λ x, x = v) l)).

(** Incoming edges of [v] whose source is not in [P]. *)
Definition pending (E : list (string * string)) (P : list string) (v : string) : Z :=
  Z.of_nat (length (filter (λ e, e.2 = v ∧ e.1 ∉ P) E)).

(** The invariant of Kahn's loop; [P] lists the nodes processed so far,
    in processing order. *)
Definition kahn_inv (E : list (string * string)) (cs : gset string)
    (P : list string) (st : PensumService.kahn_state) : Prop :=
  (∀ v, deg (PensumService.k_in_degree st) v = pending E P v) ∧
  NoDup (P ++ PensumService.k_queue st) ∧
  (∀ v, v ∈ P ++ PensumService.k_queue st → v ∈ cs) ∧
  (∀ v, v ∈ cs → (v ∈ P ++ PensumService.k_queue st
                   ↔ deg (PensumService.k_in_degree st) v = 0%Z)) ∧
  PensumService.k_sorted_count st = Z.of_nat (length P) ∧
  (∀ i v u, P !! i = Some v → (u, v) ∈ E → ∃ j, (j < i)%nat ∧ P !! j = Some u).

Definition edge (E : list (string * string)) (u v : string) : Prop := (u, v) ∈ E.

(** Consecutive elements of [l] are related by [step]. *)
Fixpoint is_path (step : string → string → Prop) (l : list string) : Prop :=
  match l with
  | a :: (b :: _) as r => step a b ∧ is_path step r
  | _ => True
  end.

(** Unvisited nodes plus queued nodes: the measure of the [while] loop of
    [simulate_course_loss]. *)
Definition work (U : gset string) (visited : gset string) (queue : list string) : nat :=
  (size (U ∖ visited) + length queue)%nat.

(** ** Schedules, continued *)

(** A block as the constructor of [BloqueHorario] returns it. *)
Definition constructed (b : BloqueHorario.t) : Prop :=
  BloqueHorario.new (BloqueHorario.day b) (BloqueHorario.start b) (BloqueHorario.end_ b)
  = Some b.

Definition constructed_clase (c : Clase.t) : Prop :=
  Forall constructed (Clase.schedule c).

Ltac enum_char c H :=
  destruct c as [[] [] [] [] [] [] [] []]; try (vm_compute in H; discriminate H); clear H.

Ltac solve_digits :=
  split; [by apply (bool_decide_unpack _)|eexists; split; [vm_compute; reflexivity|lia]].

Module BlockSamples.
Definition morning := BloqueHorario.mk MONDAY "08:00" "10:00".
Definition noon := BloqueHorario.mk MONDAY "10:00" "12:00".
End BlockSamples.

(** All the blocks of a list of sections, in iteration order. *)
Definition all_blocks (clases : list Clase.t) : list BloqueHorario.t :=
  flat_map Clase.schedule clases.

(** The days on which the sections meet (with repetitions). *)
Definition used_days (clases : list Clase.t) : list DayOfWeek :=
  BloqueHorario.day <$> all_blocks clases.

(** No two blocks of the list overlap. *)
Definition disjoint_blocks (l : list BloqueHorario.t) : Prop :=
  StronglySorted (λ a b, ¬ blocks_overlap a b) l.

(** The text of a number of minutes, as [calculate_metrics] formats it. *)
Definition hh_mm (m : Z) : string :=
  Py.fmt_02d (m `div` 60) +:+ ":" +:+ Py.fmt_02d (m `mod` 60).

Abbreviation day_letter b := (DayOfWeek_value (BloqueHorario.day b)).

Abbreviation add_block :=
  (λ days_used block, HorarioCombination.days_used_append (day_letter block) block days_used).

Abbreviation st b := (minutes (BloqueHorario.start b)).
Abbreviation en b := (minutes (BloqueHorario.end_ b)).

Module MetricSamples.
(** Two sections: Monday 08:00-10:00 and 12:00-13:00, Wednesday 09:00-11:00. *)
Definition s1 :=
  Clase.mk "A" "1" [BloqueHorario.mk MONDAY "08:00" "10:00";
                    BloqueHorario.mk WEDNESDAY "09:00" "11:00"] None None.
Definition s2 := Clase.mk "B" "1" [BloqueHorario.mk MONDAY "12:00" "13:00"] None None.
Definition week := HorarioCombination.new "w" [s1; s2] 0.
Definition week_metrics :=
  HorarioCombination.mk "w" [s1; s2] 0 4 1 120 0 "08:00" "13:00".
(** A section without blocks. *)
Definition online := Clase.mk "C" "1" [] None None.
End MetricSamples.

(** The report entries for two sections: one for each pair of overlapping
    blocks, in the order of the two schedules. *)
Definition block_conflicts (c1 c2 : Clase.t) : list ScheduleService.conflict :=
  b1 ← Clase.schedule c1;
  b2 ← Clase.schedule c2;
  if decide (blocks_overlap b1 b2)
  then [ScheduleService.mk_conflict (ScheduleService.side c1 b1) (ScheduleService.side c2 b2)]
  else [].

(** The report for a list of sections: every section against each later
    one. *)
Fixpoint pair_conflicts (clases : list Clase.t) : list ScheduleService.conflict :=
  match clases with
  | [] => []
  | c1 :: rest => (c2 ← rest; block_conflicts c1 c2) ++ pair_conflicts rest
  end.

(** The entries of [check_franja_conflicts]: one for each block of the
    section and each BLOCKED preference that overlaps it. *)
Definition blocked_conflicts (c : Clase.t) (franjas : list Franja.t)
  : list ScheduleService.franja_conflict :=
  b ← Clase.schedule c;
  f ← filter (λ f, Franja.status f = BLOCKED) franjas;
  if decide (block_overlaps_franja b f)
  then [ScheduleService.mk_franja_conflict
          (Clase.materia_code c) (Clase.class_code c)
          (DayOfWeek_value (Franja.day f))
          (Franja.start f +:+ "-" +:+ Franja.end_ f)]
  else [].

Global Instance from_option_dec {A} (P : A → Prop) (Q : Prop)
    `{∀ x, Decision (P x)} `{Decision Q} (o : option A) : Decision (from_option P Q o).
Proof. destruct o; simpl; apply _. Defined.

(** The combination meets every bound that the options give. *)
Definition within_bounds (f : ScheduleService.filters) (c : HorarioCombination.t) : Prop :=
  from_option (λ v, v ≤ HorarioCombination.free_days c)%Z True
              (ScheduleService.min_free_days f) ∧
  from_option (λ v, HorarioCombination.gaps_count c ≤ v)%Z True
              (ScheduleService.max_gaps f) ∧
  from_option (λ v, HorarioCombination.gaps_minutes c ≤ v)%Z True
              (ScheduleService.max_gap_minutes f) ∧
  from_option (λ s, s = "" ∨ minutes s ≤ minutes (HorarioCombination.earliest_start c))%Z
              True (ScheduleService.earliest_start f) ∧
  from_option (λ s, s = "" ∨ minutes (HorarioCombination.latest_end c) ≤ minutes s)%Z
              True (ScheduleService.latest_end f).

Global Instance within_bounds_dec f c : Decision (within_bounds f c).
Proof. unfold within_bounds. apply _. Defined.

Module FilterSamples2.
Definition early := HorarioCombination.mk "e" [] 0 3 0 0 0 "07:00" "12:00".
Definition late := HorarioCombination.mk "l" [] 0 5 1 60 0 "10:00" "18:00".
Definition free := HorarioCombination.mk "f" [] 0 5 0 0 0 "08:00" "13:00".
Definition unsorted : ScheduleService.filters :=
  ScheduleService.mk_filters (Some 4%Z) None None None None (Some None) None.
Definition by_free_days : ScheduleService.filters :=
  ScheduleService.mk_filters None None None None None None None.
End FilterSamples2.

(** The (section, block) pairs of a class list, in the order in which the
    loops of [get_schedule_grid] visit them. *)
Definition section_blocks (clases : list Clase.t) : list (Clase.t * BloqueHorario.t) :=
  c ← clases; (λ b, (c, b)) <$> Clase.schedule c.

(** The block lies on the day with letter [day] and covers minute [t]. *)
Definition covers (day : string) (t : Z) (b : BloqueHorario.t) : Prop :=
  DayOfWeek_value (BloqueHorario.day b) = day ∧
  (minutes (BloqueHorario.start b) ≤ t < minutes (BloqueHorario.end_ b))%Z.

(** The cell that a block of a section writes into the slot [time]. *)
Definition cell_for (time : string) (cb : Clase.t * BloqueHorario.t) : ScheduleService.cell :=
  ScheduleService.mk_cell
    (Clase.materia_code cb.1) (Clase.class_code cb.1)
    (Clase.professor cb.1) (Clase.location cb.1)
    (minutes time =? minutes (BloqueHorario.start cb.2))%Z
    (BloqueHorario.start cb.2) (BloqueHorario.end_ cb.2).

(** What the grid shows in a slot: the last block, in visiting order,
    that covers it. *)
Definition shown (clases : list Clase.t) (day time : string) : option ScheduleService.cell :=
  cell_for time <$> last (filter (λ cb, covers day (minutes time) cb.2) (section_blocks clases)).

(** [grid[day][time]] *)
Definition grid_cell {V} (grid : list (string * list (string * V))) (day time : string)
  : option V :=
  row ← Py.dict_get day grid; Py.dict_get time row.

(** The well-formed grids: the six days, each with the 32 slots. *)
Definition grid_shape {V} (grid : list (string * list (string * V))) : Prop :=
  grid.*1 = ScheduleService.days_order ∧
  Forall (λ row, row.2.*1 = ScheduleService.grid_time_slots) grid.

Global Instance covers_dec day t b : Decision (covers day t b).
Proof. unfold covers. apply _. Defined.

Module GridSamples.
Definition lecture :=
  Clase.mk "A" "1" [BloqueHorario.mk MONDAY "08:15" "09:30";
                    BloqueHorario.mk SUNDAY "08:00" "10:00"] (Some "Prof") None.
Definition picked := HorarioCombination.new "g" [lecture] 0.
End GridSamples.



Module JsonSamples.
Definition block (start end_ : string) : Json.value :=
  Json.Dict [("day", Json.Str "L"); ("start", Json.Str start); ("end", Json.Str end_)].
End JsonSamples.

(** ** Catalogs, continued *)

(** The codes of the courses with the given status. *)
Definition codes_with (status : MateriaStatus) (p : Pensum.t) : gset string :=
  list_to_set (Materia.code <$> filter (λ m, Materia.status m = status) (Pensum.materias p)).

(** The course may be taken: it is PENDING, not beyond the semester, its
    prerequisites are passed and its corequisites passed or enrolled. *)
Definition may_take (semester : Z) (passed enrolled : gset string) (m : Materia.t) : Prop :=
  (Materia.semester m ≤ semester)%Z ∧ Materia.status m = PENDING ∧
  Forall (λ c, c ∈ passed) (Materia.prerequisites m) ∧
  Forall (λ c, c ∈ passed ∨ c ∈ enrolled) (Materia.corequisites m).

Global Instance may_take_dec semester passed enrolled m :
  Decision (may_take semester passed enrolled m).
Proof. unfold may_take. apply _. Defined.

Module StatusSamples.
Definition calc1 := Materia.mk "CALC1" "Calculus 1" 4 1 [] [] None PASSED.
Definition calc2 := Materia.mk "CALC2" "Calculus 2" 4 2 ["CALC1"] [] None MBLOCKED.
Definition phys1 := Materia.mk "PHYS1" "Physics 1" 3 2 ["CALC1"] ["CALC2"] None PENDING.
Definition calc3 := Materia.mk "CALC3" "Calculus 3" 4 3 ["CALC2"] [] None PENDING.
Definition plan := Pensum.mk [calc1; calc2; phys1; calc3] "Plan" 15.
End StatusSamples.

Abbreviation update_one passed enrolled :=
  (λ materia,
     if bool_decide (Materia.status materia ∈ [PENDING; MBLOCKED]) then
       if Materia.is_available materia passed enrolled then
         if bool_decide (Materia.status materia = MBLOCKED)
         then PensumService.set_status materia PENDING else materia
       else PensumService.set_status materia MBLOCKED
     else materia).

(** A code in the form the validators of [Materia] leave it in. *)
Definition normal_code (c : string) : Prop := Py.upper c = c ∧ Py.strip_str c = c.



Module MateriaSamples.
Definition calc1 : Materia.data :=
  Materia.mk_data (Some " calc1 ") (Some "Calculus 1") (Some 4%Z) (Some 1%Z)
                  None None (Some "#a0B1c2") None None.
Definition blank : Materia.data :=
  Materia.mk_data (Some "  ") (Some "Nameless") (Some 1%Z) (Some 1%Z)
                  None None None None None.
End MateriaSamples.

(** Every code a course of the catalog requires names a course of the
    catalog. *)
Definition resolved (p : Pensum.t) : Prop :=
  ∀ o c, o ∈ Pensum.materias p →
         c ∈ Materia.prerequisites o ++ Materia.corequisites o →
         is_Some (Pensum.get_materia p c).

Module CreateSamples.
Definition empty : Pensum.t := Pensum.mk [] "Plan" 0.
Definition calc1 : Materia.t :=
  Materia.mk "CALC1" "Calculus 1" 4 1 [] [] (Some "#a0B1c2") PENDING.
Definition one : Pensum.t := Pensum.mk [calc1] "Plan" 4.
Definition calc2 : Materia.data :=
  Materia.mk_data (Some "calc2") (Some "Calculus 2") (Some 4%Z) (Some 2%Z)
                  (Some ["calc1"]) None None None None.
Definition calc2_course : Materia.t :=
  Materia.mk "CALC2" "Calculus 2" 4 2 ["CALC1"] [] None PENDING.
Definition two : Pensum.t := Pensum.mk [calc1; calc2_course] "Plan" 8.
Definition padded : Materia.data :=
  Materia.mk_data (Some "calc1 ") (Some "Calculus again") (Some 3%Z) (Some 1%Z)
                  None None None None None.
End CreateSamples.

(** The data of [update_materia] that changes the semester only. *)
Definition semester_patch (semester : Z) : PensumService.patch :=
  PensumService.mk_patch None None None (Some semester) None None.

Module MoveSamples.
Definition calc3 : Materia.t :=
  Materia.mk "CALC3" "Calculus 3" 4 5 ["CALC2"] [] None PENDING.
Definition three : Pensum.t :=
  Pensum.mk [CreateSamples.calc1; CreateSamples.calc2_course; calc3] "Plan" 12.
End MoveSamples.

(* ===================================================================== *)
(** * Properties of the schedule engine                                   *)
(* ===================================================================== *)

Section MonadicLoops.
Context {A : Type}.

Lemma any_m_false (f : A → option bool) l :
  Py.any_m f l = Some false → ∀ x, x ∈ l → f x = Some false.
Proof.
  induction l as [|y l IH]; simpl; intros H x Hx.
  - by apply elem_of_nil in Hx.
  - destruct (f y) as [[]|] eqn:E; simplify_eq/=.
    apply elem_of_cons in Hx as [->|Hx]; auto.
Qed.

Lemma any_m_true (f : A → option bool) l :
  Py.any_m f l = Some true → ∃ x, x ∈ l ∧ f x = Some true.
Proof.
  induction l as [|y l IH]; simpl; intros H; [done|].
  destruct (f y) as [[]|] eqn:E; simplify_eq/=.
  - exists y. split; [left|done].
  - destruct (IH H) as (x & ? & ?). exists x. split; [by right|done].
Qed.

Lemma any_m_total (f : A → option bool) l :
  (∀ x, x ∈ l → is_Some (f x)) → is_Some (Py.any_m f l).
Proof.
  induction l as [|y l IH]; simpl; intros H; [by eexists|].
  destruct (H y) as [b Hb]; [left|]. rewrite Hb. simpl.
  destruct b; [by eexists|]. apply IH. intros x Hx. apply H. by right.
Qed.

Lemma map_m_Some {B} (f : A → option B) l ys :
  Py.map_m f l = Some ys → Forall2 (λ x y, f x = Some y) l ys.
Proof.
  revert ys. induction l as [|x l IH]; simpl; intros ys H.
  - simplify_eq. constructor.
  - destruct (f x) as [y|] eqn:E; simplify_eq/=.
    destruct (Py.map_m f l) as [ys'|] eqn:E'; simplify_eq/=.
    constructor; auto.
Qed.

Lemma map_m_total {B} (f : A → option B) l :
  (∀ x, x ∈ l → is_Some (f x)) → is_Some (Py.map_m f l).
Proof.
  induction l as [|x l IH]; simpl; intros H; [by eexists|].
  destruct (H x) as [y Hy]; [left|]. rewrite Hy. simpl.
  destruct IH as [ys Hys]. { intros z Hz. apply H. by right. }
  rewrite Hys. by eexists.
Qed.

End MonadicLoops.

(** ** Time blocks and sections *)

Lemma overlap_sym d1 s1 e1 d2 s2 e2 :
  overlap d1 s1 e1 d2 s2 e2 → overlap d2 s2 e2 d1 s1 e1.
Proof. unfold overlap. intros (-> & ? & ?). done. Qed.

Lemma overlaps_with_false a b :
  BloqueHorario.overlaps_with a b = Some false → ¬ blocks_overlap a b.
Proof.
  unfold BloqueHorario.overlaps_with, blocks_overlap, overlap, minutes.
  unfold BloqueHorario.get_start_minutes, BloqueHorario.get_end_minutes.
  case_bool_decide as Hd; simpl; [|by intros _ [? _]].
  destruct (BloqueHorario._time_to_minutes (BloqueHorario.start a)); simpl; [|done].
  destruct (BloqueHorario._time_to_minutes (BloqueHorario.end_ a)); simpl; [|done].
  destruct (BloqueHorario._time_to_minutes (BloqueHorario.start b)); simpl; [|done].
  destruct (BloqueHorario._time_to_minutes (BloqueHorario.end_ b)); simpl; [|done].
  intros [= H]. apply negb_false_iff, orb_true_iff in H.
  intros (_ & ? & ?). destruct H as [H|H]; apply Z.leb_le in H; lia.
Qed.

Lemma overlaps_with_total a b :
  wf_bloque a = true → wf_bloque b = true →
  is_Some (BloqueHorario.overlaps_with a b).
Proof.
  unfold wf_bloque, BloqueHorario.overlaps_with. intros Ha Hb.
  destruct (BloqueHorario.get_start_minutes a); [|done].
  destruct (BloqueHorario.get_end_minutes a); [|done].
  destruct (BloqueHorario.get_start_minutes b); [|done].
  destruct (BloqueHorario.get_end_minutes b); [|done].
  simpl. case_bool_decide; simpl; by eexists.
Qed.

Lemma wf_clase_elem c b :
  wf_clase c = true → b ∈ Clase.schedule c → wf_bloque b = true.
Proof.
  unfold wf_clase. rewrite forallb_forall. intros H Hb.
  apply H. by apply list_elem_of_In.
Qed.

Lemma conflicts_with_false c1 c2 :
  Clase.conflicts_with c1 c2 = Some false →
  ∀ b1 b2, b1 ∈ Clase.schedule c1 → b2 ∈ Clase.schedule c2 → ¬ blocks_overlap b1 b2.
Proof.
  intros H b1 b2 H1 H2. apply overlaps_with_false.
  eapply (any_m_false _ _ (any_m_false _ _ H b1 H1)); eauto.
Qed.

Lemma conflicts_with_total c1 c2 :
  wf_clase c1 = true → wf_clase c2 = true → is_Some (Clase.conflicts_with c1 c2).
Proof.
  intros W1 W2. apply any_m_total. intros b1 H1. apply any_m_total. intros b2 H2.
  apply overlaps_with_total; eauto using wf_clase_elem.
Qed.

Lemma conflicts_with_blocks_false c blocks :
  Clase.conflicts_with_blocks c blocks = Some false →
  ∀ b1 b2, b1 ∈ Clase.schedule c → b2 ∈ blocks → ¬ blocks_overlap b1 b2.
Proof.
  intros H b1 b2 H1 H2. apply overlaps_with_false.
  eapply (any_m_false _ _ (any_m_false _ _ H b1 H1)); eauto.
Qed.

Lemma conflicts_with_blocks_total c blocks :
  wf_clase c = true → Forall (λ b, wf_bloque b = true) blocks →
  is_Some (Clase.conflicts_with_blocks c blocks).
Proof.
  intros W1 W2. apply any_m_total. intros b1 H1. apply any_m_total. intros b2 H2.
  apply overlaps_with_total; eauto using wf_clase_elem.
  by eapply Forall_forall in W2.
Qed.

(** ** The pruning tests *)

Lemma has_internal_conflict_false combo :
  ScheduleService.has_internal_conflict combo = Some false →
  ∀ i j c1 c2, (i < j)%nat → combo !! i = Some c1 → combo !! j = Some c2 →
    Clase.conflicts_with c1 c2 = Some false.
Proof.
  induction combo as [|c combo IH]; simpl; intros H i j c1 c2 Hij Hi Hj; [done|].
  destruct (Py.any_m _ combo) as [[]|] eqn:E; simplify_eq/=.
  destruct j as [|j]; [lia|]. simpl in Hj.
  destruct i as [|i]; simplify_eq/=.
  - eapply (any_m_false _ _ E). by eapply list_elem_of_lookup_2.
  - eapply (IH H i j); eauto with lia.
Qed.

Lemma has_internal_conflict_total combo :
  Forall (λ c, wf_clase c = true) combo →
  is_Some (ScheduleService.has_internal_conflict combo).
Proof.
  induction 1 as [|c combo Hc Hall IH]; simpl; [by eexists|].
  destruct (any_m_total (λ c2, Clase.conflicts_with c c2) combo) as [b Hb].
  { intros c2 H2. apply conflicts_with_total; [done|].
    by eapply Forall_forall in Hall. }
  rewrite Hb. simpl. destruct b; [by eexists|done].
Qed.

Lemma has_blocked_conflict_total combo blocks :
  Forall (λ c, wf_clase c = true) combo →
  Forall (λ b, wf_bloque b = true) blocks →
  is_Some (ScheduleService.has_blocked_conflict combo blocks).
Proof.
  intros Hc Hb. apply any_m_total. intros c H.
  apply conflicts_with_blocks_total; [|done]. by eapply Forall_forall in Hc.
Qed.

(** A tuple that passes both tests is conflict-free. *)
Lemma valid_combo_conflict_free blocked_slots combo :
  valid_combo blocked_slots combo = true →
  (∀ i j c1 c2 b1 b2, i ≠ j → combo !! i = Some c1 → combo !! j = Some c2 →
     b1 ∈ Clase.schedule c1 → b2 ∈ Clase.schedule c2 → ¬ blocks_overlap b1 b2) ∧
  (∀ c b blocked, c ∈ combo → b ∈ Clase.schedule c → blocked ∈ blocked_slots →
     ¬ blocks_overlap b blocked).
Proof.
  unfold valid_combo.
  destruct (ScheduleService.has_internal_conflict combo) as [[]|] eqn:Hi; [done| |done].
  destruct (ScheduleService.has_blocked_conflict combo blocked_slots) as [[]|] eqn:Hb;
    [done| |done].
  intros _. split.
  - intros i j c1 c2 b1 b2 Hij H1 H2 Hb1 Hb2.
    destruct (decide (i < j)%nat).
    + eapply conflicts_with_false; [eapply (has_internal_conflict_false _ Hi i j)|..]; eauto.
    + intros Ho. apply overlap_sym in Ho. revert Ho.
      eapply conflicts_with_false; [eapply (has_internal_conflict_false _ Hi j i)|..];
        eauto with lia.
  - intros c b blocked Hc Hbc Hbl.
    eapply conflicts_with_blocks_false; eauto.
    by eapply (any_m_false _ _ Hb).
Qed.

(** ** Sorting *)

Section Sorting.
Context {K A : Type} (ltb : K → K → bool).

Lemma insert_by_key_perm k (x : A) l :
  Py.insert_by_key ltb k x l ≡ₚ (k, x) :: l.
Proof.
  induction l as [|[k' y] l IH]; simpl; [done|].
  destruct (ltb k' k); [|done]. rewrite IH. apply Permutation_swap.
Qed.

Lemma sort_keyed_perm (l : list (K * A)) : Py.sort_keyed ltb l ≡ₚ l.
Proof.
  induction l as [|[k x] l IH]; simpl; [done|].
  rewrite insert_by_key_perm. by rewrite IH.
Qed.

Lemma sorted_m_keys (key : A → option K) reverse l r :
  Py.sorted_m ltb key reverse l = Some r →
  ∃ keys, Forall2 (λ x k, key x = Some k) l keys ∧
    r = if reverse then List.rev ((Py.sort_keyed ltb (List.rev (zip keys l))).*2)
        else (Py.sort_keyed ltb (zip keys l)).*2.
Proof.
  unfold Py.sorted_m. destruct (Py.map_m key l) as [keys|] eqn:E; simpl; [|done].
  intros [= <-]. exists keys. split; [|done]. by apply map_m_Some.
Qed.

Lemma sorted_m_perm (key : A → option K) reverse l r :
  Py.sorted_m ltb key reverse l = Some r → r ≡ₚ l.
Proof.
  intros (keys & Hk & ->)%sorted_m_keys.
  assert (Hz : (zip keys l).*2 = l).
  { apply snd_zip. apply Forall2_length in Hk. lia. }
  destruct reverse.
  - rewrite <- Permutation_rev, sort_keyed_perm.
    rewrite <- Hz at 2. apply fmap_Permutation. symmetry. apply Permutation_rev.
  - by rewrite sort_keyed_perm, Hz.
Qed.

Lemma sorted_m_total (key : A → option K) reverse l :
  (∀ x, x ∈ l → is_Some (key x)) → is_Some (Py.sorted_m ltb key reverse l).
Proof.
  intros H. unfold Py.sorted_m.
  destruct (map_m_total key l H) as [keys ->]. simpl. by eexists.
Qed.

End Sorting.

(** Case analysis on the first computation of a monadic sequence. *)
Ltac case_bind :=
  match goal with
  | |- context [@mbind option _ _ _ _ ?m] => destruct m eqn:?; simpl
  | H : context [@mbind option _ _ _ _ ?m] |- _ => destruct m eqn:?; simpl in H
  end.

Lemma calculate_metrics_keeps self franjas r :
  HorarioCombination.calculate_metrics self franjas = Some r →
  HorarioCombination.clases r = HorarioCombination.clases self ∧
  HorarioCombination.id r = HorarioCombination.id self.
Proof.
  unfold HorarioCombination.calculate_metrics.
  destruct (HorarioCombination.clases self) as [|c cs] eqn:Hc.
  { intros [= <-]. by rewrite Hc. }
  case_bind; [|done]. repeat case_match.
  { intros [= <-]. done. }
  case_bind; [|done]. intros [= <-]. done.
Qed.

Lemma calculate_metrics_with_id i self franjas :
  HorarioCombination.calculate_metrics (with_id i self) franjas
  = with_id i <$> HorarioCombination.calculate_metrics self franjas.
Proof.
  unfold HorarioCombination.calculate_metrics, with_id. simpl.
  destruct (HorarioCombination.clases self) as [|c cs] eqn:Hc.
  { simpl. by rewrite Hc. }
  case_bind; [|done]. repeat case_match; [done|].
  case_bind; done.
Qed.

Abbreviation wf_blocks := (Forall (λ b, wf_bloque b = true)).

Lemma wf_bloque_start b : wf_bloque b = true → is_Some (BloqueHorario.get_start_minutes b).
Proof. unfold wf_bloque. destruct (BloqueHorario.get_start_minutes b); [by eexists|done]. Qed.

Lemma wf_bloque_end b : wf_bloque b = true → is_Some (BloqueHorario.get_end_minutes b).
Proof.
  unfold wf_bloque. destruct (BloqueHorario.get_start_minutes b); [|done].
  destruct (BloqueHorario.get_end_minutes b); [by eexists|done].
Qed.

Lemma days_used_append_wf day_val block days_used :
  wf_bloque block = true → Forall (λ kv, wf_blocks kv.2) days_used →
  Forall (λ kv, wf_blocks kv.2) (HorarioCombination.days_used_append day_val block days_used).
Proof.
  intros Hb. induction 1 as [|[d bs] r Hd Hr IH]; simpl.
  - repeat constructor. done.
  - case_decide; constructor; simpl in *; auto.
    apply Forall_app. split; [done|]. by constructor.
Qed.

Lemma collect_days_wf clases :
  Forall (λ c, wf_clase c = true) clases →
  Forall (λ kv, wf_blocks kv.2) (HorarioCombination.collect_days clases).
Proof.
  unfold HorarioCombination.collect_days.
  assert (Hgen : ∀ acc, Forall (λ kv, wf_blocks kv.2) acc →
    Forall (λ c, wf_clase c = true) clases →
    Forall (λ kv, wf_blocks kv.2)
      (fold_left (λ days_used clase,
         fold_left (λ days_used block,
            HorarioCombination.days_used_append
              (DayOfWeek_value (BloqueHorario.day block)) block days_used)
           (Clase.schedule clase) days_used) clases acc)).
  { induction clases as [|c cs IH]; simpl; intros acc Hacc Hcs; [done|].
    inversion Hcs as [|? ? Hc Hcs']; subst. apply IH; [|done].
    assert (Hs : wf_blocks (Clase.schedule c)).
    { apply Forall_forall. intros b Hb. by eapply wf_clase_elem. }
    clear -Hs Hacc. revert acc Hacc.
    induction Hs as [|b bs Hb Hbs IHb]; simpl; intros acc Hacc; [done|].
    apply IHb. by apply days_used_append_wf. }
  intros H. apply Hgen; [constructor|done].
Qed.

Lemma gaps_loop_total blocks acc :
  wf_blocks blocks → is_Some (HorarioCombination.gaps_loop blocks acc).
Proof.
  intros H. revert acc. induction H as [|b bs Hb Hbs IH]; intros acc; simpl; [by eexists|].
  destruct bs as [|b' bs']; [by eexists|].
  destruct (wf_bloque_end b Hb) as [e ->].
  inversion Hbs as [|? ? Hb' _]; subst.
  destruct (wf_bloque_start b' Hb') as [s ->]. simpl. apply IH.
Qed.

Lemma day_step_total st blocks :
  wf_blocks blocks → is_Some (HorarioCombination.day_step st blocks).
Proof.
  intros H. destruct st as [[[g gm] e] l]. unfold HorarioCombination.day_step.
  destruct (sorted_m_total Z.ltb BloqueHorario.get_start_minutes false blocks) as [sb Hsb].
  { intros b Hb. apply wf_bloque_start. by eapply Forall_forall in H. }
  rewrite Hsb. simpl.
  assert (Hwf : wf_blocks sb).
  { apply sorted_m_perm in Hsb. by rewrite Hsb. }
  assert (Hel : ∃ el, match sb with
     | [] => Some (e, l)
     | first :: _ =>
         s ← BloqueHorario.get_start_minutes first;
         e' ← BloqueHorario.get_end_minutes (List.last sb first);
         Some (Z.min e s, Z.max l e')
     end = Some el).
  { destruct sb as [|f sb']; [by eexists|].
    inversion Hwf as [|? ? Hf _]; subst.
    assert (Hl : wf_bloque (List.last (f :: sb') f) = true).
    { rewrite Forall_forall in Hwf. apply Hwf.
      apply list_elem_of_In. destruct (exists_last (l:=f :: sb')) as (l' & a & Ha); [done|].
      rewrite Ha, last_last. apply in_or_app. right. by left. }
    remember (List.last (f :: sb') f) as lst.
    destruct (wf_bloque_start f Hf) as [s ->].
    destruct (wf_bloque_end _ Hl) as [e' ->]. simpl. by eexists. }
  destruct Hel as [[e1 l1] ->]. simpl.
  destruct (gaps_loop_total sb (g, gm) Hwf) as [[g' gm'] ->]. simpl. by eexists.
Qed.

Lemma days_loop_total days_used st :
  Forall (λ kv, wf_blocks kv.2) days_used →
  is_Some (HorarioCombination.days_loop days_used st).
Proof.
  intros H. revert st. induction H as [|[d bs] r Hd Hr IH]; intros st; simpl; [by eexists|].
  destruct (day_step_total st bs Hd) as [st' ->]. simpl. apply IH.
Qed.

Lemma to_bloque_ordered f :
  ordered_franja f = true →
  Franja.to_bloque f
  = Some (BloqueHorario.mk (Franja.day f) (Franja.start f) (Franja.end_ f)).
Proof.
  unfold ordered_franja, Franja.to_bloque, BloqueHorario.new.
  intros [-> H]%andb_true_iff. revert H.
  destruct (BloqueHorario._time_to_minutes (Franja.start f)) as [s|]; [|done].
  destruct (BloqueHorario._time_to_minutes (Franja.end_ f)) as [e|]; [|done].
  simpl. intros H%Z.ltb_lt. by rewrite (proj2 (Z.leb_gt e s)).
Qed.

Lemma to_bloque_Some f b :
  Franja.to_bloque f = Some b →
  ordered_franja f = true ∧
  b = BloqueHorario.mk (Franja.day f) (Franja.start f) (Franja.end_ f).
Proof.
  unfold ordered_franja, Franja.to_bloque, BloqueHorario.new.
  destruct (_ && _); [|done]. simpl.
  destruct (BloqueHorario._time_to_minutes (Franja.start f)) as [s|]; [|done].
  destruct (BloqueHorario._time_to_minutes (Franja.end_ f)) as [e|]; [|done].
  simpl. destruct (e <=? s)%Z eqn:E; [done|]. intros [= <-].
  split; [|done]. apply Z.ltb_lt. apply Z.leb_gt in E. lia.
Qed.

Lemma ordered_franja_wf f :
  ordered_franja f = true →
  wf_bloque (BloqueHorario.mk (Franja.day f) (Franja.start f) (Franja.end_ f)) = true.
Proof. unfold ordered_franja. by intros [_ H]%andb_true_iff. Qed.

Lemma within_preferred_total block pref :
  wf_bloque block = true → ordered_franja pref = true →
  is_Some (HorarioCombination.within_preferred block pref).
Proof.
  intros Hb Hp. unfold HorarioCombination.within_preferred.
  rewrite (to_bloque_ordered _ Hp). simpl.
  apply ordered_franja_wf in Hp.
  destruct (wf_bloque_start _ Hb) as [bs ->], (wf_bloque_end _ Hb) as [be ->].
  destruct (wf_bloque_start _ Hp) as [ps ->], (wf_bloque_end _ Hp) as [pe ->].
  case_bool_decide; simpl; [|by eexists].
  destruct (ps <=? bs)%Z; simpl; by eexists.
Qed.

Lemma count_blocks_total prefs blocks n :
  Forall (λ f, ordered_franja f = true) prefs → wf_blocks blocks →
  is_Some (HorarioCombination.count_blocks prefs blocks n).
Proof.
  intros Hp Hb. revert n. induction Hb as [|b bs Hb Hbs IH]; intros n; simpl; [by eexists|].
  destruct (any_m_total (HorarioCombination.within_preferred b) prefs) as [hit ->].
  { intros p Hin. apply within_preferred_total; [done|]. by eapply Forall_forall in Hp. }
  simpl. apply IH.
Qed.

Lemma count_clases_total prefs clases n :
  Forall (λ f, ordered_franja f = true) prefs →
  Forall (λ c, wf_clase c = true) clases →
  is_Some (HorarioCombination.count_clases prefs clases n).
Proof.
  intros Hp Hc. revert n. induction Hc as [|c cs Hc Hcs IH]; intros n; simpl; [by eexists|].
  destruct (count_blocks_total prefs (Clase.schedule c) n) as [m ->]; [done| |].
  { apply Forall_forall. intros b Hb. by eapply wf_clase_elem. }
  simpl. apply IH.
Qed.

(** The metrics calculator returns normally on validated sections as soon
    as every PREFERRED preference ends after it starts. *)
Lemma calculate_metrics_total self franjas :
  Forall (λ c, wf_clase c = true) (HorarioCombination.clases self) →
  Forall (λ f, Franja.status f = PREFERRED → ordered_franja f = true) franjas →
  is_Some (HorarioCombination.calculate_metrics self franjas).
Proof.
  intros Hc Hf. unfold HorarioCombination.calculate_metrics.
  destruct (HorarioCombination.clases self) as [|c cs] eqn:E; [by eexists|].
  remember (c :: cs) as cl eqn:Hcl. clear Hcl.
  destruct (days_loop_total (HorarioCombination.collect_days cl)
              (0, 0, 24 * 60, 0)%Z) as [[[[g gm] e] l] ->].
  { by apply collect_days_wf. }
  simpl. destruct franjas as [|f fs]; [by eexists|].
  remember (f :: fs) as fl eqn:Hfl. clear Hfl.
  destruct (count_clases_total
    (filter (λ f, Franja.status f = PREFERRED) fl) cl 0%Z) as [n ->]; [|done|].
  { apply Forall_forall. intros p [Hp1 Hp2]%list_elem_of_filter.
    eapply Forall_forall in Hf; eauto. }
  simpl. by eexists.
Qed.

(** ** The generator loop *)

Section Loop.
Variable uuid4 : nat → string.
Variables (franjas : list Franja.t) (blocked_slots : list BloqueHorario.t).
Variable max_combinations : option Z.

Abbreviation accepted := (λ combo, valid_combo blocked_slots combo = true).

(** What a run of the loop that returns has done: the tuples it tested
    ([tested]), the combinations it appended ([new]), and whether it ended
    by exhausting the product or by [break] on the tuple after [tested]. *)
Lemma loop_run combos valid checked valid' checked' :
  ScheduleService.loop uuid4 franjas blocked_slots max_combinations
    combos valid checked = Some (valid', checked') →
  ∃ tested new,
    valid' = valid ++ new ∧
    HorarioCombination.clases <$> new = filter accepted tested ∧
    Forall (λ c, ∃ i, HorarioCombination.calculate_metrics
                        (HorarioCombination.new i (HorarioCombination.clases c) 0) franjas
                      = Some c) new ∧
    (∀ p x q, tested = p ++ x :: q →
       ScheduleService.limit_hit max_combinations
         (length valid + length (filter accepted p)) = false) ∧
    ((tested = combos ∧ checked' = (checked + Z.of_nat (length combos))%Z) ∨
     (∃ t rest, combos = tested ++ t :: rest ∧
        checked' = (checked + Z.of_nat (length tested) + 1)%Z ∧
        ScheduleService.limit_hit max_combinations (length valid') = true)).
Proof.
  revert valid checked.
  induction combos as [|combo rest IH]; intros valid checked; simpl.
  { intros [= <- <-]. exists [], []. rewrite app_nil_r. repeat split; auto.
    - intros p x q H. by destruct p.
    - left. split; [done|]. simpl. lia. }
  destruct (ScheduleService.limit_hit _ (length valid)) eqn:Hlim.
  { intros [= <- <-]. exists [], []. rewrite app_nil_r. repeat split; auto.
    - intros p x q H. by destruct p.
    - right. exists combo, rest. repeat split; simpl; auto; lia. }
  assert (Hcons : ∀ tested' (b : bool),
    (∀ p x q, tested' = p ++ x :: q →
       ScheduleService.limit_hit max_combinations
         (length valid + (if b then 1 else 0) + length (filter accepted p)) = false) →
    valid_combo blocked_slots combo = b →
    ∀ p x q, combo :: tested' = p ++ x :: q →
       ScheduleService.limit_hit max_combinations
         (length valid + length (filter accepted p)) = false).
  { intros tested' b Hp Hb p x q Heq. destruct p as [|y p]; simpl in *.
    - by rewrite Nat.add_0_r.
    - injection Heq as <- Heq. specialize (Hp _ _ _ Heq). subst b.
      rewrite filter_cons. destruct (decide (accepted combo)) as [Hy|Hy]; simpl.
      + rewrite Hy in Hp. rewrite <- Hp. f_equal. lia.
      + apply not_true_is_false in Hy. rewrite Hy in Hp. rewrite <- Hp. f_equal. lia. }
  assert (Hrej : valid_combo blocked_slots combo = false →
    ScheduleService.loop uuid4 franjas blocked_slots max_combinations
      rest valid (checked + 1) = Some (valid', checked') →
    ∃ tested new, valid' = valid ++ new ∧
      HorarioCombination.clases <$> new = filter accepted tested ∧
      Forall (λ c, ∃ i, HorarioCombination.calculate_metrics
                        (HorarioCombination.new i (HorarioCombination.clases c) 0) franjas
                      = Some c) new ∧
      (∀ p x q, tested = p ++ x :: q →
         ScheduleService.limit_hit max_combinations
           (length valid + length (filter accepted p)) = false) ∧
      ((tested = combo :: rest ∧
        checked' = (checked + Z.of_nat (length (combo :: rest)))%Z) ∨
       (∃ t rest', combo :: rest = tested ++ t :: rest' ∧
          checked' = (checked + Z.of_nat (length tested) + 1)%Z ∧
          ScheduleService.limit_hit max_combinations (length valid') = true))).
  { intros Hv Hloop. destruct (IH _ _ Hloop) as (tested & new & -> & Hn & Hm & Hp & Hend).
    exists (combo :: tested), new. split; [done|]. split.
    { rewrite filter_cons. destruct (decide (accepted combo)); [congruence|done]. }
    split; [done|]. split.
    { eapply (Hcons tested false); [|done]. intros p x q Heq.
      rewrite Nat.add_0_r. eauto. }
    destruct Hend as [[-> ->]|(t & rest' & -> & -> & Hl)].
    - left. split; [done|]. simpl length. lia.
    - right. exists t, rest'. split; [done|]. split; [simpl length; lia|done]. }
  destruct (ScheduleService.has_internal_conflict combo) as [[]|] eqn:Hi; simpl; [| |done].
  { apply Hrej. unfold valid_combo. by rewrite Hi. }
  destruct (ScheduleService.has_blocked_conflict combo blocked_slots) as [[]|] eqn:Hb;
    simpl; [| |done].
  { apply Hrej. unfold valid_combo. by rewrite Hi, Hb. }
  destruct (HorarioCombination.calculate_metrics _ franjas) as [combination|] eqn:Hm;
    simpl; [|done].
  intros Hloop. destruct (IH _ _ Hloop) as (tested & new & -> & Hn & Hms & Hp & Hend).
  destruct (calculate_metrics_keeps _ _ _ Hm) as [Hcl Hid]. simpl in Hcl.
  assert (Hv : valid_combo blocked_slots combo = true).
  { unfold valid_combo. by rewrite Hi, Hb. }
  exists (combo :: tested), (combination :: new).
  split; [by rewrite <- app_assoc|]. split.
  { rewrite filter_cons. destruct (decide (accepted combo)); [|done].
    by rewrite fmap_cons, Hcl, Hn. }
  split.
  { constructor; [|done]. eexists. rewrite Hcl. exact Hm. }
  split.
  { eapply (Hcons tested true); [|done]. intros p x q Heq.
    specialize (Hp _ _ _ Heq). rewrite length_app in Hp. exact Hp. }
  rewrite <- app_assoc in Hend. simpl in Hend.
  destruct Hend as [[-> ->]|(t & rest' & -> & -> & Hl)].
  - left. split; [done|]. simpl length. lia.
  - right. exists t, rest'. split; [done|]. split; [simpl length; lia|].
    by rewrite <- app_assoc.
Qed.

End Loop.

Lemma loop_total uuid4 franjas blocked_slots max_combinations combos valid checked :
  Forall (Forall (λ c, wf_clase c = true)) combos →
  wf_blocks blocked_slots →
  Forall (λ f, Franja.status f = PREFERRED → ordered_franja f = true) franjas →
  is_Some (ScheduleService.loop uuid4 franjas blocked_slots max_combinations
             combos valid checked).
Proof.
  intros Hc Hb Hf. revert valid checked.
  induction Hc as [|combo rest Hcombo Hrest IH]; intros valid checked; simpl; [by eexists|].
  destruct (ScheduleService.limit_hit _ _); [by eexists|].
  destruct (has_internal_conflict_total combo Hcombo) as [hi ->]. simpl.
  destruct hi; [apply IH|].
  destruct (has_blocked_conflict_total combo blocked_slots Hcombo Hb) as [hb ->]. simpl.
  destruct hb; [apply IH|].
  destruct (calculate_metrics_total
    (HorarioCombination.new (substring 0 8 (uuid4 (length valid))) combo 0) franjas)
    as [c ->]; [done|done|].
  simpl. apply IH.
Qed.

(** ** The Cartesian product and [total_possible] *)

Lemma product_elem {A} (pools : list (list A)) t :
  t ∈ ScheduleService.product pools → Forall2 (λ x pool, x ∈ pool) t pools.
Proof.
  revert t. induction pools as [|pool rest IH]; simpl; intros t Ht.
  - apply list_elem_of_singleton in Ht as ->. constructor.
  - apply list_elem_of_In, in_flat_map in Ht as (x & Hx & Ht).
    apply list_elem_of_In, list_elem_of_fmap in Ht as (t' & -> & Ht').
    constructor; [by apply list_elem_of_In|auto].
Qed.

Lemma product_nil_pool {A} (pools : list (list A)) :
  [] ∈ pools → ScheduleService.product pools = [].
Proof.
  induction pools as [|pool rest IH]; intros H.
  - by apply elem_of_nil in H.
  - simpl. apply elem_of_cons in H as [<-|H]; [done|].
    rewrite (IH H). by induction pool.
Qed.

Lemma total_possible_fold {A} (class_options : list (list A)) (a : Z) :
  fold_left (λ total options,
      total * (match options with [] => 1 | _ => Z.of_nat (length options) end))%Z
    class_options a = (a * possible class_options)%Z.
Proof.
  revert a. induction class_options as [|o os IH]; intros a; simpl; [lia|].
  rewrite IH. unfold candidate_factor. lia.
Qed.

Lemma length_product_le {A} (class_options : list (list A)) :
  (0 < possible class_options)%Z ∧
  (Z.of_nat (length (ScheduleService.product class_options)) ≤ possible class_options)%Z.
Proof.
  induction class_options as [|o os [IH0 IH]]; [simpl; lia|].
  assert (Hlen : length (ScheduleService.product (o :: os))
                 = (length o * length (ScheduleService.product os))%nat).
  { simpl. induction o as [|x o IHo]; simpl; [done|].
    by rewrite length_app, length_fmap, IHo. }
  rewrite Hlen. change (possible (o :: os)) with (candidate_factor o * possible os)%Z.
  assert (Hf : (1 ≤ candidate_factor o ∧ Z.of_nat (length o) ≤ candidate_factor o)%Z).
  { unfold candidate_factor. destruct o; simpl length; lia. }
  split; [apply Z.mul_pos_pos; lia|].
  rewrite Nat2Z.inj_mul. apply Z.mul_le_mono_nonneg; lia.
Qed.

(** ** Unfolding a call of [generate_combinations] *)

Lemma generate_run uuid4 cbm franjas max r :
  ScheduleService.generate_combinations uuid4 cbm franjas max = Some r →
  ∃ blocked_slots,
    Py.map_m Franja.to_bloque (filter (λ f, Franja.status f = BLOCKED) franjas)
      = Some blocked_slots ∧
    ScheduleService.loop uuid4 franjas blocked_slots max
      (ScheduleService.product cbm.*2) [] 0
      = Some (ScheduleService.combinations r, ScheduleService.total_checked r) ∧
    ScheduleService.total_generated r
      = Z.of_nat (length (ScheduleService.combinations r)) ∧
    ScheduleService.total_possible r = possible cbm.*2.
Proof.
  unfold ScheduleService.generate_combinations.
  destruct (Py.map_m _ _) as [bl|]; simpl; [|done].
  destruct (ScheduleService.loop _ _ _ _ _ _ _) as [[vs ch]|] eqn:E; simpl; [|done].
  intros [= <-]. exists bl. simpl. repeat split; auto.
  rewrite total_possible_fold. lia.
Qed.

Lemma generate_total uuid4 cbm franjas max :
  Forall (λ kv, Forall (λ c, wf_clase c = true) kv.2) cbm →
  Forall (λ f, ordered_franja f = true) franjas →
  is_Some (ScheduleService.generate_combinations uuid4 cbm franjas max).
Proof.
  intros Hc Hf. unfold ScheduleService.generate_combinations.
  destruct (map_m_total Franja.to_bloque
    (filter (λ f, Franja.status f = BLOCKED) franjas)) as [bl Hbl].
  { intros f [_ Hin]%list_elem_of_filter. rewrite to_bloque_ordered; [by eexists|].
    by eapply Forall_forall in Hf. }
  rewrite Hbl. simpl.
  destruct (loop_total uuid4 franjas bl max (ScheduleService.product cbm.*2) [] 0%Z)
    as [[vs ch] ->]; [| | |simpl; by eexists].
  - apply Forall_forall. intros t Ht%product_elem.
    apply Forall_forall. intros c Hc'.
    apply list_elem_of_lookup in Hc' as [i Hi].
    destruct (Forall2_lookup_l _ _ _ _ _ Ht Hi) as (pool & Hpool & Hin).
    apply list_lookup_fmap_Some in Hpool as (kv & -> & Hkv).
    eapply Forall_forall in Hc; [|by eapply list_elem_of_lookup_2].
    by eapply Forall_forall in Hc.
  - apply map_m_Some in Hbl. apply Forall_forall. intros b Hb.
    apply list_elem_of_lookup in Hb as [i Hi].
    destruct (Forall2_lookup_r _ _ _ _ _ Hbl Hi) as (f & Hf' & Hfb).
    apply to_bloque_Some in Hfb as [Ho ->]. by apply ordered_franja_wf.
  - eapply Forall_impl; [exact Hf|]. auto.
Qed.

(** C1.  Every combination returned by [generate_combinations] is
    conflict-free: two distinct sections of its class list have no
    overlapping time blocks, and no block of a chosen section overlaps a
    BLOCKED preference.  (The call returns whenever the sections are
    validated and every preference ends after it starts.) *)
Theorem C1_generated_combinations_conflict_free uuid4 cbm franjas max :
  (wf_input cbm → Forall (λ f, ordered_franja f = true) franjas →
   is_Some (ScheduleService.generate_combinations uuid4 cbm franjas max)) ∧
  (∀ r, ScheduleService.generate_combinations uuid4 cbm franjas max = Some r →
     ∀ combo, combo ∈ ScheduleService.combinations r → conflict_free franjas combo).
Proof.
  split; [apply generate_total|].
  intros r (bl & Hbl & Hloop & _)%generate_run combo Hcombo.
  apply loop_run in Hloop as (tested & new & Hnew & Hcl & _).
  simpl in Hnew. subst new.
  assert (Hacc : valid_combo bl (HorarioCombination.clases combo) = true).
  { assert (Hin : HorarioCombination.clases combo ∈ filter (λ c, valid_combo bl c = true) tested).
    { rewrite <- Hcl. by apply list_elem_of_fmap_2. }
    by apply list_elem_of_filter in Hin as [? _]. }
  apply valid_combo_conflict_free in Hacc as [Hint Hblk].
  split; [exact Hint|].
  intros c b f Hc Hb Hf Hst.
  apply map_m_Some in Hbl.
  assert (Hfin : f ∈ filter (λ f, Franja.status f = BLOCKED) franjas).
  { by apply list_elem_of_filter. }
  apply list_elem_of_lookup in Hfin as [i Hi].
  destruct (Forall2_lookup_l _ _ _ _ _ Hbl Hi) as (fb & Hfb & Hto).
  apply to_bloque_Some in Hto as [_ ->].
  apply (Hblk c b (BloqueHorario.mk (Franja.day f) (Franja.start f) (Franja.end_ f))
           Hc Hb).
  by eapply list_elem_of_lookup_2.
Qed.

Lemma C1_witness :
  ∃ r, ScheduleService.generate_combinations Samples.ids Samples.two_courses
         [Samples.tuesday_blocked] None = Some r ∧
       length (ScheduleService.combinations r) = 1%nat ∧
       ∀ combo, combo ∈ ScheduleService.combinations r →
         conflict_free [Samples.tuesday_blocked] combo.
Proof.
  destruct (C1_generated_combinations_conflict_free Samples.ids Samples.two_courses
              [Samples.tuesday_blocked] None) as [Htotal Hfree].
  destruct Htotal as [r Hr].
  - repeat constructor.
  - repeat constructor.
  - exists r. split; [exact Hr|]. split; [|exact (Hfree r Hr)].
    vm_compute in Hr. injection Hr as <-. reflexivity.
Defined.

Lemma limit_hit_positive k n :
  (0 < k)%Z → ScheduleService.limit_hit (Some k) n = bool_decide (k ≤ Z.of_nat n)%Z.
Proof.
  intros Hk. unfold ScheduleService.limit_hit.
  rewrite (proj2 (Z.eqb_neq k 0)) by lia. simpl.
  case_bool_decide; [by apply Z.leb_le|by apply Z.leb_gt; lia].
Qed.

(** C4.  With a positive limit the generator stops once the accepted count
    has reached the limit: at most [limit] combinations are returned (the
    first [limit] valid tuples of the product, in order), [total_checked]
    is the number of tuples drawn from the product up to the stop, whether
    accepted or not, and the loop leaves the product unfinished only on the
    tuple that follows the one that brought the count to the limit.  In
    all cases [total_generated <= total_possible], and without a limit
    [total_generated <= total_checked]. *)
Theorem C4_limit_and_counters uuid4 cbm franjas max :
  (wf_input cbm → Forall (λ f, ordered_franja f = true) franjas →
   is_Some (ScheduleService.generate_combinations uuid4 cbm franjas max)) ∧
  (∀ r, ScheduleService.generate_combinations uuid4 cbm franjas max = Some r →
     ∃ blocked_slots,
       Py.map_m Franja.to_bloque (filter (λ f, Franja.status f = BLOCKED) franjas)
         = Some blocked_slots ∧
       let tuples := ScheduleService.product cbm.*2 in
       (∀ k, max = Some k → (0 < k)%Z →
          (ScheduleService.total_generated r ≤ k)%Z ∧
          HorarioCombination.clases <$> ScheduleService.combinations r
            = take (Z.to_nat k) (filter (λ combo, valid_combo blocked_slots combo = true) tuples) ∧
          ∃ visited rest,
            tuples = visited ++ rest ∧
            ScheduleService.total_checked r = Z.of_nat (length visited) ∧
            Forall (λ c, HorarioCombination.clases c ∈ visited)
                   (ScheduleService.combinations r) ∧
            (rest = [] ∨
             ∃ pre x t, visited = pre ++ [x; t] ∧ valid_combo blocked_slots x = true ∧
               Z.of_nat (length (filter (λ combo, valid_combo blocked_slots combo = true) (pre ++ [x]))) = k)) ∧
       (ScheduleService.total_generated r ≤ ScheduleService.total_possible r)%Z ∧
       (max = None →
          ScheduleService.total_generated r ≤ ScheduleService.total_checked r)%Z).
Proof.
  split; [apply generate_total|].
  intros r (bl & Hbl & Hloop & Hgen & Hposs)%generate_run.
  exists bl. split; [done|]. intros tuples. subst tuples.
  pose proof (length_product_le cbm.*2) as [_ Hprod].
  set (tuples := ScheduleService.product cbm.*2) in *. clearbody tuples.
  apply loop_run in Hloop as (tested & new & Hnew & Hcl & _ & Hpre & Hend).
  simpl in Hnew, Hpre. subst new.
  assert (Hlen : length (ScheduleService.combinations r) = length (filter (λ combo, valid_combo bl combo = true) tested)).
  { by rewrite <- Hcl, length_fmap. }
  assert (Htested : (length tested ≤ length tuples)%nat).
  { destruct Hend as [[-> _]|(t & rest & Heq & _)]; [done|].
    rewrite Heq, length_app. lia. }
  assert (Hfl : (length (filter (λ combo, valid_combo bl combo = true) tested) ≤ length tested)%nat)
    by apply length_filter.
  split; [|split].
  - intros k -> Hk.
    assert (Hle : (Z.of_nat (length (filter (λ combo, valid_combo bl combo = true) tested)) ≤ k)%Z).
    { clear Hend Hcl Hlen Htested Hfl.
      induction tested as [|x p _] using rev_ind; [simpl; lia|].
      - specialize (Hpre p x [] eq_refl).
        rewrite limit_hit_positive in Hpre by done.
        apply bool_decide_eq_false in Hpre.
        rewrite filter_app, length_app.
        pose proof (length_filter (λ combo, valid_combo bl combo = true) [x]). simpl in *. lia. }
    split; [lia|].
    destruct Hend as [[-> ->]|(t & rest & Heq & -> & Hl)].
    + split. { rewrite Hcl. symmetry. apply take_ge. lia. }
      exists tuples, []. split; [by rewrite app_nil_r|]. split; [lia|].
      split; [|by left].
      apply Forall_forall. intros c Hc.
      assert (Hin : HorarioCombination.clases c
                    ∈ filter (λ combo, valid_combo bl combo = true) tuples).
      { rewrite <- Hcl. by apply list_elem_of_fmap_2. }
      by apply list_elem_of_filter in Hin as [_ ?].
    +       rewrite limit_hit_positive in Hl by done. apply bool_decide_eq_true in Hl.
      assert (Hk' : Z.of_nat (length (filter (λ combo, valid_combo bl combo = true) tested)) = k) by lia.
      split.
      { rewrite Hcl, Heq, filter_app, take_app_le by lia.
        symmetry. apply take_ge. lia. }
      exists (tested ++ [t]), rest. split; [by rewrite <- app_assoc|].
      split; [rewrite length_app; simpl; lia|]. split.
      { apply Forall_forall. intros c Hc.
        assert (Hin : HorarioCombination.clases c ∈ filter (λ combo, valid_combo bl combo = true) tested).
        { rewrite <- Hcl. by apply list_elem_of_fmap_2. }
        apply list_elem_of_filter in Hin as [_ ?]. apply elem_of_app. by left. }
      right. clear Hcl Hlen Htested Hfl Hle.
      induction tested as [|x p _] using rev_ind; [simpl in *; lia|].
      exists p, x, t. split; [by rewrite <- app_assoc|].
      specialize (Hpre p x [] eq_refl).
      rewrite limit_hit_positive in Hpre by done. apply bool_decide_eq_false in Hpre.
      rewrite filter_app, length_app in Hk'. split; [|by rewrite filter_app, length_app].
      rewrite filter_cons in Hk'. destruct (decide (valid_combo bl x = true)); [done|].
      simpl in *. lia.
  - lia.
  - intros ->. destruct Hend as [[-> ->]|(t & rest & _ & _ & Hl)]; [lia|done].
Qed.

Lemma C4_witness :
  ∃ r, ScheduleService.generate_combinations Samples.ids Samples.two_courses [] (Some 1%Z)
         = Some r ∧
       ScheduleService.total_generated r = 1%Z ∧
       ScheduleService.total_checked r = 3%Z ∧
       ScheduleService.total_possible r = 4%Z.
Proof.
  destruct (C4_limit_and_counters Samples.ids Samples.two_courses [] (Some 1%Z))
    as [Htotal _].
  destruct Htotal as [r Hr].
  - repeat constructor.
  - constructor.
  - exists r. split; [exact Hr|].
    vm_compute in Hr. injection Hr as <-. repeat split.
Defined.

Lemma loop_ids uuid4 uuid4' franjas blocked_slots max combos valid valid' checked :
  with_id "" <$> valid = with_id "" <$> valid' →
  forget_loop_ids
    <$> ScheduleService.loop uuid4 franjas blocked_slots max combos valid checked
  = forget_loop_ids
    <$> ScheduleService.loop uuid4' franjas blocked_slots max combos valid' checked.
Proof.
  revert valid valid' checked.
  induction combos as [|combo rest IH]; intros valid valid' checked Hv; simpl.
  { unfold forget_loop_ids. simpl. by rewrite Hv. }
  assert (Hlen : length valid = length valid').
  { by rewrite <- (length_fmap (with_id "") valid), Hv, length_fmap. }
  rewrite <- Hlen. destruct (ScheduleService.limit_hit max (length valid)).
  { unfold forget_loop_ids. simpl. by rewrite Hv. }
  destruct (ScheduleService.has_internal_conflict combo) as [[]|]; simpl; [by apply IH| |done].
  destruct (ScheduleService.has_blocked_conflict combo blocked_slots) as [[]|]; simpl;
    [by apply IH| |done].
  change (HorarioCombination.new (substring 0 8 (uuid4 (length valid))) combo 0)
    with (with_id (substring 0 8 (uuid4 (length valid))) (HorarioCombination.new "" combo 0)).
  change (HorarioCombination.new (substring 0 8 (uuid4' (length valid))) combo 0)
    with (with_id (substring 0 8 (uuid4' (length valid))) (HorarioCombination.new "" combo 0)).
  rewrite !calculate_metrics_with_id.
  destruct (HorarioCombination.calculate_metrics _ franjas) as [c|]; simpl; [|done].
  apply IH. rewrite !fmap_app, Hv. done.
Qed.

(** C5.  [generate_combinations] is deterministic: the function of the
    course map (in the caller's iteration order), the preferences and the
    limit is fixed, and two runs that draw different random identifiers
    either both raise or return the same combinations in the same order
    (same class lists, same metrics, same counters); only the opaque [id]
    tokens differ. *)
Theorem C5_generation_deterministic uuid4 uuid4' cbm franjas max :
  forget_ids <$> ScheduleService.generate_combinations uuid4 cbm franjas max
  = forget_ids <$> ScheduleService.generate_combinations uuid4' cbm franjas max.
Proof.
  unfold ScheduleService.generate_combinations.
  destruct (Py.map_m _ _) as [bl|]; simpl; [|done].
  pose proof (loop_ids uuid4 uuid4' franjas bl max
                (ScheduleService.product cbm.*2) [] [] 0%Z eq_refl) as H.
  destruct (ScheduleService.loop uuid4 _ _ _ _ _ _) as [[vs ch]|];
    destruct (ScheduleService.loop uuid4' _ _ _ _ _ _) as [[vs' ch']|];
    simpl in *; try done.
  injection H as Hvs ->. unfold forget_ids. simpl.
  rewrite Hvs. do 3 f_equal.
  by rewrite <- (length_fmap (with_id "") vs), Hvs, length_fmap.
Qed.




(** C3 (first half).  [total_possible] is the product of the candidate
    counts in which an empty list counts for 1. *)
Lemma total_possible_counts_empty_as_one uuid4 cbm franjas max r :
  ScheduleService.generate_combinations uuid4 cbm franjas max = Some r →
  ScheduleService.total_possible r = possible cbm.*2 ∧
  (1 ≤ ScheduleService.total_possible r)%Z.
Proof.
  intros (bl & _ & _ & _ & ->)%generate_run. split; [done|].
  pose proof (length_product_le cbm.*2). lia.
Qed.

(** C3 (second half, where the code departs from the claim).  A course
    whose candidate list is empty is not skipped by the enumeration: the
    product is empty, no tuple is checked and no combination is produced,
    whatever the other courses offer. *)
Lemma empty_course_yields_nothing uuid4 cbm franjas max r :
  [] ∈ cbm.*2 →
  ScheduleService.generate_combinations uuid4 cbm franjas max = Some r →
  ScheduleService.combinations r = [] ∧
  ScheduleService.total_generated r = 0%Z ∧
  ScheduleService.total_checked r = 0%Z.
Proof.
  intros Hempty (bl & _ & Hloop & Hgen & _)%generate_run.
  rewrite (product_nil_pool _ Hempty) in Hloop. simpl in Hloop.
  injection Hloop as Hc <-. rewrite Hgen, <- Hc. done.
Qed.

(** C3 at a concrete input: course A offers two sections and course B
    none.  [total_possible] is 2, yet nothing is generated. *)
Theorem C3_empty_course_not_skipped :
  let r := ScheduleService.generate_combinations Samples.ids Samples.one_empty [] None in
  ScheduleService.total_possible <$> r = Some 2%Z ∧
  ScheduleService.combinations <$> r = Some [] ∧
  ScheduleService.total_generated <$> r = Some 0%Z ∧
  ScheduleService.total_checked <$> r = Some 0%Z ∧
  (* the same request without course B *)
  ScheduleService.total_generated
    <$> ScheduleService.generate_combinations Samples.ids [("A", [Samples.a1; Samples.a2])]
          [] None = Some 2%Z.
Proof. vm_compute. repeat split. Qed.

(** ** The preferred-slot count *)

Lemma within_preferred_Some block pref hit :
  HorarioCombination.within_preferred block pref = Some hit →
  hit = true ↔ nested_in block pref.
Proof.
  unfold HorarioCombination.within_preferred.
  destruct (Franja.to_bloque pref) as [pb|] eqn:Hpb; simpl; [|done].
  apply to_bloque_Some in Hpb as [_ ->]. simpl.
  unfold nested_in, minutes, BloqueHorario.get_start_minutes, BloqueHorario.get_end_minutes.
  simpl.
  case_bool_decide as Hd; simpl; [|intros [= <-]; split; [done|by intros [? _]]].
  destruct (BloqueHorario._time_to_minutes (BloqueHorario.start block)) as [bs|];
    simpl; [|done].
  destruct (BloqueHorario._time_to_minutes (Franja.start pref)) as [ps|]; simpl; [|done].
  destruct (ps <=? bs)%Z eqn:Hs; simpl.
  - destruct (BloqueHorario._time_to_minutes (BloqueHorario.end_ block)) as [be|];
      simpl; [|done].
    destruct (BloqueHorario._time_to_minutes (Franja.end_ pref)) as [pe|]; simpl; [|done].
    intros [= <-]. apply Z.leb_le in Hs. rewrite Z.leb_le.
    split; [by intros ?|by intros (_ & _ & ?)].
  - intros [= <-]. apply Z.leb_gt in Hs. split; [done|]. intros (_ & ? & _). lia.
Qed.

Lemma any_within_preferred franjas block hit :
  Py.any_m (HorarioCombination.within_preferred block)
           (filter (λ f, Franja.status f = PREFERRED) franjas) = Some hit →
  hit = true ↔ in_preferred_slot franjas block.
Proof.
  intros H. unfold in_preferred_slot. rewrite Exists_exists. destruct hit.
  - apply any_m_true in H as (p & [Hst Hin]%list_elem_of_filter & Hp).
    apply within_preferred_Some in Hp. split; [|done]. intros _. exists p.
    split; [done|]. split; [done|]. by apply Hp.
  - split; [done|]. intros (p & Hin & Hst & Hn).
    pose proof (any_m_false _ _ H p) as Hp.
    rewrite list_elem_of_filter in Hp. specialize (Hp (conj Hst Hin)).
    apply within_preferred_Some in Hp. by apply Hp.
Qed.

Lemma count_blocks_spec franjas blocks n m :
  HorarioCombination.count_blocks
    (filter (λ f, Franja.status f = PREFERRED) franjas) blocks n = Some m →
  m = (n + Z.of_nat (length (filter (in_preferred_slot franjas) blocks)))%Z.
Proof.
  revert n. induction blocks as [|b bs IH]; intros n; simpl.
  { intros [= <-]. lia. }
  destruct (Py.any_m _ _) as [hit|] eqn:Hhit; simpl; [|done].
  apply any_within_preferred in Hhit. intros ->%IH.
  rewrite filter_cons. destruct (decide (in_preferred_slot franjas b)) as [Hb|Hb].
  - rewrite (proj2 Hhit Hb). simpl length. lia.
  - destruct hit; [by destruct Hb; apply Hhit|lia].
Qed.

Lemma count_clases_spec franjas clases n m :
  HorarioCombination.count_clases
    (filter (λ f, Franja.status f = PREFERRED) franjas) clases n = Some m →
  m = (n + preferred_blocks clases franjas)%Z.
Proof.
  unfold preferred_blocks. revert n. induction clases as [|c cs IH]; intros n; simpl.
  { intros [= <-]. lia. }
  destruct (HorarioCombination.count_blocks _ _ _) as [k|] eqn:Hk; simpl; [|done].
  apply count_blocks_spec in Hk as ->. intros ->%IH.
  rewrite filter_app, length_app. lia.
Qed.

(** C8.  For a combination with at least one class and a non-empty list of
    preferences, [calculate_metrics] sets [preferred_slots_used] to the
    number of section blocks that are same-day and fully nested inside at
    least one PREFERRED preference, each block counted at most once.  (The
    call returns whenever the sections are validated and every PREFERRED
    preference ends after it starts.) *)
Theorem C8_preferred_slots_used self franjas :
  HorarioCombination.clases self ≠ [] → franjas ≠ [] →
  (Forall (λ c, wf_clase c = true) (HorarioCombination.clases self) →
   Forall (λ f, Franja.status f = PREFERRED → ordered_franja f = true) franjas →
   is_Some (HorarioCombination.calculate_metrics self franjas)) ∧
  (∀ r, HorarioCombination.calculate_metrics self franjas = Some r →
     HorarioCombination.preferred_slots_used r
     = preferred_blocks (HorarioCombination.clases self) franjas).
Proof.
  intros Hc Hf. split; [apply calculate_metrics_total|].
  intros r. unfold HorarioCombination.calculate_metrics.
  destruct (HorarioCombination.clases self) as [|c cs]; [done|].
  remember (c :: cs) as cl eqn:Hcl. clear Hcl.
  case_bind; [|done]. repeat case_match; [done|].
  case_bind; [|done]. intros [= <-]. simpl.
  match goal with H : HorarioCombination.count_clases _ _ _ = Some _ |- _ =>
    apply count_clases_spec in H as -> end.
  lia.
Qed.

Lemma C8_witness :
  ∃ r, HorarioCombination.calculate_metrics
         (HorarioCombination.new "c0" [Samples.a1; Samples.b1] 0)
         [Samples.monday_morning; Samples.monday_early; Samples.tuesday_blocked] = Some r ∧
       HorarioCombination.preferred_slots_used r = 2%Z.
Proof.
  destruct (C8_preferred_slots_used
              (HorarioCombination.new "c0" [Samples.a1; Samples.b1] 0)
              [Samples.monday_morning; Samples.monday_early; Samples.tuesday_blocked])
    as [Htotal Hcount]; [done|done|].
  destruct Htotal as [r Hr].
  - repeat constructor.
  - repeat constructor; done.
  - exists r. split; [exact Hr|]. rewrite (Hcount r Hr). vm_compute. reflexivity.
Defined.

(** An ill-ordered PREFERRED preference makes the call raise as soon as a
    block is compared with it. *)
Example calculate_metrics_raises :
  HorarioCombination.calculate_metrics
    (HorarioCombination.new "c0" [Samples.a1] 0) [Samples.backwards] = None.
Proof. reflexivity. Qed.

(** ** Sorting by a key *)

Section SortedByKey.
Context {A : Type}.

Abbreviation key_le := (λ a b : Z * A, (a.1 ≤ b.1)%Z).

Lemma insert_by_key_sorted k (x : A) l :
  StronglySorted key_le l → StronglySorted key_le (Py.insert_by_key Z.ltb k x l).
Proof.
  induction 1 as [|[k' y] l Hl IH Hall]; simpl; [repeat constructor|].
  destruct (k' <? k)%Z eqn:E.
  - apply Z.ltb_lt in E. constructor; [done|].
    rewrite insert_by_key_perm. constructor; [simpl; lia|done].
  - apply Z.ltb_ge in E. constructor; [by constructor|].
    constructor; [done|]. eapply Forall_impl; [exact Hall|]. simpl. intros; lia.
Qed.

Lemma sort_keyed_sorted (l : list (Z * A)) : StronglySorted key_le (Py.sort_keyed Z.ltb l).
Proof.
  induction l as [|[k x] l IH]; simpl; [constructor|]. by apply insert_by_key_sorted.
Qed.

Lemma StronglySorted_rev (R : relation A) l :
  StronglySorted R l → StronglySorted (flip R) (List.rev l).
Proof.
  induction 1 as [|x l Hl IH Hall]; simpl; [constructor|].
  apply StronglySorted_app_2; [|done|repeat constructor].
  intros y z Hy ->%list_elem_of_singleton. unfold flip.
  eapply Forall_forall in Hall; [done|]. by apply list_elem_of_In, in_rev, list_elem_of_In.
Qed.

Lemma keyed_sorted_values (g : A → Z) (l : list (Z * A)) :
  Forall (λ kx, kx.1 = g kx.2) l →
  StronglySorted key_le l → StronglySorted (λ x y, (g x ≤ g y)%Z) l.*2.
Proof.
  intros Hk Hs. induction Hs as [|[k x] l Hl IH Hall]; csimpl; [constructor|].
  inversion Hk as [|? ? Hkx Hkl]; subst. simpl in Hkx. constructor; [auto|].
  rewrite Forall_fmap. rewrite Forall_forall in Hall, Hkl |- *.
  intros [k' y] Hin. specialize (Hall _ Hin). specialize (Hkl _ Hin). simpl in *. lia.
Qed.

(** Sorting on the key [g] without [reverse] gives an ascending list. *)
Lemma sorted_m_ascending (g : A → Z) l r :
  Py.sorted_m Z.ltb (λ x, Some (g x)) false l = Some r →
  StronglySorted (λ x y, (g x ≤ g y)%Z) r.
Proof.
  intros (keys & Hk & ->)%sorted_m_keys.
  apply keyed_sorted_values; [|apply sort_keyed_sorted].
  rewrite sort_keyed_perm. apply Forall_forall. intros [k x] Hin.
  apply list_elem_of_lookup in Hin as [i Hi].
  apply lookup_zip_with_Some in Hi as (k' & x' & [= -> ->] & Hk' & Hx').
  destruct (Forall2_lookup_l _ _ _ _ _ Hk Hx') as (k'' & Hk'' & [= <-]).
  simpl. congruence.
Qed.

(** Sorting on the negated key with [reverse=True] gives an ascending
    list as well. *)
Lemma sorted_m_negated_reverse (g : A → Z) l r :
  Py.sorted_m Z.ltb (λ x, Some (- g x)%Z) true l = Some r →
  StronglySorted (λ x y, (g x ≤ g y)%Z) r.
Proof.
  intros (keys & Hk & ->)%sorted_m_keys.
  assert (Hs : StronglySorted (λ x y, (- g x ≤ - g y)%Z)
                 (Py.sort_keyed Z.ltb (List.rev (zip keys l))).*2).
  { apply keyed_sorted_values; [|apply sort_keyed_sorted].
    rewrite sort_keyed_perm, <- Permutation_rev. apply Forall_forall. intros [k x] Hin.
    apply list_elem_of_lookup in Hin as [i Hi].
    apply lookup_zip_with_Some in Hi as (k' & x' & [= -> ->] & Hk' & Hx').
    destruct (Forall2_lookup_l _ _ _ _ _ Hk Hx') as (k'' & Hk'' & [= <-]).
    simpl. congruence. }
  apply StronglySorted_rev in Hs.
  eapply (StronglySorted_fmap id) in Hs; [by rewrite list_fmap_id in Hs|].
  unfold flip. simpl. intros; lia.
Qed.

End SortedByKey.

Lemma filter_m_total {A} (p : A → option bool) l :
  (∀ x, x ∈ l → is_Some (p x)) → is_Some (ScheduleService.filter_m p l).
Proof.
  induction l as [|x l IH]; simpl; intros H; [by eexists|].
  destruct (H x) as [b ->]; [left|]. simpl.
  destruct IH as [ys ->]; [|simpl; by eexists]. intros y Hy. apply H. by right.
Qed.

Lemma filter_m_elem {A} (p : A → option bool) l r :
  ScheduleService.filter_m p l = Some r → ∀ x, x ∈ r → x ∈ l.
Proof.
  revert r. induction l as [|y l IH]; simpl; intros r.
  { by intros [= <-]. }
  destruct (p y) as [b|]; simpl; [|done].
  destruct (ScheduleService.filter_m p l) as [ys|]; simpl; [|done].
  intros [= <-] x Hx. destruct b.
  - apply elem_of_cons in Hx as [->|Hx]; [left|right; eauto].
  - right; eauto.
Qed.

Lemma Forall_filter_keep {A} (P Q : A → Prop) `{∀ x, Decision (Q x)} l :
  Forall P l → Forall P (filter Q l).
Proof.
  rewrite !Forall_forall. intros HP x [_ Hx]%list_elem_of_filter. auto.
Qed.

Lemma apply_numeric_filters_wf combinations f :
  Forall wf_combination combinations →
  Forall wf_combination (ScheduleService.apply_numeric_filters combinations f).
Proof.
  intros H. unfold ScheduleService.apply_numeric_filters.
  destruct (ScheduleService.min_free_days f), (ScheduleService.max_gaps f),
    (ScheduleService.max_gap_minutes f); auto using Forall_filter_keep.
Qed.

Lemma apply_earliest_start_total filtered f :
  wf_filters f → Forall wf_combination filtered →
  ∃ r, ScheduleService.apply_earliest_start filtered f = Some r ∧ Forall wf_combination r.
Proof.
  intros [He _] Hc. unfold ScheduleService.apply_earliest_start.
  destruct (ScheduleService.earliest_start f) as [s|]; [|by exists filtered].
  destruct (He s eq_refl) as [[m Hm]| ->]; [|by exists filtered].
  destruct s; [by exists filtered|]. rewrite Hm. simpl.
  destruct (filter_m_total (λ c,
        m' ← BloqueHorario._time_to_minutes (HorarioCombination.earliest_start c);
        Some (m <=? m')%Z) filtered) as [r Hr].
  { intros c Hin. rewrite Forall_forall in Hc. destruct (Hc c Hin) as [[m' ->] _].
    simpl. by eexists. }
  exists r. split; [done|]. rewrite Forall_forall in Hc |- *.
  intros c Hin. apply Hc. by eapply filter_m_elem.
Qed.

Lemma apply_latest_end_total filtered f :
  wf_filters f → Forall wf_combination filtered →
  is_Some (ScheduleService.apply_latest_end filtered f).
Proof.
  intros [_ Hl] Hc. unfold ScheduleService.apply_latest_end.
  destruct (ScheduleService.latest_end f) as [s|]; [|by eexists].
  destruct (Hl s eq_refl) as [[m Hm]| ->]; [|by eexists].
  destruct s; [by eexists|]. rewrite Hm. simpl.
  apply filter_m_total. intros c Hin. rewrite Forall_forall in Hc.
  destruct (Hc c Hin) as [_ [m' ->]]. simpl. by eexists.
Qed.

Lemma apply_filters_total combinations f :
  wf_filters f → Forall wf_combination combinations →
  is_Some (ScheduleService.apply_filters combinations f).
Proof.
  intros Hf Hc. unfold ScheduleService.apply_filters.
  destruct (apply_earliest_start_total
              (ScheduleService.apply_numeric_filters combinations f) f)
    as (r & -> & Hr); [done|by apply apply_numeric_filters_wf|].
  simpl. by apply apply_latest_end_total.
Qed.

(** C2.  With [sort_by] equal to [gaps_count] or [gaps_minutes] the list
    returned by [filter_combinations] is in ascending order of that metric
    whatever [sort_order] says (asc, desc, anything else, or absent): it
    is the filtered list, rearranged so that lower values come first.
    The call returns whenever the time strings involved convert (such a
    string is ASCII text, see [parses_ascii] below); without time bounds
    no string is converted and the call returns for every list. *)
Theorem C2_gaps_sort_is_always_ascending combinations f metric :
  (ScheduleService.sort_by f = Some (Some "gaps_count") ∧
   metric = HorarioCombination.gaps_count) ∨
  (ScheduleService.sort_by f = Some (Some "gaps_minutes") ∧
   metric = HorarioCombination.gaps_minutes) →
  (wf_filters f → Forall wf_combination combinations →
   is_Some (ScheduleService.filter_combinations combinations f)) ∧
  (∀ r, ScheduleService.filter_combinations combinations f = Some r →
     StronglySorted (λ a b, (metric a ≤ metric b)%Z) r ∧
     ∃ filtered, ScheduleService.apply_filters combinations f = Some filtered ∧
                 r ≡ₚ filtered) ∧
  (ScheduleService.earliest_start f = None → ScheduleService.latest_end f = None →
   ∃ r, ScheduleService.filter_combinations combinations f = Some r ∧
        StronglySorted (λ a b, (metric a ≤ metric b)%Z) r ∧
        r ≡ₚ ScheduleService.apply_numeric_filters combinations f).
Proof.
  intros Hsort.
  assert (Hsorted : ∀ r, ScheduleService.filter_combinations combinations f = Some r →
     StronglySorted (λ a b, (metric a ≤ metric b)%Z) r ∧
     ∃ filtered, ScheduleService.apply_filters combinations f = Some filtered ∧
                 r ≡ₚ filtered); [|split; [|split; [exact Hsorted|]]];
    unfold ScheduleService.filter_combinations in *.
  3: { intros He Hl.
    assert (Hap : ScheduleService.apply_filters combinations f
                  = Some (ScheduleService.apply_numeric_filters combinations f)).
    { unfold ScheduleService.apply_filters, ScheduleService.apply_earliest_start,
        ScheduleService.apply_latest_end. by rewrite He, Hl. }
    assert (Htot : is_Some (filtered ← ScheduleService.apply_filters combinations f;
       let sort_by := default (Some "free_days") (ScheduleService.sort_by f) in
       let sort_order := default (Some "desc") (ScheduleService.sort_order f) in
       let reverse := bool_decide (sort_order = Some "desc") in
       match sort_by ≫= ScheduleService.sort_key_map with
       | Some key =>
           let reverse :=
             if bool_decide (sort_by = Some "gaps_count")
                || bool_decide (sort_by = Some "gaps_minutes")
             then bool_decide (sort_order = Some "asc")
             else reverse in
           Py.sorted_m Z.ltb (key reverse) reverse filtered
       | None => Some filtered
       end)).
    { rewrite Hap. simpl.
      destruct Hsort as [[-> ->]|[-> ->]]; simpl; apply sorted_m_total; by eexists. }
    destruct Htot as [r Hr]. exists r. split; [exact Hr|].
    destruct (Hsorted r Hr) as (Hs & filtered & Hf & Hperm).
    split; [exact Hs|]. rewrite Hap in Hf. by injection Hf as <-. }
  2: { intros Hf Hc. destruct (apply_filters_total combinations f Hf Hc) as [l ->]. simpl.
    destruct Hsort as [[-> ->]|[-> ->]]; simpl; apply sorted_m_total; by eexists. }
  - intros r. destruct (ScheduleService.apply_filters combinations f) as [l|];
      simpl; [|done].
    intros Hr. split; [|exists l; split; [done|]].
    + destruct Hsort as [[Hs ->]|[Hs ->]]; rewrite Hs in Hr; simpl in Hr;
        case_bool_decide;
        first [by eapply sorted_m_negated_reverse | by eapply sorted_m_ascending].
    + destruct Hsort as [[Hs ->]|[Hs ->]]; rewrite Hs in Hr; simpl in Hr;
        by eapply sorted_m_perm.
Qed.

Lemma C2_witness :
  (λ l : list HorarioCombination.t, HorarioCombination.id <$> l) <$>
    ScheduleService.filter_combinations FilterSamples.combos (FilterSamples.by_gaps "desc")
  = Some ["y"; "w"; "z"; "x"] ∧
  ∃ r, ScheduleService.filter_combinations FilterSamples.combos
         (FilterSamples.by_gaps "desc") = Some r ∧
       StronglySorted (λ a b, (HorarioCombination.gaps_count a
                               ≤ HorarioCombination.gaps_count b)%Z) r.
Proof.
  split; [reflexivity|].
  destruct (C2_gaps_sort_is_always_ascending FilterSamples.combos
              (FilterSamples.by_gaps "desc") HorarioCombination.gaps_count)
    as (Htotal & Hsorted & _).
  - left. split; reflexivity.
  - destruct Htotal as [r Hr].
    + split; intros s Hs; discriminate Hs.
    + repeat constructor; by eexists.
    + exists r. split; [exact Hr|]. exact (proj1 (Hsorted r Hr)).
Defined.

(** The two requests give the same list on the sample. *)
Example gaps_sort_asc_desc_agree :
  ScheduleService.filter_combinations FilterSamples.combos (FilterSamples.by_gaps "asc")
  = ScheduleService.filter_combinations FilterSamples.combos (FilterSamples.by_gaps "desc").
Proof. reflexivity. Qed.

(** *** The texts that [_time_to_minutes] converts

    A text that converts consists of digits, underscores, signs, a colon
    and the whitespace [int()] skips: it is ASCII text, on which [int()]
    is the function above. *)

Lemma c_space_ascii c : Py.is_c_space c = true → Py.is_ascii_char c = true.
Proof. destruct c as [[] [] [] [] [] [] [] []]; intros H; try reflexivity; discriminate H. Qed.

Lemma digit_ascii c d : Py.digit_val c = Some d → Py.is_ascii_char c = true.
Proof. destruct c as [[] [] [] [] [] [] [] []]; intros H; try reflexivity; discriminate H. Qed.

Lemma lstrip_c_split cs :
  ∃ sp, cs = sp ++ Py.lstrip_c cs ∧ Forall (λ c, Py.is_c_space c = true) sp.
Proof.
  induction cs as [|c cs (sp & IH & Hsp)]; [by exists []|]. cbn [Py.lstrip_c].
  destruct (Py.is_c_space c) eqn:E; [|by exists []].
  exists (c :: sp). split; [cbn [app]; by f_equal|by constructor].
Qed.

Lemma int_digits_ascii acc after cs n :
  Py.int_digits acc after cs = Some n → Forall (λ c, Py.is_ascii_char c = true) cs.
Proof.
  revert acc after. induction cs as [|c cs IH]; intros acc after; [by constructor|].
  cbn [Py.int_digits]. destruct (Ascii.eqb_spec c "_") as [->|_].
  - destruct after; [|done]. intros H. constructor; [done|by eapply IH].
  - destruct (Py.digit_val c) as [d|] eqn:Hd; [|done]. cbn [mbind option_bind].
    intros H. constructor; [by eapply digit_ascii|by eapply IH].
Qed.

Lemma int_ascii cs n : Py.int cs = Some n → Forall (λ c, Py.is_ascii_char c = true) cs.
Proof.
  unfold Py.int. cbv zeta.
  destruct (lstrip_c_split cs) as (sp1 & H1 & Hsp1).
  destruct (lstrip_c_split (reverse (Py.lstrip_c cs))) as (sp2 & H2 & Hsp2).
  set (core := reverse (Py.lstrip_c (reverse (Py.lstrip_c cs)))) in *.
  assert (Hcs : cs = sp1 ++ core ++ reverse sp2).
  { rewrite H1 at 1. f_equal. unfold core. rewrite <- reverse_app, <- H2.
    by rewrite reverse_involutive. }
  intros Hint.
  assert (Hcore : Forall (λ c, Py.is_ascii_char c = true) core).
  { destruct (match core with
              | "+"%char :: r => Py.int_digits 0 false r
              | "-"%char :: r => Z.opp <$> Py.int_digits 0 false r
              | r => Py.int_digits 0 false r
              end) as [m|] eqn:Hm; [|done]. clear Hint.
    destruct core as [|c r]; [by constructor|].
    destruct (Ascii.eqb_spec c "+") as [->|Hp].
    { constructor; [done|by eapply int_digits_ascii]. }
    destruct (Ascii.eqb_spec c "-") as [->|Hn].
    { constructor; [done|]. destruct (Py.int_digits 0 false r) eqn:E; [|done].
      by eapply int_digits_ascii. }
    assert (Hd : Py.int_digits 0 false (c :: r) = Some m).
    { revert Hm. destruct c as [[] [] [] [] [] [] [] []]; try done. }
    by eapply int_digits_ascii. }
  rewrite Hcs. apply Forall_app. split; [|apply Forall_app; split; [done|]].
  - eapply Forall_impl; [exact Hsp1|]. apply c_space_ascii.
  - apply Forall_reverse. eapply Forall_impl; [exact Hsp2|]. apply c_space_ascii.
Qed.

Lemma split_Forall (P : ascii → Prop) sep cs :
  P sep → Forall (Forall P) (Py.split sep cs) → Forall P cs.
Proof.
  intros Hsep. induction cs as [|c cs IH]; [by constructor|]. cbn [Py.split].
  destruct (Ascii.eqb_spec c sep) as [->|_].
  - intros [_ H]%Forall_cons. constructor; [done|by apply IH].
  - destruct (Py.split sep cs) as [|w ws].
    + intros [[Hc _]%Forall_cons _]%Forall_cons. constructor; [done|]. apply IH. constructor.
    + intros [[Hc Hw]%Forall_cons Hws]%Forall_cons. constructor; [done|].
      apply IH. by constructor.
Qed.

Lemma parses_ascii time_str : parses time_str → Py.is_ascii time_str = true.
Proof.
  unfold parses, BloqueHorario._time_to_minutes, Py.is_ascii. intros [n Hn].
  apply forallb_forall. intros c Hc%list_elem_of_In. revert c Hc. apply Forall_forall.
  apply (split_Forall _ ":"%char); [done|].
  destruct (Py.split ":" (list_ascii_of_string time_str)) as [|h [|m [|? ?]]]; try done.
  destruct (Py.int h) as [hours|] eqn:Hh; [|done].
  destruct (Py.int m) as [minutes|] eqn:Hm; [|done].
  repeat constructor; by eapply int_ascii.
Qed.

(** The unit separator (character 31) is whitespace for [str.strip()] but
    not for [int()]: a bound with it in front does not convert. *)
Example unit_separator_not_skipped :
  BloqueHorario._time_to_minutes (String (ascii_of_nat 31) "07:00") = None ∧
  Py.strip_str (String (ascii_of_nat 31) "07:00") = "07:00".
Proof. split; reflexivity. Qed.

(* ===================================================================== *)
(** * Properties of the prerequisite-graph validator                      *)
(* ===================================================================== *)

(** ** The dicts built by the first loop *)

Section BuildGraph.
Variable cs : gset string.

Lemma dget_insert {V} (d : V) (m : gmap string V) k k' x :
  PensumService.dget d (<[k := x]> m) k' = if decide (k = k') then x else PensumService.dget d m k'.
Proof.
  unfold PensumService.dget. rewrite lookup_insert. by case_decide.
Qed.

Lemma add_edge_holds code st E prereq :
  holds st E →
  holds (PensumService.add_edge cs code st prereq)
        (E ++ ((λ q, (q, code)) <$> filter (λ q, q ∈ cs) [prereq])).
Proof.
  destruct st as [g d]. intros [Hg Hd]. unfold PensumService.add_edge.
  rewrite filter_cons, filter_nil. destruct (decide (prereq ∈ cs)); simpl.
  - split; simpl.
    + intros u. rewrite dget_insert, filter_app, fmap_app, filter_cons, filter_nil. simpl.
      rewrite Hg. destruct (decide (prereq = u)) as [->|]; simpl; [done|].
      by rewrite app_nil_r.
    + intros v. rewrite dget_insert, filter_app, length_app, filter_cons, filter_nil. simpl.
      rewrite !Hd. destruct (decide (code = v)) as [->|]; simpl; lia.
  - by rewrite app_nil_r.
Qed.

Lemma add_edges_holds code st E prereqs :
  holds st E →
  holds (fold_left (PensumService.add_edge cs code) prereqs st)
        (E ++ ((λ q, (q, code)) <$> filter (λ q, q ∈ cs) prereqs)).
Proof.
  revert st E. induction prereqs as [|q qs IH]; intros st E H; simpl.
  { by rewrite ?filter_nil, app_nil_r. }
  apply (add_edge_holds code _ _ q) in H. apply IH in H.
  rewrite <- app_assoc, <- fmap_app, <- filter_app in H. exact H.
Qed.

Lemma add_materia_holds st E m :
  holds st E →
  holds (PensumService.add_materia cs st m) (E ++ edges cs [m]).
Proof.
  destruct st as [g d]. intros [Hg Hd]. unfold PensumService.add_materia, edges.
  simpl. rewrite app_nil_r. apply add_edges_holds. split; simpl; [done|].
  intros v. rewrite dget_insert. case_decide; subst; [|done].
  rewrite <- Hd. done.
Qed.

Lemma build_graph_holds materias :
  holds (PensumService.build_graph cs materias) (edges cs materias).
Proof.
  unfold PensumService.build_graph.
  assert (Hgen : ∀ st E, holds st E →
            holds (fold_left (PensumService.add_materia cs) materias st)
                  (E ++ edges cs materias)).
  { induction materias as [|m ms IH]; intros st E H; simpl.
    - by rewrite app_nil_r.
    - apply (add_materia_holds _ _ m) in H. apply IH in H.
      rewrite <- app_assoc in H. unfold edges in H |- *. simpl in H |- *.
      by rewrite app_nil_r in H. }
  apply (Hgen (∅, ∅) []). split; intros; done.
Qed.

End BuildGraph.

Lemma occurrences_cons v x l :
  occurrences v (x :: l) = ((if decide (x = v) then 1 else 0) + occurrences v l)%Z.
Proof.
  unfold occurrences. rewrite filter_cons. destruct (decide (x = v)); simpl; lia.
Qed.

Lemma occurrences_nonneg v l : (0 ≤ occurrences v l)%Z.
Proof. unfold occurrences. lia. Qed.

Lemma occurrences_pos v l : (0 < occurrences v l)%Z ↔ v ∈ l.
Proof.
  unfold occurrences. split.
  - intros H. destruct (filter (λ x, x = v) l) as [|y ys] eqn:E; [simpl in H; lia|].
    assert (Hy : y ∈ filter (λ x, x = v) l) by (rewrite E; left).
    by apply list_elem_of_filter in Hy as [-> ?].
  - intros H. assert (Hv : v ∈ filter (λ x, x = v) l) by by apply list_elem_of_filter.
    destruct (filter (λ x, x = v) l); [by apply elem_of_nil in Hv|simpl; lia].
Qed.

(** The effect of the inner [for neighbor in graph[current]] loop when no
    in-degree is driven below zero: every in-degree drops by the number of
    occurrences of its node, and the nodes whose in-degree reaches zero
    are appended to the queue, once each. *)
Lemma relax_spec neighbors in_degree queue :
  (∀ v, occurrences v neighbors ≤ deg in_degree v)%Z →
  ∃ added,
    (PensumService.relax neighbors in_degree queue).2 = queue ++ added ∧
    NoDup added ∧
    (∀ v, deg (PensumService.relax neighbors in_degree queue).1 v
          = deg in_degree v - occurrences v neighbors)%Z ∧
    (∀ v, v ∈ added ↔
          v ∈ neighbors ∧
          deg (PensumService.relax neighbors in_degree queue).1 v = 0%Z).
Proof.
  revert in_degree queue.
  induction neighbors as [|n ns IH]; intros d q Hpre; simpl.
  { exists []. rewrite app_nil_r. split; [done|]. split; [constructor|].
    split; [intros v; unfold occurrences; simpl; lia|].
    intros v. split; [by intros ?%elem_of_nil|by intros [?%elem_of_nil _]]. }
  set (d1 := <[n := (deg d n - 1)%Z]> d).
  assert (Hd1 : ∀ v, deg d1 v
                = (deg d v - (if decide (n = v) then 1 else 0))%Z).
  { intros v. unfold d1. rewrite dget_insert. destruct (decide (n = v)); subst; lia. }
  assert (Hpre1 : ∀ v, (occurrences v ns ≤ deg d1 v)%Z).
  { intros v. specialize (Hpre v). rewrite occurrences_cons in Hpre. rewrite Hd1. lia. }
  set (q1 := if (deg d1 n =? 0)%Z then q ++ [n] else q).
  destruct (IH d1 q1 Hpre1) as (added & Hq & Hnd & Hd & Hadd).
  assert (Hdv : ∀ v, deg (PensumService.relax ns d1 q1).1 v
                = (deg d v - occurrences v (n :: ns))%Z).
  { intros v. rewrite Hd, Hd1, occurrences_cons. lia. }
  destruct (deg d1 n =? 0)%Z eqn:Hz; subst q1.
  - apply Z.eqb_eq in Hz.
    assert (Hn : n ∉ ns).
    { intros Hin%occurrences_pos. specialize (Hpre1 n). lia. }
    exists (n :: added). split; [by rewrite Hq, <- app_assoc|].
    split. { constructor; [|done]. rewrite Hadd. by intros [? _]. }
    split; [done|]. intros v. rewrite elem_of_cons, Hadd. split.
    + intros [->|[Hin Hv]]; [|split; [by right|done]].
      split; [left|]. rewrite Hd, Hz.
      pose proof (occurrences_nonneg n ns). specialize (Hpre1 n). lia.
    + intros [[->|Hin]%elem_of_cons Hv]; [by left|by right].
  - apply Z.eqb_neq in Hz.
    exists added. split; [done|]. split; [done|]. split; [done|].
    intros v. rewrite Hadd. split; [intros [Hin Hv]; split; [by right|done]|].
    intros [[->|Hin]%elem_of_cons Hv]; [|done].
    destruct (decide (n ∈ ns)) as [|Hn]; [done|]. exfalso.
    rewrite Hd in Hv.
    assert (occurrences n ns = 0%Z).
    { pose proof (occurrences_nonneg n ns).
      destruct (decide (0 < occurrences n ns)%Z) as [Hp|]; [|lia].
      by apply occurrences_pos in Hp. }
    lia.
Qed.

(** ** The invariant of Kahn's loop *)

Section Kahn.
Variable E : list (string * string).
Variable graph : gmap string (list string).
Variable cs : gset string.
Hypothesis graph_holds : ∀ u, PensumService.dget [] graph u = (filter (λ e, e.1 = u) E).*2.
Hypothesis edges_in_codes : ∀ e, e ∈ E → e.1 ∈ cs ∧ e.2 ∈ cs.

Lemma pending_split P c v :
  c ∉ P →
  pending E P v
  = (occurrences v (PensumService.dget [] graph c) + pending E (P ++ [c]) v)%Z.
Proof.
  intros Hc. unfold pending, occurrences. rewrite graph_holds.
  rewrite <- Nat2Z.inj_add. f_equal. clear graph_holds edges_in_codes.
  induction E as [|[a b] E' IH]; [done|].
  rewrite !(filter_cons _ (a, b)). simpl.
  destruct (decide (a = c)) as [->|Hac].
  - rewrite fmap_cons, filter_cons. simpl.
    destruct (decide (b = v)) as [->|Hbv].
    + rewrite decide_True by done.
      rewrite decide_False by (intros [_ H]; apply H, elem_of_app; right; left).
      simpl. lia.
    + rewrite decide_False by (by intros [? _]).
      rewrite decide_False by (by intros [? _]). lia.
  - destruct (decide (b = v ∧ a ∉ P)) as [[-> Ha]|Hn].
    + rewrite decide_True
        by (split; [done|]; intros [?|?%list_elem_of_singleton]%elem_of_app; done).
      simpl. lia.
    + rewrite decide_False
        by (intros [? H]; apply Hn; split; [done|]; intros ?; apply H, elem_of_app; by left).
      lia.
Qed.

Lemma pending_zero P v u :
  pending E P v = 0%Z → (u, v) ∈ E → u ∈ P.
Proof.
  unfold pending. intros Hz Hin.
  destruct (decide (u ∈ P)) as [|Hu]; [done|]. exfalso.
  assert (Hf : (u, v) ∈ filter (λ e, e.2 = v ∧ e.1 ∉ P) E).
  { apply list_elem_of_filter. split; [done|done]. }
  destruct (filter (λ e, e.2 = v ∧ e.1 ∉ P) E); [by apply elem_of_nil in Hf|].
  simpl in Hz. lia.
Qed.

Lemma pending_pos P v :
  (0 < pending E P v)%Z → ∃ u, (u, v) ∈ E ∧ u ∉ P.
Proof.
  unfold pending. intros Hp.
  destruct (filter (λ e, e.2 = v ∧ e.1 ∉ P) E) as [|[a b] l] eqn:Hf; [simpl in Hp; lia|].
  assert (Hin : (a, b) ∈ filter (λ e, e.2 = v ∧ e.1 ∉ P) E) by (rewrite Hf; left).
  apply list_elem_of_filter in Hin as [[Hb Ha] Hin]. simpl in *. subst b. eauto.
Qed.

Lemma graph_neighbor c v :
  v ∈ PensumService.dget [] graph c ↔ (c, v) ∈ E.
Proof.
  rewrite graph_holds, list_elem_of_fmap. split.
  - intros ([a b] & -> & [Ha Hin]%list_elem_of_filter). simpl in *. by subst.
  - intros Hin. exists (c, v). split; [done|]. by apply list_elem_of_filter.
Qed.

Lemma kahn_step_inv P st c q :
  kahn_inv E cs P st → PensumService.k_queue st = c :: q →
  kahn_inv E cs (P ++ [c]) (PensumService.kahn_step graph st).
Proof.
  intros (Hdeg & Hnd & Hcs & Hzero & Hcount & Htopo) Hq.
  unfold PensumService.kahn_step. rewrite Hq in *.
  assert (HcP : c ∉ P).
  { apply NoDup_app in Hnd as (_ & Hdisj & _). intros Hin. apply (Hdisj c Hin). left. }
  destruct (relax_spec (PensumService.dget [] graph c)
              (PensumService.k_in_degree st) q) as (added & Hq' & Hadd_nd & Hd' & Hadd).
  { intros v. rewrite Hdeg, (pending_split P c v HcP). unfold pending. lia. }
  destruct (PensumService.relax _ _ q) as [d' q'] eqn:Hrelax. simpl in *. subst q'.
  assert (Hdeg' : ∀ v, deg d' v = pending E (P ++ [c]) v).
  { intros v. rewrite Hd', Hdeg, (pending_split P c v HcP). lia. }
  assert (Hadded_fresh : ∀ v, v ∈ added → (v ∉ P ++ c :: q) ∧ v ∈ cs).
  { intros v [Hin Hv]%Hadd. split.
    - intros Hold. pose proof (Hcs v Hold) as Hvc.
      apply (Hzero v Hvc) in Hold.
      apply occurrences_pos in Hin. rewrite Hd' in Hv. lia.
    - apply graph_neighbor in Hin. by apply edges_in_codes in Hin as [_ ?]. }
  assert (Hre : (P ++ [c]) ++ q ++ added = (P ++ c :: q) ++ added).
  { by rewrite <- !app_assoc. }
  split; [done|]. simpl. rewrite Hre. split; [|split; [|split; [|split]]].
  - apply NoDup_app. split; [done|]. split; [|done].
    intros v Hv Hv'. by apply Hadded_fresh in Hv' as [? _].
  - intros v. rewrite elem_of_app.
    intros [Hold|Hnew]; [by apply Hcs|by apply Hadded_fresh].
  - intros v Hvc. rewrite elem_of_app. split.
    + intros [Hold|Hnew]; [|by apply Hadd in Hnew as [_ ?]].
      apply (Hzero v Hvc) in Hold. rewrite Hd', Hold.
      pose proof (occurrences_nonneg v (PensumService.dget [] graph c)).
      specialize (Hdeg' v). rewrite Hd', Hold in Hdeg'. unfold pending in Hdeg'. lia.
    + intros Hv. destruct (decide (deg (PensumService.k_in_degree st) v = 0%Z)) as [Hz|Hz].
      * left. by apply (Hzero v Hvc).
      * right. apply Hadd. split; [|done]. apply occurrences_pos.
        rewrite Hd' in Hv. specialize (Hdeg v). unfold pending in Hdeg. lia.
  - simpl. rewrite Hcount, length_app. simpl. lia.
  - intros i v u Hi Huv.
    apply lookup_app_Some in Hi as [Hi|[Hlen Hi]].
    + destruct (Htopo i v u Hi Huv) as (j & Hj & Hju).
      exists j. split; [done|]. by apply lookup_app_l_Some.
    + apply list_lookup_singleton_Some in Hi as [Hi0 <-].
      assert (Hu : u ∈ P).
      { apply (pending_zero P c u); [|done]. rewrite <- Hdeg.
        apply Hzero; [|apply elem_of_app; right; left].
        apply Hcs. apply elem_of_app. right. left. }
      apply list_elem_of_lookup in Hu as [j Hj]. exists j.
      split; [|by apply lookup_app_l_Some].
      apply lookup_lt_Some in Hj. lia.
Qed.

(** The loop runs to completion on the fuel it is given and keeps the
    invariant. *)
Lemma kahn_loop_inv fuel P st :
  kahn_inv E cs P st → (size cs ≤ length P + fuel)%nat →
  ∃ P', kahn_inv E cs P' (PensumService.kahn_loop fuel graph st) ∧
        PensumService.k_queue (PensumService.kahn_loop fuel graph st) = [].
Proof.
  revert P st. induction fuel as [|fuel IH]; intros P st Hinv Hfuel; simpl.
  - exists P. split; [done|].
    destruct Hinv as (_ & Hnd & Hcs & _).
    assert (Hle : (length (P ++ PensumService.k_queue st) ≤ size cs)%nat).
    { rewrite <- (size_list_to_set (C:=gset string)) by done.
      apply subseteq_size. intros v Hv%elem_of_list_to_set. by apply Hcs. }
    rewrite length_app in Hle.
    destruct (PensumService.k_queue st); [done|simpl in Hle; lia].
  - destruct (PensumService.k_queue st) as [|c q] eqn:Hq.
    + exists P. by rewrite Hq.
    + apply (IH (P ++ [c])); [by eapply kahn_step_inv|].
      rewrite length_app. simpl. lia.
Qed.

Lemma processed_before P st u v i :
  kahn_inv E cs P st → tc (edge E) u v → P !! i = Some v →
  ∃ j, (j < i)%nat ∧ P !! j = Some u.
Proof.
  intros (_ & _ & _ & _ & _ & Htopo) Htc. revert i.
  induction Htc as [u v Huv|u w v Huw Hwv IH]; intros i Hi.
  - by apply (Htopo i v u).
  - destruct (IH i Hi) as (j & Hji & Hj).
    destruct (Htopo j w u Hj Huw) as (k & Hkj & Hk).
    exists k. split; [lia|done].
Qed.

Lemma processed_acyclic P st v :
  kahn_inv E cs P st → v ∈ P → ¬ tc (edge E) v v.
Proof.
  intros Hinv [i Hi]%list_elem_of_lookup Htc.
  destruct (processed_before P st v v i Hinv Htc Hi) as (j & Hji & Hj).
  destruct Hinv as (_ & Hnd & _).
  apply NoDup_app in Hnd as (Hnd & _).
  pose proof (NoDup_lookup _ _ _ _ Hnd Hi Hj). lia.
Qed.

Lemma unprocessed_successor P st u v :
  kahn_inv E cs P st → rtc (edge E) u v → u ∉ P → v ∉ P.
Proof.
  intros Hinv Hrtc. induction Hrtc as [|u w v Huw Hwv IH]; [done|].
  intros Hu. apply IH. intros [i Hi]%list_elem_of_lookup.
  destruct Hinv as (_ & _ & _ & _ & _ & Htopo).
  destruct (Htopo i w u Hi Huw) as (j & _ & Hj). apply Hu.
  by eapply list_elem_of_lookup_2.
Qed.

End Kahn.

(** ** Walks in a finite graph *)

Section Walks.
Variable step : string → string → Prop.

Lemma is_path_app_r l1 l2 : is_path step (l1 ++ l2) → is_path step l2.
Proof.
  induction l1 as [|a l1 IH]; [done|]. intros H. apply IH.
  destruct l1 as [|b l1]; simpl in *; [by destruct l2; [|destruct H]|by destruct H].
Qed.

Lemma is_path_app_l l1 l2 : is_path step (l1 ++ l2) → is_path step l1.
Proof.
  induction l1 as [|a l1 IH]; [done|]. intros H.
  destruct l1 as [|b l1]; [done|].
  destruct H as [Hab H]. split; [done|]. by apply IH.
Qed.

Lemma is_path_rtc x l y : is_path step (x :: l) → last (x :: l) = Some y → rtc step x y.
Proof.
  revert x. induction l as [|b l IH]; intros x Hp Hl.
  - simpl in Hl. injection Hl as ->. constructor.
  - destruct Hp as [Hxb Hp]. eapply rtc_l; [exact Hxb|]. apply IH; [done|].
    by rewrite last_cons_cons in Hl.
Qed.

Lemma is_path_tc x l y : is_path step (x :: l ++ [y]) → tc step x y.
Proof.
  revert x. induction l as [|b l IH]; intros x Hp.
  - destruct Hp as [Hxy _]. by apply tc_once.
  - destruct Hp as [Hxb Hp]. eapply tc_l; [exact Hxb|]. by apply IH.
Qed.

Lemma repeated_element (l : list string) :
  ¬ NoDup l → ∃ l1 x l2 l3, l = l1 ++ x :: l2 ++ x :: l3.
Proof.
  induction l as [|a l IH]; intros Hnd.
  - destruct Hnd. constructor.
  - destruct (decide (a ∈ l)) as [Hin|Hnin].
    + apply list_elem_of_split in Hin as (l2 & l3 & ->). by exists [], a, l2, l3.
    + destruct IH as (l1 & x & l2 & l3 & ->).
      { intros H. apply Hnd. by constructor. }
      by exists (a :: l1), x, l2, l3.
Qed.

(** If every node of a non-empty finite set has a predecessor in the set,
    then every node of the set is reachable from a cycle. *)
Lemma backward_walk (R : string → Prop) n v :
  (∀ v, R v → ∃ u, R u ∧ step u v) → R v →
  ∃ h l, length l = n ∧ Forall R (h :: l) ∧ is_path step (h :: l) ∧ last (h :: l) = Some v.
Proof.
  intros Hpred Hv. induction n as [|n (h & l & Hlen & Hall & Hp & Hlast)].
  - exists v, []. repeat split; auto.
  - inversion Hall as [|? ? Hh _]; subst.
    destruct (Hpred h Hh) as (u & Hu & Huh).
    exists u, (h :: l). split; [done|]. split; [by constructor|].
    split; [done|]. by rewrite last_cons_cons.
Qed.

Lemma reachable_from_cycle (R : string → Prop) (cs : gset string) v :
  (∀ v, R v → v ∈ cs) →
  (∀ v, R v → ∃ u, R u ∧ step u v) → R v →
  ∃ c, tc step c c ∧ rtc step c v.
Proof.
  intros Hcs Hpred Hv.
  destruct (backward_walk R (size cs) v Hpred Hv) as (h & l & Hlen & Hall & Hp & Hlast).
  destruct (repeated_element (h :: l)) as (l1 & x & l2 & l3 & Heq).
  { intros Hnd.
    assert (Hle : (length (h :: l) ≤ size cs)%nat).
    { rewrite <- (size_list_to_set (C:=gset string)) by done.
      apply subseteq_size. intros y Hy%elem_of_list_to_set.
      apply Hcs. by eapply Forall_forall in Hall. }
    simpl in Hle. lia. }
  rewrite Heq in Hp, Hlast. apply is_path_app_r in Hp.
  exists x. split.
  - apply (is_path_tc x l2 x).
    change (x :: l2 ++ x :: l3) with ((x :: l2) ++ [x] ++ l3) in Hp.
    rewrite app_assoc in Hp. by apply is_path_app_l in Hp.
  - eapply is_path_rtc; [exact Hp|]. by rewrite last_app_cons in Hlast.
Qed.

End Walks.

(** ** [detect_circular_dependencies] *)

Section Detect.
Variable set_iter : gset string → list string.
Hypothesis set_iter_order : set_order set_iter.
Variable p : Pensum.t.

Abbreviation E := (edges (codes p) (Pensum.materias p)).

Lemma edges_elem u v :
  (u, v) ∈ E ↔ requires p u v ∧ u ∈ codes p.
Proof.
  unfold edges, requires. rewrite list_elem_of_In, in_flat_map. split.
  - intros (m & Hm%list_elem_of_In & Hin%list_elem_of_In).
    apply list_elem_of_fmap in Hin as (q & [= -> ->] & [Hq Hin]%list_elem_of_filter).
    split; [|done]. by exists m.
  - intros [(m & Hm & <- & Hu) Hcs]. exists m. split; [by apply list_elem_of_In|].
    apply list_elem_of_In, list_elem_of_fmap. exists u. split; [done|].
    by apply list_elem_of_filter.
Qed.

Lemma requires_target u v : requires p u v → v ∈ codes p.
Proof.
  intros (m & Hm & <- & _). unfold codes. apply elem_of_list_to_set.
  by apply list_elem_of_fmap_2.
Qed.

Lemma edges_in_codes e : e ∈ E → e.1 ∈ codes p ∧ e.2 ∈ codes p.
Proof.
  destruct e as [u v]. intros [Hr Hu]%edges_elem. split; [done|by eapply requires_target].
Qed.

Lemma tc_requires_edge u v :
  tc (requires p) u v → u ∈ codes p → tc (edge E) u v.
Proof.
  induction 1 as [u v Huv|u w v Huw Hwv IH]; intros Hu.
  - apply tc_once. by apply edges_elem.
  - eapply tc_l; [by apply edges_elem|]. apply IH. by eapply requires_target.
Qed.

Lemma rtc_requires_edge u v :
  rtc (requires p) u v → u ∈ codes p → rtc (edge E) u v.
Proof.
  induction 1 as [|u w v Huw Hwv IH]; intros Hu; [done|].
  eapply rtc_l; [by apply edges_elem|]. apply IH. by eapply requires_target.
Qed.

Lemma edge_requires u v : edge E u v → requires p u v.
Proof. by intros [? _]%edges_elem. Qed.

Lemma tc_edge_requires u v : tc (edge E) u v → tc (requires p) u v.
Proof. induction 1; [apply tc_once|eapply tc_l]; eauto using edge_requires. Qed.

Lemma tc_requires_target u v : tc (requires p) u v → v ∈ codes p.
Proof. induction 1; eauto using requires_target. Qed.

(** The state in which the loop starts satisfies the invariant, and the
    loop ends with an empty queue. *)
Lemma kahn_final_inv :
  ∃ P, kahn_inv E (codes p) P (PensumService.kahn_final set_iter p) ∧
       PensumService.k_queue (PensumService.kahn_final set_iter p) = [].
Proof.
  unfold PensumService.kahn_final. fold (codes p).
  pose proof (build_graph_holds (codes p) (Pensum.materias p)) as [Hg Hd].
  destruct (PensumService.build_graph (codes p) (Pensum.materias p)) as [graph d0].
  simpl in Hg, Hd.
  destruct (set_iter_order (codes p)) as [Hnd Hin].
  apply (kahn_loop_inv E graph (codes p) Hg edges_in_codes (size (codes p)) []);
    [|simpl; lia].
  assert (Hpend : ∀ v, deg d0 v = pending E [] v).
  { intros v. rewrite Hd. unfold pending. do 2 f_equal.
    apply list_filter_iff. intros e. split; [intros ?; split; [done|]|by intros [? _]].
    apply not_elem_of_nil. }
  split; [done|]. simpl. split; [by apply NoDup_filter|].
  split. { intros v [_ Hv]%list_elem_of_filter. by apply Hin. }
  split. { intros v Hv. rewrite list_elem_of_filter, Hin. split; [by intros [? _]|done]. }
  split; [done|]. intros i v u Hi. done.
Qed.

(** What [detect_circular_dependencies] returns, in terms of the list
    [P] of processed nodes. *)
Lemma detect_cases :
  ∃ P, kahn_inv E (codes p) P (PensumService.kahn_final set_iter p) ∧
    PensumService.k_queue (PensumService.kahn_final set_iter p) = [] ∧
    ((PensumService.detect_circular_dependencies set_iter p = None ∧
      ∀ v, v ∈ codes p → v ∈ P) ∨
     (∃ w, PensumService.detect_circular_dependencies set_iter p = Some w ∧
        w ≠ [] ∧ (length w ≤ 5)%nat ∧ NoDup w ∧
        (∀ v, v ∈ w → v ∈ codes p ∧ (v ∉ P) ∧
           (0 < deg (PensumService.k_in_degree (PensumService.kahn_final set_iter p)) v)%Z) ∧
        ((length w < 5)%nat → ∀ v, v ∈ codes p → v ∉ P → v ∈ w))).
Proof.
  destruct kahn_final_inv as (P & Hinv & Hq). exists P. split; [done|].
  split; [done|].
  pose proof Hinv as (Hdeg & Hnd & Hcs & Hzero & Hcount & _).
  rewrite Hq, app_nil_r in Hnd, Hcs, Hzero.
  destruct (set_iter_order (codes p)) as [Hind Hin].
  unfold PensumService.detect_circular_dependencies. fold (codes p).
  set (st := PensumService.kahn_final set_iter p) in *.
  assert (Hsub : list_to_set P ⊆ codes p).
  { intros v Hv%elem_of_list_to_set. by apply Hcs. }
  assert (Hun : ∀ v, v ∈ codes p → (v ∉ P ↔ (0 < deg (PensumService.k_in_degree st) v)%Z)).
  { intros v Hv. rewrite (Hzero v Hv), Hdeg. unfold pending. lia. }
  destruct (decide (PensumService.k_sorted_count st ≠ Z.of_nat (size (codes p))))
    as [Hne|Heq].
  - right.
    set (remaining := filter (λ code, (0 < deg (PensumService.k_in_degree st) code)%Z)
                             (set_iter (codes p))).
    assert (Hrem : ∀ v, v ∈ remaining ↔ v ∈ codes p ∧ v ∉ P).
    { intros v. unfold remaining. rewrite list_elem_of_filter, Hin. split.
      - intros [Hv Hc]. split; [done|]. by apply Hun.
      - intros [Hc Hv]. split; [by apply Hun|done]. }
    assert (Hex : ∃ v, v ∈ remaining).
    { destruct (set_choose_L (codes p ∖ list_to_set P)) as [v Hv].
      - intros Hempty. apply Hne. rewrite Hcount. f_equal.
        rewrite <- (size_list_to_set (C:=gset string) P) by done.
        f_equal. apply set_eq. intros x. split; [apply Hsub|].
        intros Hx. destruct (decide (x ∈ (list_to_set P : gset string))); [done|].
        exfalso. eapply (not_elem_of_empty (C:=gset string) x). rewrite <- Hempty.
        by apply elem_of_difference.
      - exists v. apply Hrem. apply elem_of_difference in Hv as [? Hv].
        split; [done|]. by rewrite elem_of_list_to_set in Hv. }
    destruct remaining as [|r0 rs] eqn:Hr.
    { destruct Hex as [v Hv]. by apply elem_of_nil in Hv. }
    exists (take 5 (r0 :: rs)). split; [done|]. split; [done|].
    split; [rewrite length_take; lia|].
    assert (Hndr : NoDup (r0 :: rs)). { rewrite <- Hr. by apply NoDup_filter. }
    split. { eapply sublist_NoDup; [exact Hndr|apply sublist_take]. }
    split.
    + intros v Hv. assert (Hv' : v ∈ r0 :: rs).
      { rewrite <- (take_drop 5 (r0 :: rs)). apply elem_of_app. by left. }
      apply Hrem in Hv' as [Hc Hp]. split; [done|]. split; [done|]. by apply Hun.
    + intros Hlen v Hc Hv. rewrite take_ge; [by apply Hrem|].
      rewrite length_take in Hlen. lia.
  - left. split; [done|]. apply dec_stable in Heq. rewrite Hcount in Heq.
    apply Nat2Z.inj in Heq.
    assert (Hset : (list_to_set P : gset string) = codes p).
    { apply set_subseteq_size_eq; [done|].
      rewrite size_list_to_set by done. lia. }
    intros v Hv. rewrite <- Hset in Hv. by apply elem_of_list_to_set in Hv.
Qed.

End Detect.

Lemma elements_set_order : set_order elements.
Proof.
  intros X. split; [apply NoDup_elements|]. intros x. apply elem_of_elements.
Qed.

(** C6.  If the prerequisite/corequisite graph of the catalog has a cycle,
    [validate_pensum_structure] reports [valid = false] and its last error
    carries the witness returned by [detect_circular_dependencies]: a
    non-empty list of at most 5 distinct catalog codes, each left
    unprocessed by Kahn's algorithm (its in-degree is still positive; it
    lies on a cycle or downstream of one), and all such codes when there
    are fewer than 5.  If the graph is acyclic,
    [detect_circular_dependencies] returns no cycle.  This holds for every
    iteration order of the set of codes. *)
Theorem C6_cycle_detection set_iter p :
  set_order set_iter →
  (cyclic p →
   ∃ w, PensumService.detect_circular_dependencies set_iter p = Some w ∧
     w ≠ [] ∧ (length w ≤ 5)%nat ∧ NoDup w ∧
     (∀ v, v ∈ w →
        v ∈ codes p ∧ downstream_of_cycle p v ∧
        (0 < PensumService.dget 0
               (PensumService.k_in_degree (PensumService.kahn_final set_iter p)) v)%Z) ∧
     ((length w < 5)%nat → ∀ v, downstream_of_cycle p v → v ∈ w) ∧
     PensumService.valid (PensumService.validate_pensum_structure set_iter p) = false ∧
     last (PensumService.errors (PensumService.validate_pensum_structure set_iter p))
     = Some ("Circular dependency detected: " +:+ Py.join " -> " w)) ∧
  (¬ cyclic p → PensumService.detect_circular_dependencies set_iter p = None).
Proof.
  intros Horder.
  destruct (detect_cases set_iter Horder p) as (P & Hinv & Hq & Hcases).
  set (E := edges (codes p) (Pensum.materias p)) in *.
  pose proof (build_graph_holds (codes p) (Pensum.materias p)) as [Hg _].
  assert (Hcyc_un : ∀ c, tc (requires p) c c → c ∈ codes p ∧ c ∉ P).
  { intros c Hc. pose proof (tc_requires_target p c c Hc) as Hcc. split; [done|].
    intros HcP. eapply processed_acyclic; [exact Hinv|exact HcP|].
    by apply tc_requires_edge. }
  assert (Hdown_un : ∀ v, downstream_of_cycle p v → v ∈ codes p ∧ v ∉ P).
  { intros v (c & Hc & Hcv). destruct (Hcyc_un c Hc) as [Hcc HcP]. split.
    - apply rtc_inv_r in Hcv as [<-|(y & _ & Hy)]; [done|by eapply requires_target].
    - eapply unprocessed_successor; [exact Hinv| |exact HcP].
      by apply rtc_requires_edge. }
  assert (Hun_down : ∀ v, v ∈ codes p → v ∉ P → downstream_of_cycle p v).
  { intros v Hvc HvP.
    destruct (reachable_from_cycle (edge E) (λ v, v ∈ codes p ∧ v ∉ P) (codes p) v)
      as (c & Hc & Hcv); [by intros ? [? _]| |done|].
    - intros x [Hxc HxP].
      destruct Hinv as (Hdeg & _ & _ & Hzero & _).
      destruct (pending_pos E P x) as (u & Hux & Hu).
      { rewrite <- Hdeg.
        assert (deg (PensumService.k_in_degree (PensumService.kahn_final set_iter p)) x
                ≠ 0%Z).
        { intros Hz. apply HxP. apply (Hzero x Hxc) in Hz.
          by rewrite Hq, app_nil_r in Hz. }
        rewrite Hdeg in *. unfold pending in *. lia. }
      exists u. split; [|done]. split; [|done]. by apply edges_in_codes in Hux as [? _].
    - exists c. split.
      + by apply tc_edge_requires.
      + eapply rtc_subrel; [|exact Hcv]. apply edge_requires. }
  split.
  - intros [c Hc]. destruct (Hcyc_un c Hc) as [Hcc HcP].
    destruct Hcases as [[_ Hall]|(w & Hw & Hne & Hlen & Hnd & Hmem & Hfull)].
    { by destruct HcP; apply Hall. }
    exists w. split; [done|]. split; [done|]. split; [done|]. split; [done|].
    split.
    { intros v Hv. destruct (Hmem v Hv) as (Hvc & HvP & Hpos).
      split; [done|]. split; [by apply Hun_down|done]. }
    split.
    { intros Hl v Hv. destruct (Hdown_un v Hv). by apply Hfull. }
    unfold PensumService.validate_pensum_structure. rewrite Hw.
    destruct w as [|w0 ws]; [done|].
    cbn [PensumService.valid PensumService.errors].
    split; [|by rewrite last_snoc].
    apply bool_decide_eq_false. rewrite length_app. simpl. lia.
  - intros Hacyc.
    destruct Hcases as [[Hnone _]|(w & Hw & Hne & _ & _ & Hmem & _)]; [done|].
    destruct w as [|w0 ws]; [done|].
    destruct (Hmem w0) as (Hc & HP & _); [left|].
    destruct (Hun_down w0 Hc HP) as (c & Hcyc & _).
    destruct Hacyc. by exists c.
Qed.

Lemma C6_witness :
  ∃ w, PensumService.detect_circular_dependencies elements PensumSamples.triangle = Some w ∧
       w ≠ [] ∧
       PensumService.valid
         (PensumService.validate_pensum_structure elements PensumSamples.triangle) = false.
Proof.
  destruct (C6_cycle_detection elements PensumSamples.triangle elements_set_order)
    as [Hcyclic _].
  destruct Hcyclic as (w & Hw & Hne & _ & _ & _ & _ & Hvalid & _).
  - exists "A". eapply tc_l; [|eapply tc_l; [|apply tc_once]].
    + exists (PensumSamples.course "B" 2 ["A"] []).
      split; [right; left|]. split; [reflexivity|left].
    + exists (PensumSamples.course "C" 3 ["B"] []).
      split; [right; right; left|]. split; [reflexivity|left].
    + exists (PensumSamples.course "A" 1 ["C"] []).
      split; [left|]. split; [reflexivity|left].
  - exists w. split; [exact Hw|]. split; [exact Hne|exact Hvalid].
Defined.

(** The catalog of the scenario is reported valid when its edges form a
    chain. *)
Example chain_is_valid :
  PensumService.validate_pensum_structure elements PensumSamples.chain
  = PensumService.mk_validation true [].
Proof. vm_compute. reflexivity. Qed.

Example triangle_is_invalid :
  PensumService.valid
    (PensumService.validate_pensum_structure elements PensumSamples.triangle) = false ∧
  length <$> PensumService.detect_circular_dependencies elements PensumSamples.triangle
  = Some 3%nat.
Proof. vm_compute. split; reflexivity. Qed.

(** ** Course codes *)

Lemma upper_char_idemp c : Py.upper_char (Py.upper_char c) = Py.upper_char c.
Proof. destruct c as [[] [] [] [] [] [] [] []]; reflexivity. Qed.

Lemma upper_idemp s : Py.upper (Py.upper s) = Py.upper s.
Proof. induction s as [|c s IH]; simpl; [done|]. by rewrite upper_char_idemp, IH. Qed.

Lemma get_materia_upper p code :
  Pensum.get_materia p (Py.upper code) = Pensum.get_materia p code.
Proof. unfold Pensum.get_materia. by rewrite upper_idemp. Qed.

Lemma get_materia_Some p code m :
  Pensum.get_materia p code = Some m →
  m ∈ Pensum.materias p ∧ Materia.code m = Py.upper code.
Proof.
  unfold Pensum.get_materia. intros [Hin Hc]%find_some.
  split; [by apply list_elem_of_In|]. by apply bool_decide_eq_true in Hc.
Qed.

(** ** [delete_materia] *)

(** What [delete_materia] does for an existing course: it refuses, leaving
    the catalog untouched, exactly when some course of the catalog -- the
    course itself included -- references the code; otherwise it removes
    the course and recomputes [total_credits]. *)
Lemma delete_materia_spec code p m :
  Pensum.get_materia p code = Some m →
  let c := Py.upper code in
  let dependents := Materia.code <$> filter (references c) (Pensum.materias p) in
  ((∃ m', m' ∈ Pensum.materias p ∧ references c m') ∧
   ∃ msg, PensumService.delete_materia code p
          = (PensumService.DeleteRefused msg dependents, p)) ∨
  ((¬ ∃ m', m' ∈ Pensum.materias p ∧ references c m') ∧
   PensumService.delete_materia code p
   = (PensumService.DeleteSuccess c,
      Pensum.mk (filter (λ m', Materia.code m' ≠ c) (Pensum.materias p))
                (Pensum.name p)
                (Pensum.sum_credits
                   (filter (λ m', Materia.code m' ≠ c) (Pensum.materias p))))).
Proof.
  intros Hget c dependents. unfold PensumService.delete_materia.
  rewrite get_materia_upper, Hget. fold c. fold (references c).
  change (Materia.code <$> filter (references c) (Pensum.materias p)) with dependents.
  destruct dependents as [|d ds] eqn:Hd.
  - right. split; [|done]. intros (m' & Hin & Href).
    assert (Hm' : Materia.code m' ∈ dependents).
    { apply list_elem_of_fmap_2. by apply list_elem_of_filter. }
    rewrite Hd in Hm'. by apply elem_of_nil in Hm'.
  - left. split; [|by eexists].
    assert (Hdin : d ∈ dependents) by (rewrite Hd; left).
    apply list_elem_of_fmap in Hdin as (m' & _ & [Href Hin]%list_elem_of_filter).
    by exists m'.
Qed.

(** When the course does not reference itself, the refusal is equivalent
    to a reference from another course. *)
Lemma delete_materia_refused_iff_other code p m :
  Pensum.get_materia p code = Some m →
  (∀ m', m' ∈ Pensum.materias p → Materia.code m' = Py.upper code →
         ¬ references (Py.upper code) m') →
  (∃ msg deps, PensumService.delete_materia code p
               = (PensumService.DeleteRefused msg deps, p))
  ↔ ∃ m', m' ∈ Pensum.materias p ∧ Materia.code m' ≠ Py.upper code ∧
          references (Py.upper code) m'.
Proof.
  intros Hget Hself.
  destruct (delete_materia_spec code p m Hget) as [[(m' & Hin & Href) [msg Hdel]]|[Hno Hdel]].
  - split; [|by eauto]. intros _. exists m'. split; [done|]. split; [|done].
    intros Hc. by apply (Hself m' Hin Hc).
  - split.
    + intros (msg & deps & Hdel'). rewrite Hdel in Hdel'. done.
    + intros (m' & Hin & _ & Href). destruct Hno. by exists m'.
Qed.

(** C9 at a concrete input.  The only course of the catalog lists itself
    as a prerequisite: no other course references it, yet the deletion is
    refused, with the course itself as its dependent. *)
Theorem C9_self_reference_blocks_delete :
  let p := PensumSamples.self_reference in
  Pensum.get_materia p "A" = Some (PensumSamples.course "A" 1 ["A"] []) ∧
  (¬ ∃ m', m' ∈ Pensum.materias p ∧ Materia.code m' ≠ "A" ∧ references "A" m') ∧
  PensumService.delete_materia "A" p
  = (PensumService.DeleteRefused
       "Cannot delete: course is a prerequisite/corequisite for A" ["A"], p).
Proof.
  split; [reflexivity|]. split; [|reflexivity].
  intros (m' & Hin & Hne & _). simpl in Hin.
  apply list_elem_of_singleton in Hin as ->. by apply Hne.
Qed.

(** ** The traversal of [simulate_course_loss] *)

Lemma dependents_elem requirements materias u v :
  v ∈ PensumService.dget [] (PensumService.dependents requirements materias) u
  ↔ ∃ m, m ∈ materias ∧ Materia.code m = v ∧ u ∈ requirements m.
Proof.
  unfold PensumService.dependents.
  assert (Hinner : ∀ code rs d,
    v ∈ PensumService.dget []
          (fold_left (λ d req, <[req := PensumService.dget [] d req ++ [code]]> d) rs d) u
    ↔ v ∈ PensumService.dget [] d u ∨ (v = code ∧ u ∈ rs)).
  { intros code rs. induction rs as [|r rs IH]; intros d; simpl.
    - split; [by left|]. intros [?|[_ ?%elem_of_nil]]; done.
    - rewrite IH, dget_insert. case_decide as Hr.
      + subst r. rewrite elem_of_app, list_elem_of_singleton, elem_of_cons. tauto.
      + rewrite elem_of_cons. split; [tauto|].
        intros [?|[? [?|?]]]; [tauto|congruence|tauto]. }
  assert (Hgen : ∀ ms d,
    v ∈ PensumService.dget []
      (fold_left (λ d m,
         fold_left (λ d req, <[req := PensumService.dget [] d req ++ [Materia.code m]]> d)
                   (requirements m) d) ms d) u
    ↔ v ∈ PensumService.dget [] d u
      ∨ ∃ m, m ∈ ms ∧ Materia.code m = v ∧ u ∈ requirements m).
  { induction ms as [|m ms IH]; intros d; simpl.
    - split; [by left|]. intros [?|(m & ?%elem_of_nil & _)]; done.
    - rewrite IH, Hinner. split.
      + intros [[?|[-> ?]]|(m' & ? & ? & ?)]; [by left| |].
        * right. exists m. split; [left|done].
        * right. exists m'. split; [by right|done].
      + intros [?|(m' & [->|?]%elem_of_cons & <- & ?)]; [by left; left| |].
        * left. by right.
        * right. by exists m'. }
  rewrite Hgen. unfold PensumService.dget at 1. rewrite lookup_empty. simpl.
  split; [intros [?%elem_of_nil|?]; done|by right].
Qed.

Lemma dependents_values requirements materias k v :
  v ∈ PensumService.dget [] (PensumService.dependents requirements materias) k →
  v ∈ Materia.code <$> materias.
Proof.
  intros (m & Hm & <- & _)%dependents_elem. by apply list_elem_of_fmap_2.
Qed.

Section Traversal.
Variable U : gset string.

Lemma size_difference_insert (visited : gset string) x :
  x ∈ U → x ∉ visited →
  (size (U ∖ ({[x]} ∪ visited)) + 1 = size (U ∖ visited))%nat.
Proof.
  intros HxU Hx.
  assert (Heq : U ∖ visited = {[x]} ∪ U ∖ ({[x]} ∪ visited)).
  { apply set_eq. intros y. rewrite elem_of_union, !elem_of_difference, elem_of_union,
      elem_of_singleton.
    destruct (decide (y = x)) as [->|]; [tauto|]. tauto. }
  rewrite Heq.
  rewrite (size_union (C:=gset string) {[x]} (U ∖ ({[x]} ∪ visited))).
  - rewrite (size_singleton (C:=gset string)). lia.
  - intros y Hy%elem_of_singleton [_ Hy']%elem_of_difference. subst y.
    apply Hy', elem_of_union. left. by apply elem_of_singleton.
Qed.

Lemma collect_work deps visited out queue :
  (∀ x, x ∈ deps → x ∈ U) →
  let r := PensumService.collect deps visited out queue in
  work U r.1.1 r.2 = work U visited queue ∧ visited ⊆ r.1.1.
Proof.
  revert visited out queue.
  induction deps as [|dep deps IH]; intros visited out queue Hdeps; simpl; [done|].
  assert (Hdeps' : ∀ x, x ∈ deps → x ∈ U) by (intros x Hx; apply Hdeps; by right).
  destruct (decide (dep ∉ visited)) as [Hnew|Hold]; [|by apply IH].
  destruct (IH ({[dep]} ∪ visited) (out ++ [dep]) (queue ++ [dep]) Hdeps') as [Hw Hsub].
  split.
  - rewrite Hw. unfold work. rewrite length_app. simpl.
    pose proof (size_difference_insert visited dep (Hdeps dep ltac:(left)) Hnew). lia.
  - etransitivity; [|exact Hsub]. apply union_subseteq_r.
Qed.

(** The [while] loop empties its queue within [work] iterations. *)
Lemma bfs_loop_finishes prereq_dependents fuel st :
  (∀ k v, v ∈ PensumService.dget [] prereq_dependents k → v ∈ U) →
  (work U (PensumService.b_visited st) (PensumService.b_queue st) ≤ fuel)%nat →
  PensumService.b_queue (PensumService.bfs_loop fuel prereq_dependents st) = [].
Proof.
  intros Hvals. revert st. induction fuel as [|fuel IH]; intros st Hfuel; simpl.
  - unfold work in Hfuel. destruct (PensumService.b_queue st); [done|simpl in Hfuel; lia].
  - destruct (PensumService.b_queue st) as [|current queue] eqn:Hq; [done|].
    apply IH. unfold PensumService.bfs_step. rewrite Hq.
    pose proof (collect_work (PensumService.dget [] prereq_dependents current)
                  (PensumService.b_visited st) (PensumService.b_indirectly_blocked st)
                  queue (Hvals current)) as [Hw _].
    destruct (PensumService.collect _ _ _ queue) as [[v' i'] q']. simpl in *.
    rewrite Hw. unfold work in *. simpl in Hfuel. lia.
Qed.

End Traversal.

(** The fuel given by [simulate_course_loss] is enough: the [while] loop
    ends because its queue is empty. *)
Lemma traverse_finishes materia_code p :
  PensumService.b_queue (PensumService.traverse materia_code p).2 = [].
Proof.
  unfold PensumService.traverse.
  set (U := codes p).
  set (pd := PensumService.dependents Materia.prerequisites (Pensum.materias p)).
  set (cd := PensumService.dependents Materia.corequisites (Pensum.materias p)).
  assert (Hpd : ∀ k v, v ∈ PensumService.dget [] pd k → v ∈ U).
  { intros k v Hv%dependents_values. by apply elem_of_list_to_set. }
  assert (Hcd : ∀ k v, v ∈ PensumService.dget [] cd k → v ∈ U).
  { intros k v Hv%dependents_values. by apply elem_of_list_to_set. }
  pose proof (collect_work U (PensumService.dget [] pd materia_code)
                {[materia_code]} [] [] (Hpd materia_code)) as [Hw1 _].
  destruct (PensumService.collect (PensumService.dget [] pd materia_code) _ [] [])
    as [[v1 direct] q1]. simpl in Hw1.
  pose proof (collect_work U (PensumService.dget [] cd materia_code)
                v1 [] [] (Hcd materia_code)) as [_ Hsub].
  destruct (PensumService.collect (PensumService.dget [] cd materia_code) v1 [] [])
    as [[v2 coreq] q2]. simpl in *.
  apply (bfs_loop_finishes U); [done|]. simpl.
  assert (H1 : (size (U ∖ v2) ≤ size (U ∖ v1))%nat).
  { apply subseteq_size. intros x [? Hx]%elem_of_difference.
    apply elem_of_difference. split; [done|]. intros ?. apply Hx. by apply Hsub. }
  assert (H2 : (size (U ∖ ({[materia_code]} : gset string)) ≤ size U)%nat).
  { apply subseteq_size. intros x [? _]%elem_of_difference. done. }
  assert (H3 : (size U ≤ length (Pensum.materias p))%nat).
  { unfold U, codes. rewrite <- (length_fmap Materia.code).
    generalize (Materia.code <$> Pensum.materias p). intros l.
    induction l as [|x l IHl]; [vm_compute; lia|]. rewrite list_to_set_cons, length_cons.
    destruct (decide (x ∈ (list_to_set l : gset string))).
    - rewrite (subseteq_union_1_L {[x]} (list_to_set l)); [lia|].
      by apply singleton_subseteq_l.
    - rewrite (size_union (C:=gset string)), (size_singleton (C:=gset string)); [lia|].
      intros y Hy%elem_of_singleton. by subst y. }
  unfold work in *. simpl in Hw1. lia.
Qed.

(** The scenario of the specification: MATH2 requires MATH1 and MATH3
    requires MATH2; losing MATH1 blocks MATH2 directly and MATH3
    indirectly. *)
Example simulate_course_loss_chain :
  ∃ r, PensumService.simulate_course_loss "MATH1" PensumSamples.chain = inr r ∧
       blocked_codes (PensumService.directly_blocked r) = ["MATH2"] ∧
       blocked_codes (PensumService.indirectly_blocked r) = ["MATH3"] ∧
       blocked_codes (PensumService.corequisite_affected r) = [] ∧
       PensumService.total_blocked_courses r = 2%Z ∧
       PensumService.total_blocked_credits r = 6%Z.
Proof. eexists. split; [vm_compute; reflexivity|]. repeat split. Qed.

(** C7 at a concrete input.  B requires A, C requires B and has A as a
    corequisite, D requires C.  C and D are transitive
    prerequisite-dependents of A, yet losing A reports C as
    corequisite-affected only, does not report D at all, and counts a
    single blocked course. *)
Theorem C7_corequisite_hides_blocked_courses :
  let p := PensumSamples.coreq_shortcut in
  tc (requires_prereq p) "A" "C" ∧ tc (requires_prereq p) "A" "D" ∧
  ∃ r, PensumService.simulate_course_loss "A" p = inr r ∧
       blocked_codes (PensumService.directly_blocked r) = ["B"] ∧
       blocked_codes (PensumService.indirectly_blocked r) = [] ∧
       blocked_codes (PensumService.corequisite_affected r) = ["C"] ∧
       PensumService.total_blocked_courses r = 1%Z ∧
       PensumService.total_blocked_credits r = 3%Z.
Proof.
  assert (Hab : requires_prereq PensumSamples.coreq_shortcut "A" "B").
  { exists (PensumSamples.course "B" 2 ["A"] []).
    split; [right; left|]. split; [reflexivity|left]. }
  assert (Hbc : requires_prereq PensumSamples.coreq_shortcut "B" "C").
  { exists (PensumSamples.course "C" 3 ["B"] ["A"]).
    split; [right; right; left|]. split; [reflexivity|left]. }
  assert (Hcd : requires_prereq PensumSamples.coreq_shortcut "C" "D").
  { exists (PensumSamples.course "D" 4 ["C"] []).
    split; [right; right; right; left|]. split; [reflexivity|left]. }
  split; [eapply tc_l; [exact Hab|by apply tc_once]|].
  split; [eapply tc_l; [exact Hab|eapply tc_l; [exact Hbc|by apply tc_once]]|].
  eexists. split; [vm_compute; reflexivity|]. repeat split.
Qed.

(** ** What the traversal of [simulate_course_loss] computes *)

Lemma collect_spec deps (visited : gset string) out queue :
  ∃ added,
    PensumService.collect deps visited out queue
    = (list_to_set added ∪ visited, out ++ added, queue ++ added) ∧
    NoDup added ∧ (∀ v, v ∈ added ↔ v ∈ deps ∧ v ∉ visited).
Proof.
  revert visited out queue.
  induction deps as [|dep deps IH]; intros visited out queue; simpl.
  { exists []. rewrite !app_nil_r. split; [|split; [constructor|]].
    - f_equal. f_equal. apply set_eq. intros x.
      rewrite elem_of_union, elem_of_list_to_set, elem_of_nil. tauto.
    - intros v. rewrite !elem_of_nil. tauto. }
  destruct (decide (dep ∉ visited)) as [Hnew|Hold].
  - destruct (IH ({[dep]} ∪ visited) (out ++ [dep]) (queue ++ [dep]))
      as (added & -> & Hnd & Hadd).
    exists (dep :: added). split; [|split].
    + rewrite <- !app_assoc. simpl. f_equal. f_equal. apply set_eq. intros x.
      rewrite !elem_of_union. tauto.
    + constructor; [|done]. rewrite Hadd, elem_of_union, elem_of_singleton. tauto.
    + intros v. rewrite !elem_of_cons, Hadd, elem_of_union, elem_of_singleton.
      destruct (decide (v = dep)) as [->|]; tauto.
  - destruct (IH visited out queue) as (added & -> & Hnd & Hadd).
    exists added. split; [done|]. split; [done|].
    intros v. rewrite Hadd, elem_of_cons. split; [tauto|].
    intros [[->|?] ?]; [|tauto]. by destruct Hold.
Qed.

Section Bfs.
Variable prereq_dependents : gmap string (list string).
Variables (L : string) (direct coreq : list string).

Abbreviation next := (λ u v, v ∈ PensumService.dget [] prereq_dependents u).

Hypothesis direct_next : ∀ d, d ∈ direct → next L d.

Lemma bfs_step_inv st c q :
  bfs_inv next L direct coreq st → PensumService.b_queue st = c :: q →
  bfs_inv next L direct coreq (PensumService.bfs_step prereq_dependents st).
Proof.
  intros (Hvis & Hnd & Hind & Hqueue & Hclosed) Hq.
  unfold PensumService.bfs_step. rewrite Hq.
  destruct (collect_spec (PensumService.dget [] prereq_dependents c)
              (PensumService.b_visited st) (PensumService.b_indirectly_blocked st) q)
    as (added & -> & Hadd_nd & Hadd).
  assert (Hc : tc next L c).
  { destruct (Hqueue c) as [Hd|Hi]; [rewrite Hq; left| |].
    - apply tc_once. by apply direct_next.
    - by apply Hind. }
  assert (Hfresh : ∀ v, v ∈ added →
            (v ∉ PensumService.b_indirectly_blocked st) ∧
            v ≠ L ∧ (v ∉ direct) ∧ (v ∉ coreq)).
  { intros v [_ Hv]%Hadd. rewrite Hvis in Hv.
    rewrite !elem_of_union, !elem_of_list_to_set, elem_of_singleton in Hv. tauto. }
  split; [|split; [|split; [|split]]]; simpl.
  - rewrite Hvis. apply set_eq. intros x.
    rewrite !elem_of_union, !elem_of_list_to_set, elem_of_app. tauto.
  - apply NoDup_app. split; [done|]. split; [|done].
    intros v Hv Hv'. by apply Hfresh in Hv' as [? _].
  - intros v [Hv|Hv]%elem_of_app; [by apply Hind|].
    destruct (Hfresh v Hv) as (_ & ? & ? & ?). repeat split; try done.
    eapply tc_r; [exact Hc|]. by apply Hadd in Hv as [? _].
  - intros v [Hv|Hv]%elem_of_app.
    + destruct (Hqueue v) as [?|?]; [rewrite Hq; by right|by left|].
      right. apply elem_of_app. by left.
    + right. apply elem_of_app. by right.
  - intros u v Hu Hnq Hnext.
    rewrite elem_of_app in Hnq.
    assert (Hu' : u ∈ direct ∨ u ∈ PensumService.b_indirectly_blocked st).
    { destruct Hu as [?|[?|?]%elem_of_app]; [by left|by right|tauto]. }
    rewrite elem_of_union, elem_of_list_to_set.
    destruct (decide (u = c)) as [->|Hne].
    + destruct (decide (v ∈ PensumService.b_visited st)); [by right|].
      left. by apply Hadd.
    + right. apply (Hclosed u v Hu'); [|done].
      rewrite Hq, elem_of_cons. tauto.
Qed.

Lemma bfs_loop_inv fuel st :
  bfs_inv next L direct coreq st →
  bfs_inv next L direct coreq (PensumService.bfs_loop fuel prereq_dependents st).
Proof.
  revert st. induction fuel as [|fuel IH]; intros st Hinv; simpl; [done|].
  destruct (PensumService.b_queue st) as [|c q] eqn:Hq; [done|].
  apply IH. by eapply bfs_step_inv.
Qed.

End Bfs.

(** The three code lists computed by [simulate_course_loss] for the lost
    course [L].  The list of directly blocked courses is exactly the set of
    direct prerequisite-dependents other than [L]; the corequisite list is
    the set of corequisite-dependents that are neither [L] nor directly
    blocked; an indirectly blocked course is a transitive
    prerequisite-dependent that is in neither of the other lists; the
    three lists have no repetition.  Every transitive
    prerequisite-dependent of [L] is [L] itself, directly blocked,
    indirectly blocked, or is -- or lies behind -- a course of the
    corequisite list. *)
Lemma traverse_spec L p :
  let r := PensumService.traverse L p in
  let direct := r.1.1.1 in
  let indirect := r.1.1.2 in
  let coreq := r.1.2 in
  NoDup direct ∧ NoDup indirect ∧ NoDup coreq ∧
  (∀ v, v ∈ direct ↔ requires_prereq p L v ∧ v ≠ L) ∧
  (∀ v, v ∈ coreq ↔ requires_coreq p L v ∧ v ≠ L ∧ v ∉ direct) ∧
  (∀ v, v ∈ indirect →
        tc (requires_prereq p) L v ∧ v ≠ L ∧ (v ∉ direct) ∧ v ∉ coreq) ∧
  (∀ v, tc (requires_prereq p) L v →
        v = L ∨ v ∈ direct ∨ v ∈ indirect
        ∨ ∃ c, c ∈ coreq ∧ rtc (requires_prereq p) c v).
Proof.
  pose proof (traverse_finishes L p) as Hfin. revert Hfin.
  unfold PensumService.traverse.
  set (pd := PensumService.dependents Materia.prerequisites (Pensum.materias p)).
  set (cd := PensumService.dependents Materia.corequisites (Pensum.materias p)).
  assert (Hpd : ∀ u v, v ∈ PensumService.dget [] pd u ↔ requires_prereq p u v).
  { intros u v. apply dependents_elem. }
  assert (Hcd : ∀ u v, v ∈ PensumService.dget [] cd u ↔ requires_coreq p u v).
  { intros u v. apply dependents_elem. }
  destruct (collect_spec (PensumService.dget [] pd L) {[L]} [] [])
    as (direct & -> & Hd_nd & Hd).
  destruct (collect_spec (PensumService.dget [] cd L) (list_to_set direct ∪ {[L]}) [] [])
    as (coreq & -> & Hc_nd & Hc).
  simpl.
  set (st0 := PensumService.mk_bfs direct
                (list_to_set coreq ∪ (list_to_set direct ∪ {[L]})) []).
  assert (Hinv0 : bfs_inv (λ u v, v ∈ PensumService.dget [] pd u) L direct coreq st0).
  { split; [|split; [constructor|split; [|split]]]; simpl.
    - apply set_eq. intros x. rewrite !elem_of_union.
      split; [tauto|]. intros [H|H]; [by apply not_elem_of_empty in H|tauto].
    - intros v Hv. by apply elem_of_nil in Hv.
    - intros v Hv. by left.
    - intros u v [Hu|Hu%elem_of_nil] Hnq; done. }
  apply (bfs_loop_inv pd L direct coreq) with (fuel := length (Pensum.materias p))
    in Hinv0; [|by intros d [? _]%Hd].
  set (st := PensumService.bfs_loop (length (Pensum.materias p)) pd st0) in *.
  destruct Hinv0 as (Hvis & Hi_nd & Hind & _ & Hclosed).
  intros Hfin.
  assert (Hdirect : ∀ v, v ∈ direct ↔ requires_prereq p L v ∧ v ≠ L).
  { intros v. rewrite Hd, Hpd, elem_of_singleton. tauto. }
  assert (Hcoreq : ∀ v, v ∈ coreq ↔ requires_coreq p L v ∧ v ≠ L ∧ v ∉ direct).
  { intros v. rewrite Hc, Hcd, elem_of_union, elem_of_list_to_set, elem_of_singleton.
    tauto. }
  assert (Htc : ∀ u v, tc (λ u v, v ∈ PensumService.dget [] pd u) u v
                       ↔ tc (requires_prereq p) u v).
  { intros u v. split; induction 1 as [? ? H|? ? ? H ? IH];
      first [by apply tc_once, Hpd | eapply tc_l; [by apply Hpd|done]]. }
  split; [done|]. split; [done|]. split; [done|]. split; [done|]. split; [done|].
  split.
  { intros v Hv. destruct (Hind v Hv) as (? & ? & ? & ?). by rewrite <- Htc. }
  assert (Hreach : ∀ u v, rtc (requires_prereq p) u v →
            u = L ∨ u ∈ direct ∨ u ∈ PensumService.b_indirectly_blocked st
              ∨ (∃ c, c ∈ coreq ∧ rtc (requires_prereq p) c u) →
            v = L ∨ v ∈ direct ∨ v ∈ PensumService.b_indirectly_blocked st
              ∨ (∃ c, c ∈ coreq ∧ rtc (requires_prereq p) c v)).
  { intros u v Huv. induction Huv as [|u w v Huw Hwv IH]; [done|].
    intros Hu. apply IH. clear IH Hwv.
    assert (Hvisited : w ∈ PensumService.b_visited st →
      w = L ∨ w ∈ direct ∨ w ∈ PensumService.b_indirectly_blocked st
        ∨ (∃ c, c ∈ coreq ∧ rtc (requires_prereq p) c w)).
    { rewrite Hvis, !elem_of_union, !elem_of_list_to_set, elem_of_singleton.
      intros [?|[[?|?]|?]]; [tauto..|].
      right; right; right. by exists w. }
    destruct Hu as [->|[Hu|[Hu|(c & Hc' & Hcu)]]].
    - destruct (decide (w = L)) as [|Hne]; [by left|].
      right; left. by apply Hdirect.
    - apply Hvisited. apply (Hclosed u w); [by left| |by apply Hpd].
      rewrite Hfin. apply not_elem_of_nil.
    - apply Hvisited. apply (Hclosed u w); [by right| |by apply Hpd].
      rewrite Hfin. apply not_elem_of_nil.
    - right; right; right. exists c. split; [done|]. by eapply rtc_r. }
  intros v Hv. apply tc_rtc in Hv. apply (Hreach L v Hv). by left.
Qed.

(** ** What [simulate_course_loss] reports *)

Lemma omap_info_of p (cs : list string) :
  omap (λ code,
      m ← Pensum.get_materia p code;
      Some (PensumService.mk_info (Materia.code m) (Materia.name m)
                                  (Materia.semester m) (Materia.credits m))) cs
  = omap (λ code, info_of <$> Pensum.get_materia p code) cs.
Proof.
  induction cs as [|c cs IH]; [done|].
  simpl in *. destruct (Pensum.get_materia p c); simpl; [f_equal|]; exact IH.
Qed.

Lemma get_materia_info_perm p cs :
  PensumService.get_materia_info p cs
  ≡ₚ omap (λ code, info_of <$> Pensum.get_materia p code) cs.
Proof.
  unfold PensumService.get_materia_info. rewrite omap_info_of.
  destruct (Py.sorted_m _ _ false _) as [r|] eqn:Hr; simpl; [|done].
  by apply sorted_m_perm in Hr.
Qed.

Lemma get_materia_code p m :
  normalized p → m ∈ Pensum.materias p →
  ∃ m', Pensum.get_materia p (Materia.code m) = Some m' ∧
        Materia.code m' = Materia.code m.
Proof.
  intros Hn Hm. unfold Pensum.get_materia. rewrite (Hn m Hm).
  destruct (List.find _ (Pensum.materias p)) as [m'|] eqn:Hfind.
  - exists m'. split; [done|]. apply find_some in Hfind as [_ H].
    by apply bool_decide_eq_true in H.
  - eapply find_none in Hfind; [|by apply list_elem_of_In].
    by apply bool_decide_eq_false in Hfind.
Qed.

Lemma get_materia_info_codes p cs :
  normalized p → (∀ c, c ∈ cs → c ∈ Materia.code <$> Pensum.materias p) →
  blocked_codes (PensumService.get_materia_info p cs) ≡ₚ cs.
Proof.
  intros Hn Hcs. unfold blocked_codes. rewrite get_materia_info_perm.
  induction cs as [|c cs IH]; [done|]. simpl.
  assert (Hc0 : c ∈ Materia.code <$> Pensum.materias p) by (apply Hcs; left).
  apply list_elem_of_fmap in Hc0 as (m & -> & Hm).
  destruct (get_materia_code p m Hn Hm) as (m' & -> & Hc). simpl.
  rewrite Hc, IH; [done|]. intros c' Hc'. apply Hcs. by right.
Qed.

Lemma sum_info_credits_perm l1 l2 :
  l1 ≡ₚ l2 → sum_info_credits l1 = sum_info_credits l2.
Proof.
  unfold sum_info_credits.
  induction 1 as [|x l l' _ IH|x y l|l l' l'' _ IH1 _ IH2];
    rewrite ?fmap_cons; cbn [foldr]; lia.
Qed.

Lemma sum_info_credits_app l1 l2 :
  sum_info_credits (l1 ++ l2) = (sum_info_credits l1 + sum_info_credits l2)%Z.
Proof.
  unfold sum_info_credits. rewrite fmap_app.
  induction (PensumService.i_credits <$> l1) as [|x l IH];
    rewrite ?app_nil_l, <- ?app_comm_cons; cbn [foldr]; lia.
Qed.

Lemma omap_credits p (l : list string) :
  omap (λ c, Materia.credits <$> Pensum.get_materia p c) l
  = PensumService.i_credits <$> omap (λ c, info_of <$> Pensum.get_materia p c) l.
Proof.
  induction l as [|c l IHl]; [done|].
  change (omap ?f (c :: l)) with
    (match f c with Some y => y :: omap f l | None => omap f l end).
  cbn beta.
  destruct (Pensum.get_materia p c) as [m|]; simpl; [f_equal|]; exact IHl.
Qed.

(** For an existing course of a catalog with normalised codes,
    [simulate_course_loss] reports the three lists of the traversal (each
    course once, in [(semester, code)] order),
    [total_blocked_courses = |directly_blocked| + |indirectly_blocked|],
    and [total_blocked_credits] is the sum of the credits of the reported
    directly and indirectly blocked courses. *)
Lemma simulate_course_loss_spec code p m :
  normalized p → Pensum.get_materia p code = Some m →
  ∃ r, PensumService.simulate_course_loss code p = inr r ∧
    let t := PensumService.traverse (Py.upper code) p in
    PensumService.lost_course r = info_of m ∧
    blocked_codes (PensumService.directly_blocked r) ≡ₚ t.1.1.1 ∧
    blocked_codes (PensumService.indirectly_blocked r) ≡ₚ t.1.1.2 ∧
    blocked_codes (PensumService.corequisite_affected r) ≡ₚ t.1.2 ∧
    PensumService.total_blocked_courses r
    = Z.of_nat (length (PensumService.directly_blocked r)
                + length (PensumService.indirectly_blocked r)) ∧
    PensumService.total_blocked_credits r
    = (sum_info_credits (PensumService.directly_blocked r)
       + sum_info_credits (PensumService.indirectly_blocked r))%Z.
Proof.
  intros Hn Hget. unfold PensumService.simulate_course_loss.
  rewrite get_materia_upper, Hget.
  pose proof (traverse_spec (Py.upper code) p) as Hspec.
  destruct (PensumService.traverse (Py.upper code) p) as [[[direct ind] coreq] st].
  simpl in Hspec. destruct Hspec as (_ & _ & _ & Hd & Hc & Hi & _).
  assert (Hcodes_d : ∀ c, c ∈ direct → c ∈ Materia.code <$> Pensum.materias p).
  { intros c [(m' & Hm' & <- & _) _]%Hd. by apply list_elem_of_fmap_2. }
  assert (Hcodes_c : ∀ c, c ∈ coreq → c ∈ Materia.code <$> Pensum.materias p).
  { intros c [(m' & Hm' & <- & _) _]%Hc. by apply list_elem_of_fmap_2. }
  assert (Hcodes_i : ∀ c, c ∈ ind → c ∈ Materia.code <$> Pensum.materias p).
  { assert (Htgt : ∀ u v, tc (requires_prereq p) u v →
                      v ∈ Materia.code <$> Pensum.materias p).
    { intros u v H. induction H as [? ? (m' & Hm' & <- & _)|]; [|done].
      by apply list_elem_of_fmap_2. }
    intros c [Htc _]%Hi. by eapply Htgt. }
  eexists. split; [reflexivity|]. cbn zeta.
  cbn [PensumService.lost_course PensumService.directly_blocked
       PensumService.indirectly_blocked PensumService.corequisite_affected
       PensumService.total_blocked_courses PensumService.total_blocked_credits
       fst snd].
  pose proof (get_materia_info_codes p direct Hn Hcodes_d) as Hpd.
  pose proof (get_materia_info_codes p ind Hn Hcodes_i) as Hpi.
  pose proof (get_materia_info_codes p coreq Hn Hcodes_c) as Hpc.
  split; [done|]. split; [done|]. split; [done|]. split; [done|]. split.
  - apply Permutation_length in Hpd, Hpi. unfold blocked_codes in Hpd, Hpi.
    rewrite length_fmap in Hpd, Hpi. lia.
  - rewrite (sum_info_credits_perm _ _ (get_materia_info_perm p direct)).
    rewrite (sum_info_credits_perm _ _ (get_materia_info_perm p ind)).
    rewrite <- sum_info_credits_app, <- omap_app. unfold sum_info_credits.
    f_equal. apply omap_credits.
Qed.

(* ===================================================================== *)
(** * Further properties of the time blocks                               *)
(* ===================================================================== *)

(** ** [_time_to_minutes] *)

Lemma split_no_sep sep cs :
  sep ∉ cs → Py.split sep cs = [cs].
Proof.
  induction cs as [|c cs IH]; [done|]. intros Hn.
  apply not_elem_of_cons in Hn as [Hc Hn]. simpl.
  destruct (Ascii.eqb_spec c sep) as [->|_]; [done|]. by rewrite IH.
Qed.

Lemma split_at_sep sep hs ms :
  sep ∉ hs → Py.split sep (hs ++ sep :: ms) = hs :: Py.split sep ms.
Proof.
  induction hs as [|c hs IH]; intros Hn.
  - simpl. by rewrite Ascii.eqb_refl.
  - apply not_elem_of_cons in Hn as [Hc Hn]. simpl.
    destruct (Ascii.eqb_spec c sep) as [->|_]; [done|]. by rewrite IH.
Qed.

(** The conversion of [hs:ms] when neither part holds a colon. *)
Lemma time_to_minutes_parts hs ms :
  ":"%char ∉ hs → ":"%char ∉ ms →
  BloqueHorario._time_to_minutes (string_of_list_ascii (hs ++ ":"%char :: ms))
  = (hours ← Py.int hs; minutes ← Py.int ms; Some (hours * 60 + minutes)%Z).
Proof.
  intros Hh Hm. unfold BloqueHorario._time_to_minutes.
  by rewrite list_ascii_of_string_of_list_ascii, split_at_sep, split_no_sep.
Qed.

(** Two digits [m1 m2] with [m1 <= 5] convert to a number below 60. *)
Lemma int_minutes m1 m2 :
  BloqueHorario.in_range "0" "5" m1 = true → BloqueHorario.in_range "0" "9" m2 = true →
  (":"%char ∉ [m1; m2]) ∧ ∃ m, Py.int [m1; m2] = Some m ∧ (0 ≤ m < 60)%Z.
Proof. intros H1 H2. enum_char m1 H1; enum_char m2 H2; solve_digits. Qed.

Lemma int_hour_1 h :
  BloqueHorario.in_range "0" "9" h = true →
  (":"%char ∉ [h]) ∧ ∃ n, Py.int [h] = Some n ∧ (0 ≤ n < 24)%Z.
Proof. intros H. enum_char h H; solve_digits. Qed.

Lemma int_hour_2 h1 h2 :
  (BloqueHorario.in_range "0" "1" h1 && BloqueHorario.in_range "0" "9" h2)
  || (Ascii.eqb h1 "2" && BloqueHorario.in_range "0" "3" h2) = true →
  (":"%char ∉ [h1; h2]) ∧ ∃ n, Py.int [h1; h2] = Some n ∧ (0 ≤ n < 24)%Z.
Proof.
  intros [[H1 H2]%andb_true_iff|[H1 H2]%andb_true_iff]%orb_true_iff.
  - enum_char h1 H1; enum_char h2 H2; solve_digits.
  - apply Ascii.eqb_eq in H1 as ->. enum_char h2 H2; solve_digits.
Qed.

Lemma matches_pattern_minutes s :
  BloqueHorario.matches_pattern s = true →
  ∃ m, BloqueHorario._time_to_minutes s = Some m ∧ (0 ≤ m < 1440)%Z.
Proof.
  unfold BloqueHorario.matches_pattern.
  pose proof (string_of_list_ascii_of_string s) as Hs.
  destruct (list_ascii_of_string s) as [|a [|b [|c [|d [|e [|f l]]]]]];
    try done; subst s.
  - intros [[[Hh Hc]%andb_true_iff H1]%andb_true_iff H2]%andb_true_iff.
    apply Ascii.eqb_eq in Hc as ->.
    destruct (int_hour_1 a Hh) as (Hn1 & h & Hh' & ?).
    destruct (int_minutes c d H1 H2) as (Hn2 & m & Hm' & ?).
    rewrite (time_to_minutes_parts [a] [c; d] Hn1 Hn2
             : BloqueHorario._time_to_minutes
                 (string_of_list_ascii [a; ":"%char; c; d]) = _).
    rewrite Hh', Hm'. simpl. eexists. split; [done|lia].
  - intros [[[Hh Hc]%andb_true_iff H1]%andb_true_iff H2]%andb_true_iff.
    apply Ascii.eqb_eq in Hc as ->.
    destruct (int_hour_2 a b Hh) as (Hn1 & h & Hh' & ?).
    destruct (int_minutes d e H1 H2) as (Hn2 & m & Hm' & ?).
    rewrite (time_to_minutes_parts [a; b] [d; e] Hn1 Hn2
             : BloqueHorario._time_to_minutes
                 (string_of_list_ascii [a; b; ":"%char; d; e]) = _).
    rewrite Hh', Hm'. simpl. eexists. split; [done|lia].
Qed.

(** ** The constructor of [BloqueHorario] *)

Lemma new_Some d s e b :
  BloqueHorario.new d s e = Some b →
  b = BloqueHorario.mk d s e ∧
  BloqueHorario.matches_pattern s = true ∧ BloqueHorario.matches_pattern e = true ∧
  ∃ sm em, BloqueHorario._time_to_minutes s = Some sm ∧
           BloqueHorario._time_to_minutes e = Some em ∧ (0 ≤ sm < em ∧ em < 1440)%Z.
Proof.
  unfold BloqueHorario.new.
  destruct (BloqueHorario.matches_pattern s) eqn:Hs; [|done].
  destruct (BloqueHorario.matches_pattern e) eqn:He; [|done]. simpl.
  destruct (matches_pattern_minutes s Hs) as (sm & -> & ?).
  destruct (matches_pattern_minutes e He) as (em & -> & ?). simpl.
  destruct (em <=? sm)%Z eqn:Hle; [done|]. apply Z.leb_gt in Hle.
  intros [= <-]. repeat split; [exists sm, em; repeat split; lia].
Qed.

Lemma constructed_wf b : constructed b → wf_bloque b = true.
Proof.
  intros (_ & _ & _ & sm & em & Hs & He & ?)%new_Some.
  unfold wf_bloque, BloqueHorario.get_start_minutes, BloqueHorario.get_end_minutes.
  rewrite Hs, He. apply Z.ltb_lt. lia.
Qed.

Lemma constructed_clase_wf c : constructed_clase c → wf_clase c = true.
Proof.
  unfold constructed_clase, wf_clase. intros H. apply forallb_forall.
  intros b Hb%list_elem_of_In. apply constructed_wf. by eapply Forall_forall in H.
Qed.

(** X1.  The constructor of [BloqueHorario] accepts exactly the times that
    match the [HH:MM] pattern with the end after the start; an accepted
    block keeps the three values, and its times are minutes of one day:
    [0 <= start < end < 1440]. *)
Theorem X1_bloque_constructor d s e :
  (is_Some (BloqueHorario.new d s e) ↔
   BloqueHorario.matches_pattern s = true ∧ BloqueHorario.matches_pattern e = true ∧
   (minutes s < minutes e)%Z) ∧
  (∀ b, BloqueHorario.new d s e = Some b →
     b = BloqueHorario.mk d s e ∧
     ∃ sm em, BloqueHorario.get_start_minutes b = Some sm ∧
              BloqueHorario.get_end_minutes b = Some em ∧
              (0 ≤ sm < em ∧ em < 1440)%Z).
Proof.
  split.
  - split.
    + intros [b (_ & Hs & He & sm & em & Hsm & Hem & ?)%new_Some].
      unfold minutes. rewrite Hsm, Hem. simpl. repeat split; [done..|lia].
    + intros (Hs & He & Hlt). unfold BloqueHorario.new. rewrite Hs, He. simpl.
      destruct (matches_pattern_minutes s Hs) as (sm & Hsm & ?).
      destruct (matches_pattern_minutes e He) as (em & Hem & ?).
      unfold minutes in Hlt. rewrite Hsm, Hem in *. simpl in *.
      rewrite (proj2 (Z.leb_gt em sm)) by lia. by eexists.
  - intros b (-> & _ & _ & sm & em & Hsm & Hem & ?)%new_Some.
    split; [done|]. by exists sm, em.
Qed.

(** ** [overlaps_with] *)

Lemma overlaps_with_comm a b :
  BloqueHorario.overlaps_with a b = BloqueHorario.overlaps_with b a.
Proof.
  unfold BloqueHorario.overlaps_with.
  destruct (decide (BloqueHorario.day a = BloqueHorario.day b)) as [Hd|Hd].
  - rewrite !bool_decide_eq_true_2 by done. simpl.
    destruct (BloqueHorario.get_start_minutes a), (BloqueHorario.get_end_minutes a),
      (BloqueHorario.get_start_minutes b), (BloqueHorario.get_end_minutes b);
      simpl; try done.
    by rewrite orb_comm.
  - rewrite !bool_decide_eq_false_2 by done. done.
Qed.

Lemma overlaps_with_spec a b :
  wf_bloque a = true → wf_bloque b = true →
  BloqueHorario.overlaps_with a b = Some (bool_decide (blocks_overlap a b)).
Proof.
  unfold wf_bloque, BloqueHorario.overlaps_with, blocks_overlap, overlap, minutes.
  unfold BloqueHorario.get_start_minutes, BloqueHorario.get_end_minutes.
  destruct (BloqueHorario._time_to_minutes (BloqueHorario.start a)) as [sa|]; [|done].
  destruct (BloqueHorario._time_to_minutes (BloqueHorario.end_ a)) as [ea|]; [|done].
  destruct (BloqueHorario._time_to_minutes (BloqueHorario.start b)) as [sb|]; [|done].
  destruct (BloqueHorario._time_to_minutes (BloqueHorario.end_ b)) as [eb|]; [|done].
  simpl. intros Ha%Z.ltb_lt Hb%Z.ltb_lt.
  destruct (decide (BloqueHorario.day a = BloqueHorario.day b)) as [Hd|Hd].
  - rewrite bool_decide_eq_true_2 by done. simpl. f_equal.
    destruct (ea <=? sb)%Z eqn:E1; destruct (eb <=? sa)%Z eqn:E2; simpl;
      symmetry; first [apply bool_decide_eq_true | apply bool_decide_eq_false];
      try apply Z.leb_le in E1; try apply Z.leb_le in E2;
      try apply Z.leb_gt in E1; try apply Z.leb_gt in E2;
      first [split; [done|lia] | intros (? & ? & ?); lia].
  - rewrite bool_decide_eq_false_2 by done. simpl. f_equal.
    symmetry. apply bool_decide_eq_false. by intros [? _].
Qed.

(** X3.  A constructed block overlaps itself, and two constructed blocks
    of the same day of which one ends when the other starts do not
    overlap. *)
Theorem X3_overlaps_with_self_and_adjacent a b :
  constructed a → constructed b →
  BloqueHorario.overlaps_with a a = Some true ∧
  (BloqueHorario.get_end_minutes a = BloqueHorario.get_start_minutes b →
   BloqueHorario.overlaps_with a b = Some false).
Proof.
  intros Ha Hb. pose proof (constructed_wf a Ha) as Wa.
  pose proof (constructed_wf b Hb) as Wb. split.
  - rewrite overlaps_with_spec by done. f_equal. apply bool_decide_eq_true.
    unfold blocks_overlap, overlap, minutes. revert Wa. unfold wf_bloque.
    unfold BloqueHorario.get_start_minutes, BloqueHorario.get_end_minutes.
    destruct (BloqueHorario._time_to_minutes (BloqueHorario.start a)); [|done].
    destruct (BloqueHorario._time_to_minutes (BloqueHorario.end_ a)); [|done].
    simpl. intros ?%Z.ltb_lt. done.
  - intros Heq. rewrite overlaps_with_spec by done. f_equal.
    apply bool_decide_eq_false.
    unfold blocks_overlap, overlap, minutes. revert Wa Wb Heq. unfold wf_bloque.
    unfold BloqueHorario.get_start_minutes, BloqueHorario.get_end_minutes.
    destruct (BloqueHorario._time_to_minutes (BloqueHorario.start a)); [|done].
    destruct (BloqueHorario._time_to_minutes (BloqueHorario.end_ a)); [|done].
    destruct (BloqueHorario._time_to_minutes (BloqueHorario.start b)); [|done].
    destruct (BloqueHorario._time_to_minutes (BloqueHorario.end_ b)); [|done].
    simpl. intros _ _ [= ->] (_ & ? & ?). lia.
Qed.

Lemma X3_witness :
  BloqueHorario.overlaps_with BlockSamples.morning BlockSamples.morning = Some true ∧
  (BloqueHorario.get_end_minutes BlockSamples.morning
   = BloqueHorario.get_start_minutes BlockSamples.noon →
   BloqueHorario.overlaps_with BlockSamples.morning BlockSamples.noon = Some false).
Proof.
  apply (X3_overlaps_with_self_and_adjacent BlockSamples.morning BlockSamples.noon);
    vm_compute; reflexivity.
Defined.

(** ** [conflicts_with] *)

Lemma conflicts_with_true c1 c2 :
  wf_clase c1 = true → wf_clase c2 = true →
  Clase.conflicts_with c1 c2 = Some true ↔
  ∃ b1 b2, b1 ∈ Clase.schedule c1 ∧ b2 ∈ Clase.schedule c2
           ∧ BloqueHorario.overlaps_with b1 b2 = Some true.
Proof.
  intros W1 W2. split.
  - intros H. apply any_m_true in H as (b1 & H1 & (b2 & H2 & Ho)%any_m_true). eauto.
  - intros (b1 & b2 & H1 & H2 & Ho).
    destruct (conflicts_with_total c1 c2 W1 W2) as [[] H]; [done|].
    pose proof (any_m_false _ _ (any_m_false _ _ H b1 H1) b2 H2) as Hf. simpl in Hf.
    congruence.
Qed.

(** X2.  [overlaps_with] is symmetric (both calls raise, or both return
    the same answer), and so is [conflicts_with] on validated sections. *)
Theorem X2_conflict_tests_symmetric :
  (∀ a b, BloqueHorario.overlaps_with a b = BloqueHorario.overlaps_with b a) ∧
  (∀ c1 c2, wf_clase c1 = true → wf_clase c2 = true →
     Clase.conflicts_with c1 c2 = Clase.conflicts_with c2 c1).
Proof.
  split; [apply overlaps_with_comm|].
  intros c1 c2 W1 W2.
  destruct (conflicts_with_total c1 c2 W1 W2) as [x Hx].
  destruct (conflicts_with_total c2 c1 W2 W1) as [y Hy].
  rewrite Hx, Hy. f_equal.
  destruct x, y; try done.
  - apply conflicts_with_true in Hx as (b1 & b2 & H1 & H2 & Ho); [|done..].
    assert (Clase.conflicts_with c2 c1 = Some true); [|congruence].
    apply conflicts_with_true; [done..|].
    exists b2, b1. by rewrite overlaps_with_comm.
  - apply conflicts_with_true in Hy as (b1 & b2 & H1 & H2 & Ho); [|done..].
    assert (Clase.conflicts_with c1 c2 = Some true); [|congruence].
    apply conflicts_with_true; [done..|].
    exists b2, b1. by rewrite overlaps_with_comm.
Qed.

Lemma X2_witness :
  Clase.conflicts_with Samples.a1 Samples.b1 = Clase.conflicts_with Samples.b1 Samples.a1.
Proof.
  apply (proj2 X2_conflict_tests_symmetric Samples.a1 Samples.b1); reflexivity.
Defined.

Lemma X1_witness :
  ∃ sm em,
    BloqueHorario.get_start_minutes BlockSamples.morning = Some sm ∧
    BloqueHorario.get_end_minutes BlockSamples.morning = Some em ∧
    (0 ≤ sm < em ∧ em < 1440)%Z.
Proof.
  apply (proj2 (X1_bloque_constructor MONDAY "08:00" "10:00") BlockSamples.morning).
  reflexivity.
Defined.

(** ** [Franja.to_bloque] and the dicts of the models *)

(** X4.  For a preference whose two times match the pattern (every
    constructed [Franja]), [to_bloque] raises exactly when the end is not
    after the start; otherwise it returns the block with the same day,
    start and end. *)
Theorem X4_to_bloque_raises_iff_not_ordered f :
  Franja.new (Franja.day f) (Franja.start f) (Franja.end_ f) (Franja.status f) = Some f →
  (Franja.to_bloque f = None ↔ (minutes (Franja.end_ f) ≤ minutes (Franja.start f))%Z) ∧
  (∀ b, Franja.to_bloque f = Some b →
     b = BloqueHorario.mk (Franja.day f) (Franja.start f) (Franja.end_ f)).
Proof.
  unfold Franja.new, Franja.to_bloque, BloqueHorario.new.
  destruct (BloqueHorario.matches_pattern (Franja.start f)) eqn:Hs; [|done].
  destruct (BloqueHorario.matches_pattern (Franja.end_ f)) eqn:He; [|done]. simpl.
  intros _. unfold minutes.
  destruct (matches_pattern_minutes _ Hs) as (sm & -> & ?).
  destruct (matches_pattern_minutes _ He) as (em & -> & ?). simpl.
  destruct (em <=? sm)%Z eqn:Hle.
  - apply Z.leb_le in Hle. done.
  - apply Z.leb_gt in Hle. split; [|by intros b [= <-]]. split; [done|lia].
Qed.

Lemma X4_witness :
  Franja.to_bloque Samples.backwards = None ↔
  (minutes (Franja.end_ Samples.backwards) ≤ minutes (Franja.start Samples.backwards))%Z.
Proof.
  apply (X4_to_bloque_raises_iff_not_ordered Samples.backwards). reflexivity.
Defined.

Lemma DayOfWeek_of_value_value d : DayOfWeek_of_value (DayOfWeek_value d) = Some d.
Proof. by destruct d. Qed.

Lemma DayOfWeek_value_of_value v d :
  DayOfWeek_of_value v = Some d → DayOfWeek_value d = v.
Proof.
  unfold DayOfWeek_of_value. intros [_ H]%find_some. by apply bool_decide_eq_true in H.
Qed.

Lemma FranjaStatus_of_value_value s : FranjaStatus_of_value (FranjaStatus_value s) = Some s.
Proof. by destruct s. Qed.

Lemma FranjaStatus_value_of_value v s :
  FranjaStatus_of_value v = Some s → FranjaStatus_value s = v.
Proof.
  unfold FranjaStatus_of_value. intros [_ H]%find_some. by apply bool_decide_eq_true in H.
Qed.

(** X5.  [to_dict] and [from_dict] of [BloqueHorario] and of [Franja] are
    inverse to each other: a constructed object is read back from its
    dict, and a dict that [from_dict] accepts is the dict of the object
    it returns. *)
Theorem X5_block_and_franja_dict_round_trip :
  (∀ b, constructed b → BloqueHorario.from_dict (BloqueHorario.to_dict b) = Some b) ∧
  (∀ d b, BloqueHorario.from_dict d = Some b → BloqueHorario.to_dict b = d) ∧
  (∀ f, Franja.new (Franja.day f) (Franja.start f) (Franja.end_ f) (Franja.status f)
        = Some f →
        Franja.from_dict (Franja.to_dict f) = Some f) ∧
  (∀ d f, Franja.from_dict d = Some f → Franja.to_dict f = d).
Proof.
  split; [|split; [|split]].
  - intros b Hb. unfold BloqueHorario.from_dict, BloqueHorario.to_dict. simpl.
    by rewrite DayOfWeek_of_value_value.
  - intros [dd ds de] b. unfold BloqueHorario.from_dict, BloqueHorario.to_dict. simpl.
    destruct (DayOfWeek_of_value dd) as [day|] eqn:Hd; simpl; [|done].
    intros (-> & _)%new_Some. simpl. by rewrite (DayOfWeek_value_of_value _ _ Hd).
  - intros f Hf. unfold Franja.from_dict, Franja.to_dict. simpl.
    by rewrite DayOfWeek_of_value_value, FranjaStatus_of_value_value.
  - intros [dd ds de dst] f. unfold Franja.from_dict, Franja.to_dict, Franja.new. simpl.
    destruct (DayOfWeek_of_value dd) as [day|] eqn:Hd; simpl; [|done].
    destruct (FranjaStatus_of_value dst) as [st|] eqn:Hst; simpl; [|done].
    destruct (_ && _); [|done]. intros [= <-]. simpl.
    by rewrite (DayOfWeek_value_of_value _ _ Hd), (FranjaStatus_value_of_value _ _ Hst).
Qed.

Lemma X5_witness :
  BloqueHorario.from_dict (BloqueHorario.to_dict BlockSamples.morning)
  = Some BlockSamples.morning.
Proof.
  apply (proj1 X5_block_and_franja_dict_round_trip BlockSamples.morning). reflexivity.
Defined.

(* ===================================================================== *)
(** * Further properties of the metrics calculator                        *)
(* ===================================================================== *)

(** ** The time strings of the metrics *)

Lemma hh_mm_parse m :
  (0 ≤ m ≤ 1440)%Z → BloqueHorario._time_to_minutes (hh_mm m) = Some m.
Proof.
  intros Hm.
  assert (H : forallb (λ m, bool_decide (BloqueHorario._time_to_minutes (hh_mm m) = Some m))
                      (seqZ 0 1441) = true) by (vm_compute; reflexivity).
  rewrite forallb_forall in H. specialize (H m).
  rewrite bool_decide_eq_true in H. apply H.
  apply list_elem_of_In, elem_of_seqZ. lia.
Qed.

Lemma hh_mm_pattern m :
  (0 ≤ m < 1440)%Z → BloqueHorario.matches_pattern (hh_mm m) = true.
Proof.
  intros Hm.
  assert (H : forallb (λ m, BloqueHorario.matches_pattern (hh_mm m)) (seqZ 0 1440) = true)
    by (vm_compute; reflexivity).
  rewrite forallb_forall in H. apply H.
  apply list_elem_of_In, elem_of_seqZ. lia.
Qed.

(** ** The dict [days_used] *)

Lemma collect_days_fold clases :
  HorarioCombination.collect_days clases = fold_left add_block (all_blocks clases) [].
Proof.
  unfold HorarioCombination.collect_days, all_blocks. generalize (@nil (string * list BloqueHorario.t)).
  induction clases as [|c cs IH]; intros acc; simpl; [done|].
  by rewrite fold_left_app, IH.
Qed.

Lemma days_used_append_keys d b du :
  (HorarioCombination.days_used_append d b du).*1
  = if decide (d ∈ du.*1) then du.*1 else du.*1 ++ [d].
Proof.
  induction du as [|[d' bs] du IH].
  - destruct (decide (d ∈ [].*1)) as [Hin|]; [by apply elem_of_nil in Hin|done].
  - cbn [HorarioCombination.days_used_append]. rewrite fmap_cons. cbn [fst].
    destruct (decide (d' = d)) as [->|Hne].
    + rewrite fmap_cons. cbn [fst].
      destruct (decide (d ∈ d :: du.*1)) as [|Hn]; [done|]. destruct Hn. left.
    + rewrite fmap_cons, IH. cbn [fst].
      destruct (decide (d ∈ du.*1)) as [Hin|Hin];
        destruct (decide (d ∈ d' :: du.*1)) as [Hin'|Hin']; try done.
      * destruct Hin'. by right.
      * apply elem_of_cons in Hin' as [?|?]; done.
Qed.

Lemma days_used_append_perm d b du :
  flat_map snd (HorarioCombination.days_used_append d b du) ≡ₚ b :: flat_map snd du.
Proof.
  induction du as [|[d' bs] du IH]; simpl; [done|].
  destruct (decide (d' = d)) as [->|Hne]; simpl.
  - rewrite <- app_assoc. rewrite (Permutation_app_comm bs). simpl.
    by rewrite (Permutation_app_comm _ bs).
  - rewrite IH. by rewrite Permutation_middle.
Qed.

Lemma days_used_append_nonempty d b du :
  Forall (λ kv, kv.2 ≠ []) du →
  Forall (λ kv, kv.2 ≠ []) (HorarioCombination.days_used_append d b du).
Proof.
  induction 1 as [|[d' bs] du Hd Hdu IH]; simpl.
  - by repeat constructor.
  - destruct (decide (d' = d)); constructor; simpl in *; try done.
    by destruct bs.
Qed.

Lemma days_used_append_day b du :
  Forall (λ kv, Forall (λ b, day_letter b = kv.1) kv.2) du →
  Forall (λ kv, Forall (λ b, day_letter b = kv.1) kv.2)
         (HorarioCombination.days_used_append (day_letter b) b du).
Proof.
  induction 1 as [|[d' bs] du Hd Hdu IH]; simpl.
  - by repeat constructor.
  - destruct (decide (d' = day_letter b)) as [->|]; constructor; simpl in *; try done.
    apply Forall_app. split; [done|]. by repeat constructor.
Qed.

(** The dict holds every block once, under the letter of its day; no day
    has an empty list, and the keys are the letters of the days used. *)
Lemma collect_days_spec clases :
  let days_used := HorarioCombination.collect_days clases in
  flat_map snd days_used ≡ₚ all_blocks clases ∧
  NoDup days_used.*1 ∧
  (∀ d, d ∈ days_used.*1 ↔ d ∈ DayOfWeek_value <$> used_days clases) ∧
  Forall (λ kv, kv.2 ≠ []) days_used ∧
  Forall (λ kv, Forall (λ b, day_letter b = kv.1) kv.2) days_used.
Proof.
  cbv zeta. rewrite collect_days_fold. unfold used_days.
  assert (Hgen : ∀ l acc,
    flat_map snd (fold_left add_block l acc) ≡ₚ flat_map snd acc ++ l ∧
    (NoDup acc.*1 → NoDup (fold_left add_block l acc).*1) ∧
    (∀ d, d ∈ (fold_left add_block l acc).*1
          ↔ d ∈ acc.*1 ∨ d ∈ DayOfWeek_value <$> (BloqueHorario.day <$> l)) ∧
    (Forall (λ kv, kv.2 ≠ []) acc →
     Forall (λ kv, kv.2 ≠ []) (fold_left add_block l acc)) ∧
    (Forall (λ kv, Forall (λ b, day_letter b = kv.1) kv.2) acc →
     Forall (λ kv, Forall (λ b, day_letter b = kv.1) kv.2) (fold_left add_block l acc))).
  { induction l as [|b l IH]; intros acc.
    - cbn [fold_left]. rewrite app_nil_r, !fmap_nil. repeat split; try done.
      + by left.
      + intros [?|?%elem_of_nil]; done.
    - cbn [fold_left].
      destruct (IH (add_block acc b)) as (Hp & Hnd & Hk & Hne & Hday).
      split; [|split; [|split; [|split]]].
      + rewrite Hp, days_used_append_perm, <- app_comm_cons.
        apply Permutation_middle.
      + intros Hacc. apply Hnd. rewrite days_used_append_keys.
        case_decide; [done|]. apply NoDup_app. split; [done|]. split.
        * intros x Hx ->%list_elem_of_singleton. done.
        * apply NoDup_singleton.
      + intros d. rewrite Hk, days_used_append_keys, !fmap_cons, elem_of_cons.
        case_decide as Hin.
        * split; [tauto|]. intros [?|[->|?]]; tauto.
        * rewrite elem_of_app, list_elem_of_singleton. tauto.
      + intros Hacc. by apply Hne, days_used_append_nonempty.
      + intros Hacc. by apply Hday, days_used_append_day. }
  destruct (Hgen (all_blocks clases) []) as (Hp & Hnd & Hk & Hne & Hday).
  split; [done|]. split; [apply Hnd; constructor|]. split.
  - intros d. rewrite Hk. split; [intros [?%elem_of_nil|?]; done|by right].
  - split; [by apply Hne|by apply Hday].
Qed.

(** ** The loops of [calculate_metrics] *)

Lemma wf_bloque_minutes b :
  wf_bloque b = true →
  BloqueHorario.get_start_minutes b = Some (st b) ∧
  BloqueHorario.get_end_minutes b = Some (en b) ∧ (st b < en b)%Z.
Proof.
  unfold wf_bloque, minutes, BloqueHorario.get_start_minutes, BloqueHorario.get_end_minutes.
  destruct (BloqueHorario._time_to_minutes (BloqueHorario.start b)); [|done].
  destruct (BloqueHorario._time_to_minutes (BloqueHorario.end_ b)); [|done].
  simpl. by intros ?%Z.ltb_lt.
Qed.

Lemma disjoint_blocks_perm l l' :
  l ≡ₚ l' → disjoint_blocks l → disjoint_blocks l'.
Proof.
  unfold disjoint_blocks.
  induction 1 as [|x l l' Hp IH|x y l|l l' l'' _ IH1 _ IH2]; intros Hs; [done| | |auto].
  - apply StronglySorted_inv in Hs as [Hl Hx]. constructor; [auto|]. by rewrite <- Hp.
  - apply StronglySorted_inv in Hs as [Hl Hy].
    apply StronglySorted_inv in Hl as [Hl Hx].
    apply Forall_cons in Hy as [Hyx Hy].
    constructor; [by constructor|]. constructor; [|done].
    intros Ho. by apply Hyx, overlap_sym.
Qed.

(** Sorting with a key that may raise orders by the value of the key. *)
Lemma sorted_m_by_key {A} (key : A → option Z) l r :
  Py.sorted_m Z.ltb key false l = Some r →
  StronglySorted (λ x y, (default 0 (key x) ≤ default 0 (key y))%Z) r.
Proof.
  intros (keys & Hk & ->)%sorted_m_keys.
  apply (keyed_sorted_values (λ x, default 0%Z (key x))); [|apply sort_keyed_sorted].
  rewrite sort_keyed_perm. apply Forall_forall. intros [k x] Hin.
  apply list_elem_of_lookup in Hin as [i Hi].
  apply lookup_zip_with_Some in Hi as (k' & x' & [= -> ->] & Hk' & Hx').
  destruct (Forall2_lookup_l _ _ _ _ _ Hk Hx') as (k'' & Hk'' & Hkey).
  simpl. rewrite Hkey. simpl. congruence.
Qed.

Lemma gaps_loop_cons b b' r acc :
  HorarioCombination.gaps_loop (b :: b' :: r) acc
  = (current_end ← BloqueHorario.get_end_minutes b;
     next_start ← BloqueHorario.get_start_minutes b';
     HorarioCombination.gaps_loop (b' :: r)
       (if (0 <? next_start - current_end)%Z
        then (acc.1 + 1, acc.2 + (next_start - current_end))%Z else acc)).
Proof. done. Qed.

Lemma gaps_loop_bounds bs g gm :
  wf_blocks bs →
  ∃ g' gm', HorarioCombination.gaps_loop bs (g, gm) = Some (g', gm') ∧
    (g ≤ g')%Z ∧ (g' - g ≤ gm' - gm)%Z ∧ (g' - g ≤ Z.of_nat (pred (length bs)))%Z.
Proof.
  intros H. revert g gm.
  induction H as [|b bs Hb Hbs IH]; intros g gm.
  - exists g, gm. simpl. repeat split; lia.
  - destruct bs as [|b' bs'].
    + exists g, gm. simpl. repeat split; lia.
    + rewrite gaps_loop_cons.
      destruct (wf_bloque_minutes b Hb) as (_ & -> & _).
      inversion Hbs as [|? ? Hb' _]; subst.
      destruct (wf_bloque_minutes b' Hb') as (-> & _ & _). cbn [mbind option_bind].
      cbv zeta. cbn [fst snd].
      destruct (0 <? st b' - en b)%Z eqn:Hgap.
      * apply Z.ltb_lt in Hgap.
        destruct (IH (g + 1)%Z (gm + (st b' - en b))%Z) as (g' & gm' & -> & ? & ? & ?).
        exists g', gm'. cbn [length pred] in *. repeat split; lia.
      * destruct (IH g gm) as (g' & gm' & -> & ? & ? & ?).
        exists g', gm'. cbn [length pred] in *. repeat split; lia.
Qed.

(** What one iteration of the loop over the days does to the four
    running values, for the non-empty block list of one day. *)
Lemma day_step_spec g gm e l bs :
  wf_blocks bs → bs ≠ [] →
  ∃ g' gm' e' l', HorarioCombination.day_step (g, gm, e, l) bs = Some (g', gm', e', l') ∧
    (g ≤ g')%Z ∧ (g' - g ≤ gm' - gm)%Z ∧ (g' - g + 1 ≤ Z.of_nat (length bs))%Z ∧
    (e' ≤ e)%Z ∧ (∀ b, b ∈ bs → e' ≤ st b)%Z ∧ (e' = e ∨ ∃ b, b ∈ bs ∧ e' = st b) ∧
    (l ≤ l')%Z ∧ (l' = l ∨ ∃ b, b ∈ bs ∧ l' = en b) ∧
    (disjoint_blocks bs →
     (∀ a b, a ∈ bs → b ∈ bs → BloqueHorario.day a = BloqueHorario.day b) →
     ∀ b, b ∈ bs → (en b ≤ l')%Z).
Proof.
  intros Hwf Hne. unfold HorarioCombination.day_step.
  destruct (sorted_m_total Z.ltb BloqueHorario.get_start_minutes false bs) as [sb Hsb].
  { intros b Hb. apply wf_bloque_start. by eapply Forall_forall in Hwf. }
  rewrite Hsb. cbn [mbind option_bind].
  pose proof (sorted_m_perm _ _ _ _ _ Hsb) as Hperm.
  pose proof (sorted_m_by_key _ _ _ Hsb) as Hsorted.
  assert (Hwf' : wf_blocks sb) by (by rewrite Hperm).
  assert (Hst : StronglySorted (λ x y, (st x ≤ st y)%Z) sb).
  { clear -Hsorted Hwf'. induction Hsorted as [|x sb Hs IH Hall]; [constructor|].
    apply Forall_cons in Hwf' as [Hx Hwf']. constructor; [auto|].
    rewrite Forall_forall in Hall, Hwf' |- *. intros y Hy.
    specialize (Hall y Hy). specialize (Hwf' y Hy). cbv beta in *.
    destruct (wf_bloque_minutes x Hx) as (Hx' & _).
    destruct (wf_bloque_minutes y Hwf') as (Hy' & _).
    rewrite Hx', Hy' in Hall. done. }
  destruct sb as [|first rest].
  { apply Permutation_nil_l in Hperm. by subst. }
  cbv beta iota. remember (first :: rest) as sb eqn:Hsb_eq.
  destruct (exists_last (l:=sb)) as (pre & lst & Hlast); [by rewrite Hsb_eq|].
  assert (Hfirst_in : first ∈ sb) by (rewrite Hsb_eq; left).
  assert (Hlst_in : lst ∈ sb) by (rewrite Hlast, elem_of_app, list_elem_of_singleton; by right).
  assert (Hfirst_wf : wf_bloque first = true) by (by eapply Forall_forall in Hwf').
  assert (Hlst_wf : wf_bloque lst = true) by (by eapply Forall_forall in Hwf').
  replace (List.last sb first) with lst by (by rewrite Hlast, last_last).
  destruct (wf_bloque_minutes first Hfirst_wf) as (-> & _ & _).
  destruct (wf_bloque_minutes lst Hlst_wf) as (_ & -> & ?). cbn [mbind option_bind].
  destruct (gaps_loop_bounds sb g gm Hwf') as (g' & gm' & -> & ? & ? & Hlen).
  cbn [mbind option_bind].
  exists g', gm', (Z.min e (st first)), (Z.max l (en lst)).
  split; [done|]. split; [done|]. split; [done|].
  split. { rewrite <- Hperm. rewrite Hsb_eq in Hlen |- *. cbn [length pred] in *. lia. }
  split; [lia|]. split.
  { intros b Hb. rewrite <- Hperm in Hb. rewrite Hsb_eq in Hb, Hst.
    apply StronglySorted_inv in Hst as [_ Hall].
    apply elem_of_cons in Hb as [->|Hb]; [lia|].
    eapply Forall_forall in Hall; [|done]. lia. }
  split.
  { destruct (Z.min_spec e (st first)) as [[_ ->]|[_ ->]]; [by left|].
    right. exists first. by rewrite <- Hperm. }
  split; [lia|]. split.
  { destruct (Z.max_spec l (en lst)) as [[_ ->]|[_ ->]]; [|by left].
    right. exists lst. by rewrite <- Hperm. }
  intros Hdis Hday b Hb. rewrite <- Hperm in Hb.
  apply (disjoint_blocks_perm _ _ (symmetry Hperm)) in Hdis.
  rewrite Hlast in Hb, Hdis, Hst.
  apply elem_of_app in Hb as [Hb| ->%list_elem_of_singleton]; [|lia].
  assert (Hl : lst ∈ [lst]) by left.
  pose proof (StronglySorted_app_1_elem_of _ _ _ _ _ Hdis Hb Hl) as Hdis'.
  pose proof (StronglySorted_app_1_elem_of _ _ _ _ _ Hst Hb Hl) as Hst'.
  cbv beta in Hdis', Hst'.
  assert (Hbwf : wf_bloque b = true).
  { eapply Forall_forall in Hwf'; [done|]. rewrite Hlast, elem_of_app. by left. }
  destruct (wf_bloque_minutes b Hbwf) as (_ & _ & ?).
  assert (Hdd : BloqueHorario.day b = BloqueHorario.day lst).
  { apply Hday; rewrite <- Hperm; [|done]. rewrite Hlast, elem_of_app. by left. }
  unfold blocks_overlap, overlap in Hdis'.
  destruct (decide (en b ≤ Z.max l (en lst))%Z) as [|Hn]; [done|].
  destruct Hdis'. split; [done|]. lia.
Qed.

Lemma days_loop_spec days g gm e l :
  Forall (λ kv, wf_blocks kv.2) days → Forall (λ kv, kv.2 ≠ []) days →
  ∃ g' gm' e' l', HorarioCombination.days_loop days (g, gm, e, l) = Some (g', gm', e', l') ∧
    (g ≤ g')%Z ∧ (g' - g ≤ gm' - gm)%Z ∧
    (g' - g + Z.of_nat (length days) ≤ Z.of_nat (length (flat_map snd days)))%Z ∧
    (e' ≤ e)%Z ∧ (∀ b, b ∈ flat_map snd days → e' ≤ st b)%Z ∧
    (e' = e ∨ ∃ b, b ∈ flat_map snd days ∧ e' = st b) ∧
    (l ≤ l')%Z ∧ (l' = l ∨ ∃ b, b ∈ flat_map snd days ∧ l' = en b) ∧
    (disjoint_blocks (flat_map snd days) →
     Forall (λ kv, Forall (λ b, day_letter b = kv.1) kv.2) days →
     ∀ b, b ∈ flat_map snd days → (en b ≤ l')%Z).
Proof.
  intros Hwf Hne. revert g gm e l.
  induction days as [|[d bs] days IH]; intros g gm e l.
  - exists g, gm, e, l. cbn [HorarioCombination.days_loop flat_map length].
    split; [done|]. repeat split; try lia;
      first [by left | by intros b ?%elem_of_nil | by intros _ _ b ?%elem_of_nil].
  - apply Forall_cons in Hwf as [Hbs Hwf]. apply Forall_cons in Hne as [Hbs_ne Hne].
    cbn [snd] in Hbs, Hbs_ne.
    destruct (day_step_spec g gm e l bs Hbs Hbs_ne)
      as (g1 & gm1 & e1 & l1 & Hstep & ? & ? & ? & ? & He1 & He1' & ? & Hl1 & Hl1').
    destruct (IH Hwf Hne g1 gm1 e1 l1)
      as (g2 & gm2 & e2 & l2 & Hloop & ? & ? & ? & ? & He2 & He2' & ? & Hl2 & Hl2').
    exists g2, gm2, e2, l2.
    cbn [HorarioCombination.days_loop flat_map length snd]. rewrite Hstep.
    cbn [mbind option_bind]. split; [done|].
    split; [lia|]. split; [lia|]. split; [rewrite length_app; lia|].
    split; [lia|]. split.
    { intros b [Hb|Hb]%elem_of_app; [|by apply He2]. specialize (He1 b Hb). lia. }
    split.
    { destruct He2' as [->|(b & Hb & ->)].
      - destruct He1' as [->|(b & Hb & ->)]; [by left|].
        right. exists b. rewrite elem_of_app. auto.
      - right. exists b. rewrite elem_of_app. auto. }
    split; [lia|]. split.
    { destruct Hl2 as [->|(b & Hb & ->)].
      - destruct Hl1 as [->|(b & Hb & ->)]; [by left|].
        right. exists b. rewrite elem_of_app. auto.
      - right. exists b. rewrite elem_of_app. auto. }
    intros Hdis Hday b Hb. apply Forall_cons in Hday as [Hday_bs Hday].
    cbn [fst snd] in Hday_bs.
    unfold disjoint_blocks in Hdis. apply StronglySorted_app in Hdis as (_ & Hd1 & Hd2).
    apply elem_of_app in Hb as [Hb|Hb]; [|apply Hl2'; [exact Hd2|exact Hday|exact Hb]].
    assert (en b ≤ l1)%Z; [|lia]. apply Hl1'; [exact Hd1| |exact Hb].
    intros x y Hx Hy. rewrite Forall_forall in Hday_bs.
    pose proof (Hday_bs x Hx) as Hxd. pose proof (Hday_bs y Hy) as Hyd.
    cbv beta in Hxd, Hyd. destruct (BloqueHorario.day x), (BloqueHorario.day y);
      simpl in Hxd, Hyd; congruence.
Qed.

(** The values [calculate_metrics] computes for a non-empty class list. *)
Lemma calculate_metrics_run self franjas r :
  HorarioCombination.clases self ≠ [] →
  HorarioCombination.calculate_metrics self franjas = Some r →
  ∃ g gm e l,
    HorarioCombination.days_loop
      (HorarioCombination.collect_days (HorarioCombination.clases self))
      (0, 0, 24 * 60, 0)%Z = Some (g, gm, e, l) ∧
    HorarioCombination.id r = HorarioCombination.id self ∧
    HorarioCombination.clases r = HorarioCombination.clases self ∧
    HorarioCombination.total_credits r = HorarioCombination.total_credits self ∧
    HorarioCombination.free_days r
    = Z.of_nat (length (filter
        (λ d, d ∉ (HorarioCombination.collect_days (HorarioCombination.clases self)).*1)
        HorarioCombination.weekdays)) ∧
    HorarioCombination.gaps_count r = g ∧
    HorarioCombination.gaps_minutes r = gm ∧
    HorarioCombination.earliest_start r = hh_mm e ∧
    HorarioCombination.latest_end r = hh_mm l ∧
    (franjas = [] →
     HorarioCombination.preferred_slots_used r = HorarioCombination.preferred_slots_used self).
Proof.
  intros Hne. unfold HorarioCombination.calculate_metrics.
  destruct (HorarioCombination.clases self) as [|c cs] eqn:Hc; [done|].
  remember (c :: cs) as cl eqn:Hcl. clear Hcl.
  destruct (HorarioCombination.days_loop _ _) as [[[[g gm] e] l]|]; simpl; [|done].
  intros Hr. exists g, gm, e, l. split; [done|].
  destruct franjas as [|f fs].
  - injection Hr as <-. simpl. repeat split; done.
  - remember (f :: fs) as fl.
    destruct (HorarioCombination.count_clases _ _ _); simpl in Hr; [|done].
    injection Hr as <-. simpl. repeat split; try done. by subst.
Qed.

(** ** What the metrics mean *)

Lemma filter_fmap_length {A B} (f : A → B) (P : B → Prop) (Q : A → Prop)
    `{∀ x, Decision (P x)} `{∀ x, Decision (Q x)} (l : list A) :
  (∀ x, x ∈ l → P (f x) ↔ Q x) →
  length (filter P (f <$> l)) = length (filter Q l).
Proof.
  induction l as [|x l IH]; intros Heq; [done|].
  rewrite fmap_cons, !filter_cons.
  assert (Hx : P (f x) ↔ Q x) by (apply Heq; left).
  assert (Hl : length (filter P (f <$> l)) = length (filter Q l)).
  { apply IH. intros y Hy. apply Heq. by right. }
  destruct (decide (P (f x))), (decide (Q x)); simpl; try tauto; by rewrite Hl.
Qed.

Lemma DayOfWeek_value_inj d1 d2 : DayOfWeek_value d1 = DayOfWeek_value d2 → d1 = d2.
Proof. by destruct d1, d2. Qed.

Lemma elem_of_day_letters (d : DayOfWeek) (l : list DayOfWeek) :
  DayOfWeek_value d ∈ DayOfWeek_value <$> l ↔ d ∈ l.
Proof.
  rewrite list_elem_of_fmap. split.
  - by intros (d' & ->%DayOfWeek_value_inj & ?).
  - intros ?. by exists d.
Qed.

(** X6.  For a combination with at least one section, [free_days] is the
    number of days from Monday to Saturday on which no block of its
    sections lies; Sunday does not count, and the value is between 0
    and 6. *)
Theorem X6_free_days self franjas r :
  HorarioCombination.clases self ≠ [] →
  HorarioCombination.calculate_metrics self franjas = Some r →
  HorarioCombination.free_days r
  = Z.of_nat (length (filter (λ d, d ∉ used_days (HorarioCombination.clases self))
                             [MONDAY; TUESDAY; WEDNESDAY; THURSDAY; FRIDAY; SATURDAY])) ∧
  (0 ≤ HorarioCombination.free_days r ≤ 6)%Z.
Proof.
  intros Hne (g & gm & e & l & _ & _ & _ & _ & Hfree & _)%calculate_metrics_run; [|done].
  destruct (collect_days_spec (HorarioCombination.clases self)) as (_ & _ & Hk & _).
  cbv zeta in Hk.
  assert (Heq : HorarioCombination.free_days r
    = Z.of_nat (length (filter (λ d, d ∉ used_days (HorarioCombination.clases self))
                               [MONDAY; TUESDAY; WEDNESDAY; THURSDAY; FRIDAY; SATURDAY]))).
  { rewrite Hfree. f_equal.
    change HorarioCombination.weekdays
      with (DayOfWeek_value <$> [MONDAY; TUESDAY; WEDNESDAY; THURSDAY; FRIDAY; SATURDAY]).
    apply filter_fmap_length. intros d _. by rewrite Hk, elem_of_day_letters. }
  split; [done|]. rewrite Heq.
  pose proof (length_filter (λ d, d ∉ used_days (HorarioCombination.clases self))
                [MONDAY; TUESDAY; WEDNESDAY; THURSDAY; FRIDAY; SATURDAY]) as Hlen.
  simpl length in Hlen at 2. lia.
Qed.

Lemma X6_witness :
  HorarioCombination.free_days MetricSamples.week_metrics = 4%Z ∧
  (0 ≤ HorarioCombination.free_days MetricSamples.week_metrics ≤ 6)%Z.
Proof.
  apply (X6_free_days MetricSamples.week [] MetricSamples.week_metrics);
    [done|vm_compute; reflexivity].
Defined.

Lemma remove_dups_fmap_inj {A B} `{EqDecision A, EqDecision B} (f : A → B) (l : list A) :
  (∀ x y, f x = f y → x = y) → remove_dups (f <$> l) = f <$> remove_dups l.
Proof.
  intros Hinj. induction l as [|x l IH]; [done|].
  rewrite fmap_cons. cbn [remove_dups].
  destruct (decide_rel elem_of x l) as [Hin|Hin];
    destruct (decide_rel elem_of (f x) (f <$> l)) as [Hin'|Hin'].
  - done.
  - destruct Hin'. by apply list_elem_of_fmap_2.
  - apply list_elem_of_fmap in Hin' as (y & ->%Hinj & ?). done.
  - by rewrite fmap_cons, IH.
Qed.

(** X7.  For validated sections the gap metrics satisfy
    [0 <= gaps_count <= gaps_minutes] (every counted gap lasts at least a
    minute), and there are at most (blocks - days used) gaps. *)
Theorem X7_gap_bounds self franjas r :
  HorarioCombination.clases self ≠ [] →
  Forall (λ c, wf_clase c = true) (HorarioCombination.clases self) →
  HorarioCombination.calculate_metrics self franjas = Some r →
  (0 ≤ HorarioCombination.gaps_count r ≤ HorarioCombination.gaps_minutes r)%Z ∧
  (HorarioCombination.gaps_count r
   + Z.of_nat (length (remove_dups (used_days (HorarioCombination.clases self))))
   ≤ Z.of_nat (length (all_blocks (HorarioCombination.clases self))))%Z.
Proof.
  intros Hne Hwf (g & gm & e & l & Hloop & _ & _ & _ & _ & -> & -> & _)%calculate_metrics_run;
    [|done].
  destruct (collect_days_spec (HorarioCombination.clases self))
    as (Hperm & Hnd & Hk & Hnonempty & _). cbv zeta in *.
  destruct (days_loop_spec _ 0 0 (24 * 60) 0 (collect_days_wf _ Hwf) Hnonempty)
    as (g' & gm' & e' & l' & Hloop' & ? & ? & Hlen & _).
  rewrite Hloop in Hloop'. injection Hloop' as <- <- <- <-.
  split; [lia|].
  rewrite Hperm in Hlen.
  assert (Hdays : length (HorarioCombination.collect_days (HorarioCombination.clases self))
                  = length (remove_dups (used_days (HorarioCombination.clases self)))).
  { rewrite <- (length_fmap fst), <- (length_fmap DayOfWeek_value (remove_dups _)).
    rewrite <- remove_dups_fmap_inj by apply DayOfWeek_value_inj.
    apply Permutation_length, NoDup_Permutation; [done|apply NoDup_remove_dups|].
    intros d. by rewrite Hk, elem_of_remove_dups. }
  rewrite <- Hdays. lia.
Qed.

Lemma X7_witness :
  (0 ≤ HorarioCombination.gaps_count MetricSamples.week_metrics
     ≤ HorarioCombination.gaps_minutes MetricSamples.week_metrics)%Z.
Proof.
  apply (X7_gap_bounds MetricSamples.week [] MetricSamples.week_metrics);
    [done|repeat constructor|vm_compute; reflexivity].
Defined.

Lemma constructed_minutes b :
  constructed b → wf_bloque b = true ∧ (0 ≤ st b)%Z ∧ (en b < 1440)%Z.
Proof.
  intros Hb. split; [by apply constructed_wf|].
  apply new_Some in Hb as (_ & _ & _ & sm & em & Hs & He & ?).
  unfold minutes. rewrite Hs, He. simpl. lia.
Qed.

Lemma constructed_all_blocks clases :
  Forall constructed_clase clases → Forall constructed (all_blocks clases).
Proof.
  unfold all_blocks. induction 1 as [|c cs Hc Hcs IH]; simpl; [done|].
  apply Forall_app. by split.
Qed.

(** The two running bounds after the loop over the days, for constructed
    sections. *)
Lemma time_range_spec clases g gm e l :
  Forall constructed_clase clases →
  HorarioCombination.days_loop (HorarioCombination.collect_days clases)
    (0, 0, 24 * 60, 0)%Z = Some (g, gm, e, l) →
  (0 ≤ e ≤ 1440 ∧ 0 ≤ l < 1440)%Z ∧
  (∀ b, b ∈ all_blocks clases → e ≤ st b)%Z ∧
  (all_blocks clases = [] → e = 1440%Z ∧ l = 0%Z ∧ g = 0%Z ∧ gm = 0%Z) ∧
  (all_blocks clases ≠ [] →
   (∃ b, b ∈ all_blocks clases ∧ e = st b) ∧
   (∃ b, b ∈ all_blocks clases ∧ l = en b) ∧ (e < l)%Z) ∧
  (disjoint_blocks (all_blocks clases) → ∀ b, b ∈ all_blocks clases → (en b ≤ l)%Z).
Proof.
  intros Hc Hloop.
  pose proof (constructed_all_blocks clases Hc) as Hall.
  assert (Hwf : Forall (λ c, wf_clase c = true) clases).
  { eapply Forall_impl; [exact Hc|]. apply constructed_clase_wf. }
  destruct (collect_days_spec clases) as (Hperm & Hnd & Hk & Hnonempty & Hday).
  cbv zeta in *.
  destruct (days_loop_spec _ 0 0 (24 * 60) 0 (collect_days_wf _ Hwf) Hnonempty)
    as (g' & gm' & e' & l' & Hloop' & ? & ? & Hlen & ? & He & He' & ? & Hl & Hl').
  rewrite Hloop in Hloop'. injection Hloop' as <- <- <- <-.
  rewrite Forall_forall in Hall.
  assert (Hin : ∀ b, b ∈ flat_map snd (HorarioCombination.collect_days clases)
                     ↔ b ∈ all_blocks clases).
  { intros b. by rewrite Hperm. }
  assert (He_in : ∀ b, b ∈ all_blocks clases → (e ≤ st b)%Z).
  { intros b Hb. apply He. by apply Hin. }
  assert (Hnonneg : (0 ≤ e)%Z).
  { destruct He' as [->|(b & Hb%Hin & ->)]; [lia|].
    destruct (constructed_minutes b (Hall b Hb)) as (_ & ? & _). lia. }
  assert (Hl_range : (0 ≤ l < 1440)%Z).
  { destruct Hl as [->|(b & Hb%Hin & ->)]; [lia|].
    destruct (constructed_minutes b (Hall b Hb)) as (Hw & ? & ?).
    destruct (wf_bloque_minutes b Hw) as (_ & _ & ?). lia. }
  split; [lia|]. split; [done|]. split; [|split].
  - intros Hnil. rewrite Hnil in Hperm. apply Permutation_nil_r in Hperm.
    destruct (HorarioCombination.collect_days clases) as [|[d bs] days]; [|].
    + simpl in Hloop. by injection Hloop as <- <- <- <-.
    + apply Forall_cons in Hnonempty as [Hbs _]. simpl in Hperm, Hbs.
      by destruct bs.
  - intros Hne.
    destruct (all_blocks clases) as [|b0 rest] eqn:Hblocks; [done|].
    assert (Hb0 : b0 ∈ all_blocks clases) by (rewrite Hblocks; left).
    rewrite <- Hblocks in *.
    destruct (constructed_minutes b0 (Hall b0 Hb0)) as (Hw0 & ? & ?).
    destruct (wf_bloque_minutes b0 Hw0) as (_ & _ & ?).
    assert (He_b : ∃ b, b ∈ all_blocks clases ∧ e = st b).
    { destruct He' as [->|(b & Hb%Hin & ->)]; [|by exists b].
      specialize (He_in b0 Hb0). lia. }
    assert (Hl_b : ∃ b, b ∈ all_blocks clases ∧ l = en b).
    { destruct Hl as [->|(b & Hb%Hin & ->)]; [|by exists b].
      exfalso.
      (* some day list is not empty, so [latest] has been raised *)
      destruct (HorarioCombination.collect_days clases) as [|[d bs] days] eqn:Hcd.
      { rewrite <- Hin in Hb0. by apply elem_of_nil in Hb0. }
      apply Forall_cons in Hnonempty as [Hbs Hne_days].
      pose proof (collect_days_wf _ Hwf) as Hwfd. rewrite Hcd in Hwfd.
      apply Forall_cons in Hwfd as [Hwbs Hwdays]. cbn [snd] in Hbs, Hwbs.
      destruct (day_step_spec 0 0 (24 * 60) 0 bs Hwbs Hbs)
        as (g1 & gm1 & e1 & l1 & Hstep & _ & _ & _ & _ & _ & _ & ? & Hl1 & _).
      cbn [HorarioCombination.days_loop] in Hloop. rewrite Hstep in Hloop.
      cbn [mbind option_bind] in Hloop.
      destruct (days_loop_spec days g1 gm1 e1 l1 Hwdays Hne_days)
        as (g2 & gm2 & e2 & l2 & Hloop2 & _ & _ & _ & _ & _ & _ & ? & _).
      rewrite Hloop in Hloop2. injection Hloop2 as <- <- <- <-.
      destruct Hl1 as [->|(b & Hb & ->)].
      - (* the last block of the first day ends after minute 0 *)
        unfold HorarioCombination.day_step in Hstep.
        destruct (Py.sorted_m _ _ _ bs) as [sb|] eqn:Hsb; [|done].
        cbn [mbind option_bind] in Hstep.
        pose proof (sorted_m_perm _ _ _ _ _ Hsb) as Hp.
        destruct sb as [|first rest']; [apply Permutation_nil_l in Hp; by subst|].
        assert (Hlast_in : List.last (first :: rest') first ∈ bs).
        { rewrite <- Hp. apply list_elem_of_In.
          destruct (exists_last (l:=first :: rest')) as (pre & x & Hx); [done|].
          rewrite Hx, last_last. apply in_or_app. right. by left. }
        remember (List.last (first :: rest') first) as lst.
        assert (Hlw : wf_bloque lst = true) by (by eapply Forall_forall in Hwbs).
        assert (Hfw : wf_bloque first = true).
        { eapply Forall_forall in Hwbs; [done|]. rewrite <- Hp. left. }
        destruct (wf_bloque_minutes first Hfw) as (Hfs & _ & _).
        destruct (wf_bloque_minutes lst Hlw) as (_ & Hle & ?).
        rewrite Hfs, Hle in Hstep. cbn [mbind option_bind] in Hstep.
        destruct (HorarioCombination.gaps_loop _ _) as [[? ?]|]; [|done].
        cbn [mbind option_bind] in Hstep. injection Hstep as _ _ _ Hmax.
        assert (Hlin : lst ∈ all_blocks clases).
        { apply Hin. simpl. rewrite elem_of_app. by left. }
        destruct (constructed_minutes lst (Hall lst Hlin)) as (_ & ? & _). lia.
      - assert (Hbin : b ∈ all_blocks clases).
        { apply Hin. simpl. rewrite elem_of_app. by left. }
        destruct (constructed_minutes b (Hall b Hbin)) as (Hw & ? & _).
        destruct (wf_bloque_minutes b Hw) as (_ & _ & ?). lia. }
    split; [done|]. split; [done|].
    destruct Hl_b as (b & Hb & ->).
    destruct (constructed_minutes b (Hall b Hb)) as (Hw & _ & _).
    destruct (wf_bloque_minutes b Hw) as (_ & _ & ?).
    specialize (He_in b Hb). lia.
  - intros Hdis b Hb. apply Hl'; [by eapply disjoint_blocks_perm|done|by apply Hin].
Qed.

(** X8.  For constructed sections with at least one block,
    [earliest_start] is the text of the earliest start of a block and
    [latest_end] the text of the end of some block, later than the
    earliest start; both parse back with [_time_to_minutes].  When no two
    blocks overlap, [latest_end] is the latest end of a block. *)
Theorem X8_earliest_start_and_latest_end self franjas r :
  Forall constructed_clase (HorarioCombination.clases self) →
  all_blocks (HorarioCombination.clases self) ≠ [] →
  HorarioCombination.calculate_metrics self franjas = Some r →
  ∃ e l,
    BloqueHorario._time_to_minutes (HorarioCombination.earliest_start r) = Some e ∧
    BloqueHorario._time_to_minutes (HorarioCombination.latest_end r) = Some l ∧
    (e < l)%Z ∧
    (∃ b, b ∈ all_blocks (HorarioCombination.clases self) ∧ e = minutes (BloqueHorario.start b)) ∧
    (∀ b, b ∈ all_blocks (HorarioCombination.clases self) →
          e ≤ minutes (BloqueHorario.start b))%Z ∧
    (∃ b, b ∈ all_blocks (HorarioCombination.clases self) ∧ l = minutes (BloqueHorario.end_ b)) ∧
    (disjoint_blocks (all_blocks (HorarioCombination.clases self)) →
     ∀ b, b ∈ all_blocks (HorarioCombination.clases self) →
          minutes (BloqueHorario.end_ b) ≤ l)%Z.
Proof.
  intros Hc Hblocks Hr.
  assert (Hne : HorarioCombination.clases self ≠ []).
  { intros Hnil. by rewrite Hnil in Hblocks. }
  apply calculate_metrics_run in Hr
    as (g & gm & e & l & Hloop & _ & _ & _ & _ & _ & _ & -> & -> & _); [|done].
  destruct (time_range_spec _ _ _ _ _ Hc Hloop) as (Hrange & He & _ & Hex & Hmax).
  destruct (Hex Hblocks) as (Hbe & Hbl & Hlt).
  exists e, l. rewrite !hh_mm_parse by lia. done.
Qed.

Lemma X8_witness :
  ∃ e l,
    BloqueHorario._time_to_minutes
      (HorarioCombination.earliest_start MetricSamples.week_metrics) = Some e ∧
    BloqueHorario._time_to_minutes
      (HorarioCombination.latest_end MetricSamples.week_metrics) = Some l ∧
    (e < l)%Z.
Proof.
  destruct (X8_earliest_start_and_latest_end MetricSamples.week []
              MetricSamples.week_metrics) as (e & l & He & Hl & Hlt & _).
  - repeat constructor.
  - done.
  - vm_compute; reflexivity.
  - by exists e, l.
Defined.

(** X9.  A combination whose sections have no block at all gets
    [free_days = 6], no gaps, [latest_end = "00:00"] and
    [earliest_start = "24:00"], a text that the time pattern of the models
    does not accept. *)
Theorem X9_metrics_without_blocks self franjas r :
  HorarioCombination.clases self ≠ [] →
  all_blocks (HorarioCombination.clases self) = [] →
  HorarioCombination.calculate_metrics self franjas = Some r →
  HorarioCombination.free_days r = 6%Z ∧
  HorarioCombination.gaps_count r = 0%Z ∧ HorarioCombination.gaps_minutes r = 0%Z ∧
  HorarioCombination.earliest_start r = "24:00" ∧
  HorarioCombination.latest_end r = "00:00" ∧
  BloqueHorario.matches_pattern (HorarioCombination.earliest_start r) = false.
Proof.
  intros Hne Hnil Hr.
  apply calculate_metrics_run in Hr
    as (g & gm & e & l & Hloop & _ & _ & _ & Hfree & -> & -> & -> & -> & _); [|done].
  rewrite collect_days_fold, Hnil in Hloop, Hfree. simpl in Hloop, Hfree.
  injection Hloop as <- <- <- <-. by rewrite Hfree.
Qed.

Lemma X9_witness :
  HorarioCombination.earliest_start
    (HorarioCombination.mk "o" [MetricSamples.online] 0 6 0 0 0 "24:00" "00:00") = "24:00".
Proof.
  apply (X9_metrics_without_blocks
           (HorarioCombination.new "o" [MetricSamples.online] 0) []
           (HorarioCombination.mk "o" [MetricSamples.online] 0 6 0 0 0 "24:00" "00:00"));
    [done|done|vm_compute; reflexivity].
Defined.

(** X10.  The metrics depend on the sections and the preferences only:
    calculating them again on the result changes nothing. *)
Theorem X10_calculate_metrics_idempotent self franjas r :
  HorarioCombination.calculate_metrics self franjas = Some r →
  HorarioCombination.calculate_metrics r franjas = Some r.
Proof.
  unfold HorarioCombination.calculate_metrics at 1.
  destruct (HorarioCombination.clases self) as [|c cs] eqn:Hc.
  { intros [= <-]. unfold HorarioCombination.calculate_metrics. by rewrite Hc. }
  destruct (HorarioCombination.days_loop _ _) as [[[[g gm] e] l]|] eqn:Hloop;
    cbn [mbind option_bind]; [|done].
  destruct franjas as [|f fs].
  - intros [= <-]. unfold HorarioCombination.calculate_metrics.
    cbn [HorarioCombination.clases]. by rewrite Hloop.
  - destruct (HorarioCombination.count_clases _ _ _) as [n|] eqn:Hn;
      cbn [mbind option_bind]; [|done].
    intros [= <-]. unfold HorarioCombination.calculate_metrics.
    cbn [HorarioCombination.clases]. rewrite Hloop.
    cbn [mbind option_bind]. by rewrite Hn.
Qed.

Lemma X10_witness :
  HorarioCombination.calculate_metrics MetricSamples.week_metrics []
  = Some MetricSamples.week_metrics.
Proof.
  apply (X10_calculate_metrics_idempotent MetricSamples.week). vm_compute; reflexivity.
Defined.

(* ===================================================================== *)
(** * Further properties of the schedule service                          *)
(* ===================================================================== *)

(** ** [check_conflicts] *)

Lemma overlapping_inner c1 c2 b1 (bs2 : list BloqueHorario.t) acc :
  wf_bloque b1 = true → wf_blocks bs2 →
  Py.for_m (λ conflicts b2,
      hit ← BloqueHorario.overlaps_with b1 b2;
      Some (if hit : bool
            then conflicts ++ [ScheduleService.mk_conflict
                                 (ScheduleService.side c1 b1) (ScheduleService.side c2 b2)]
            else conflicts))
    bs2 acc
  = Some (acc ++ (b2 ← bs2;
                  if decide (blocks_overlap b1 b2)
                  then [ScheduleService.mk_conflict
                          (ScheduleService.side c1 b1) (ScheduleService.side c2 b2)]
                  else [])).
Proof.
  intros Hb1 H2. revert acc. induction H2 as [|b2 bs2 Hb2 _ IH2]; intros acc.
  { simpl. by rewrite app_nil_r. }
  cbn [Py.for_m]. rewrite bind_cons, overlaps_with_spec by done.
  cbn [mbind option_bind]. rewrite IH2.
  destruct (decide (blocks_overlap b1 b2)) as [Ho|Ho].
  - rewrite bool_decide_eq_true_2 by done. by rewrite <- app_assoc.
  - rewrite bool_decide_eq_false_2 by done. done.
Qed.

Lemma overlapping_outer c1 c2 (bs1 bs2 : list BloqueHorario.t) acc :
  wf_blocks bs1 → wf_blocks bs2 →
  Py.for_m (λ conflicts b1,
    Py.for_m (λ conflicts b2,
      hit ← BloqueHorario.overlaps_with b1 b2;
      Some (if hit : bool
            then conflicts ++ [ScheduleService.mk_conflict
                                 (ScheduleService.side c1 b1) (ScheduleService.side c2 b2)]
            else conflicts))
      bs2 conflicts)
    bs1 acc
  = Some (acc ++ (b1 ← bs1; b2 ← bs2;
                  if decide (blocks_overlap b1 b2)
                  then [ScheduleService.mk_conflict
                          (ScheduleService.side c1 b1) (ScheduleService.side c2 b2)]
                  else [])).
Proof.
  intros H1 H2. revert acc. induction H1 as [|b1 bs1 Hb1 _ IH1]; intros acc.
  { simpl. by rewrite app_nil_r. }
  cbn [Py.for_m]. rewrite bind_cons, overlapping_inner by done.
  cbn [mbind option_bind]. rewrite IH1. by rewrite <- app_assoc.
Qed.

Lemma wf_clase_blocks c : wf_clase c = true → wf_blocks (Clase.schedule c).
Proof. intros W. apply Forall_forall. intros b Hb. by eapply wf_clase_elem. Qed.

Lemma overlapping_blocks_spec c1 c2 acc :
  wf_clase c1 = true → wf_clase c2 = true →
  ScheduleService.overlapping_blocks c1 c2 acc = Some (acc ++ block_conflicts c1 c2).
Proof.
  intros W1 W2. apply overlapping_outer; by apply wf_clase_blocks.
Qed.

Lemma block_conflicts_nil c1 c2 :
  block_conflicts c1 c2 = [] ↔
  ∀ b1 b2, b1 ∈ Clase.schedule c1 → b2 ∈ Clase.schedule c2 → ¬ blocks_overlap b1 b2.
Proof.
  unfold block_conflicts. split.
  - intros Hnil b1 b2 H1 H2 Ho.
    assert (Hin : ScheduleService.mk_conflict (ScheduleService.side c1 b1)
                    (ScheduleService.side c2 b2) ∈ @nil ScheduleService.conflict).
    { rewrite <- Hnil. apply list_elem_of_bind. exists b1. split; [|done].
      apply list_elem_of_bind. exists b2. split; [|done].
      rewrite decide_True by done. left. }
    by apply elem_of_nil in Hin.
  - intros Hno. generalize dependent (Clase.schedule c1). intros bs1 Hno.
    induction bs1 as [|b1 bs1 IH]; [done|].
    rewrite bind_cons, IH; [|intros; apply Hno; [by right|done]].
    rewrite app_nil_r.
    assert (Hb1 : ∀ b2, b2 ∈ Clase.schedule c2 → ¬ blocks_overlap b1 b2).
    { intros b2 H2. apply Hno; [left|done]. }
    clear -Hb1. generalize dependent (Clase.schedule c2). intros bs2 Hb1.
    induction bs2 as [|b2 bs2 IH2]; [done|].
    rewrite bind_cons, IH2; [|intros; apply Hb1; by right].
    rewrite decide_False; [done|]. apply Hb1. left.
Qed.

Lemma check_conflicts_loop_spec clases acc :
  Forall (λ c, wf_clase c = true) clases →
  ScheduleService.check_conflicts_loop clases acc = Some (acc ++ pair_conflicts clases).
Proof.
  intros H. revert acc. induction H as [|c1 rest Hc1 Hrest IH]; intros acc.
  { simpl. by rewrite app_nil_r. }
  cbn [ScheduleService.check_conflicts_loop pair_conflicts].
  assert (Hinner : ∀ acc,
    Py.for_m (λ conflicts clase2,
        hit ← Clase.conflicts_with c1 clase2;
        if hit : bool then ScheduleService.overlapping_blocks c1 clase2 conflicts
        else Some conflicts) rest acc
    = Some (acc ++ (c2 ← rest; block_conflicts c1 c2))).
  { clear IH. induction Hrest as [|c2 rest Hc2 _ IH2]; intros acc'.
    { simpl. by rewrite app_nil_r. }
    cbn [Py.for_m]. rewrite bind_cons.
    destruct (conflicts_with_total c1 c2 Hc1 Hc2) as [hit Hhit]. rewrite Hhit.
    cbn [mbind option_bind]. destruct hit.
    - rewrite overlapping_blocks_spec by done. cbn [mbind option_bind].
      rewrite IH2. by rewrite <- app_assoc.
    - assert (Hnil : block_conflicts c1 c2 = []).
      { apply block_conflicts_nil. by apply conflicts_with_false. }
      rewrite Hnil. cbn [mbind option_bind]. by rewrite IH2. }
  rewrite Hinner. cbn [mbind option_bind]. rewrite IH. by rewrite <- app_assoc.
Qed.

(** X11.  For validated sections [check_conflicts] returns one entry for
    each pair of overlapping blocks that belong to two different sections
    of the list: every section against each later one, in the order of
    the list and of the two schedules.  The sections are never compared
    with themselves. *)
Theorem X11_check_conflicts_lists_overlapping_pairs clases :
  Forall (λ c, wf_clase c = true) clases →
  ScheduleService.check_conflicts clases = Some (pair_conflicts clases).
Proof. intros H. unfold ScheduleService.check_conflicts. by rewrite check_conflicts_loop_spec. Qed.

Lemma X11_witness :
  ScheduleService.check_conflicts [Samples.a1; Samples.b1; Samples.a2]
  = Some [ScheduleService.mk_conflict
            (ScheduleService.mk_side "A" "1" "L" "08:00-10:00")
            (ScheduleService.mk_side "B" "1" "L" "09:00-11:00")].
Proof.
  apply (X11_check_conflicts_lists_overlapping_pairs [Samples.a1; Samples.b1; Samples.a2]).
  repeat constructor.
Defined.

(** ** [check_franja_conflicts] *)

Lemma franja_inner c b (fs : list Franja.t) acc :
  wf_bloque b = true → Forall (λ f, ordered_franja f = true) fs →
  Py.for_m (λ conflicts franja,
      franja_block ← Franja.to_bloque franja;
      hit ← BloqueHorario.overlaps_with b franja_block;
      Some (if hit : bool
            then conflicts ++
                 [ScheduleService.mk_franja_conflict
                    (Clase.materia_code c) (Clase.class_code c)
                    (DayOfWeek_value (Franja.day franja))
                    (Franja.start franja +:+ "-" +:+ Franja.end_ franja)]
            else conflicts))
    fs acc
  = Some (acc ++ (f ← fs;
                  if decide (block_overlaps_franja b f)
                  then [ScheduleService.mk_franja_conflict
                          (Clase.materia_code c) (Clase.class_code c)
                          (DayOfWeek_value (Franja.day f))
                          (Franja.start f +:+ "-" +:+ Franja.end_ f)]
                  else [])).
Proof.
  intros Hb Hfs. revert acc. induction Hfs as [|f fs Hf _ IH]; intros acc.
  { simpl. by rewrite app_nil_r. }
  cbn [Py.for_m]. rewrite bind_cons, to_bloque_ordered by done.
  cbn [mbind option_bind].
  rewrite overlaps_with_spec by (done || by apply ordered_franja_wf).
  cbn [mbind option_bind]. rewrite IH.
  destruct (decide (block_overlaps_franja b f)) as [Ho|Ho].
  - rewrite bool_decide_eq_true_2 by done. by rewrite <- app_assoc.
  - rewrite bool_decide_eq_false_2 by done. done.
Qed.

Lemma franja_inner_raises c b (fs : list Franja.t) acc :
  (∃ f, f ∈ fs ∧ Franja.to_bloque f = None) →
  Py.for_m (λ conflicts franja,
      franja_block ← Franja.to_bloque franja;
      hit ← BloqueHorario.overlaps_with b franja_block;
      Some (if hit : bool
            then conflicts ++
                 [ScheduleService.mk_franja_conflict
                    (Clase.materia_code c) (Clase.class_code c)
                    (DayOfWeek_value (Franja.day franja))
                    (Franja.start franja +:+ "-" +:+ Franja.end_ franja)]
            else conflicts))
    fs acc
  = None.
Proof.
  intros (f & Hin & Hf). revert acc.
  induction fs as [|f' fs IH]; intros acc; [by apply elem_of_nil in Hin|].
  cbn [Py.for_m]. apply elem_of_cons in Hin as [<-|Hin].
  - by rewrite Hf.
  - destruct (Franja.to_bloque f'); cbn [mbind option_bind]; [|done].
    destruct (BloqueHorario.overlaps_with b t); cbn [mbind option_bind]; [|done].
    by apply IH.
Qed.

Lemma check_franja_conflicts_spec c franjas :
  wf_clase c = true →
  Forall (λ f, Franja.status f = BLOCKED → ordered_franja f = true) franjas →
  ScheduleService.check_franja_conflicts c franjas = Some (blocked_conflicts c franjas).
Proof.
  unfold ScheduleService.check_franja_conflicts, blocked_conflicts.
  intros W Hf.
  assert (Hfs : Forall (λ f, ordered_franja f = true)
                       (filter (λ f, Franja.status f = BLOCKED) franjas)).
  { apply Forall_forall. intros f [Hst Hin]%list_elem_of_filter.
    eapply Forall_forall in Hf; eauto. }
  pose proof (wf_clase_blocks c W) as Hbs.
  assert (Hgen : ∀ (bs : list BloqueHorario.t) acc, wf_blocks bs →
    Py.for_m (λ conflicts block,
      Py.for_m (λ conflicts franja,
        franja_block ← Franja.to_bloque franja;
        hit ← BloqueHorario.overlaps_with block franja_block;
        Some (if hit : bool
              then conflicts ++
                   [ScheduleService.mk_franja_conflict
                      (Clase.materia_code c) (Clase.class_code c)
                      (DayOfWeek_value (Franja.day franja))
                      (Franja.start franja +:+ "-" +:+ Franja.end_ franja)]
              else conflicts))
        (filter (λ f, Franja.status f = BLOCKED) franjas) conflicts) bs acc
    = Some (acc ++ (b ← bs;
                    f ← filter (λ f, Franja.status f = BLOCKED) franjas;
                    if decide (block_overlaps_franja b f)
                    then [ScheduleService.mk_franja_conflict
                            (Clase.materia_code c) (Clase.class_code c)
                            (DayOfWeek_value (Franja.day f))
                            (Franja.start f +:+ "-" +:+ Franja.end_ f)]
                    else []))).
  { intros bs acc Hwf. revert acc. induction Hwf as [|b bs Hb _ IH]; intros acc.
    { simpl. by rewrite app_nil_r. }
    cbn [Py.for_m]. rewrite bind_cons, franja_inner by done.
    cbn [mbind option_bind]. rewrite IH. by rewrite <- app_assoc. }
  by rewrite Hgen.
Qed.

(** X12.  [check_franja_conflicts] returns one entry for each block of
    the section and each BLOCKED preference that overlaps it, and never
    an entry for a PREFERRED one.  A section without blocks gives the
    empty list whatever the preferences are; with a block, a BLOCKED
    preference that [to_bloque] rejects makes the call raise. *)
Theorem X12_check_franja_conflicts c franjas :
  (wf_clase c = true →
   Forall (λ f, Franja.status f = BLOCKED → ordered_franja f = true) franjas →
   ScheduleService.check_franja_conflicts c franjas = Some (blocked_conflicts c franjas)) ∧
  (Clase.schedule c = [] → ScheduleService.check_franja_conflicts c franjas = Some []) ∧
  (Clase.schedule c ≠ [] →
   (∃ f, f ∈ franjas ∧ Franja.status f = BLOCKED ∧ Franja.to_bloque f = None) →
   ScheduleService.check_franja_conflicts c franjas = None).
Proof.
  split; [apply check_franja_conflicts_spec|].
  unfold ScheduleService.check_franja_conflicts. split.
  - intros ->. done.
  - intros Hne (f & Hin & Hst & Hnone).
    destruct (Clase.schedule c) as [|b bs]; [done|].
    cbn [Py.for_m]. rewrite franja_inner_raises; [done|].
    exists f. split; [|done]. by apply list_elem_of_filter.
Qed.

Lemma X12_witness :
  ScheduleService.check_franja_conflicts Samples.a2 [Samples.tuesday_blocked; Samples.monday_morning]
  = Some [ScheduleService.mk_franja_conflict "A" "2" "M" "09:00-09:30"].
Proof.
  apply (proj1 (X12_check_franja_conflicts Samples.a2
                  [Samples.tuesday_blocked; Samples.monday_morning])).
  - reflexivity.
  - repeat constructor.
Defined.

(** ** Combinations that [generate_combinations] returns *)

Lemma generated_combo uuid4 cbm franjas max res combo :
  ScheduleService.generate_combinations uuid4 cbm franjas max = Some res →
  combo ∈ ScheduleService.combinations res →
  ∃ blocked_slots i,
    Py.map_m Franja.to_bloque (filter (λ f, Franja.status f = BLOCKED) franjas)
      = Some blocked_slots ∧
    valid_combo blocked_slots (HorarioCombination.clases combo) = true ∧
    HorarioCombination.clases combo ∈ ScheduleService.product cbm.*2 ∧
    HorarioCombination.calculate_metrics
      (HorarioCombination.new i (HorarioCombination.clases combo) 0) franjas = Some combo.
Proof.
  intros (bl & Hbl & Hloop & _)%generate_run Hcombo.
  apply loop_run in Hloop as (tested & new & Hnew & Hcl & Hcalc & _ & Hend).
  simpl in Hnew. subst new.
  rewrite Forall_forall in Hcalc. destruct (Hcalc combo Hcombo) as [i Hi].
  exists bl, i. split; [done|].
  assert (Hin : HorarioCombination.clases combo
                ∈ filter (λ c, valid_combo bl c = true) tested).
  { rewrite <- Hcl. by apply list_elem_of_fmap_2. }
  apply list_elem_of_filter in Hin as [Hv Hin]. split; [done|]. split; [|done].
  destruct Hend as [[-> _]|(t & rest & -> & _)]; [done|].
  rewrite elem_of_app. by left.
Qed.

Lemma blocked_slots_ordered franjas bl :
  Py.map_m Franja.to_bloque (filter (λ f, Franja.status f = BLOCKED) franjas) = Some bl →
  Forall (λ f, Franja.status f = BLOCKED → ordered_franja f = true) franjas ∧
  ∀ f, f ∈ franjas → Franja.status f = BLOCKED →
       BloqueHorario.mk (Franja.day f) (Franja.start f) (Franja.end_ f) ∈ bl.
Proof.
  intros Hbl%map_m_Some.
  assert (H : ∀ f, f ∈ franjas → Franja.status f = BLOCKED →
    ordered_franja f = true ∧
    BloqueHorario.mk (Franja.day f) (Franja.start f) (Franja.end_ f) ∈ bl).
  { intros f Hin Hst.
    assert (Hfin : f ∈ filter (λ f, Franja.status f = BLOCKED) franjas)
      by (by apply list_elem_of_filter).
    apply list_elem_of_lookup in Hfin as [i Hi].
    destruct (Forall2_lookup_l _ _ _ _ _ Hbl Hi) as (fb & Hfb & Hto).
    apply to_bloque_Some in Hto as [Ho ->]. split; [done|].
    by eapply list_elem_of_lookup_2. }
  split.
  - apply Forall_forall. intros f Hin Hst. by apply H.
  - intros f Hin Hst. by apply H.
Qed.

Lemma product_wf (cbm : list (string * list Clase.t)) (P : Clase.t → Prop) t :
  Forall (λ kv, Forall P kv.2) cbm →
  t ∈ ScheduleService.product cbm.*2 → Forall P t.
Proof.
  intros Hc Ht%product_elem. apply Forall_forall. intros c Hc'.
  apply list_elem_of_lookup in Hc' as [i Hi].
  destruct (Forall2_lookup_l _ _ _ _ _ Ht Hi) as (pool & Hpool & Hin).
  apply list_lookup_fmap_Some in Hpool as (kv & -> & Hkv).
  eapply Forall_forall in Hc; [|by eapply list_elem_of_lookup_2].
  by eapply Forall_forall in Hc.
Qed.

(** X13.  Every combination that [generate_combinations] returns holds
    exactly one section of each course, in the order of the courses. *)
Theorem X13_one_section_per_course uuid4 cbm franjas max res combo :
  ScheduleService.generate_combinations uuid4 cbm franjas max = Some res →
  combo ∈ ScheduleService.combinations res →
  Forall2 (λ clase course, clase ∈ course.2) (HorarioCombination.clases combo) cbm.
Proof.
  intros Hgen Hcombo.
  destruct (generated_combo _ _ _ _ _ _ Hgen Hcombo) as (bl & i & _ & _ & Hprod & _).
  apply product_elem in Hprod. rewrite Forall2_fmap_r in Hprod. exact Hprod.
Qed.

Lemma X13_witness :
  Forall2 (λ clase course, clase ∈ course.2) [Samples.a1; Samples.b2] Samples.two_courses.
Proof.
  apply (X13_one_section_per_course Samples.ids Samples.two_courses [] (Some 1%Z)
           (ScheduleService.mk_result
              [HorarioCombination.mk "01234567" [Samples.a1; Samples.b2] 0 4 0 0 0
                 "08:00" "11:00"] 1 4 3 None)
           (HorarioCombination.mk "01234567" [Samples.a1; Samples.b2] 0 4 0 0 0
              "08:00" "11:00")).
  - vm_compute; reflexivity.
  - left.
Defined.

Lemma pair_conflicts_nil clases :
  (∀ i j c1 c2 b1 b2, i ≠ j → clases !! i = Some c1 → clases !! j = Some c2 →
     b1 ∈ Clase.schedule c1 → b2 ∈ Clase.schedule c2 → ¬ blocks_overlap b1 b2) →
  pair_conflicts clases = [].
Proof.
  induction clases as [|c1 rest IH]; intros H; [done|].
  cbn [pair_conflicts]. rewrite IH.
  - rewrite app_nil_r.
    assert (Hrest : ∀ c2, c2 ∈ rest → block_conflicts c1 c2 = []).
    { intros c2 [j Hj]%list_elem_of_lookup. apply block_conflicts_nil.
      intros b1 b2 H1 H2.
      apply (H 0%nat (S j) c1 c2 b1 b2); [lia|done|exact Hj|done|done]. }
    clear -Hrest. induction rest as [|c2 rest IH2]; [done|].
    rewrite bind_cons, Hrest by left. rewrite IH2; [done|].
    intros c Hc. apply Hrest. by right.
  - intros i j c c' b b' Hij Hi Hj. apply (H (S i) (S j)); [lia|exact Hi|exact Hj].
Qed.

Lemma blocked_conflicts_nil c franjas :
  (∀ b f, b ∈ Clase.schedule c → f ∈ franjas → Franja.status f = BLOCKED →
          ¬ block_overlaps_franja b f) →
  blocked_conflicts c franjas = [].
Proof.
  unfold blocked_conflicts. intros H.
  generalize dependent (Clase.schedule c). intros bs H.
  induction bs as [|b bs IH]; [done|].
  rewrite bind_cons, IH; [|intros; apply H; [by right|done..]].
  rewrite app_nil_r.
  assert (Hb : ∀ f, f ∈ filter (λ f, Franja.status f = BLOCKED) franjas →
                    ¬ block_overlaps_franja b f).
  { intros f [Hst Hin]%list_elem_of_filter. apply H; [left|done..]. }
  clear -Hb. induction (filter _ franjas) as [|f fs IH2]; [done|].
  rewrite bind_cons, IH2; [|intros; apply Hb; by right].
  rewrite decide_False; [done|]. apply Hb. left.
Qed.

(** X14.  The two conflict reports agree with the generator: for
    validated sections, [check_conflicts] reports nothing on the sections
    of a combination that [generate_combinations] returned, and
    [check_franja_conflicts] reports nothing for any of them and the
    preferences of the call. *)
Theorem X14_generated_combinations_pass_the_checks uuid4 cbm franjas max res combo :
  wf_input cbm →
  ScheduleService.generate_combinations uuid4 cbm franjas max = Some res →
  combo ∈ ScheduleService.combinations res →
  ScheduleService.check_conflicts (HorarioCombination.clases combo) = Some [] ∧
  ∀ c, c ∈ HorarioCombination.clases combo →
       ScheduleService.check_franja_conflicts c franjas = Some [].
Proof.
  intros Hwf Hgen Hcombo.
  destruct (generated_combo _ _ _ _ _ _ Hgen Hcombo) as (bl & i & Hbl & Hv & Hprod & _).
  pose proof (product_wf cbm (λ c, wf_clase c = true) _ Hwf Hprod) as Hcl.
  apply valid_combo_conflict_free in Hv as [Hint Hblk].
  destruct (blocked_slots_ordered _ _ Hbl) as [Hord Hin_bl].
  split.
  - unfold ScheduleService.check_conflicts. rewrite check_conflicts_loop_spec by done.
    by rewrite pair_conflicts_nil.
  - intros c Hc.
    assert (Hw : wf_clase c = true) by (by eapply Forall_forall in Hcl).
    rewrite (check_franja_conflicts_spec c franjas Hw Hord).
    rewrite blocked_conflicts_nil; [done|].
    intros b f Hb Hf Hst. apply (Hblk c b _ Hc Hb (Hin_bl f Hf Hst)).
Qed.

Lemma X14_witness :
  ScheduleService.check_conflicts [Samples.a1; Samples.b2] = Some [] ∧
  ∀ c, c ∈ [Samples.a1; Samples.b2] →
       ScheduleService.check_franja_conflicts c [Samples.tuesday_blocked] = Some [].
Proof.
  apply (X14_generated_combinations_pass_the_checks Samples.ids Samples.two_courses
           [Samples.tuesday_blocked] (Some 1%Z)
           (ScheduleService.mk_result
              [HorarioCombination.mk "01234567" [Samples.a1; Samples.b2] 0 4 0 0 0
                 "08:00" "11:00"] 1 4 3 None)
           (HorarioCombination.mk "01234567" [Samples.a1; Samples.b2] 0 4 0 0 0
              "08:00" "11:00")).
  - repeat constructor.
  - vm_compute; reflexivity.
  - left.
Defined.

(** ** From [generate_combinations] to [filter_combinations] *)

Lemma apply_filters_wf combinations f l :
  ScheduleService.apply_filters combinations f = Some l →
  Forall wf_combination combinations → Forall wf_combination l.
Proof.
  unfold ScheduleService.apply_filters. intros Hl Hc.
  pose proof (apply_numeric_filters_wf combinations f Hc) as Hn.
  destruct (ScheduleService.apply_earliest_start _ f) as [l1|] eqn:H1;
    cbn [mbind option_bind] in Hl; [|done].
  assert (Hl1 : Forall wf_combination l1).
  { revert H1. unfold ScheduleService.apply_earliest_start.
    destruct (ScheduleService.earliest_start f) as [[|a s]|]; try (by intros [= <-]).
    destruct (BloqueHorario._time_to_minutes _); cbn [mbind option_bind]; [|done].
    intros Hfm. rewrite Forall_forall in Hn |- *. intros c Hin. apply Hn.
    by eapply filter_m_elem. }
  revert Hl. unfold ScheduleService.apply_latest_end.
  destruct (ScheduleService.latest_end f) as [[|a s]|]; try (by intros [= <-]).
  destruct (BloqueHorario._time_to_minutes _); cbn [mbind option_bind]; [|done].
  intros Hfm. rewrite Forall_forall in Hl1 |- *. intros c Hin. apply Hl1.
  by eapply filter_m_elem.
Qed.

Lemma filter_combinations_total combinations f :
  wf_filters f → Forall wf_combination combinations →
  is_Some (ScheduleService.filter_combinations combinations f).
Proof.
  intros Hf Hc. unfold ScheduleService.filter_combinations.
  destruct (apply_filters_total combinations f Hf Hc) as [l Hl]. rewrite Hl.
  cbn [mbind option_bind].
  pose proof (apply_filters_wf _ _ _ Hl Hc) as Hwf.
  destruct (default (Some "free_days") (ScheduleService.sort_by f)) as [key|];
    [|by eexists].
  cbn [mbind option_bind]. unfold ScheduleService.sort_key_map.
  repeat case_decide; try (by eexists); apply sorted_m_total; intros c Hin;
    try (by eexists);
    rewrite Forall_forall in Hwf; destruct (Hwf c Hin) as [He Hla]; done.
Qed.

Lemma generated_wf_combination uuid4 cbm franjas max res :
  Forall (λ kv, Forall constructed_clase kv.2) cbm →
  ScheduleService.generate_combinations uuid4 cbm franjas max = Some res →
  Forall wf_combination (ScheduleService.combinations res).
Proof.
  intros Hc Hgen. apply Forall_forall. intros combo Hcombo.
  destruct (generated_combo _ _ _ _ _ _ Hgen Hcombo) as (bl & i & _ & _ & Hprod & Hcalc).
  pose proof (product_wf cbm constructed_clase _ Hc Hprod) as Hcl.
  destruct (HorarioCombination.clases combo) as [|c cs] eqn:Hclases.
  - injection Hcalc as <-. split; by eexists.
  - rewrite <- Hclases in *.
    apply calculate_metrics_run in Hcalc
      as (g & gm & e & l & Hloop & _ & _ & _ & _ & _ & _ & He & Hl & _);
      [|simpl; by rewrite Hclases].
    simpl in Hloop.
    destruct (time_range_spec _ _ _ _ _ Hcl Hloop) as (Hrange & _).
    unfold wf_combination, parses. rewrite He, Hl, !hh_mm_parse by lia.
    split; by eexists.
Qed.

(** X15.  The combinations that [generate_combinations] returns for
    constructed sections can always be filtered: their [earliest_start]
    and [latest_end] are texts that [_time_to_minutes] converts, so
    [filter_combinations] does not raise, whatever the sort key and the
    ([HH:MM] or absent) time bounds of the options are. *)
Theorem X15_generated_combinations_can_be_filtered uuid4 cbm franjas max res f :
  Forall (λ kv, Forall constructed_clase kv.2) cbm →
  wf_filters f →
  ScheduleService.generate_combinations uuid4 cbm franjas max = Some res →
  Forall wf_combination (ScheduleService.combinations res) ∧
  is_Some (ScheduleService.filter_combinations (ScheduleService.combinations res) f).
Proof.
  intros Hc Hf Hgen.
  pose proof (generated_wf_combination _ _ _ _ _ Hc Hgen) as Hwf.
  split; [done|]. by apply filter_combinations_total.
Qed.

Lemma X15_witness :
  is_Some (ScheduleService.filter_combinations
             [HorarioCombination.mk "01234567" [Samples.a1; Samples.b2] 0 4 0 0 0
                "08:00" "11:00"]
             (ScheduleService.preset_filters "earliest_start" "asc" None (Some "14:00"))).
Proof.
  apply (X15_generated_combinations_can_be_filtered Samples.ids Samples.two_courses
           [] (Some 1%Z)
           (ScheduleService.mk_result
              [HorarioCombination.mk "01234567" [Samples.a1; Samples.b2] 0 4 0 0 0
                 "08:00" "11:00"] 1 4 3 None)).
  - repeat constructor.
  - split; intros s [= <-]; left; by eexists.
  - vm_compute; reflexivity.
Defined.

(** ** The counters of [generate_combinations] *)

Lemma length_product {A} (pools : list (list A)) :
  length (ScheduleService.product pools)
  = foldr (λ pool acc, length pool * acc)%nat 1%nat pools.
Proof.
  induction pools as [|pool rest IH]; [done|].
  cbn [ScheduleService.product foldr]. rewrite <- IH. clear IH.
  induction pool as [|x pool IHp]; [done|].
  cbn [flat_map length]. rewrite length_app, length_fmap, IHp. lia.
Qed.

Lemma possible_nonempty {A} (pools : list (list A)) :
  Forall (λ pool, pool ≠ []) pools →
  possible pools = Z.of_nat (foldr (λ pool acc, length pool * acc)%nat 1%nat pools).
Proof.
  induction 1 as [|pool rest Hp _ IH]; [done|].
  change (possible (pool :: rest)) with (candidate_factor pool * possible rest)%Z.
  cbn [foldr]. rewrite IH, Nat2Z.inj_mul. unfold candidate_factor. by destruct pool.
Qed.

(** X16.  Without a limit, and with at least one section for every
    course, the generator examines every tuple: [total_checked] equals
    [total_possible], the product of the numbers of sections.  The
    warning is present exactly when [total_possible] exceeds 1000. *)
Theorem X16_counters_without_limit uuid4 cbm franjas r :
  Forall (λ course, course.2 ≠ []) cbm →
  ScheduleService.generate_combinations uuid4 cbm franjas None = Some r →
  ScheduleService.total_checked r = ScheduleService.total_possible r ∧
  ScheduleService.total_possible r
  = Z.of_nat (foldr (λ course acc, length course.2 * acc)%nat 1%nat cbm) ∧
  (is_Some (ScheduleService.warning r) ↔ (1000 < ScheduleService.total_possible r)%Z).
Proof.
  intros Hne Hgen.
  assert (Hwarn : is_Some (ScheduleService.warning r)
                  ↔ (1000 < ScheduleService.total_possible r)%Z).
  { revert Hgen. unfold ScheduleService.generate_combinations.
    destruct (Py.map_m _ _); cbn [mbind option_bind]; [|done].
    destruct (ScheduleService.loop _ _ _ _ _ _ _) as [[vs ch]|]; cbn [mbind option_bind];
      [|done].
    intros [= <-]. cbn [ScheduleService.warning ScheduleService.total_possible].
    unfold ScheduleService.COMBINATION_WARNING_THRESHOLD.
    destruct (1000 <? _)%Z eqn:E.
    - apply Z.ltb_lt in E. split; [done|by eexists].
    - apply Z.ltb_ge in E. split; [by intros [? ?]|lia]. }
  apply generate_run in Hgen as (bl & _ & Hloop & _ & Hposs).
  apply loop_run in Hloop as (tested & new & _ & _ & _ & _ & Hend).
  assert (Hpools : Forall (λ pool : list Clase.t, pool ≠ []) cbm.*2).
  { rewrite Forall_fmap. exact Hne. }
  assert (Hfold : foldr (λ pool acc, length pool * acc)%nat 1%nat cbm.*2
                  = foldr (λ course acc, length course.2 * acc)%nat 1%nat cbm).
  { clear. induction cbm as [|kv cbm IH]; [done|]. rewrite fmap_cons. cbn [foldr].
    by rewrite IH. }
  rewrite Hposs, possible_nonempty, Hfold in * by done.
  split; [|done].
  destruct Hend as [[_ ->]|(? & ? & _ & _ & Hlim)]; [|done].
  rewrite length_product, Hfold. lia.
Qed.

Lemma X16_witness :
  ScheduleService.total_checked
    (ScheduleService.mk_result
       [HorarioCombination.mk "01234567" [Samples.a1] 0 5 0 0 0 "08:00" "10:00";
        HorarioCombination.mk "01234567" [Samples.a2] 0 5 0 0 0 "08:00" "10:00"]
       2 2 2 None) = 2%Z.
Proof.
  apply (X16_counters_without_limit Samples.ids [("A", [Samples.a1; Samples.a2])] []
           (ScheduleService.mk_result
              [HorarioCombination.mk "01234567" [Samples.a1] 0 5 0 0 0 "08:00" "10:00";
               HorarioCombination.mk "01234567" [Samples.a2] 0 5 0 0 0 "08:00" "10:00"]
              2 2 2 None)).
  - repeat constructor; done.
  - vm_compute; reflexivity.
Defined.

(** ** The filters of [filter_combinations] *)

Lemma filter_m_filter {A} (p : A → option bool) (P : A → Prop) `{∀ x, Decision (P x)} l r :
  ScheduleService.filter_m p l = Some r →
  (∀ x b, x ∈ l → p x = Some b → (b = true ↔ P x)) →
  r = filter P l.
Proof.
  revert r. induction l as [|x l IH]; intros r; simpl.
  { by intros [= <-]. }
  destruct (p x) as [b|] eqn:Hb; cbn [mbind option_bind]; [|done].
  destruct (ScheduleService.filter_m p l) as [ys|]; cbn [mbind option_bind]; [|done].
  intros [= <-] Hp. rewrite filter_cons.
  assert (Hx : b = true ↔ P x) by (apply (Hp x b); [left|done]).
  rewrite (IH ys eq_refl); [|intros y b' Hy; apply Hp; by right].
  destruct b; destruct (decide (P x)) as [HP|HP]; try done.
  - destruct HP. by apply Hx.
  - by apply Hx in HP.
Qed.

Lemma filter_filter_and {A} (P Q : A → Prop) `{∀ x, Decision (P x)} `{∀ x, Decision (Q x)}
    (l : list A) :
  filter Q (filter P l) = filter (λ x, P x ∧ Q x) l.
Proof.
  induction l as [|x l IH]; [done|].
  rewrite !filter_cons. destruct (decide (P x)) as [HP|HP].
  - rewrite filter_cons. destruct (decide (Q x)) as [HQ|HQ].
    + rewrite decide_True by done. by rewrite IH.
    + rewrite decide_False by tauto. done.
  - rewrite decide_False by tauto. done.
Qed.

Lemma filter_equiv {A} (P Q : A → Prop) `{∀ x, Decision (P x)} `{∀ x, Decision (Q x)}
    (l : list A) :
  (∀ x, x ∈ l → P x ↔ Q x) → filter P l = filter Q l.
Proof.
  induction l as [|x l IH]; intros Heq; [done|].
  rewrite !filter_cons, IH by (intros y Hy; apply Heq; by right).
  assert (Hx : P x ↔ Q x) by (apply Heq; left).
  destruct (decide (P x)), (decide (Q x)); tauto.
Qed.

Lemma filter_all {A} (P : A → Prop) `{∀ x, Decision (P x)} (l : list A) :
  (∀ x, x ∈ l → P x) → filter P l = l.
Proof.
  induction l as [|x l IH]; intros Hall; [done|].
  rewrite filter_cons, decide_True by (apply Hall; left).
  rewrite IH; [done|]. intros y Hy. apply Hall. by right.
Qed.

Lemma apply_numeric_filters_spec combinations f :
  ScheduleService.apply_numeric_filters combinations f
  = filter (λ c,
      from_option (λ v, v ≤ HorarioCombination.free_days c)%Z True
                  (ScheduleService.min_free_days f) ∧
      from_option (λ v, HorarioCombination.gaps_count c ≤ v)%Z True
                  (ScheduleService.max_gaps f) ∧
      from_option (λ v, HorarioCombination.gaps_minutes c ≤ v)%Z True
                  (ScheduleService.max_gap_minutes f)) combinations.
Proof.
  unfold ScheduleService.apply_numeric_filters. cbv zeta.
  destruct (ScheduleService.min_free_days f), (ScheduleService.max_gaps f),
    (ScheduleService.max_gap_minutes f); cbn [from_option];
    rewrite ?filter_filter_and;
    first [apply filter_equiv; intros c _; tauto
          |symmetry; apply filter_all; intros c _; tauto].
Qed.

Lemma apply_earliest_start_spec filtered f r :
  ScheduleService.apply_earliest_start filtered f = Some r →
  r = filter (λ c,
        from_option
          (λ s, s = "" ∨ minutes s ≤ minutes (HorarioCombination.earliest_start c))%Z
          True (ScheduleService.earliest_start f)) filtered.
Proof.
  unfold ScheduleService.apply_earliest_start.
  destruct (ScheduleService.earliest_start f) as [[|a s]|]; cbn [from_option].
  - intros [= <-]. symmetry. apply filter_all. intros c _. by left.
  - destruct (BloqueHorario._time_to_minutes (String a s)) as [m|] eqn:Hm;
      cbn [mbind option_bind]; [|done].
    intros Hr. eapply (filter_m_filter _
        (λ c, minutes (String a s) ≤ minutes (HorarioCombination.earliest_start c))%Z) in Hr.
    + subst r. apply filter_equiv. intros c _. split; [by right|by intros [?|?]].
    + intros c b _ Hb. unfold minutes. rewrite Hm.
      destruct (BloqueHorario._time_to_minutes (HorarioCombination.earliest_start c));
        cbn [mbind option_bind] in Hb; [|done].
      injection Hb as <-. simpl. by rewrite Z.leb_le.
  - intros [= <-]. symmetry. by apply filter_all.
Qed.

Lemma apply_latest_end_spec filtered f r :
  ScheduleService.apply_latest_end filtered f = Some r →
  r = filter (λ c,
        from_option
          (λ s, s = "" ∨ minutes (HorarioCombination.latest_end c) ≤ minutes s)%Z
          True (ScheduleService.latest_end f)) filtered.
Proof.
  unfold ScheduleService.apply_latest_end.
  destruct (ScheduleService.latest_end f) as [[|a s]|]; cbn [from_option].
  - intros [= <-]. symmetry. apply filter_all. intros c _. by left.
  - destruct (BloqueHorario._time_to_minutes (String a s)) as [m|] eqn:Hm;
      cbn [mbind option_bind]; [|done].
    intros Hr. eapply (filter_m_filter _
        (λ c, minutes (HorarioCombination.latest_end c) ≤ minutes (String a s))%Z) in Hr.
    + subst r. apply filter_equiv. intros c _. split; [by right|by intros [?|?]].
    + intros c b _ Hb. unfold minutes. rewrite Hm.
      destruct (BloqueHorario._time_to_minutes (HorarioCombination.latest_end c));
        cbn [mbind option_bind] in Hb; [|done].
      injection Hb as <-. simpl. by rewrite Z.leb_le.
  - intros [= <-]. symmetry. by apply filter_all.
Qed.

(** The five filtering steps keep exactly the combinations within the
    bounds, in their order. *)
Lemma apply_filters_spec combinations f l :
  ScheduleService.apply_filters combinations f = Some l →
  l = filter (within_bounds f) combinations.
Proof.
  unfold ScheduleService.apply_filters. cbv zeta. rewrite apply_numeric_filters_spec.
  destruct (ScheduleService.apply_earliest_start _ f) as [l1|] eqn:H1;
    cbn [mbind option_bind]; [|done].
  apply apply_earliest_start_spec in H1. intros ->%apply_latest_end_spec. subst l1.
  rewrite !filter_filter_and. apply filter_equiv. intros c _.
  unfold within_bounds. tauto.
Qed.

(** X17.  [filter_combinations] returns the combinations that meet every
    bound of the options, each as often as it was given: the result is a
    rearrangement of them, and when [sort_by] is present but is not one
    of the six keys (an unknown name, or [None]) nothing is sorted and
    they keep the order in which they were given. *)
Theorem X17_filter_keeps_what_is_within_bounds combinations f r :
  ScheduleService.filter_combinations combinations f = Some r →
  r ≡ₚ filter (within_bounds f) combinations ∧
  (∀ key, ScheduleService.sort_by f = Some key →
     (key ∉ Some <$> ["free_days"; "gaps_count"; "gaps_minutes"; "preferred_slots";
                      "earliest_start"; "latest_end"]) →
     r = filter (within_bounds f) combinations).
Proof.
  unfold ScheduleService.filter_combinations.
  destruct (ScheduleService.apply_filters combinations f) as [l|] eqn:Hl;
    cbn [mbind option_bind]; [|done].
  apply apply_filters_spec in Hl. subst l. cbv zeta.
  destruct (default (Some "free_days") (ScheduleService.sort_by f) ≫= _)
    as [key|] eqn:Hkey.
  - intros Hr. split; [by eapply sorted_m_perm|].
    intros k Hk Hnot. exfalso. rewrite Hk in Hkey.
    destruct k as [k|]; [|done].
    cbn [default from_option id mbind option_bind] in Hkey.
    unfold ScheduleService.sort_key_map in Hkey.
    repeat (case_decide;
            [subst k; apply Hnot; apply (bool_decide_unpack _); vm_compute; exact I|]).
    done.
  - intros [= <-]. done.
Qed.

Lemma X17_witness :
  [FilterSamples2.late; FilterSamples2.free]
  ≡ₚ filter (within_bounds FilterSamples2.unsorted)
            [FilterSamples2.early; FilterSamples2.late; FilterSamples2.free].
Proof.
  apply (X17_filter_keeps_what_is_within_bounds
           [FilterSamples2.early; FilterSamples2.late; FilterSamples2.free]
           FilterSamples2.unsorted [FilterSamples2.late; FilterSamples2.free]).
  vm_compute; reflexivity.
Defined.

Lemma sorted_m_by_key_rev {A} (key : A → option Z) l r :
  Py.sorted_m Z.ltb key true l = Some r →
  StronglySorted (λ x y, (default 0 (key y) ≤ default 0 (key x))%Z) r.
Proof.
  intros (keys & Hk & ->)%sorted_m_keys.
  apply (StronglySorted_rev (λ x y, (default 0 (key x) ≤ default 0 (key y))%Z)).
  apply (keyed_sorted_values (λ x, default 0%Z (key x))); [|apply sort_keyed_sorted].
  rewrite sort_keyed_perm, <- Permutation_rev. apply Forall_forall. intros [k x] Hin.
  apply list_elem_of_lookup in Hin as [i Hi].
  apply lookup_zip_with_Some in Hi as (k' & x' & [= -> ->] & Hk' & Hx').
  destruct (Forall2_lookup_l _ _ _ _ _ Hk Hx') as (k'' & Hk'' & Hkey).
  simpl. rewrite Hkey. simpl. congruence.
Qed.

(** X18.  With one of the keys [free_days], [preferred_slots],
    [earliest_start], [latest_end] -- or without [sort_by], which stands
    for [free_days] -- the result of [filter_combinations] is in
    descending order of the key when [sort_order] is ['desc'] or absent,
    and in ascending order for every other value of [sort_order]. *)
Theorem X18_sort_order_of_the_plain_keys combinations f r key metric :
  (key, metric) ∈
    [("free_days", HorarioCombination.free_days);
     ("preferred_slots", HorarioCombination.preferred_slots_used);
     ("earliest_start", λ c, minutes (HorarioCombination.earliest_start c));
     ("latest_end", λ c, minutes (HorarioCombination.latest_end c))] →
  ScheduleService.sort_by f = Some (Some key) ∨
  (ScheduleService.sort_by f = None ∧ key = "free_days") →
  ScheduleService.filter_combinations combinations f = Some r →
  if decide (default (Some "desc") (ScheduleService.sort_order f) = Some "desc")
  then StronglySorted (λ a b, metric b ≤ metric a)%Z r
  else StronglySorted (λ a b, metric a ≤ metric b)%Z r.
Proof.
  intros Hkey Hsort. unfold ScheduleService.filter_combinations.
  destruct (ScheduleService.apply_filters combinations f) as [l|];
    cbn [mbind option_bind]; [|done].
  assert (Hby : default (Some "free_days") (ScheduleService.sort_by f) = Some key).
  { destruct Hsort as [->|[-> ->]]; done. }
  cbv zeta. rewrite Hby. cbn [mbind option_bind].
  destruct (decide (default (Some "desc") (ScheduleService.sort_order f) = Some "desc"))
    as [Ho|Ho].
  - rewrite (bool_decide_eq_true_2 _ Ho).
    repeat (apply elem_of_cons in Hkey as [[= -> ->]|Hkey]);
      [..|by apply elem_of_nil in Hkey];
      cbn -[Py.sorted_m]; intros Hr; apply sorted_m_by_key_rev in Hr; exact Hr.
  - rewrite (bool_decide_eq_false_2 _ Ho).
    repeat (apply elem_of_cons in Hkey as [[= -> ->]|Hkey]);
      [..|by apply elem_of_nil in Hkey];
      cbn -[Py.sorted_m]; intros Hr; apply sorted_m_by_key in Hr; exact Hr.
Qed.

Lemma X18_witness :
  StronglySorted (λ a b, HorarioCombination.free_days b ≤ HorarioCombination.free_days a)%Z
    [FilterSamples2.late; FilterSamples2.free; FilterSamples2.early].
Proof.
  apply (X18_sort_order_of_the_plain_keys
           [FilterSamples2.early; FilterSamples2.late; FilterSamples2.free]
           FilterSamples2.by_free_days
           [FilterSamples2.late; FilterSamples2.free; FilterSamples2.early]
           "free_days" HorarioCombination.free_days).
  - left.
  - right. done.
  - vm_compute; reflexivity.
Defined.

(** ** [get_schedule_grid] *)

Lemma dict_get_cons {V} k k' (v : V) d :
  Py.dict_get k ((k', v) :: d) = if decide (k' = k) then Some v else Py.dict_get k d.
Proof.
  unfold Py.dict_get. cbn [List.find fst].
  destruct (decide (k' = k)) as [->|Hne].
  - by rewrite bool_decide_eq_true_2.
  - by rewrite bool_decide_eq_false_2.
Qed.

Lemma dict_get_set {V} k k' (v : V) d :
  Py.dict_get k' (Py.dict_set k v d) = if decide (k' = k) then Some v else Py.dict_get k' d.
Proof.
  induction d as [|[k0 v0] d IH]; cbn [Py.dict_set].
  - rewrite dict_get_cons. destruct (decide (k = k')), (decide (k' = k)); congruence.
  - destruct (decide (k0 = k)) as [->|Hne]; rewrite !dict_get_cons.
    + destruct (decide (k = k')), (decide (k' = k)); congruence.
    + rewrite IH. destruct (decide (k0 = k')), (decide (k' = k)); congruence.
Qed.

Lemma dict_set_keys {V} k (v : V) d : k ∈ d.*1 → (Py.dict_set k v d).*1 = d.*1.
Proof.
  induction d as [|[k0 v0] d IH]; [by intros ?%elem_of_nil|].
  rewrite fmap_cons. cbn [Py.dict_set fst]. intros Hin.
  destruct (decide (k0 = k)) as [->|Hne]; [done|].
  rewrite fmap_cons. cbn [fst]. rewrite IH; [done|].
  apply elem_of_cons in Hin as [?|?]; [congruence|done].
Qed.

Lemma dict_get_fmap {V} (f : string → V) k (l : list string) :
  k ∈ l → Py.dict_get k ((λ x, (x, f x)) <$> l) = Some (f k).
Proof.
  induction l as [|x l IH]; [by intros ?%elem_of_nil|].
  rewrite fmap_cons, dict_get_cons. intros Hin.
  destruct (decide (x = k)) as [->|Hne]; [done|].
  apply IH. apply elem_of_cons in Hin as [?|?]; [congruence|done].
Qed.

Lemma grid_set_keys {V} day time (v : V) grid :
  (ScheduleService.grid_set day time v grid).*1 = grid.*1.
Proof.
  induction grid as [|[d row] grid IH]; [done|].
  cbn [ScheduleService.grid_set]. destruct (decide (d = day)); [done|].
  rewrite !fmap_cons. by rewrite IH.
Qed.

Lemma grid_set_rows {V} day time (v : V) grid slots :
  time ∈ slots → Forall (λ row, row.2.*1 = slots) grid →
  Forall (λ row, row.2.*1 = slots) (ScheduleService.grid_set day time v grid).
Proof.
  intros Ht. induction 1 as [|[d row] grid Hrow Hgrid IH]; [constructor|].
  cbn [ScheduleService.grid_set]. cbn [snd] in Hrow.
  destruct (decide (d = day)); constructor; try done.
  cbn [snd]. rewrite dict_set_keys; [done|]. by rewrite Hrow.
Qed.

Lemma grid_cell_set {V} day time (v : V) grid d t :
  day ∈ grid.*1 →
  grid_cell (ScheduleService.grid_set day time v grid) d t
  = if decide (d = day ∧ t = time) then Some v else grid_cell grid d t.
Proof.
  unfold grid_cell. induction grid as [|[d0 row] grid IH]; [by intros ?%elem_of_nil|].
  rewrite fmap_cons. cbn [ScheduleService.grid_set fst]. intros Hin.
  destruct (decide (d0 = day)) as [->|Hne].
  - rewrite !dict_get_cons. destruct (decide (day = d)) as [<-|Hd].
    + cbn [mbind option_bind]. rewrite dict_get_set.
      destruct (decide (t = time)) as [->|Ht].
      * by rewrite decide_True.
      * rewrite decide_False; [done|]. by intros [_ ?].
    + rewrite decide_False; [done|]. intros [? _]. congruence.
  - rewrite !dict_get_cons. destruct (decide (d0 = d)) as [<-|Hd].
    + rewrite decide_False; [done|]. intros [? _]. congruence.
    + apply IH. apply elem_of_cons in Hin as [?|?]; [congruence|done].
Qed.

Lemma for_m_app {A S} (body : S → A → option S) l1 l2 s :
  Py.for_m body (l1 ++ l2) s = (s' ← Py.for_m body l1 s; Py.for_m body l2 s').
Proof.
  revert s. induction l1 as [|x l1 IH]; intros s; [done|].
  cbn [app Py.for_m]. destruct (body s x); cbn [mbind option_bind]; [apply IH|done].
Qed.

Lemma for_m_nested {A B S} (body : A → S → B → option S) (f : A → list B) l s :
  Py.for_m (λ s x, Py.for_m (body x) (f x) s) l s
  = Py.for_m (λ s xy, body xy.1 s xy.2) (x ← l; (λ y, (x, y)) <$> f x) s.
Proof.
  revert s. induction l as [|x l IH]; intros s; [done|].
  cbn [Py.for_m]. rewrite bind_cons, for_m_app.
  assert (Hx : ∀ s, Py.for_m (body x) (f x) s
                    = Py.for_m (λ s xy, body xy.1 s xy.2) ((λ y, (x, y)) <$> f x) s).
  { clear. induction (f x) as [|y ys IHy]; intros s; [done|].
    rewrite fmap_cons. cbn [Py.for_m fst snd].
    destruct (body x s y); cbn [mbind option_bind]; [apply IHy|done]. }
  rewrite Hx. destruct (Py.for_m _ _ s); cbn [mbind option_bind]; [apply IH|done].
Qed.

Lemma grid_time_slots_parse time :
  time ∈ ScheduleService.grid_time_slots →
  BloqueHorario._time_to_minutes time = Some (minutes time).
Proof.
  assert (H : forallb (λ t, bool_decide (BloqueHorario._time_to_minutes t = Some (minutes t)))
                      ScheduleService.grid_time_slots = true) by (vm_compute; reflexivity).
  rewrite forallb_forall in H. intros Hin%list_elem_of_In. specialize (H _ Hin).
  by apply bool_decide_eq_true in H.
Qed.

(** The loop over the slots for one block of a day of the grid. *)
Lemma grid_slots_loop clase block grid (ts : list string) :
  DayOfWeek_value (BloqueHorario.day block) ∈ grid.*1 →
  grid_shape grid → ts ⊆ ScheduleService.grid_time_slots →
  ∃ grid',
    Py.for_m (λ grid time,
      time_minutes ← BloqueHorario._time_to_minutes time;
      if (minutes (BloqueHorario.start block) <=? time_minutes)%Z
         && (time_minutes <? minutes (BloqueHorario.end_ block))%Z
      then Some (ScheduleService.grid_set (DayOfWeek_value (BloqueHorario.day block)) time
                   (Some (ScheduleService.mk_cell
                            (Clase.materia_code clase) (Clase.class_code clase)
                            (Clase.professor clase) (Clase.location clase)
                            (time_minutes =? minutes (BloqueHorario.start block))%Z
                            (BloqueHorario.start block) (BloqueHorario.end_ block)))
                   grid)
      else Some grid) ts grid = Some grid' ∧
    grid_shape grid' ∧
    ∀ d t, grid_cell grid' d t
           = if decide (t ∈ ts ∧ covers d (minutes t) block)
             then Some (Some (cell_for t (clase, block))) else grid_cell grid d t.
Proof.
  intros Hday Hshape Hts. revert grid Hday Hshape.
  induction ts as [|time ts IH]; intros grid Hday Hshape.
  { exists grid. split; [done|]. split; [done|]. intros d t.
    rewrite decide_False; [done|]. intros [?%elem_of_nil _]. done. }
  assert (Htime : time ∈ ScheduleService.grid_time_slots) by (apply Hts; left).
  assert (Hts' : ts ⊆ ScheduleService.grid_time_slots).
  { intros x Hx. apply Hts. by right. }
  cbn [Py.for_m]. rewrite (grid_time_slots_parse time Htime). cbn [mbind option_bind].
  destruct ((minutes (BloqueHorario.start block) <=? minutes time)%Z
            && (minutes time <? minutes (BloqueHorario.end_ block))%Z) eqn:Hcov.
  - apply andb_true_iff in Hcov as [H1%Z.leb_le H2%Z.ltb_lt].
    destruct (IH Hts' (ScheduleService.grid_set (DayOfWeek_value (BloqueHorario.day block))
                         time (Some (cell_for time (clase, block))) grid))
      as (grid' & Hloop & Hshape' & Hcell).
    + by rewrite grid_set_keys.
    + destruct Hshape as [Hk Hr]. split; [by rewrite grid_set_keys|by apply grid_set_rows].
    + exists grid'. split; [exact Hloop|]. split; [done|]. intros d t.
      rewrite Hcell, grid_cell_set by done.
      destruct (decide (t ∈ ts ∧ covers d (minutes t) block)) as [[Hin Hc]|Hn].
      * rewrite decide_True; [done|]. split; [by right|done].
      * destruct (decide (d = DayOfWeek_value (BloqueHorario.day block) ∧ t = time))
          as [[-> ->]|Hn'].
        -- rewrite decide_True; [done|]. split; [left|]. split; [done|lia].
        -- rewrite decide_False; [done|]. intros [[->|Hin]%elem_of_cons Hc].
           ++ apply Hn'. by destruct Hc as [-> _].
           ++ by apply Hn.
  - destruct (IH Hts' grid Hday Hshape) as (grid' & Hloop & Hshape' & Hcell).
    exists grid'. split; [exact Hloop|]. split; [done|]. intros d t. rewrite Hcell.
    destruct (decide (t ∈ ts ∧ covers d (minutes t) block)) as [[Hin Hc]|Hn].
    + rewrite decide_True; [done|]. split; [by right|done].
    + rewrite decide_False; [done|]. intros [[->|Hin]%elem_of_cons Hc]; [|by apply Hn].
      destruct Hc as [_ [H1 H2]]. apply andb_false_iff in Hcov as [H%Z.leb_gt|H%Z.ltb_ge]; lia.
Qed.

Lemma grid_block_spec clase block grid :
  wf_bloque block = true → grid_shape grid →
  ∃ grid',
    ScheduleService.grid_block ScheduleService.grid_time_slots clase grid block = Some grid' ∧
    grid_shape grid' ∧
    ∀ d t, d ∈ ScheduleService.days_order → t ∈ ScheduleService.grid_time_slots →
           grid_cell grid' d t
           = if decide (covers d (minutes t) block)
             then Some (Some (cell_for t (clase, block))) else grid_cell grid d t.
Proof.
  intros Hwf Hshape. unfold ScheduleService.grid_block. cbv zeta.
  destruct (decide (DayOfWeek_value (BloqueHorario.day block) ∉ grid.*1)) as [Hout|Hin].
  - exists grid. split; [done|]. split; [done|]. intros d t Hd Ht.
    rewrite decide_False; [done|]. intros [Hday _]. apply Hout.
    destruct Hshape as [-> _]. by rewrite Hday.
  - assert (Hday : DayOfWeek_value (BloqueHorario.day block) ∈ grid.*1).
    { by destruct (decide (DayOfWeek_value (BloqueHorario.day block) ∈ grid.*1)). }
    destruct (wf_bloque_minutes block Hwf) as (-> & -> & _). cbn [mbind option_bind].
    destruct (grid_slots_loop clase block grid ScheduleService.grid_time_slots Hday Hshape)
      as (grid' & Hloop & Hshape' & Hcell); [done|].
    exists grid'. split; [exact Hloop|]. split; [done|]. intros d t Hd Ht.
    rewrite Hcell. destruct (decide (covers d (minutes t) block)) as [Hc|Hc].
    + by rewrite decide_True.
    + rewrite decide_False; [done|]. by intros [_ ?].
Qed.

Lemma section_blocks_wf clases :
  Forall (λ c, wf_clase c = true) clases →
  Forall (λ cb, wf_bloque cb.2 = true) (section_blocks clases).
Proof.
  unfold section_blocks. induction 1 as [|c cs Hc _ IH]; [constructor|].
  rewrite bind_cons. apply Forall_app. split; [|done].
  apply Forall_fmap, Forall_forall. intros b Hb. by eapply wf_clase_elem.
Qed.

Lemma grid_pairs_loop (pairs : list (Clase.t * BloqueHorario.t)) grid0 :
  Forall (λ cb, wf_bloque cb.2 = true) pairs → grid_shape grid0 →
  (∀ d t, d ∈ ScheduleService.days_order → t ∈ ScheduleService.grid_time_slots →
          grid_cell grid0 d t = Some None) →
  ∃ grid,
    Py.for_m (λ grid cb,
        ScheduleService.grid_block ScheduleService.grid_time_slots cb.1 grid cb.2)
      pairs grid0 = Some grid ∧
    grid_shape grid ∧
    ∀ d t, d ∈ ScheduleService.days_order → t ∈ ScheduleService.grid_time_slots →
           grid_cell grid d t
           = Some (cell_for t <$> last (filter (λ cb, covers d (minutes t) cb.2) pairs)).
Proof.
  intros Hwf Hshape0 Hempty. induction pairs as [|[c b] pairs IH] using rev_ind.
  { exists grid0. split; [done|]. split; [done|]. intros d t Hd Ht. by rewrite Hempty. }
  apply Forall_app in Hwf as [Hwf Hb]. rewrite Forall_singleton in Hb. cbn [snd] in Hb.
  destruct (IH Hwf) as (grid1 & Hloop & Hshape1 & Hcell1).
  destruct (grid_block_spec c b grid1 Hb Hshape1) as (grid2 & Hblock & Hshape2 & Hcell2).
  exists grid2. rewrite for_m_app, Hloop. cbn [mbind option_bind Py.for_m fst snd].
  rewrite Hblock. cbn [mbind option_bind]. split; [done|]. split; [done|].
  intros d t Hd Ht. rewrite Hcell2, Hcell1 by done.
  rewrite filter_app, filter_cons, filter_nil. cbn [snd].
  destruct (decide (covers d (minutes t) b)) as [Hc|Hc].
  - by rewrite last_snoc.
  - by rewrite app_nil_r.
Qed.

(** X19.  For validated sections [get_schedule_grid] returns a grid with
    the six days from Monday to Saturday and the 32 half-hour slots from
    06:00 to 21:30.  A slot of a day shows the block of that day that
    covers its first minute ([start <= slot < end]) -- the one visited
    last if several do -- or nothing if none does; [is_start] is set when
    the block starts at the slot.  Blocks on Sunday or outside 06:00-22:00
    are not shown anywhere. *)
Theorem X19_schedule_grid_cells combination :
  Forall (λ c, wf_clase c = true) (HorarioCombination.clases combination) →
  ∃ g, ScheduleService.get_schedule_grid combination = Some g ∧
    ScheduleService.days g = ["L"; "M"; "W"; "J"; "V"; "S"] ∧
    ScheduleService.time_slots g = ScheduleService.grid_time_slots ∧
    length (ScheduleService.time_slots g) = 32%nat ∧
    (ScheduleService.grid g).*1 = ScheduleService.days g ∧
    Forall (λ row, row.2.*1 = ScheduleService.time_slots g) (ScheduleService.grid g) ∧
    ∀ day time, day ∈ ScheduleService.days g → time ∈ ScheduleService.time_slots g →
      grid_cell (ScheduleService.grid g) day time
      = Some (shown (HorarioCombination.clases combination) day time).
Proof.
  intros Hwf. unfold ScheduleService.get_schedule_grid. cbv zeta.
  rewrite (for_m_nested
    (λ clase grid block,
       ScheduleService.grid_block ScheduleService.grid_time_slots clase grid block)
    Clase.schedule).
  destruct (grid_pairs_loop (section_blocks (HorarioCombination.clases combination))
    ((λ day, (day, (λ time, (time, @None ScheduleService.cell))
                     <$> ScheduleService.grid_time_slots)) <$> ScheduleService.days_order))
    as (grid & Hloop & [Hkeys Hrows] & Hcell).
  - by apply section_blocks_wf.
  - split; [vm_compute; reflexivity|].
    apply (bool_decide_unpack _). vm_compute. exact I.
  - intros d t Hd Ht. unfold grid_cell.
    rewrite (dict_get_fmap
      (λ day, (λ time, (time, @None ScheduleService.cell)) <$> ScheduleService.grid_time_slots))
      by done.
    cbn [mbind option_bind].
    by rewrite (dict_get_fmap (λ _, @None ScheduleService.cell)).
  - unfold section_blocks in Hloop. rewrite Hloop. cbn [mbind option_bind].
    eexists. split; [reflexivity|].
    cbn [ScheduleService.days ScheduleService.time_slots ScheduleService.grid].
    split; [done|]. split; [done|]. split; [done|]. split; [done|]. split; [done|].
    intros day time Hd Ht. by apply Hcell.
Qed.

Lemma X19_witness :
  ∃ g, ScheduleService.get_schedule_grid GridSamples.picked = Some g ∧
       grid_cell (ScheduleService.grid g) "L" "08:30"
       = Some (Some (ScheduleService.mk_cell "A" "1" (Some "Prof") None false "08:15" "09:30")) ∧
       grid_cell (ScheduleService.grid g) "L" "08:00" = Some None.
Proof.
  destruct (X19_schedule_grid_cells GridSamples.picked) as (g & Hg & Hd & Hts & _ & _ & _ & Hcell).
  - repeat constructor.
  - exists g. split; [exact Hg|]. rewrite Hd, Hts in Hcell. split.
    + rewrite (Hcell "L" "08:30"); [reflexivity| |];
        apply (bool_decide_unpack _); vm_compute; exact I.
    + rewrite (Hcell "L" "08:00"); [reflexivity| |];
        apply (bool_decide_unpack _); vm_compute; exact I.
Defined.

(** ** [validate_class_data] *)






(** A time with the file separator (character 28) in front is refused:
    [int()] does not skip it. *)
Example file_separator_is_invalid_time :
  ScheduleService.errors <$> ScheduleService.validate_class_data
    (Json.Dict [("materia_code", Json.Str "CALC1"); ("class_code", Json.Str "A1");
                ("schedule", Json.List [JsonSamples.block (String (ascii_of_nat 28) "8:30")
                                                          "10:00"])])
  = Some ["Block 1: Invalid time format"].
Proof. reflexivity. Qed.

(* ===================================================================== *)
(** * Further properties of the catalog service                           *)
(* ===================================================================== *)

(** ** [is_available] and [get_available_courses] *)

Lemma is_available_spec m (passed enrolled : gset string) :
  Materia.is_available m passed enrolled = true ↔
  (∀ c, c ∈ Materia.prerequisites m → c ∈ passed) ∧
  (∀ c, c ∈ Materia.corequisites m → c ∈ passed ∨ c ∈ enrolled).
Proof.
  unfold Materia.is_available. rewrite andb_true_iff, !forallb_forall.
  split; intros [H1 H2]; split; intros c Hc.
  - apply list_elem_of_In in Hc. by apply H1, bool_decide_eq_true in Hc.
  - apply list_elem_of_In in Hc. by apply H2, bool_decide_eq_true in Hc.
  - apply bool_decide_eq_true, H1. by apply list_elem_of_In.
  - apply bool_decide_eq_true, H2. by apply list_elem_of_In.
Qed.

Lemma sublist_filter_impl {A} (P Q : A → Prop) `{∀ x, Decision (P x)} `{∀ x, Decision (Q x)}
    (l : list A) :
  (∀ x, x ∈ l → P x → Q x) → sublist (filter P l) (filter Q l).
Proof.
  induction l as [|x l IH]; intros Himp; [done|].
  rewrite !filter_cons.
  assert (Hl : sublist (filter P l) (filter Q l)).
  { apply IH. intros y Hy. apply Himp. by right. }
  destruct (decide (P x)) as [HP|HP].
  - rewrite decide_True by (apply Himp; [left|done]). by constructor.
  - destruct (decide (Q x)); [by constructor|done].
Qed.

(** X21.  [get_available_courses] returns, in the order of the catalog
    and each as often as the catalog lists it, the PENDING courses up to
    the given semester whose prerequisites are all passed and whose
    corequisites are all passed or enrolled.  More passed or enrolled
    courses, or a later semester, never remove a course from the answer;
    without the two sets only courses that require nothing are
    available. *)
Theorem X21_available_courses semester p passed enrolled :
  PensumService.get_available_courses semester p (Some passed) (Some enrolled)
  = filter (may_take semester passed enrolled) (Pensum.materias p) ∧
  sublist (PensumService.get_available_courses semester p (Some passed) (Some enrolled))
          (Pensum.materias p) ∧
  (∀ m, m ∈ PensumService.get_available_courses semester p (Some passed) (Some enrolled) ↔
     m ∈ Pensum.materias p ∧ (Materia.semester m ≤ semester)%Z ∧
     Materia.status m = PENDING ∧
     (∀ c, c ∈ Materia.prerequisites m → c ∈ passed) ∧
     (∀ c, c ∈ Materia.corequisites m → c ∈ passed ∨ c ∈ enrolled)) ∧
  (∀ semester' passed' enrolled',
     (semester ≤ semester')%Z → passed ⊆ passed' → enrolled ⊆ enrolled' →
     sublist (PensumService.get_available_courses semester p (Some passed) (Some enrolled))
             (PensumService.get_available_courses semester' p (Some passed') (Some enrolled'))) ∧
  (∀ m, m ∈ PensumService.get_available_courses semester p None None →
     Materia.prerequisites m = [] ∧ Materia.corequisites m = []).
Proof.
  unfold PensumService.get_available_courses. cbn [default].
  split; [|split; [apply sublist_filter|split; [|split]]].
  - apply filter_equiv. intros m _. unfold may_take.
    rewrite is_available_spec, !Forall_forall. tauto.
  - intros m. rewrite list_elem_of_filter, is_available_spec. tauto.
  - intros s' passed' enrolled' Hs Hp He. apply sublist_filter_impl.
    intros m _ (Hsem & Hst & Hav). split; [lia|]. split; [done|].
    apply is_available_spec in Hav as [H1 H2]. apply is_available_spec. split.
    + intros c Hc. apply Hp. by apply H1.
    + intros c Hc. destruct (H2 c Hc); [left|right]; auto.
  - intros m [(_ & _ & Hav) _]%list_elem_of_filter.
    apply is_available_spec in Hav as [H1 H2]. split.
    + destruct (Materia.prerequisites m) as [|c l]; [done|].
      specialize (H1 c). rewrite elem_of_empty in H1. destruct H1. left.
    + destruct (Materia.corequisites m) as [|c l]; [done|].
      specialize (H2 c). rewrite !elem_of_empty in H2. destruct H2; [left|done..].
Qed.

Lemma X21_witness :
  sublist (PensumService.get_available_courses 2 StatusSamples.plan (Some ∅) (Some ∅))
          (PensumService.get_available_courses 3 StatusSamples.plan
             (Some {["CALC1"; "CALC2"]}) (Some ∅)).
Proof.
  apply (proj1 (proj2 (proj2 (proj2 (X21_available_courses 2 StatusSamples.plan ∅ ∅)))) 3%Z
           {["CALC1"; "CALC2"]} ∅); [lia|set_solver|set_solver].
Defined.

(** ** [update_course_statuses] *)

Lemma fmap_filter_fmap {A B} (g : A → B) (f : A → A) (P : A → Prop)
    `{∀ x, Decision (P x)} (l : list A) :
  (∀ x, P (f x) ↔ P x) → (∀ x, g (f x) = g x) →
  g <$> filter P (f <$> l) = g <$> filter P l.
Proof.
  intros HP Hg. induction l as [|x l IH]; [done|].
  rewrite fmap_cons, !filter_cons.
  destruct (decide (P (f x))) as [H1|H1]; destruct (decide (P x)) as [H2|H2].
  - by rewrite !fmap_cons, Hg, IH.
  - destruct H2. by apply HP.
  - destruct H1. by apply HP.
  - done.
Qed.

Lemma update_keeps_codes_with status p :
  status = PASSED ∨ status = ENROLLED →
  codes_with status (PensumService.update_course_statuses p) = codes_with status p.
Proof.
  intros Hst. unfold codes_with, PensumService.update_course_statuses.
  cbn [Pensum.materias]. f_equal. apply fmap_filter_fmap.
  - intros m. destruct m as [code name credits semester pre co color st].
    unfold PensumService.set_status. cbn [Materia.status].
    destruct Hst as [->| ->]; destruct st; cbn;
      destruct (Materia.is_available _ _ _); cbn; done.
  - intros m. destruct m as [code name credits semester pre co color st].
    unfold PensumService.set_status. cbn [Materia.status].
    destruct st; cbn; destruct (Materia.is_available _ _ _); cbn; done.
Qed.

Lemma status_in_open s :
  bool_decide (s ∈ [PENDING; MBLOCKED])
  = match s with PENDING | MBLOCKED => true | _ => false end.
Proof. by destruct s; vm_compute. Qed.

Lemma status_is_blocked s :
  bool_decide (s = MBLOCKED) = match s with MBLOCKED => true | _ => false end.
Proof. by destruct s; vm_compute. Qed.

Lemma update_one_idemp (passed enrolled : gset string) m :
  update_one passed enrolled (update_one passed enrolled m) = update_one passed enrolled m.
Proof.
  destruct m as [code name credits semester pre co color st].
  unfold PensumService.set_status, Materia.is_available.
  rewrite !status_in_open, !status_is_blocked.
  cbn [Materia.status Materia.code Materia.name
    Materia.credits Materia.semester Materia.prerequisites Materia.corequisites Materia.color].
  destruct (forallb _ pre && forallb _ co) eqn:E; destruct st;
    cbn [Materia.status Materia.code Materia.name Materia.credits Materia.semester
         Materia.prerequisites Materia.corequisites Materia.color];
    rewrite ?E; reflexivity.
Qed.

(** X22.  [update_course_statuses] changes nothing but statuses, and only
    PENDING and BLOCKED ones: the catalog keeps its name, its
    [total_credits] and its courses in their order, every course keeps
    every other field, and afterwards a course that was PENDING or BLOCKED
    is PENDING when its prerequisites are passed and its corequisites
    passed or enrolled, and BLOCKED otherwise.  Updating a second time
    changes nothing. *)
Theorem X22_update_course_statuses p :
  let q := PensumService.update_course_statuses p in
  Forall2 (λ m m',
      m' = Materia.mk (Materia.code m) (Materia.name m) (Materia.credits m)
             (Materia.semester m) (Materia.prerequisites m) (Materia.corequisites m)
             (Materia.color m) (Materia.status m') ∧
      Materia.code m' = Materia.code m ∧ Materia.name m' = Materia.name m ∧
      Materia.credits m' = Materia.credits m ∧ Materia.semester m' = Materia.semester m ∧
      Materia.prerequisites m' = Materia.prerequisites m ∧
      Materia.corequisites m' = Materia.corequisites m ∧
      (if decide (Materia.status m ∈ [PENDING; MBLOCKED])
       then Materia.status m'
            = if Materia.is_available m (codes_with PASSED p) (codes_with ENROLLED p)
              then PENDING else MBLOCKED
       else Materia.status m' = Materia.status m))
    (Pensum.materias p) (Pensum.materias q) ∧
  Pensum.name q = Pensum.name p ∧
  Pensum.total_credits q = Pensum.total_credits p ∧
  PensumService.update_course_statuses q = q.
Proof.
  cbv zeta. split; [|split; [done|split; [done|]]].
  - unfold PensumService.update_course_statuses. cbn [Pensum.materias].
    fold (codes_with PASSED p). fold (codes_with ENROLLED p).
    apply Forall2_fmap_r, Forall_Forall2_diag, Forall_forall. intros m _.
    destruct m as [code name credits semester pre co color st].
    unfold PensumService.set_status. cbn [Materia.status].
    destruct st; cbn;
      destruct (Materia.is_available _ _ _); cbn; done.
  - unfold PensumService.update_course_statuses at 1.
    fold (codes_with PASSED (PensumService.update_course_statuses p)).
    fold (codes_with ENROLLED (PensumService.update_course_statuses p)).
    rewrite !update_keeps_codes_with by auto.
    unfold PensumService.update_course_statuses.
    fold (codes_with PASSED p). fold (codes_with ENROLLED p).
    cbn [Pensum.materias Pensum.name Pensum.total_credits]. f_equal.
    rewrite <- list_fmap_compose. apply list_fmap_ext. intros i m _.
    apply (update_one_idemp (codes_with PASSED p) (codes_with ENROLLED p) m).
Qed.

Lemma update_one_status (passed enrolled : gset string) m :
  Materia.is_available (update_one passed enrolled m) passed enrolled
  = Materia.is_available m passed enrolled ∧
  (Materia.status (update_one passed enrolled m) = PENDING →
   Materia.is_available m passed enrolled = true) ∧
  (Materia.status (update_one passed enrolled m) = MBLOCKED →
   Materia.is_available m passed enrolled = false).
Proof.
  destruct m as [code name credits semester pre co color st].
  unfold PensumService.set_status, Materia.is_available.
  rewrite !status_in_open, !status_is_blocked.
  cbn [Materia.status Materia.code Materia.name
    Materia.credits Materia.semester Materia.prerequisites Materia.corequisites Materia.color].
  destruct (forallb _ pre && forallb _ co) eqn:E; destruct st;
    cbn [Materia.status Materia.code Materia.name Materia.credits Materia.semester
         Materia.prerequisites Materia.corequisites Materia.color];
    rewrite ?E; done.
Qed.

(** X23.  After [update_course_statuses], the statuses agree with
    [is_available] on the catalog's own passed and enrolled courses: a
    PENDING course is available and a BLOCKED one is not, so
    [get_available_courses] with these two sets returns every PENDING
    course up to the semester. *)
Theorem X23_available_after_update p semester :
  let q := PensumService.update_course_statuses p in
  let passed := codes_with PASSED q in
  let enrolled := codes_with ENROLLED q in
  (∀ m, m ∈ Pensum.materias q →
     (Materia.status m = PENDING → Materia.is_available m passed enrolled = true) ∧
     (Materia.status m = MBLOCKED → Materia.is_available m passed enrolled = false)) ∧
  PensumService.get_available_courses semester q (Some passed) (Some enrolled)
  = filter (λ m, (Materia.semester m ≤ semester)%Z ∧ Materia.status m = PENDING)
           (Pensum.materias q).
Proof.
  cbv zeta. rewrite !update_keeps_codes_with by auto.
  assert (Hall : ∀ m, m ∈ Pensum.materias (PensumService.update_course_statuses p) →
    (Materia.status m = PENDING →
     Materia.is_available m (codes_with PASSED p) (codes_with ENROLLED p) = true) ∧
    (Materia.status m = MBLOCKED →
     Materia.is_available m (codes_with PASSED p) (codes_with ENROLLED p) = false)).
  { intros m' Hm'. unfold PensumService.update_course_statuses in Hm'.
    cbn [Pensum.materias] in Hm'. apply list_elem_of_fmap in Hm' as (m & -> & _).
    fold (codes_with PASSED p). fold (codes_with ENROLLED p).
    destruct (update_one_status (codes_with PASSED p) (codes_with ENROLLED p) m)
      as (Hav & Hp & Hb).
    split; intros Hst; (etrans; [exact Hav|]); auto. }
  split; [exact Hall|].
  unfold PensumService.get_available_courses. cbn [default].
  apply filter_equiv. intros m Hm. destruct (Hall m Hm) as [Hp _]. split.
  - intros (? & ? & _). done.
  - intros [? Hst]. split; [done|]. split; [done|]. by apply Hp.
Qed.

Lemma X23_witness :
  Materia.is_available (PensumService.set_status StatusSamples.calc2 PENDING)
    (codes_with PASSED (PensumService.update_course_statuses StatusSamples.plan))
    (codes_with ENROLLED (PensumService.update_course_statuses StatusSamples.plan)) = true.
Proof.
  apply (proj1 (X23_available_after_update StatusSamples.plan 3)); [|reflexivity].
  assert (Hq : Pensum.materias (PensumService.update_course_statuses StatusSamples.plan)
    = [StatusSamples.calc1; PensumService.set_status StatusSamples.calc2 PENDING;
       PensumService.set_status StatusSamples.phys1 MBLOCKED;
       PensumService.set_status StatusSamples.calc3 MBLOCKED]) by (vm_compute; reflexivity).
  rewrite Hq. right. left.
Defined.

(** ** [create_materia] *)

Lemma sum_credits_app l1 l2 :
  Pensum.sum_credits (l1 ++ l2) = (Pensum.sum_credits l1 + Pensum.sum_credits l2)%Z.
Proof.
  unfold Pensum.sum_credits. induction l1 as [|m l1 IH]; [done|].
  cbn [app foldr]. rewrite IH. lia.
Qed.

Lemma first_missing_None p codes :
  PensumService.first_missing p codes = None ↔
  ∀ c, c ∈ codes → is_Some (Pensum.get_materia p c).
Proof.
  unfold PensumService.first_missing. split.
  - intros Hnone c Hc. eapply find_none in Hnone; [|by apply list_elem_of_In].
    apply negb_false_iff, bool_decide_eq_true in Hnone. exact Hnone.
  - intros Hall. destruct (List.find _ codes) as [c|] eqn:Hfind; [|done].
    apply find_some in Hfind as [Hin Hc]. apply list_elem_of_In, Hall in Hin.
    apply negb_true_iff, bool_decide_eq_false in Hc. done.
Qed.

Lemma first_missing_Some p codes c :
  PensumService.first_missing p codes = Some c →
  c ∈ codes ∧ Pensum.get_materia p c = None.
Proof.
  unfold PensumService.first_missing. intros [Hin Hc]%find_some.
  split; [by apply list_elem_of_In|].
  apply negb_true_iff, bool_decide_eq_false in Hc.
  destruct (Pensum.get_materia p c); [|done]. by destruct Hc.
Qed.

(** The outcomes of [create_materia]. *)
Lemma create_materia_cases data p r p' :
  PensumService.create_materia data p = (r, p') →
  (p' = p ∧ ∀ m, r ≠ PensumService.CreateSuccess m) ∨
  (∃ m, r = PensumService.CreateSuccess m ∧ Materia.new data = Some m ∧
        Pensum.get_materia p (default "" (Materia.d_code data)) = None ∧
        (∀ c, c ∈ Materia.prerequisites m ++ Materia.corequisites m →
              is_Some (Pensum.get_materia p c)) ∧
        p' = Pensum.mk (Pensum.materias p ++ [m]) (Pensum.name p)
                       (Pensum.sum_credits (Pensum.materias p ++ [m]))).
Proof.
  unfold PensumService.create_materia.
  destruct (Pensum.get_materia p _) eqn:Hdup.
  { destruct (Materia.d_code data); intros [= <- <-]; by left. }
  destruct (Materia.new data) as [m|] eqn:Hnew; [|intros [= <- <-]; by left].
  destruct (PensumService.first_missing p (Materia.prerequisites m)) eqn:Hpre;
    [intros [= <- <-]; by left|].
  destruct (PensumService.first_missing p (Materia.corequisites m)) eqn:Hco;
    [intros [= <- <-]; by left|].
  intros [= <- <-]. right. exists m. repeat split; try done.
  intros c [Hc|Hc]%elem_of_app.
  - by eapply first_missing_None in Hpre.
  - by eapply first_missing_None in Hco.
Qed.

Lemma get_materia_app_l p code m l :
  Pensum.get_materia p code = Some m →
  Pensum.get_materia (Pensum.mk (Pensum.materias p ++ l) (Pensum.name p)
                                (Pensum.sum_credits (Pensum.materias p ++ l))) code = Some m.
Proof.
  unfold Pensum.get_materia. cbn [Pensum.materias].
  generalize (Pensum.materias p). intros ms. induction ms as [|x ms IH]; [done|].
  cbn [List.find app]. destruct (bool_decide _); [done|]. exact IH.
Qed.

(** ** Normalised codes *)

Lemma upper_list s :
  list_ascii_of_string (Py.upper s) = Py.upper_char <$> list_ascii_of_string s.
Proof. induction s as [|c s IH]; [done|]. cbn. by rewrite IH. Qed.

Lemma upper_of_list l :
  Py.upper (string_of_list_ascii l) = string_of_list_ascii (Py.upper_char <$> l).
Proof. induction l as [|c l IH]; [done|]. cbn. by rewrite IH. Qed.


Lemma is_space_upper c : Py.is_space (Py.upper_char c) = Py.is_space c.
Proof. destruct c as [[] [] [] [] [] [] [] []]; reflexivity. Qed.

Lemma lstrip_upper l : Py.lstrip (Py.upper_char <$> l) = Py.upper_char <$> Py.lstrip l.
Proof.
  induction l as [|c l IH]; [done|]. rewrite fmap_cons. cbn [Py.lstrip].
  rewrite is_space_upper. destruct (Py.is_space c); [exact IH|by rewrite fmap_cons].
Qed.

Lemma strip_upper l : Py.strip (Py.upper_char <$> l) = Py.upper_char <$> Py.strip l.
Proof. unfold Py.strip. by rewrite lstrip_upper, <- fmap_reverse, lstrip_upper, fmap_reverse. Qed.

Lemma strip_str_upper s : Py.strip_str (Py.upper s) = Py.upper (Py.strip_str s).
Proof. unfold Py.strip_str. by rewrite upper_list, strip_upper, upper_of_list. Qed.

Lemma length_lstrip l : (length (Py.lstrip l) ≤ length l)%nat.
Proof.
  induction l as [|c l IH]; [done|]. cbn [Py.lstrip].
  destruct (Py.is_space c); cbn [length]; lia.
Qed.

Lemma lstrip_idemp l : Py.lstrip (Py.lstrip l) = Py.lstrip l.
Proof.
  induction l as [|c l IH]; [done|]. cbn [Py.lstrip].
  destruct (Py.is_space c) eqn:E; [exact IH|]. cbn [Py.lstrip]. by rewrite E.
Qed.

Lemma lstrip_suffix l : ∃ sp, l = sp ++ Py.lstrip l.
Proof.
  induction l as [|c l [sp IH]]; [by exists []|]. cbn [Py.lstrip].
  destruct (Py.is_space c); [|by exists []]. exists (c :: sp). cbn [app]. by f_equal.
Qed.

Lemma lstrip_fixed_app l k : Py.lstrip l = l → l ≠ [] → Py.lstrip (l ++ k) = l ++ k.
Proof.
  destruct l as [|c l]; [done|]. intros Hl _. cbn [Py.lstrip app] in *.
  destruct (Py.is_space c); [|done].
  pose proof (length_lstrip l) as Hlen. rewrite Hl in Hlen. cbn [length] in Hlen. lia.
Qed.

Lemma lstrip_fixed_prefix l k : Py.lstrip (l ++ k) = l ++ k → Py.lstrip l = l.
Proof.
  destruct l as [|c l]; [done|]. cbn [Py.lstrip app].
  destruct (Py.is_space c); [|done]. intros Hl.
  pose proof (length_lstrip (l ++ k)) as Hlen. rewrite Hl in Hlen. cbn [length] in Hlen. lia.
Qed.

Lemma strip_fixed l :
  Py.lstrip (Py.strip l) = Py.strip l ∧ Py.lstrip (reverse (Py.strip l)) = reverse (Py.strip l).
Proof.
  unfold Py.strip. rewrite reverse_involutive, lstrip_idemp. split; [|done].
  destruct (lstrip_suffix (reverse (Py.lstrip l))) as [sp Hsp].
  apply (lstrip_fixed_prefix _ (reverse sp)).
  assert (Ha : reverse (Py.lstrip (reverse (Py.lstrip l))) ++ reverse sp = Py.lstrip l).
  { rewrite <- reverse_app, <- Hsp. apply reverse_involutive. }
  rewrite Ha. apply lstrip_idemp.
Qed.

Lemma strip_idemp l : Py.strip (Py.strip l) = Py.strip l.
Proof.
  destruct (strip_fixed l) as [H1 H2]. unfold Py.strip at 1.
  by rewrite H1, H2, reverse_involutive.
Qed.

Lemma strip_str_idemp s : Py.strip_str (Py.strip_str s) = Py.strip_str s.
Proof.
  unfold Py.strip_str. by rewrite list_ascii_of_string_of_list_ascii, strip_idemp.
Qed.




Lemma normal_code_normalise s : normal_code (Py.strip_str (Py.upper s)).
Proof.
  split.
  - by rewrite strip_str_upper, upper_idemp.
  - apply strip_str_idemp.
Qed.




(** ** The constructor of [Materia] *)



Lemma new_inv d m :
  Materia.new d = Some m →
  ∃ code name credits semester status,
    Materia.d_code d = Some code ∧ Materia.d_name d = Some name ∧
    Materia.d_credits d = Some credits ∧ Materia.d_semester d = Some semester ∧
    from_option MateriaStatus_of_value (Some PENDING) (Materia.d_status d) = Some status ∧
    (1 ≤ String.length code ≤ 20)%nat ∧ (1 ≤ String.length name ≤ 100)%nat ∧
    (1 ≤ credits ≤ 10)%Z ∧ (1 ≤ semester ≤ 15)%Z ∧
    from_option Materia.color_pattern true (Materia.d_color d) = true ∧
    m = Materia.mk (Py.strip_str (Py.upper code)) name credits semester
          ((λ code, Py.strip_str (Py.upper code)) <$> default [] (Materia.d_prerequisites d))
          ((λ code, Py.strip_str (Py.upper code)) <$> default [] (Materia.d_corequisites d))
          (Materia.d_color d) status.
Proof.
  unfold Materia.new. intros H.
  destruct (Materia.d_code d) as [code|]; [|done].
  destruct (Materia.d_name d) as [name|]; [|done].
  destruct (Materia.d_credits d) as [credits|]; [|done].
  destruct (Materia.d_semester d) as [semester|]; [|done].
  cbn [mbind option_bind] in H.
  destruct (from_option MateriaStatus_of_value _ _) as [status|]; [|done].
  cbn [mbind option_bind] in H.
  destruct (_ && _) eqn:Hb in H; [|done].
  injection H as <-.
  repeat (apply andb_true_iff in Hb as [Hb ?]).
  exists code, name, credits, semester, status.
  repeat match goal with
         | H : (_ <=? _)%nat = true |- _ => apply Nat.leb_le in H
         | H : (_ <=? _)%Z = true |- _ => apply Z.leb_le in H
         end.
  repeat split; try done; lia.
Qed.



(** The constructor accepts a code of whitespace and stores the empty
    code. *)
Example blank_code_accepted :
  Materia.code <$> Materia.new MateriaSamples.blank = Some "".
Proof. reflexivity. Qed.

(** ** [create_materia], continued *)


Lemma get_materia_app_new p code m :
  Pensum.get_materia p code = None → Materia.code m = Py.upper code →
  Pensum.get_materia (Pensum.mk (Pensum.materias p ++ [m]) (Pensum.name p)
                                (Pensum.sum_credits (Pensum.materias p ++ [m]))) code
  = Some m.
Proof.
  unfold Pensum.get_materia. cbn [Pensum.materias].
  generalize (Pensum.materias p). intros ms. induction ms as [|x ms IH]; intros Hnone Hc.
  - cbn [List.find app]. by rewrite bool_decide_eq_true_2.
  - cbn [List.find app] in *. destruct (bool_decide _); [done|]. by apply IH.
Qed.

(** X25.  [create_materia] leaves the catalog as it is unless it reports
    success.  On success the constructed course is appended, the name is
    kept, [total_credits] is the sum over the new catalog, every lookup
    that succeeded before gives the same course, the new code can be
    looked up, and a catalog in which every required code resolves stays
    so. *)
Theorem X25_create_materia data p r p' :
  PensumService.create_materia data p = (r, p') →
  match r with
  | PensumService.CreateSuccess m =>
      Materia.new data = Some m ∧
      Pensum.materias p' = Pensum.materias p ++ [m] ∧
      Pensum.name p' = Pensum.name p ∧
      Pensum.total_credits p'
      = (Pensum.sum_credits (Pensum.materias p) + Materia.credits m)%Z ∧
      (∀ code o, Pensum.get_materia p code = Some o → Pensum.get_materia p' code = Some o) ∧
      is_Some (Pensum.get_materia p' (Materia.code m)) ∧
      (resolved p → resolved p')
  | _ => p' = p
  end.
Proof.
  intros [[-> Hr]|(m & -> & Hnew & Hdup & Hrefs & ->)]%create_materia_cases.
  { destruct r as [| |m]; try done. by destruct (Hr m). }
  cbn [Pensum.materias Pensum.name Pensum.total_credits].
  split; [done|]. split; [done|]. split; [done|]. split.
  { rewrite sum_credits_app. unfold Pensum.sum_credits. cbn [foldr]. lia. }
  assert (Hkeep : ∀ code o, Pensum.get_materia p code = Some o →
    Pensum.get_materia (Pensum.mk (Pensum.materias p ++ [m]) (Pensum.name p)
                          (Pensum.sum_credits (Pensum.materias p ++ [m]))) code = Some o).
  { intros code o. apply get_materia_app_l. }
  split; [exact Hkeep|]. split.
  - destruct (Pensum.get_materia p (Materia.code m)) as [o|] eqn:Hget.
    + rewrite (Hkeep _ _ Hget). by eexists.
    + rewrite (get_materia_app_new p _ m Hget); [by eexists|].
      apply new_inv in Hnew as (code & ? & ? & ? & ? & _ & _ & _ & _ & _ & _ & _ & _ & _ & _ & ->).
      cbn [Materia.code]. symmetry. apply normal_code_normalise.
  - intros Hres o c Ho Hc. cbn [Pensum.materias] in Ho.
    assert (Hp : is_Some (Pensum.get_materia p c)).
    { apply elem_of_app in Ho as [Ho|Ho%list_elem_of_singleton].
      - by apply (Hres o c).
      - subst o. by apply Hrefs. }
    destruct Hp as [o' Ho']. rewrite (Hkeep _ _ Ho'). by eexists.
Qed.

Lemma create_calc2 :
  PensumService.create_materia CreateSamples.calc2 CreateSamples.one
  = (PensumService.CreateSuccess CreateSamples.calc2_course, CreateSamples.two).
Proof. reflexivity. Qed.

Lemma X25_witness : Pensum.materias CreateSamples.two
  = Pensum.materias CreateSamples.one ++ [CreateSamples.calc2_course].
Proof.
  exact (proj1 (proj2 (X25_create_materia CreateSamples.calc2 CreateSamples.one _ _
                         create_calc2))).
Defined.

(** The duplicate test looks up the code as it is given, the constructor
    then removes the whitespace around it: a padded code passes the test
    and a second course with the code CALC1 is stored. *)
Example padded_code_duplicates :
  Materia.code <$> Pensum.materias
    (PensumService.create_materia CreateSamples.padded CreateSamples.one).2
  = ["CALC1"; "CALC1"].
Proof. reflexivity. Qed.



(** ** Credits per semester *)

Lemma get_semester_credits_app semester ms l name tc name' tc' :
  PensumService.get_semester_credits semester (Pensum.mk (ms ++ l) name tc)
  = (PensumService.get_semester_credits semester (Pensum.mk ms name' tc')
     + Pensum.sum_credits (filter (λ m, Materia.semester m = semester) l))%Z.
Proof.
  unfold PensumService.get_semester_credits. cbn [Pensum.materias].
  by rewrite filter_app, sum_credits_app.
Qed.

(** X24.  [can_add_to_semester] allows an addition exactly when it
    reports no excess, and otherwise the excess is the amount above the
    maximum (21 by default).  For a course that [create_materia] stores,
    the check run beforehand on its credits and semester predicts the
    credits of that semester afterwards; the other semesters keep
    theirs. *)
Theorem X24_semester_credits data p m p' max_credits :
  PensumService.create_materia data p = (PensumService.CreateSuccess m, p') →
  let check :=
    PensumService.can_add_to_semester (Materia.credits m) (Materia.semester m) p max_credits in
  PensumService.current_credits check
  = PensumService.get_semester_credits (Materia.semester m) p ∧
  PensumService.new_total check
  = PensumService.get_semester_credits (Materia.semester m) p' ∧
  (PensumService.current_credits check < PensumService.new_total check)%Z ∧
  (PensumService.allowed check = true ↔ PensumService.excess check = 0%Z) ∧
  (PensumService.allowed check = false →
   PensumService.excess check
   = (PensumService.new_total check - default 21 max_credits)%Z) ∧
  (∀ semester, semester ≠ Materia.semester m →
     PensumService.get_semester_credits semester p'
     = PensumService.get_semester_credits semester p).
Proof.
  intros [[_ Hr]|(m' & [= <-] & Hnew & _ & _ & ->)]%create_materia_cases.
  { by destruct (Hr m). }
  cbv zeta. unfold PensumService.can_add_to_semester.
  cbn [PensumService.current_credits PensumService.new_total PensumService.allowed
       PensumService.excess].
  assert (Hcr : (1 ≤ Materia.credits m)%Z).
  { apply new_inv in Hnew as (? & ? & ? & ? & ? & _ & _ & _ & _ & _ & _ & _ & ? & _ & _ & ->).
    cbn [Materia.credits]. lia. }
  assert (Hadd : ∀ semester,
    PensumService.get_semester_credits semester
      (Pensum.mk (Pensum.materias p ++ [m]) (Pensum.name p)
                 (Pensum.sum_credits (Pensum.materias p ++ [m])))
    = (PensumService.get_semester_credits semester p
       + if decide (Materia.semester m = semester) then Materia.credits m else 0)%Z).
  { intros semester.
    rewrite (get_semester_credits_app _ _ _ _ _ (Pensum.name p) (Pensum.total_credits p)).
    rewrite filter_cons, filter_nil. destruct p as [ms name tc]. cbn [Pensum.materias Pensum.name
      Pensum.total_credits]. f_equal.
    destruct (decide _); unfold Pensum.sum_credits; cbn [foldr]; lia. }
  split; [done|]. split.
  { rewrite Hadd, decide_True by done. done. }
  split; [lia|]. split.
  { rewrite bool_decide_eq_true. lia. }
  split.
  { rewrite bool_decide_eq_false. lia. }
  intros semester Hs. rewrite Hadd, decide_False by done. lia.
Qed.

Lemma X24_witness :
  PensumService.new_total
    (PensumService.can_add_to_semester 4 2 CreateSamples.one None)
  = PensumService.get_semester_credits 2 CreateSamples.two.
Proof.
  exact (proj1 (proj2 (X24_semester_credits CreateSamples.calc2 CreateSamples.one
                         CreateSamples.calc2_course CreateSamples.two None create_calc2))).
Defined.

(** ** [get_max_semester] and [get_semester_materias] *)

Lemma foldl_max_spec (l : list Materia.t) (a : Z) :
  let r := foldl (λ acc m', Z.max acc (Materia.semester m')) a l in
  (a ≤ r)%Z ∧ (∀ m, m ∈ l → (Materia.semester m ≤ r)%Z) ∧
  (r = a ∨ ∃ m, m ∈ l ∧ Materia.semester m = r).
Proof.
  revert a. induction l as [|x l IH]; intros a; cbn [foldl].
  - split; [lia|]. split; [|by left]. intros m Hm. by apply elem_of_nil in Hm.
  - destruct (IH (Z.max a (Materia.semester x))) as (Hle & Hub & Hatt).
    cbv zeta in *. split; [lia|]. split.
    + intros m [->|Hm]%elem_of_cons; [lia|by apply Hub].
    + destruct Hatt as [Heq|(m & Hm & Heq)].
      * destruct (Z.max_spec a (Materia.semester x)) as [[_ Hmax]|[_ Hmax]].
        -- right. exists x. split; [left|]. lia.
        -- left. lia.
      * right. exists m. split; [by right|done].
Qed.

(** X28.  [get_max_semester] is 0 for an empty catalog; otherwise it is
    the semester of some course and no course has a later one.
    [get_semester_materias] returns the courses of the semester in the
    order of the catalog, so it is empty beyond the maximum, and the
    credits [get_semester_credits] reports are those of the courses it
    returns. *)
Theorem X28_semesters p :
  (Pensum.materias p = [] → Pensum.get_max_semester p = 0%Z) ∧
  (Pensum.materias p ≠ [] →
   ∃ m, m ∈ Pensum.materias p ∧ Materia.semester m = Pensum.get_max_semester p) ∧
  (∀ m, m ∈ Pensum.materias p → (Materia.semester m ≤ Pensum.get_max_semester p)%Z) ∧
  (∀ semester m, m ∈ Pensum.get_semester_materias p semester ↔
     m ∈ Pensum.materias p ∧ Materia.semester m = semester) ∧
  (∀ semester, sublist (Pensum.get_semester_materias p semester) (Pensum.materias p)) ∧
  (∀ semester, (Pensum.get_max_semester p < semester)%Z →
     Pensum.get_semester_materias p semester = [] ∧
     PensumService.get_semester_credits semester p = 0%Z) ∧
  (∀ semester, PensumService.get_semester_credits semester p
     = Pensum.sum_credits (Pensum.get_semester_materias p semester)).
Proof.
  assert (Hub : ∀ m, m ∈ Pensum.materias p →
            (Materia.semester m ≤ Pensum.get_max_semester p)%Z).
  { unfold Pensum.get_max_semester. destruct (Pensum.materias p) as [|x l].
    - intros m Hm. by apply elem_of_nil in Hm.
    - destruct (foldl_max_spec l (Materia.semester x)) as (Hle & Hub & _). cbv zeta in *.
      intros m [->|Hm]%elem_of_cons; [done|by apply Hub]. }
  assert (Hempty : ∀ semester, (Pensum.get_max_semester p < semester)%Z →
            Pensum.get_semester_materias p semester = []).
  { intros semester Hlt. unfold Pensum.get_semester_materias.
    destruct (filter _ _) as [|y l] eqn:E; [done|].
    assert (Hy : y ∈ y :: l) by left. rewrite <- E in Hy.
    apply list_elem_of_filter in Hy as [Heq Hy]. apply Hub in Hy. lia. }
  split; [|split; [|split; [exact Hub|split; [|split; [|split]]]]].
  - unfold Pensum.get_max_semester. by intros ->.
  - unfold Pensum.get_max_semester. destruct (Pensum.materias p) as [|x l]; [done|].
    intros _. destruct (foldl_max_spec l (Materia.semester x)) as (_ & _ & [Heq|(m & Hm & Heq)]);
      cbv zeta in *.
    + exists x. split; [left|done].
    + exists m. split; [by right|done].
  - intros semester m. unfold Pensum.get_semester_materias.
    rewrite list_elem_of_filter. tauto.
  - intros semester. apply sublist_filter.
  - intros semester Hlt. unfold PensumService.get_semester_credits.
    fold (Pensum.get_semester_materias p semester). by rewrite (Hempty semester Hlt).
  - done.
Qed.

Lemma X28_witness :
  Pensum.get_semester_materias CreateSamples.two 3 = [] ∧
  PensumService.get_semester_credits 3 CreateSamples.two = 0%Z.
Proof.
  apply (proj1 (proj2 (proj2 (proj2 (proj2 (proj2 (X28_semesters CreateSamples.two)))))) 3%Z).
  vm_compute. reflexivity.
Defined.

(** ** [validate_pensum_structure] *)

(** [detect_circular_dependencies] finds a non-empty witness exactly when
    the requirement graph has a cycle. *)
Lemma detect_iff_cyclic set_iter p :
  set_order set_iter →
  (cyclic p → ∃ w0 ws, PensumService.detect_circular_dependencies set_iter p
                        = Some (w0 :: ws)) ∧
  (¬ cyclic p → PensumService.detect_circular_dependencies set_iter p = None).
Proof.
  intros Horder.
  destruct (detect_cases set_iter Horder p) as (P & Hinv & Hq & Hcases).
  set (E := edges (codes p) (Pensum.materias p)) in *.
  assert (Hcyc_un : ∀ c, tc (requires p) c c → c ∈ codes p ∧ c ∉ P).
  { intros c Hc. pose proof (tc_requires_target p c c Hc) as Hcc. split; [done|].
    intros HcP. eapply processed_acyclic; [exact Hinv|exact HcP|].
    by apply tc_requires_edge. }
  assert (Hun_down : ∀ v, v ∈ codes p → v ∉ P → downstream_of_cycle p v).
  { intros v Hvc HvP.
    destruct (reachable_from_cycle (edge E) (λ v, v ∈ codes p ∧ v ∉ P) (codes p) v)
      as (c & Hc & Hcv); [by intros ? [? _]| |done|].
    - intros x [Hxc HxP].
      destruct Hinv as (Hdeg & _ & _ & Hzero & _).
      destruct (pending_pos E P x) as (u & Hux & Hu).
      { rewrite <- Hdeg.
        assert (deg (PensumService.k_in_degree (PensumService.kahn_final set_iter p)) x
                ≠ 0%Z).
        { intros Hz. apply HxP. apply (Hzero x Hxc) in Hz.
          by rewrite Hq, app_nil_r in Hz. }
        rewrite Hdeg in *. unfold pending in *. lia. }
      exists u. split; [|done]. split; [|done]. by apply edges_in_codes in Hux as [? _].
    - exists c. split.
      + by apply tc_edge_requires.
      + eapply rtc_subrel; [|exact Hcv]. apply edge_requires. }
  split.
  - intros [c Hc]. destruct (Hcyc_un c Hc) as [Hcc HcP].
    destruct Hcases as [[_ Hall]|(w & Hw & Hne & _)].
    { by destruct HcP; apply Hall. }
    destruct w as [|w0 ws]; [done|]. by exists w0, ws.
  - intros Hacyc.
    destruct Hcases as [[Hnone _]|(w & Hw & Hne & _ & _ & Hmem & _)]; [done|].
    destruct w as [|w0 ws]; [done|].
    destruct (Hmem w0) as (Hc & HP & _); [left|].
    destruct (Hun_down w0 Hc HP) as (c & Hcyc & _).
    destruct Hacyc. by exists c.
Qed.

Lemma flat_map_nil {A B} (f : A → list B) (l : list A) :
  flat_map f l = [] ↔ ∀ x, x ∈ l → f x = [].
Proof.
  induction l as [|x l IH]; cbn [flat_map].
  - split; [|done]. intros _ y Hy. by apply elem_of_nil in Hy.
  - split.
    + intros [Hx Hl]%app_eq_nil y [->|Hy]%elem_of_cons; [done|]. by apply IH.
    + intros Hall. rewrite (Hall x) by left. apply IH. intros y Hy. apply Hall. by right.
Qed.

Lemma materia_errors_nil p m :
  PensumService.materia_errors p (codes p) m = [] ↔
  (∀ c, c ∈ Materia.prerequisites m ++ Materia.corequisites m → c ∈ codes p) ∧
  (∀ c o, c ∈ Materia.prerequisites m → Pensum.get_materia p c = Some o →
          (Materia.semester o < Materia.semester m)%Z).
Proof.
  unfold PensumService.materia_errors. split.
  - intros [H1 [H2 H3]%app_eq_nil]%app_eq_nil.
    rewrite flat_map_nil in H1, H2, H3. split.
    + intros c [Hc|Hc]%elem_of_app.
      * specialize (H1 c Hc). by destruct (decide (c ∉ codes p)) as [|?%dec_stable].
      * specialize (H2 c Hc). by destruct (decide (c ∉ codes p)) as [|?%dec_stable].
    + intros c o Hc Hget. specialize (H3 c Hc). cbv beta in H3. rewrite Hget in H3.
      destruct (Materia.semester m <=? Materia.semester o)%Z eqn:E; [done|].
      apply Z.leb_gt in E. lia.
  - intros [Hin Hsem].
    rewrite (proj2 (flat_map_nil _ (Materia.prerequisites m))), app_nil_l.
    rewrite (proj2 (flat_map_nil _ (Materia.corequisites m))), app_nil_l.
    + apply flat_map_nil. intros c Hc.
      destruct (Pensum.get_materia p c) as [o|] eqn:Hget; [|done].
      specialize (Hsem c o Hc Hget).
      destruct (Materia.semester m <=? Materia.semester o)%Z eqn:E; [|done].
      apply Z.leb_le in E. lia.
    + intros c Hc. rewrite decide_False; [done|].
      intros Hn. apply Hn, Hin, elem_of_app. by right.
    + intros c Hc. rewrite decide_False; [done|].
      intros Hn. apply Hn, Hin, elem_of_app. by left.
Qed.

Lemma validate_spec set_iter p :
  set_order set_iter →
  PensumService.valid (PensumService.validate_pensum_structure set_iter p) = true ↔
  (∀ m c, m ∈ Pensum.materias p →
          c ∈ Materia.prerequisites m ++ Materia.corequisites m → c ∈ codes p) ∧
  (∀ m c o, m ∈ Pensum.materias p → c ∈ Materia.prerequisites m →
            Pensum.get_materia p c = Some o →
            (Materia.semester o < Materia.semester m)%Z) ∧
  ¬ cyclic p.
Proof.
  intros Horder. destruct (detect_iff_cyclic set_iter p Horder) as [Hcyc Hacyc].
  unfold PensumService.validate_pensum_structure. fold (codes p).
  cbn [PensumService.valid]. rewrite bool_decide_eq_true.
  assert (Hflat : flat_map (PensumService.materia_errors p (codes p)) (Pensum.materias p) = []
    ↔ (∀ m c, m ∈ Pensum.materias p →
          c ∈ Materia.prerequisites m ++ Materia.corequisites m → c ∈ codes p) ∧
      (∀ m c o, m ∈ Pensum.materias p → c ∈ Materia.prerequisites m →
            Pensum.get_materia p c = Some o →
            (Materia.semester o < Materia.semester m)%Z)).
  { rewrite flat_map_nil. split.
    - intros Hall. split.
      + intros m c Hm. by apply (materia_errors_nil p m), Hall.
      + intros m c o Hm. by apply (materia_errors_nil p m), Hall.
    - intros [H1 H2] m Hm. apply materia_errors_nil. split.
      + intros c. by apply H1.
      + intros c o. by apply H2. }
  destruct (PensumService.detect_circular_dependencies set_iter p) as [[|w0 ws]|] eqn:Hd.
  - rewrite length_zero_iff_nil, Hflat.
    assert (¬ cyclic p) by (by intros (? & ? & ?)%Hcyc). tauto.
  - split.
    + rewrite length_app. cbn [length]. lia.
    + intros (_ & _ & Hn). by apply Hacyc in Hn.
  - rewrite length_zero_iff_nil, Hflat.
    assert (¬ cyclic p) by (by intros (? & ? & ?)%Hcyc). tauto.
Qed.

(** X30.  Given any iteration order of the set of codes,
    [validate_pensum_structure] reports a valid catalog exactly when it
    lists no error, which is when every required code is the code of a
    course, every prerequisite that [get_materia] finds lies in a strictly
    earlier semester than the course requiring it, and the requirement
    graph (prerequisites and corequisites) has no cycle. *)
Theorem X30_validate_pensum_structure set_iter p :
  set_order set_iter →
  (PensumService.valid (PensumService.validate_pensum_structure set_iter p) = true ↔
   PensumService.errors (PensumService.validate_pensum_structure set_iter p) = []) ∧
  (PensumService.valid (PensumService.validate_pensum_structure set_iter p) = true ↔
   (∀ m c, m ∈ Pensum.materias p →
           c ∈ Materia.prerequisites m ++ Materia.corequisites m → c ∈ codes p) ∧
   (∀ m c o, m ∈ Pensum.materias p → c ∈ Materia.prerequisites m →
             Pensum.get_materia p c = Some o →
             (Materia.semester o < Materia.semester m)%Z) ∧
   ¬ cyclic p).
Proof.
  intros Horder. split; [|by apply validate_spec].
  unfold PensumService.validate_pensum_structure.
  cbn [PensumService.valid PensumService.errors].
  by rewrite bool_decide_eq_true, length_zero_iff_nil.
Qed.

Lemma X30_witness :
  PensumService.valid (PensumService.validate_pensum_structure elements CreateSamples.two)
  = true ↔
  PensumService.errors (PensumService.validate_pensum_structure elements CreateSamples.two)
  = [].
Proof. exact (proj1 (X30_validate_pensum_structure elements CreateSamples.two
                       elements_set_order)). Defined.

(** ** [can_move_to_semester] and [update_materia] *)

Lemma can_move_spec m target p :
  PensumService.can_move (PensumService.can_move_to_semester m target p) = true ↔
  (∀ c x, c ∈ Materia.prerequisites m → Pensum.get_materia p c = Some x →
          (Materia.semester x < target)%Z) ∧
  (∀ o, o ∈ Pensum.materias p → Materia.code m ∈ Materia.prerequisites o →
        (target < Materia.semester o)%Z) ∧
  (∀ o, o ∈ Pensum.materias p → Materia.code m ∈ Materia.corequisites o →
        (target ≤ Materia.semester o)%Z).
Proof.
  unfold PensumService.can_move_to_semester. cbn [PensumService.can_move].
  rewrite bool_decide_eq_true, length_zero_iff_nil. split.
  - intros [H1' H2']%app_eq_nil.
    pose proof (proj1 (flat_map_nil _ _) H1') as H1.
    pose proof (proj1 (flat_map_nil _ _) H2') as H2. clear H1' H2'.
    split; [|split].
    + intros c x Hc Hget. specialize (H1 c Hc). cbv beta in H1. rewrite Hget in H1.
      destruct (target <=? Materia.semester x)%Z eqn:E; [done|]. apply Z.leb_gt in E. lia.
    + intros o Ho Hin. specialize (H2 o Ho). cbv beta in H2.
      apply app_eq_nil in H2 as [H2 _].
      rewrite bool_decide_eq_true_2 in H2 by done.
      destruct (Materia.semester o <=? target)%Z eqn:E; [done|]. apply Z.leb_gt in E. lia.
    + intros o Ho Hin. specialize (H2 o Ho). cbv beta in H2.
      apply app_eq_nil in H2 as [_ H2].
      rewrite bool_decide_eq_true_2 in H2 by done.
      destruct (Materia.semester o <? target)%Z eqn:E; [done|]. apply Z.ltb_ge in E. lia.
  - intros (H1 & H2 & H3).
    rewrite (proj2 (flat_map_nil _ (Materia.prerequisites m))), app_nil_l.
    + apply flat_map_nil. intros o Ho.
      destruct (bool_decide (Materia.code m ∈ Materia.prerequisites o)) eqn:Ep;
        destruct (bool_decide (Materia.code m ∈ Materia.corequisites o)) eqn:Ec;
        cbn [andb app];
        try (apply bool_decide_eq_true in Ep; apply (H2 o Ho) in Ep;
             apply Z.leb_gt in Ep; rewrite Ep);
        try (apply bool_decide_eq_true in Ec; apply (H3 o Ho) in Ec;
             apply Z.ltb_ge in Ec; rewrite Ec);
        done.
    + intros c Hc. destruct (Pensum.get_materia p c) as [x|] eqn:Hget; [|done].
      specialize (H1 c x Hc Hget). apply Z.leb_gt in H1. by rewrite H1.
Qed.

Section UpdateFirst.
Variable k : string.
Variable f : Materia.t → Materia.t.
Hypothesis f_code : ∀ x, Materia.code (f x) = Materia.code x.

Lemma find_update_first k' ms :
  List.find (λ m, bool_decide (Materia.code m = k')) (PensumService.update_first k f ms)
  = if decide (k' = k)
    then f <$> List.find (λ m, bool_decide (Materia.code m = k)) ms
    else List.find (λ m, bool_decide (Materia.code m = k')) ms.
Proof.
  induction ms as [|x ms IH]; [by destruct (decide _)|].
  cbn [PensumService.update_first List.find].
  destruct (decide (Materia.code x = k)) as [Hx|Hx].
  - rewrite (bool_decide_eq_true_2 _ Hx). cbn [List.find]. rewrite f_code.
    destruct (decide (k' = k)) as [->|Hk].
    + by rewrite (bool_decide_eq_true_2 _ Hx).
    + rewrite bool_decide_eq_false_2 by congruence. done.
  - rewrite (bool_decide_eq_false_2 _ Hx). cbn [List.find]. rewrite IH.
    destruct (decide (k' = k)) as [->|Hk].
    + by rewrite (bool_decide_eq_false_2 _ Hx).
    + by destruct (bool_decide _).
Qed.

Lemma elem_of_update_first ms o :
  o ∈ PensumService.update_first k f ms →
  o ∈ ms ∨ ∃ m0, List.find (λ m, bool_decide (Materia.code m = k)) ms = Some m0 ∧ o = f m0.
Proof.
  induction ms as [|x ms IH]; cbn [PensumService.update_first List.find]; [by left|].
  destruct (bool_decide (Materia.code x = k)).
  - intros [->|Ho]%elem_of_cons; [right; by exists x|left; by right].
  - intros [->|Ho]%elem_of_cons; [left; by left|].
    destruct (IH Ho) as [?|?]; [left; by right|by right].
Qed.

Lemma update_first_Forall2 ms :
  Forall2 (λ a b, b = a ∨ b = f a) ms (PensumService.update_first k f ms).
Proof.
  induction ms as [|x ms IH]; cbn [PensumService.update_first]; [constructor|].
  destruct (bool_decide _).
  - constructor; [by right|]. apply Forall_Forall2_diag, Forall_forall. by left.
  - constructor; [by left|done].
Qed.

End UpdateFirst.

Lemma tc_impl {A} (R R' : relation A) x y :
  (∀ a b, R a b → R' a b) → tc R x y → tc R' x y.
Proof.
  intros Himp. induction 1 as [a b Hab|a b c Hab _ IH].
  - apply tc_once. by apply Himp.
  - eapply tc_l; [by apply Himp|done].
Qed.

(** The requirement graph reads the codes and the two requirement lists of
    the courses, nothing else. *)
Lemma requires_Forall2 p q u v :
  Forall2 (λ a b, Materia.code b = Materia.code a ∧
                  Materia.prerequisites b = Materia.prerequisites a ∧
                  Materia.corequisites b = Materia.corequisites a)
          (Pensum.materias p) (Pensum.materias q) →
  requires p u v → requires q u v.
Proof.
  unfold requires. generalize (Pensum.materias p) (Pensum.materias q).
  intros ms ms' HF (m & Hm & Hc & Hu). induction HF as [|a b l l' (H1 & H2 & H3) _ IH].
  - by apply elem_of_nil in Hm.
  - apply elem_of_cons in Hm as [->|Hm].
    + exists b. split; [left|]. split; [congruence|]. by rewrite H2, H3.
    + destruct (IH Hm) as (m' & ? & ? & ?). exists m'. split; [by right|done].
Qed.

Lemma move_keeps_valid set_iter code p m target name tc :
  set_order set_iter → normalized p →
  Pensum.get_materia p code = Some m →
  PensumService.valid (PensumService.validate_pensum_structure set_iter p) = true →
  PensumService.can_move (PensumService.can_move_to_semester m target p) = true →
  PensumService.valid
    (PensumService.validate_pensum_structure set_iter
       (Pensum.mk (PensumService.update_first (Py.upper code)
                     (PensumService.apply_patch (semester_patch target))
                     (Pensum.materias p)) name tc)) = true.
Proof.
  intros Horder Hnorm Hget Hvalid Hmove.
  apply (validate_spec set_iter p Horder) in Hvalid as (Hrefs & Hsem & Hacyc).
  apply can_move_spec in Hmove as (Hpre & Hdep & _).
  pose proof (get_materia_Some _ _ _ Hget) as [Hm Hcode].
  set (f := PensumService.apply_patch (semester_patch target)).
  set (k := Py.upper code) in *.
  set (q := Pensum.mk _ name tc).
  assert (f_code : ∀ x, Materia.code (f x) = Materia.code x) by done.
  assert (Hfind : List.find (λ x, bool_decide (Materia.code x = k)) (Pensum.materias p)
                  = Some m) by exact Hget.
  assert (Hcodes : codes q = codes p).
  { unfold codes, q. cbn [Pensum.materias]. f_equal.
    generalize (Pensum.materias p). intros ms. induction ms as [|x ms IH]; [done|].
    cbn [PensumService.update_first]. destruct (bool_decide _).
    - by rewrite !fmap_cons, f_code.
    - by rewrite !fmap_cons, IH. }
  assert (Hq : ∀ o, o ∈ Pensum.materias q → o ∈ Pensum.materias p ∨ o = f m).
  { intros o Ho. apply elem_of_update_first in Ho as [?|(m0 & Hm0 & ->)]; [by left|].
    right. congruence. }
  assert (Hlook : ∀ c, Pensum.get_materia q c
                       = if decide (Py.upper c = k) then Some (f m)
                         else Pensum.get_materia p c).
  { intros c. unfold Pensum.get_materia, q. cbn [Pensum.materias].
    rewrite (find_update_first k f f_code). destruct (decide _); [|done].
    by rewrite Hfind. }
  assert (Hup : ∀ c, c ∈ codes p → Py.upper c = c).
  { intros c (x & -> & Hx)%elem_of_list_to_set%list_elem_of_fmap. by apply Hnorm. }
  apply (validate_spec set_iter q Horder). split; [|split].
  - intros o c Ho Hc. rewrite Hcodes. destruct (Hq o Ho) as [Hp| ->].
    + by apply (Hrefs o).
    + by apply (Hrefs m).
  - intros o c x Ho Hc. rewrite Hlook. destruct (decide (Py.upper c = k)) as [Hck|Hck].
    + intros [= <-]. cbn [f PensumService.apply_patch semester_patch PensumService.u_semester
        Materia.semester default from_option id].
      assert (Hcm : Pensum.get_materia p c = Some m).
      { unfold Pensum.get_materia. by rewrite Hck. }
      destruct (Hq o Ho) as [Hp| ->].
      * apply (Hdep o Hp).
        assert (Hcc : c ∈ codes p) by (apply (Hrefs o c Hp), elem_of_app; by left).
        apply Hup in Hcc. by rewrite Hcode, <- Hck, Hcc.
      * cbn [f PensumService.apply_patch Materia.prerequisites semester_patch
             PensumService.u_prerequisites default from_option id] in Hc.
        specialize (Hsem m c m Hm Hc Hcm). lia.
    + intros Hx. destruct (Hq o Ho) as [Hp| ->].
      * by apply (Hsem o c x).
      * cbn [f PensumService.apply_patch Materia.prerequisites semester_patch
             PensumService.u_prerequisites PensumService.u_semester Materia.semester
             default from_option id] in Hc |- *.
        by apply (Hpre c x).
  - intros [v Hv]. apply Hacyc. exists v. revert Hv. apply tc_impl.
    intros a b. apply requires_Forall2. unfold q. cbn [Pensum.materias].
    eapply Forall2_flip, Forall2_impl; [apply (update_first_Forall2 k f)|].
    intros x y [-> | ->]; done.
Qed.

(** X29.  [can_move_to_semester] allows a move exactly when every
    prerequisite that [get_materia] finds is in a semester before the
    target, every course that lists the code as a prerequisite is in a
    later semester, and every course that lists it as a corequisite is not
    in an earlier one.  In a valid catalog with upper-case codes, an
    allowed move of a course of the catalog is accepted by
    [update_materia]: the course gets the target semester and the catalog
    is still valid. *)
Theorem X29_allowed_move_is_accepted set_iter code p m target :
  Pensum.get_materia p code = Some m →
  (PensumService.can_move (PensumService.can_move_to_semester m target p) = true ↔
   (∀ c x, c ∈ Materia.prerequisites m → Pensum.get_materia p c = Some x →
           (Materia.semester x < target)%Z) ∧
   (∀ o, o ∈ Pensum.materias p → Materia.code m ∈ Materia.prerequisites o →
         (target < Materia.semester o)%Z) ∧
   (∀ o, o ∈ Pensum.materias p → Materia.code m ∈ Materia.corequisites o →
         (target ≤ Materia.semester o)%Z)) ∧
  (set_order set_iter → normalized p →
   PensumService.valid (PensumService.validate_pensum_structure set_iter p) = true →
   PensumService.can_move (PensumService.can_move_to_semester m target p) = true →
   ∃ p', PensumService.update_materia set_iter code (semester_patch target) p
         = (PensumService.UpdateSuccess
              (PensumService.apply_patch (semester_patch target) m), p') ∧
         Materia.semester (PensumService.apply_patch (semester_patch target) m) = target ∧
         Pensum.get_materia p' code
         = Some (PensumService.apply_patch (semester_patch target) m) ∧
         Materia.code <$> Pensum.materias p' = Materia.code <$> Pensum.materias p ∧
         PensumService.valid (PensumService.validate_pensum_structure set_iter p') = true).
Proof.
  intros Hget. split; [apply can_move_spec|].
  intros Horder Hnorm Hvalid Hmove.
  unfold PensumService.update_materia. rewrite Hget.
  cbn [Pensum.materias Pensum.name Pensum.total_credits].
  rewrite (move_keeps_valid set_iter code p m target _ _ Horder Hnorm Hget Hvalid Hmove).
  cbn [negb]. eexists. split; [done|]. split; [done|]. split; [|split].
  - unfold Pensum.get_materia. cbn [Pensum.materias].
    rewrite (find_update_first (Py.upper code)
               (PensumService.apply_patch (semester_patch target)) (λ _, eq_refl)),
            decide_True by done.
    unfold Pensum.get_materia in Hget. by rewrite Hget.
  - cbn [Pensum.materias]. generalize (Pensum.materias p). intros ms.
    induction ms as [|x ms IH]; [done|].
    cbn [PensumService.update_first]. destruct (bool_decide _).
    + by rewrite !fmap_cons.
    + by rewrite !fmap_cons, IH.
  - by apply (move_keeps_valid set_iter code p m target).
Qed.

Lemma X29_witness :
  ∃ p', PensumService.update_materia elements "calc2" (semester_patch 4) MoveSamples.three
        = (PensumService.UpdateSuccess
             (PensumService.apply_patch (semester_patch 4) CreateSamples.calc2_course), p') ∧
        Materia.semester
          (PensumService.apply_patch (semester_patch 4) CreateSamples.calc2_course) = 4%Z ∧
        Pensum.get_materia p' "calc2"
        = Some (PensumService.apply_patch (semester_patch 4) CreateSamples.calc2_course) ∧
        Materia.code <$> Pensum.materias p' = Materia.code <$> Pensum.materias MoveSamples.three ∧
        PensumService.valid (PensumService.validate_pensum_structure elements p') = true.
Proof.
  apply (proj2 (X29_allowed_move_is_accepted elements "calc2" MoveSamples.three
                  CreateSamples.calc2_course 4 eq_refl)).
  - exact elements_set_order.
  - intros m Hm. cbn in Hm.
    repeat (apply elem_of_cons in Hm as [->|Hm]; [reflexivity|]).
    by apply elem_of_nil in Hm.
  - vm_compute. reflexivity.
  - vm_compute. reflexivity.
Defined.
